(** * SUBs: the rail-network simulation worker

    A shallow embedding of [src/app/src/lib/sim/worker.ts], the most complete
    variant of the simulation engine, together with the properties its
    specification states about it.  The economics step of the older
    [src/simulation.worker.ts] is embedded as well (module [Legacy]) where the
    two variants are compared.

    Modelling conventions.
    - A JavaScript [number] that holds a measure (metres, seconds, money) is an
      exact rational [Q]; rounding of IEEE doubles is not modelled.  Counters
      and identifiers that only ever hold integers are [Z].
    - [Infinity] appears only as the initial value of a running minimum and is
      modelled by [None].
    - The transcendental functions of [Math], the number formatter and the
      stream of values returned by [Math.random()] are parameters ([MathLib]).
    - The module-level variables of the worker form one record, [State]; every
      function of the worker that reads or writes them takes and returns it.
    - A [TypeError] raised by dereferencing [undefined] is modelled by [None]. *)

From Stdlib Require Import List String Ascii Bool Arith ZArith NArith QArith Qround Qabs Lia Lqa.
From Stdlib Require Import DecimalString DecimalZ DecimalPos.
From Stdlib Require Import Sorted.
Import ListNotations.

Set Implicit Arguments.
Local Open Scope Q_scope.

(* ===================================================================== *)
(** * JavaScript numbers *)
(* ===================================================================== *)

Definition Qlt_bool (x y : Q) : bool := negb (Qle_bool y x).

(** [Math.min], [Math.max], [Math.abs], [Math.floor], [Math.round]. *)
Definition Math_min (x y : Q) : Q := if Qle_bool x y then x else y.
Definition Math_max (x y : Q) : Q := if Qle_bool x y then y else x.
Definition Math_abs (x : Q) : Q := if Qle_bool 0 x then x else - x.
Definition Math_floor (x : Q) : Z := Qfloor x.
Definition Math_round (x : Q) : Z := Qfloor (x + (1 # 2)).

(** An array read [a[i]] with a numeric index: [undefined] out of range. *)
Definition arrayGet {A : Type} (a : list A) (i : Z) : option A :=
  if (i <? 0)%Z then None else nth_error a (Z.to_nat i).

(** [a.findIndex(p)]: the first index whose element satisfies [p], or -1. *)
Fixpoint findIndexFrom {A : Type} (p : A -> bool) (a : list A) (i : Z) : Z :=
  match a with
  | [] => (-1)%Z
  | x :: a' => if p x then i else findIndexFrom p a' (i + 1)%Z
  end.
Definition findIndex {A : Type} (p : A -> bool) (a : list A) : Z := findIndexFrom p a 0%Z.

(** [a.slice(start, end)] for indices inside the array. *)
Definition slice {A : Type} (a : list A) (start stop : Z) : list A :=
  firstn (Z.to_nat stop - Z.to_nat start) (skipn (Z.to_nat start) a).

(** [a.sort((x, y) => key x - key y)]: a stable sort, ascending in [key]. *)
Fixpoint insertSorted {A : Type} (key : A -> Q) (x : A) (a : list A) : list A :=
  match a with
  | [] => [x]
  | y :: a' => if Qle_bool (key x) (key y) then x :: y :: a' else y :: insertSorted key x a'
  end.
Definition sortBy {A : Type} (key : A -> Q) (a : list A) : list A :=
  fold_right (insertSorted key) [] a.

(* ===================================================================== *)
(** * Identifiers and object tables *)
(* ===================================================================== *)

(** [number | string] identifiers; [===] on them is [Id_eqb]. *)
Inductive Id : Type :=
| IdNum (n : Z)
| IdStr (s : string).

Definition Id_eqb (a b : Id) : bool :=
  match a, b with
  | IdNum n, IdNum m => (n =? m)%Z
  | IdStr s, IdStr t => String.eqb s t
  | _, _ => false
  end.

(** [String(n)] for an integer. *)
Definition String_ofZ (n : Z) : string := NilZero.string_of_int (Z.to_int n).

(** The property key an identifier is coerced to when it indexes an object. *)
Definition keyOf (i : Id) : string :=
  match i with
  | IdNum n => String_ofZ n
  | IdStr s => s
  end.

(** A [Set<number | string>]: insertion ordered, without repetition. *)
Definition setHas (x : Id) (s : list Id) : bool := existsb (Id_eqb x) s.
Definition setAdd (x : Id) (s : list Id) : list Id := if setHas x s then s else s ++ [x].

(** A plain object used as a map.  Its entries are kept in the order in which
    [Object.keys] and [Object.values] enumerate them: array-index keys first,
    ascending, then the other keys in insertion order. *)
Definition Table (V : Type) : Type := list (string * V).

Definition digitOf (c : ascii) : option N :=
  let n := N_of_ascii c in
  if ((48 <=? n) && (n <=? 57))%N then Some (n - 48)%N else None.

Fixpoint parseDigits (s : string) (acc : N) : option N :=
  match s with
  | EmptyString => Some acc
  | String c s' =>
      match digitOf c with
      | Some d => parseDigits s' (10 * acc + d)%N
      | None => None
      end
  end.

(** The array index a key denotes, if it is the canonical decimal form of an
    integer below 2^32 - 1. *)
Definition arrayIndexOf (k : string) : option N :=
  match k with
  | EmptyString => None
  | String c EmptyString => digitOf c
  | String c _ =>
      if Ascii.eqb c "0"%char then None
      else match parseDigits k 0%N with
           | Some n => if (n <? 4294967295)%N then Some n else None
           | None => None
           end
  end.

(** Does a new key [k] enumerate before the existing key [k']? *)
Definition keyBefore (k k' : string) : bool :=
  match arrayIndexOf k, arrayIndexOf k' with
  | Some n, Some n' => (n <? n')%N
  | Some _, None => true
  | None, _ => false
  end.

Section TableOps.
Variable V : Type.

Fixpoint tget (k : string) (t : Table V) : option V :=
  match t with
  | [] => None
  | (k', v) :: t' => if String.eqb k k' then Some v else tget k t'
  end.

Definition thas (k : string) (t : Table V) : bool :=
  match tget k t with Some _ => true | None => false end.

Fixpoint treplace (k : string) (v : V) (t : Table V) : Table V :=
  match t with
  | [] => []
  | (k', v') :: t' => if String.eqb k k' then (k', v) :: t' else (k', v') :: treplace k v t'
  end.

Fixpoint tplace (k : string) (v : V) (t : Table V) : Table V :=
  match t with
  | [] => [(k, v)]
  | (k', v') :: t' => if keyBefore k k' then (k, v) :: (k', v') :: t' else (k', v') :: tplace k v t'
  end.

(** [t[k] = v]. *)
Definition tset (k : string) (v : V) (t : Table V) : Table V :=
  if thas k t then treplace k v t else tplace k v t.

(** [delete t[k]]. *)
Definition tdelete (k : string) (t : Table V) : Table V :=
  filter (fun e => negb (String.eqb k (fst e))) t.

(** [Object.keys(t)] and [Object.values(t)]. *)
Definition tkeys (t : Table V) : list string := map fst t.
Definition tvalues (t : Table V) : list V := map snd t.
End TableOps.

(* ===================================================================== *)
(** * Data model *)
(* ===================================================================== *)

(** A GeoJSON position [[lng, lat]]. *)
Definition Coord : Type := (Q * Q)%type.

(** [Feature<Point>]; of the property bag, the keys the worker reads. *)
Record PointFeature : Type := mkPointFeature {
  point_coordinates : Coord;
  point_properties_id : option Id;
  point_properties_name : option string;
  point_properties_demand : option Q;
  point_id : option Id
}.

(** [Feature<LineString>]; a missing coordinate array is the empty list. *)
Record LineFeature : Type := mkLineFeature {
  line_coordinates : list Coord;
  line_properties_id : option Id;
  line_id : option Id
}.

Module StationDist.
Record t : Type := mk { id : Id; distance : Q }.
End StationDist.

Module SimStation.
Record t : Type := mk { id : Id; coords : Coord; name : string; lines : list Id }.
Definition addLine (l : Id) (s : t) : t := mk (id s) (coords s) (name s) (setAdd l (lines s)).
End SimStation.

Module SimLine.
Record t : Type := mk {
  id : Id;
  coords : list Coord;
  length : Q;
  stationDistances : list StationDist.t;
  headway : Q
}.
End SimLine.

Module RouteLeg.
Record t : Type := mk {
  lineId : Id;
  fromStationId : Id;
  toStationId : Id;
  rideTime : Q;
  coords : list Coord
}.
End RouteLeg.

Module Route.
Record t : Type := mk { legs : list RouteLeg.t; totalTime : Q; waitTime : Q; rideTime : Q }.
End Route.

Module Passenger.
Record t : Type := mk {
  id : Z;
  originStationId : Id;
  destinationStationId : Id;
  route : option Route.t;
  currentLegIndex : nat;
  spawnTime : Q
}.
Definition set_route (r : option Route.t) (p : t) : t :=
  mk (id p) (originStationId p) (destinationStationId p) r (currentLegIndex p) (spawnTime p).
Definition set_currentLegIndex (i : nat) (p : t) : t :=
  mk (id p) (originStationId p) (destinationStationId p) (route p) i (spawnTime p).
End Passenger.

Inductive Direction : Type := Forward | Backward.

(** The numeric value [1] or [-1] of a direction. *)
Definition directionSign (d : Direction) : Q :=
  match d with Forward => 1 | Backward => -(1) end.

Inductive TrainState : Type := moving | dwelling.

Module Train.
Record t : Type := mk {
  id : Z;
  lineId : Id;
  distanceAlongLine : Q;
  speed : Q;
  direction : Direction;
  state : TrainState;
  dwellTimeRemaining : Q;
  currentStationIndex : Z;
  passengers : list Passenger.t;
  capacity : Z
}.
Definition set_distanceAlongLine (v : Q) (x : t) : t :=
  mk (id x) (lineId x) v (speed x) (direction x) (state x) (dwellTimeRemaining x)
     (currentStationIndex x) (passengers x) (capacity x).
Definition set_speed (v : Q) (x : t) : t :=
  mk (id x) (lineId x) (distanceAlongLine x) v (direction x) (state x) (dwellTimeRemaining x)
     (currentStationIndex x) (passengers x) (capacity x).
Definition set_direction (v : Direction) (x : t) : t :=
  mk (id x) (lineId x) (distanceAlongLine x) (speed x) v (state x) (dwellTimeRemaining x)
     (currentStationIndex x) (passengers x) (capacity x).
Definition set_state (v : TrainState) (x : t) : t :=
  mk (id x) (lineId x) (distanceAlongLine x) (speed x) (direction x) v (dwellTimeRemaining x)
     (currentStationIndex x) (passengers x) (capacity x).
Definition set_dwellTimeRemaining (v : Q) (x : t) : t :=
  mk (id x) (lineId x) (distanceAlongLine x) (speed x) (direction x) (state x) v
     (currentStationIndex x) (passengers x) (capacity x).
Definition set_currentStationIndex (v : Z) (x : t) : t :=
  mk (id x) (lineId x) (distanceAlongLine x) (speed x) (direction x) (state x)
     (dwellTimeRemaining x) v (passengers x) (capacity x).
Definition set_passengers (v : list Passenger.t) (x : t) : t :=
  mk (id x) (lineId x) (distanceAlongLine x) (speed x) (direction x) (state x)
     (dwellTimeRemaining x) (currentStationIndex x) v (capacity x).
End Train.

Inductive IncidentType : Type := speed_cap | extra_dwell.

Module Incident.
Record t : Type := mk {
  id : Z;
  type : IncidentType;
  message : string;
  targetId : Id;
  expiresAt : Q;
  value : Q
}.
End Incident.

(** ** Messages posted to the host *)

Record TrainFeature : Type := mkTrainFeature {
  feature_coordinates : Coord;
  feature_id : Z;
  feature_loadFactor : Q
}.

Record TickPayload : Type := mkTickPayload {
  tick_trains : list TrainFeature;
  tick_simTime : Q;
  tick_stationQueues : Table Z;
  tick_totalRidership : Z;
  tick_budget : Q;
  tick_cashflowPerHour : Q;
  tick_avgWaitTime : Q;
  tick_dailyStationRidership : Table Z;
  tick_dailyLineRidership : Table Z
}.

Record NearbyStation : Type := mkNearbyStation {
  nearby_id : Id;
  nearby_name : string;
  nearby_distance : Q;
  nearby_walkTime : Q
}.

Inductive Event : Type :=
| WORKER_READY
| NETWORK_READY
| INCIDENT_EVENT (incident : Incident.t) (active : bool)
| TICK (payload : TickPayload)
| JOURNEY_PLAN_RESULT (route : option Route.t) (walkToStationTime walkFromStationTime : Q)
| DEMAND_GRID_DATA (grid : list PointFeature)
| DEMAND_DETAILS_RESULT (coords : Coord) (nearbyStations : list NearbyStation)
                        (hourlyDistribution : list Q).

(** ** The worker's module-level variables *)

Set Primitive Projections.
Record State : Type := mkState {
  linesOrigin : list LineFeature;
  stationsOrigin : list PointFeature;
  simTime : Q;
  simulationInterval : option unit;
  running : bool;
  trains : list Train.t;
  simLines : Table SimLine.t;
  simStations : Table SimStation.t;
  stationQueues : Table (list Passenger.t);
  allPassengers : Table unit;
  nextTrainId : Z;
  nextPassengerId : Z;
  nextIncidentId : Z;
  totalRidership : Z;
  budget : Q;
  cashflowPerHour : Q;
  totalPassengerWaitTime : Q;
  completedTrips : Z;
  dailyStationRidership : Table Z;
  dailyLineRidership : Table Z;
  lastDayRollover : Q;
  totalTrainKm : Q;
  lastIncidentKm : Q;
  totalRevenue : Q;
  totalOpex : Q;
  activeIncidents : Table Incident.t;
  DEMAND_GRID : option (list PointFeature);
  TOTAL_DEMAND : Q;
  outbox : list Event;
  randomCalls : nat
}.
Unset Primitive Projections.

(** Assignments to the module-level variables. *)
Definition set_linesOrigin (v : list LineFeature) (s : State) : State :=
  let '(mkState _ x1 x2 x3 x4 x5 x6 x7 x8 x9 x10 x11 x12 x13 x14 x15 x16 x17 x18 x19 x20 x21 x22 x23 x24 x25 x26 x27 x28 x29) := s in
  mkState v x1 x2 x3 x4 x5 x6 x7 x8 x9 x10 x11 x12 x13 x14 x15 x16 x17 x18 x19 x20 x21 x22 x23 x24 x25 x26 x27 x28 x29.
Definition set_stationsOrigin (v : list PointFeature) (s : State) : State :=
  let '(mkState x0 _ x2 x3 x4 x5 x6 x7 x8 x9 x10 x11 x12 x13 x14 x15 x16 x17 x18 x19 x20 x21 x22 x23 x24 x25 x26 x27 x28 x29) := s in
  mkState x0 v x2 x3 x4 x5 x6 x7 x8 x9 x10 x11 x12 x13 x14 x15 x16 x17 x18 x19 x20 x21 x22 x23 x24 x25 x26 x27 x28 x29.
Definition set_simTime (v : Q) (s : State) : State :=
  let '(mkState x0 x1 _ x3 x4 x5 x6 x7 x8 x9 x10 x11 x12 x13 x14 x15 x16 x17 x18 x19 x20 x21 x22 x23 x24 x25 x26 x27 x28 x29) := s in
  mkState x0 x1 v x3 x4 x5 x6 x7 x8 x9 x10 x11 x12 x13 x14 x15 x16 x17 x18 x19 x20 x21 x22 x23 x24 x25 x26 x27 x28 x29.
Definition set_simulationInterval (v : option unit) (s : State) : State :=
  let '(mkState x0 x1 x2 _ x4 x5 x6 x7 x8 x9 x10 x11 x12 x13 x14 x15 x16 x17 x18 x19 x20 x21 x22 x23 x24 x25 x26 x27 x28 x29) := s in
  mkState x0 x1 x2 v x4 x5 x6 x7 x8 x9 x10 x11 x12 x13 x14 x15 x16 x17 x18 x19 x20 x21 x22 x23 x24 x25 x26 x27 x28 x29.
Definition set_running (v : bool) (s : State) : State :=
  let '(mkState x0 x1 x2 x3 _ x5 x6 x7 x8 x9 x10 x11 x12 x13 x14 x15 x16 x17 x18 x19 x20 x21 x22 x23 x24 x25 x26 x27 x28 x29) := s in
  mkState x0 x1 x2 x3 v x5 x6 x7 x8 x9 x10 x11 x12 x13 x14 x15 x16 x17 x18 x19 x20 x21 x22 x23 x24 x25 x26 x27 x28 x29.
Definition set_trains (v : list Train.t) (s : State) : State :=
  let '(mkState x0 x1 x2 x3 x4 _ x6 x7 x8 x9 x10 x11 x12 x13 x14 x15 x16 x17 x18 x19 x20 x21 x22 x23 x24 x25 x26 x27 x28 x29) := s in
  mkState x0 x1 x2 x3 x4 v x6 x7 x8 x9 x10 x11 x12 x13 x14 x15 x16 x17 x18 x19 x20 x21 x22 x23 x24 x25 x26 x27 x28 x29.
Definition set_simLines (v : Table SimLine.t) (s : State) : State :=
  let '(mkState x0 x1 x2 x3 x4 x5 _ x7 x8 x9 x10 x11 x12 x13 x14 x15 x16 x17 x18 x19 x20 x21 x22 x23 x24 x25 x26 x27 x28 x29) := s in
  mkState x0 x1 x2 x3 x4 x5 v x7 x8 x9 x10 x11 x12 x13 x14 x15 x16 x17 x18 x19 x20 x21 x22 x23 x24 x25 x26 x27 x28 x29.
Definition set_simStations (v : Table SimStation.t) (s : State) : State :=
  let '(mkState x0 x1 x2 x3 x4 x5 x6 _ x8 x9 x10 x11 x12 x13 x14 x15 x16 x17 x18 x19 x20 x21 x22 x23 x24 x25 x26 x27 x28 x29) := s in
  mkState x0 x1 x2 x3 x4 x5 x6 v x8 x9 x10 x11 x12 x13 x14 x15 x16 x17 x18 x19 x20 x21 x22 x23 x24 x25 x26 x27 x28 x29.
Definition set_stationQueues (v : Table (list Passenger.t)) (s : State) : State :=
  let '(mkState x0 x1 x2 x3 x4 x5 x6 x7 _ x9 x10 x11 x12 x13 x14 x15 x16 x17 x18 x19 x20 x21 x22 x23 x24 x25 x26 x27 x28 x29) := s in
  mkState x0 x1 x2 x3 x4 x5 x6 x7 v x9 x10 x11 x12 x13 x14 x15 x16 x17 x18 x19 x20 x21 x22 x23 x24 x25 x26 x27 x28 x29.
Definition set_allPassengers (v : Table unit) (s : State) : State :=
  let '(mkState x0 x1 x2 x3 x4 x5 x6 x7 x8 _ x10 x11 x12 x13 x14 x15 x16 x17 x18 x19 x20 x21 x22 x23 x24 x25 x26 x27 x28 x29) := s in
  mkState x0 x1 x2 x3 x4 x5 x6 x7 x8 v x10 x11 x12 x13 x14 x15 x16 x17 x18 x19 x20 x21 x22 x23 x24 x25 x26 x27 x28 x29.
Definition set_nextTrainId (v : Z) (s : State) : State :=
  let '(mkState x0 x1 x2 x3 x4 x5 x6 x7 x8 x9 _ x11 x12 x13 x14 x15 x16 x17 x18 x19 x20 x21 x22 x23 x24 x25 x26 x27 x28 x29) := s in
  mkState x0 x1 x2 x3 x4 x5 x6 x7 x8 x9 v x11 x12 x13 x14 x15 x16 x17 x18 x19 x20 x21 x22 x23 x24 x25 x26 x27 x28 x29.
Definition set_nextPassengerId (v : Z) (s : State) : State :=
  let '(mkState x0 x1 x2 x3 x4 x5 x6 x7 x8 x9 x10 _ x12 x13 x14 x15 x16 x17 x18 x19 x20 x21 x22 x23 x24 x25 x26 x27 x28 x29) := s in
  mkState x0 x1 x2 x3 x4 x5 x6 x7 x8 x9 x10 v x12 x13 x14 x15 x16 x17 x18 x19 x20 x21 x22 x23 x24 x25 x26 x27 x28 x29.
Definition set_nextIncidentId (v : Z) (s : State) : State :=
  let '(mkState x0 x1 x2 x3 x4 x5 x6 x7 x8 x9 x10 x11 _ x13 x14 x15 x16 x17 x18 x19 x20 x21 x22 x23 x24 x25 x26 x27 x28 x29) := s in
  mkState x0 x1 x2 x3 x4 x5 x6 x7 x8 x9 x10 x11 v x13 x14 x15 x16 x17 x18 x19 x20 x21 x22 x23 x24 x25 x26 x27 x28 x29.
Definition set_totalRidership (v : Z) (s : State) : State :=
  let '(mkState x0 x1 x2 x3 x4 x5 x6 x7 x8 x9 x10 x11 x12 _ x14 x15 x16 x17 x18 x19 x20 x21 x22 x23 x24 x25 x26 x27 x28 x29) := s in
  mkState x0 x1 x2 x3 x4 x5 x6 x7 x8 x9 x10 x11 x12 v x14 x15 x16 x17 x18 x19 x20 x21 x22 x23 x24 x25 x26 x27 x28 x29.
Definition set_budget (v : Q) (s : State) : State :=
  let '(mkState x0 x1 x2 x3 x4 x5 x6 x7 x8 x9 x10 x11 x12 x13 _ x15 x16 x17 x18 x19 x20 x21 x22 x23 x24 x25 x26 x27 x28 x29) := s in
  mkState x0 x1 x2 x3 x4 x5 x6 x7 x8 x9 x10 x11 x12 x13 v x15 x16 x17 x18 x19 x20 x21 x22 x23 x24 x25 x26 x27 x28 x29.
Definition set_cashflowPerHour (v : Q) (s : State) : State :=
  let '(mkState x0 x1 x2 x3 x4 x5 x6 x7 x8 x9 x10 x11 x12 x13 x14 _ x16 x17 x18 x19 x20 x21 x22 x23 x24 x25 x26 x27 x28 x29) := s in
  mkState x0 x1 x2 x3 x4 x5 x6 x7 x8 x9 x10 x11 x12 x13 x14 v x16 x17 x18 x19 x20 x21 x22 x23 x24 x25 x26 x27 x28 x29.
Definition set_totalPassengerWaitTime (v : Q) (s : State) : State :=
  let '(mkState x0 x1 x2 x3 x4 x5 x6 x7 x8 x9 x10 x11 x12 x13 x14 x15 _ x17 x18 x19 x20 x21 x22 x23 x24 x25 x26 x27 x28 x29) := s in
  mkState x0 x1 x2 x3 x4 x5 x6 x7 x8 x9 x10 x11 x12 x13 x14 x15 v x17 x18 x19 x20 x21 x22 x23 x24 x25 x26 x27 x28 x29.
Definition set_completedTrips (v : Z) (s : State) : State :=
  let '(mkState x0 x1 x2 x3 x4 x5 x6 x7 x8 x9 x10 x11 x12 x13 x14 x15 x16 _ x18 x19 x20 x21 x22 x23 x24 x25 x26 x27 x28 x29) := s in
  mkState x0 x1 x2 x3 x4 x5 x6 x7 x8 x9 x10 x11 x12 x13 x14 x15 x16 v x18 x19 x20 x21 x22 x23 x24 x25 x26 x27 x28 x29.
Definition set_dailyStationRidership (v : Table Z) (s : State) : State :=
  let '(mkState x0 x1 x2 x3 x4 x5 x6 x7 x8 x9 x10 x11 x12 x13 x14 x15 x16 x17 _ x19 x20 x21 x22 x23 x24 x25 x26 x27 x28 x29) := s in
  mkState x0 x1 x2 x3 x4 x5 x6 x7 x8 x9 x10 x11 x12 x13 x14 x15 x16 x17 v x19 x20 x21 x22 x23 x24 x25 x26 x27 x28 x29.
Definition set_dailyLineRidership (v : Table Z) (s : State) : State :=
  let '(mkState x0 x1 x2 x3 x4 x5 x6 x7 x8 x9 x10 x11 x12 x13 x14 x15 x16 x17 x18 _ x20 x21 x22 x23 x24 x25 x26 x27 x28 x29) := s in
  mkState x0 x1 x2 x3 x4 x5 x6 x7 x8 x9 x10 x11 x12 x13 x14 x15 x16 x17 x18 v x20 x21 x22 x23 x24 x25 x26 x27 x28 x29.
Definition set_lastDayRollover (v : Q) (s : State) : State :=
  let '(mkState x0 x1 x2 x3 x4 x5 x6 x7 x8 x9 x10 x11 x12 x13 x14 x15 x16 x17 x18 x19 _ x21 x22 x23 x24 x25 x26 x27 x28 x29) := s in
  mkState x0 x1 x2 x3 x4 x5 x6 x7 x8 x9 x10 x11 x12 x13 x14 x15 x16 x17 x18 x19 v x21 x22 x23 x24 x25 x26 x27 x28 x29.
Definition set_totalTrainKm (v : Q) (s : State) : State :=
  let '(mkState x0 x1 x2 x3 x4 x5 x6 x7 x8 x9 x10 x11 x12 x13 x14 x15 x16 x17 x18 x19 x20 _ x22 x23 x24 x25 x26 x27 x28 x29) := s in
  mkState x0 x1 x2 x3 x4 x5 x6 x7 x8 x9 x10 x11 x12 x13 x14 x15 x16 x17 x18 x19 x20 v x22 x23 x24 x25 x26 x27 x28 x29.
Definition set_lastIncidentKm (v : Q) (s : State) : State :=
  let '(mkState x0 x1 x2 x3 x4 x5 x6 x7 x8 x9 x10 x11 x12 x13 x14 x15 x16 x17 x18 x19 x20 x21 _ x23 x24 x25 x26 x27 x28 x29) := s in
  mkState x0 x1 x2 x3 x4 x5 x6 x7 x8 x9 x10 x11 x12 x13 x14 x15 x16 x17 x18 x19 x20 x21 v x23 x24 x25 x26 x27 x28 x29.
Definition set_totalRevenue (v : Q) (s : State) : State :=
  let '(mkState x0 x1 x2 x3 x4 x5 x6 x7 x8 x9 x10 x11 x12 x13 x14 x15 x16 x17 x18 x19 x20 x21 x22 _ x24 x25 x26 x27 x28 x29) := s in
  mkState x0 x1 x2 x3 x4 x5 x6 x7 x8 x9 x10 x11 x12 x13 x14 x15 x16 x17 x18 x19 x20 x21 x22 v x24 x25 x26 x27 x28 x29.
Definition set_totalOpex (v : Q) (s : State) : State :=
  let '(mkState x0 x1 x2 x3 x4 x5 x6 x7 x8 x9 x10 x11 x12 x13 x14 x15 x16 x17 x18 x19 x20 x21 x22 x23 _ x25 x26 x27 x28 x29) := s in
  mkState x0 x1 x2 x3 x4 x5 x6 x7 x8 x9 x10 x11 x12 x13 x14 x15 x16 x17 x18 x19 x20 x21 x22 x23 v x25 x26 x27 x28 x29.
Definition set_activeIncidents (v : Table Incident.t) (s : State) : State :=
  let '(mkState x0 x1 x2 x3 x4 x5 x6 x7 x8 x9 x10 x11 x12 x13 x14 x15 x16 x17 x18 x19 x20 x21 x22 x23 x24 _ x26 x27 x28 x29) := s in
  mkState x0 x1 x2 x3 x4 x5 x6 x7 x8 x9 x10 x11 x12 x13 x14 x15 x16 x17 x18 x19 x20 x21 x22 x23 x24 v x26 x27 x28 x29.
Definition set_DEMAND_GRID (v : option (list PointFeature)) (s : State) : State :=
  let '(mkState x0 x1 x2 x3 x4 x5 x6 x7 x8 x9 x10 x11 x12 x13 x14 x15 x16 x17 x18 x19 x20 x21 x22 x23 x24 x25 _ x27 x28 x29) := s in
  mkState x0 x1 x2 x3 x4 x5 x6 x7 x8 x9 x10 x11 x12 x13 x14 x15 x16 x17 x18 x19 x20 x21 x22 x23 x24 x25 v x27 x28 x29.
Definition set_TOTAL_DEMAND (v : Q) (s : State) : State :=
  let '(mkState x0 x1 x2 x3 x4 x5 x6 x7 x8 x9 x10 x11 x12 x13 x14 x15 x16 x17 x18 x19 x20 x21 x22 x23 x24 x25 x26 _ x28 x29) := s in
  mkState x0 x1 x2 x3 x4 x5 x6 x7 x8 x9 x10 x11 x12 x13 x14 x15 x16 x17 x18 x19 x20 x21 x22 x23 x24 x25 x26 v x28 x29.
Definition set_outbox (v : list Event) (s : State) : State :=
  let '(mkState x0 x1 x2 x3 x4 x5 x6 x7 x8 x9 x10 x11 x12 x13 x14 x15 x16 x17 x18 x19 x20 x21 x22 x23 x24 x25 x26 x27 _ x29) := s in
  mkState x0 x1 x2 x3 x4 x5 x6 x7 x8 x9 x10 x11 x12 x13 x14 x15 x16 x17 x18 x19 x20 x21 x22 x23 x24 x25 x26 x27 v x29.
Definition set_randomCalls (v : nat) (s : State) : State :=
  let '(mkState x0 x1 x2 x3 x4 x5 x6 x7 x8 x9 x10 x11 x12 x13 x14 x15 x16 x17 x18 x19 x20 x21 x22 x23 x24 x25 x26 x27 x28 _) := s in
  mkState x0 x1 x2 x3 x4 x5 x6 x7 x8 x9 x10 x11 x12 x13 x14 x15 x16 x17 x18 x19 x20 x21 x22 x23 x24 x25 x26 x27 x28 v.

(** [postMessage(type, payload)]: the messages posted so far, oldest first. *)
Definition postMessage (e : Event) (s : State) : State := set_outbox (outbox s ++ [e]) s.

(* ===================================================================== *)
(** * Constants *)
(* ===================================================================== *)

Definition SIM_TICK_MS : Q := 100.
Definition TIME_MULTIPLIER : Q := 120.
Definition TICK_SECONDS : Q := (SIM_TICK_MS / 1000) * TIME_MULTIPLIER.

Definition TRAIN_ACCELERATION : Q := 8 # 10.
Definition MAX_TRAIN_SPEED : Q := 2222 # 100.
Definition BASE_DWELL_TIME : Q := 20.
Definition TRAIN_CAPACITY : Z := 200.
Definition TRAINS_PER_LINE : nat := 4.
Definition FARE_PER_KM : Q := 15 # 100.
Definition OPEX_PER_TRAIN_KM : Q := 5.
Definition OPEX_PER_STATION_HOUR : Q := 50.
Definition INCIDENT_RATE_PER_10K_KM : Q := 5 # 10.
Definition WALK_SPEED_MPS : Q := 14 # 10.

Definition HOURLY_MULTIPLIERS : list Q :=
  [1#10; 1#10; 1#10; 1#10; 2#10; 5#10; 8#10; 12#10; 15#10; 12#10; 8#10; 7#10;
   7#10; 6#10; 8#10; 1; 14#10; 16#10; 13#10; 9#10; 6#10; 4#10; 2#10; 1#10].

(** The values the module-level variables are initialised with, after the
    [postMessage('WORKER_READY')] that ends the module body. *)
Definition initialState : State :=
  {| linesOrigin := []; stationsOrigin := [];
     simTime := 0; simulationInterval := None; running := false;
     trains := []; simLines := []; simStations := []; stationQueues := [];
     allPassengers := [];
     nextTrainId := 1; nextPassengerId := 1; nextIncidentId := 1; totalRidership := 0;
     budget := 5000000000; cashflowPerHour := 0; totalPassengerWaitTime := 0;
     completedTrips := 0;
     dailyStationRidership := []; dailyLineRidership := []; lastDayRollover := 0;
     totalTrainKm := 0; lastIncidentKm := 0; totalRevenue := 0; totalOpex := 0;
     activeIncidents := []; DEMAND_GRID := None; TOTAL_DEMAND := 0;
     outbox := [WORKER_READY]; randomCalls := 0 |}.

(* ===================================================================== *)
(** * The parts of the JavaScript runtime the worker relies on *)
(* ===================================================================== *)

Class MathLib : Type := {
  Math_sin : Q -> Q;
  Math_cos : Q -> Q;
  Math_sqrt : Q -> Q;
  Math_atan2 : Q -> Q -> Q;
  Math_PI : Q;
  (** [Math_random n] is the value returned by the [n]-th call of
      [Math.random()] since the worker started. *)
  Math_random : nat -> Q;
  (** [String(x)] for a number. *)
  Number_toString : Q -> string
}.

(** What the geometric invariants need to know about [Math]. *)
Class MathSpec (M : MathLib) : Prop := {
  Math_sqrt_nonneg : forall x, 0 <= Math_sqrt x;
  Math_atan2_nonneg : forall y x, 0 <= y -> 0 <= x -> 0 <= Math_atan2 y x
}.

(** [x % m] on numbers: the remainder has the sign of [x]. *)
Definition Qtrunc (x : Q) : Z := if Qle_bool 0 x then Qfloor x else Qceiling x.
Definition jsRem (x m : Q) : Q := x - m * inject_Z (Qtrunc (x / m)).

Definition sumQ (l : list Q) : Q := fold_left Qplus l 0.

Definition clamp (value min max : Q) : Q := Math_min max (Math_max min value).

(* ===================================================================== *)
(** * The worker *)
(* ===================================================================== *)

Section Worker.
Context {Math : MathLib}.

(** [Math.random()]: the next value of the stream, and the call counted. *)
Definition random (s : State) : Q * State :=
  (Math_random (randomCalls s), set_randomCalls (S (randomCalls s)) s).

Definition turfDistance (from to : Coord) : Q :=
  let R := 6371 in
  let dLat := ((snd to - snd from) * Math_PI) / 180 in
  let dLon := ((fst to - fst from) * Math_PI) / 180 in
  let a :=
    Math_sin (dLat / 2) ^ 2 +
    Math_cos ((snd from * Math_PI) / 180) * Math_cos ((snd to * Math_PI) / 180)
      * Math_sin (dLon / 2) ^ 2 in
  let c := 2 * Math_atan2 (Math_sqrt a) (Math_sqrt (1 - a)) in
  R * c * 1000.

Definition resetSimulation (s : State) : State :=
  set_cashflowPerHour 0
    (set_totalOpex 0
      (set_totalRevenue 0
        (set_completedTrips 0%Z
          (set_totalPassengerWaitTime 0
            (set_totalRidership 0%Z
              (set_nextPassengerId 1%Z
                (set_nextTrainId 1%Z
                  (set_trains []
                    (set_stationQueues []
                      (set_simStations []
                        (set_simLines [] s))))))))))).

Definition addStationToSimulation (s : State) (feature : PointFeature) : State :=
  let id :=
    match point_properties_id feature with
    | Some i => i
    | None =>
        match point_id feature with
        | Some i => i
        | None =>
            IdStr (Number_toString (fst (point_coordinates feature)) ++ ","
                   ++ Number_toString (snd (point_coordinates feature)))
        end
    end in
  let simStation :=
    SimStation.mk id (point_coordinates feature)
      (match point_properties_name feature with
       | Some n => n
       | None => "Station " ++ keyOf id
       end)
      [] in
  set_stationQueues (tset (keyOf id) [] (stationQueues s))
    (set_simStations (tset (keyOf id) simStation (simStations s)) s).

(** The segments [(coords[i], coords[i + 1])] of a polyline, in order. *)
Definition segments (coords : list Coord) : list (Coord * Coord) :=
  combine coords (tl coords).

Definition addSegment (acc : Q) (seg : Coord * Coord) : Q :=
  acc + turfDistance (fst seg) (snd seg).

(** The predicate of [Object.values(simStations).find(...)] in [prepareLines]. *)
Definition nearVertex (coord : Coord) (st : SimStation.t) : bool :=
  Qlt_bool (turfDistance (SimStation.coords st) coord) 50.

(** [station.lines.add(id)] on the station object that [find] returned: the
    first station of the table that satisfies [p]. *)
Fixpoint addLineToFound (p : SimStation.t -> bool) (l : Id) (t : Table SimStation.t)
  : Table SimStation.t :=
  match t with
  | [] => []
  | (k, st) :: t' =>
      if p st then (k, SimStation.addLine l st) :: t'
      else (k, st) :: addLineToFound p l t'
  end.

(** The body of [coords.forEach((coord, index) => ...)] in [prepareLines]:
    [acc] holds [stationDistances] and the station table. *)
Definition matchVertex (id : Id) (coords : list Coord)
           (acc : list StationDist.t * Table SimStation.t) (coord : Coord) (index : nat)
  : list StationDist.t * Table SimStation.t :=
  let (stationDistances, stations) := acc in
  match find (nearVertex coord) (tvalues stations) with
  | Some station =>
      let snapshotDistance := fold_left addSegment (firstn index (segments coords)) 0 in
      (stationDistances ++ [StationDist.mk (SimStation.id station) snapshotDistance],
       addLineToFound (nearVertex coord) id stations)
  | None => acc
  end.

Fixpoint matchVertices (id : Id) (coords : list Coord) (rest : list Coord) (index : nat)
         (acc : list StationDist.t * Table SimStation.t)
  : list StationDist.t * Table SimStation.t :=
  match rest with
  | [] => acc
  | coord :: rest' =>
      matchVertices id coords rest' (S index) (matchVertex id coords acc coord index)
  end.

(** [lineFeature.properties.id ?? lineFeature.id ?? `line-${nextTrainId++}`]. *)
Definition lineIdentity (s : State) (lineFeature : LineFeature) : Id * State :=
  match line_properties_id lineFeature with
  | Some i => (i, s)
  | None =>
      match line_id lineFeature with
      | Some i => (i, s)
      | None =>
          (IdStr ("line-" ++ String_ofZ (nextTrainId s)),
           set_nextTrainId (nextTrainId s + 1)%Z s)
      end
  end.

(** The body of [linesOrigin.forEach(...)] in [prepareLines]. *)
Definition prepareLine (s : State) (lineFeature : LineFeature) : State :=
  let coords := line_coordinates lineFeature in
  if (List.length coords <? 2)%nat then s
  else
    let '(id, s1) := lineIdentity s lineFeature in
    let totalLength := fold_left addSegment (segments coords) 0 in
    let '(stationDistances, stations) :=
      matchVertices id coords coords 0 ([], simStations s1) in
    let s2 := set_simStations stations s1 in
    if (List.length stationDistances <? 2)%nat then s2
    else
      let sorted := sortBy StationDist.distance stationDistances in
      let simLine :=
        SimLine.mk id coords totalLength sorted
          (Math_max 120 ((inject_Z (Z.of_nat (List.length sorted)) - 1) * 90)) in
      set_simLines (tset (keyOf id) simLine (simLines s2)) s2.

Definition prepareLines (s : State) : State :=
  fold_left prepareLine (linesOrigin s) s.

(** The [for] loop of [spawnTrainsForLine], [i] running over [todo]. *)
Definition spawnTrain (line : SimLine.t) (spacing : Q) (s : State) (i : nat) : State :=
  set_nextTrainId (nextTrainId s + 1)%Z
    (set_trains
       (trains s ++
          [Train.mk (nextTrainId s) (SimLine.id line) (spacing * inject_Z (Z.of_nat i)) 0
             Forward moving 0 (-1)%Z [] TRAIN_CAPACITY])
       s).

Definition spawnTrainsForLine (s : State) (line : SimLine.t) : State :=
  if (List.length (SimLine.stationDistances line) <? 2)%nat then s
  else
    let spacing := SimLine.length line / inject_Z (Z.of_nat TRAINS_PER_LINE) in
    fold_left (spawnTrain line spacing) (seq 0 TRAINS_PER_LINE) s.

Definition updateNetwork (lines : list LineFeature) (stations : list PointFeature)
           (s : State) : State :=
  let s := set_linesOrigin lines s in
  let s := set_stationsOrigin stations s in
  let s := resetSimulation s in
  let s := fold_left addStationToSimulation (stationsOrigin s) s in
  let s := prepareLines s in
  let s := fold_left spawnTrainsForLine (tvalues (simLines s)) s in
  postMessage NETWORK_READY s.

Definition startSimulation (s : State) : State :=
  match simulationInterval s with
  | None => set_running true (set_simulationInterval (Some tt) s)
  | Some _ => s
  end.

Definition pauseSimulation (s : State) : State :=
  set_running false
    (match simulationInterval s with
     | Some _ => set_simulationInterval None s
     | None => s
     end).

(** The loop of [getPointAlongLine] over the remaining segments. *)
Fixpoint pointAlongSegments (segs : list (Coord * Coord)) (distance distanceTraveled : Q)
         (last : option Coord) : option Coord :=
  match segs with
  | [] => last
  | (start, stop) :: segs' =>
      let segmentLength := turfDistance start stop in
      if Qle_bool distance (distanceTraveled + segmentLength) then
        let remaining := distance - distanceTraveled in
        let ratio := remaining / segmentLength in
        Some (fst start + (fst stop - fst start) * ratio,
              snd start + (snd stop - snd start) * ratio)
      else pointAlongSegments segs' distance (distanceTraveled + segmentLength) last
  end.

Definition getPointAlongLine (line : SimLine.t) (distance : Q) : option Coord :=
  if Qle_bool distance 0 then nth_error (SimLine.coords line) 0
  else pointAlongSegments (segments (SimLine.coords line)) distance 0
         (nth_error (SimLine.coords line) (List.length (SimLine.coords line) - 1)).

(** One iteration of the scans of [getNextStation]; [acc] is
    [(nextStation, distToNext)], [None] while they are [null] and [Infinity]. *)
Definition nextStationStep (ahead : StationDist.t -> option Q)
           (acc : option (StationDist.t * Q)) (station : StationDist.t)
  : option (StationDist.t * Q) :=
  match ahead station with
  | Some dist =>
      match acc with
      | Some (_, distToNext) => if Qlt_bool dist distToNext then Some (station, dist) else acc
      | None => Some (station, dist)
      end
  | None => acc
  end.

Definition getNextStation (train : Train.t) (line : SimLine.t)
  : option (StationDist.t * Q) :=
  match Train.direction train with
  | Forward =>
      fold_left
        (nextStationStep (fun station =>
           if Qlt_bool (Train.distanceAlongLine train) (StationDist.distance station)
           then Some (StationDist.distance station - Train.distanceAlongLine train)
           else None))
        (SimLine.stationDistances line) None
  | Backward =>
      fold_left
        (nextStationStep (fun station =>
           if Qlt_bool (StationDist.distance station) (Train.distanceAlongLine train)
           then Some (Train.distanceAlongLine train - StationDist.distance station)
           else None))
        (rev (SimLine.stationDistances line)) None
  end.

Definition nearestStep (coords : Coord) (acc : option (SimStation.t * Q))
           (station : SimStation.t) : option (SimStation.t * Q) :=
  let dist := turfDistance coords (SimStation.coords station) in
  match acc with
  | Some (_, minDistance) => if Qlt_bool dist minDistance then Some (station, dist) else acc
  | None => Some (station, dist)
  end.

Definition findNearestStation (s : State) (coords : Coord) : option SimStation.t :=
  option_map fst (fold_left (nearestStep coords) (tvalues (simStations s)) None).

Definition isTrainHeadingToStation (s : State) (train : Train.t) (targetStationId : Id)
  : bool :=
  match tget (keyOf (Train.lineId train)) (simLines s) with
  | None => false
  | Some line =>
      match find (fun sd => Id_eqb (StationDist.id sd) targetStationId)
                 (SimLine.stationDistances line) with
      | None => false
      | Some target =>
          match Train.direction train with
          | Forward => Qlt_bool (Train.distanceAlongLine train) (StationDist.distance target)
          | Backward => Qlt_bool (StationDist.distance target) (Train.distanceAlongLine train)
          end
      end
  end.

Definition extractLineSegment (line : SimLine.t) (fromId toId : Id) : list Coord :=
  let fromIdx := findIndex (fun sd => Id_eqb (StationDist.id sd) fromId)
                           (SimLine.stationDistances line) in
  let toIdx := findIndex (fun sd => Id_eqb (StationDist.id sd) toId)
                         (SimLine.stationDistances line) in
  if ((fromIdx =? -1) || (toIdx =? -1))%Z then SimLine.coords line
  else slice (SimLine.coords line) (Z.min fromIdx toIdx) (Z.max fromIdx toIdx + 1)%Z.

(** ** Route planning *)

(** An entry [{ stationId, path, wait }] of the search queue of [findRoute]. *)
Record QueueEntry : Type := mkQueueEntry {
  entry_stationId : Id;
  entry_path : list RouteLeg.t;
  entry_wait : Z
}.

(** The body of the inner [while] loop of [findRoute] at one [neighbor];
    [acc] is [(queue, visited)], [here] is [line.stationDistances[stationIndex]]. *)
Definition visitNeighbor (lineId : Id) (line : SimLine.t) (station : SimStation.t)
           (here : StationDist.t) (current : QueueEntry)
           (acc : list QueueEntry * list Id) (neighbor : StationDist.t)
  : list QueueEntry * list Id :=
  let (queue, visited) := acc in
  if setHas (StationDist.id neighbor) visited then acc
  else
    let rideDist := Math_abs (StationDist.distance neighbor - StationDist.distance here) in
    let leg :=
      RouteLeg.mk lineId (SimStation.id station) (StationDist.id neighbor)
        ((rideDist / 500) * 60)
        (extractLineSegment line (SimStation.id station) (StationDist.id neighbor)) in
    (queue ++ [mkQueueEntry (StationDist.id neighbor) (entry_path current ++ [leg])
                            (entry_wait current + 1)%Z],
     visited ++ [StationDist.id neighbor]).

(** The body of [station.lines.forEach((lineId) => ...)].  With [dir = -1]
    the index runs from [stationIndex - 1] down to 0, with [dir = 1] from
    [stationIndex + 1] up to the last one. *)
Definition expandLine (s : State) (station : SimStation.t) (current : QueueEntry)
           (acc : list QueueEntry * list Id) (lineId : Id)
  : list QueueEntry * list Id :=
  match tget (keyOf lineId) (simLines s) with
  | None => acc
  | Some line =>
      let stationIndex :=
        findIndex (fun sd => Id_eqb (StationDist.id sd) (SimStation.id station))
                  (SimLine.stationDistances line) in
      match arrayGet (SimLine.stationDistances line) stationIndex with
      | None => acc
      | Some here =>
          let acc :=
            fold_left (visitNeighbor lineId line station here current)
              (rev (firstn (Z.to_nat stationIndex) (SimLine.stationDistances line))) acc in
          fold_left (visitNeighbor lineId line station here current)
            (skipn (S (Z.to_nat stationIndex)) (SimLine.stationDistances line)) acc
      end
  end.

Definition routeOfPath (path : list RouteLeg.t) : Route.t :=
  let totalRide := fold_left (fun sum leg => sum + RouteLeg.rideTime leg) path 0 in
  let waitTime := inject_Z (Z.of_nat (List.length path)) * 90 in
  Route.mk path (totalRide + waitTime) waitTime totalRide.

(** The [while (queue.length > 0)] loop of [findRoute], run for at most
    [fuel] iterations; the outer [None] means that the fuel ran out. *)
Fixpoint findRouteLoop (s : State) (destStationId : Id) (fuel : nat)
         (queue : list QueueEntry) (visited : list Id) : option (option Route.t) :=
  match fuel with
  | O => None
  | S fuel' =>
      match queue with
      | [] => Some None
      | current :: queue' =>
          if Id_eqb (entry_stationId current) destStationId
          then Some (Some (routeOfPath (entry_path current)))
          else
            match tget (keyOf (entry_stationId current)) (simStations s) with
            | None => findRouteLoop s destStationId fuel' queue' visited
            | Some station =>
                let (queue'', visited') :=
                  fold_left (expandLine s station current) (SimStation.lines station)
                            (queue', visited) in
                findRouteLoop s destStationId fuel' queue'' visited'
            end
      end
  end.

(** Every station identifier that occurs on a line of the table. *)
Definition lineStationIds (s : State) : list Id :=
  flat_map (fun line => map StationDist.id (SimLine.stationDistances line))
           (tvalues (simLines s)).

(** A number of iterations the loop never exceeds (see [findRouteLoop_total]). *)
Definition findRouteFuel (s : State) : nat := 2 + List.length (lineStationIds s).

Definition findRoute (s : State) (originStationId destStationId : Id) : option Route.t :=
  match findRouteLoop s destStationId (findRouteFuel s)
          [mkQueueEntry originStationId [] 0%Z] [originStationId] with
  | Some result => result
  | None => None
  end.

(** ** Demand *)

Definition newPassenger (s : State) (originStation destStation : SimStation.t) : Passenger.t :=
  Passenger.mk (nextPassengerId s) (SimStation.id originStation) (SimStation.id destStation)
               None 0 (simTime s).

(** One iteration of the [for] loop of [spawnPassengers]. *)
Definition spawnPassenger (features : list PointFeature) (s : State) : option State :=
  let (r1, s) := random s in
  let originIndex := Math_floor (r1 * inject_Z (Z.of_nat (List.length features))) in
  let (r2, s) := random s in
  let destIndex := Math_floor (r2 * inject_Z (Z.of_nat (List.length features))) in
  match arrayGet features originIndex, arrayGet features destIndex with
  | Some originPoint, Some destPoint =>
      (* [originPoint === destPoint]: the same element of [features] *)
      if (originIndex =? destIndex)%Z then Some s
      else
        match findNearestStation s (point_coordinates originPoint),
              findNearestStation s (point_coordinates destPoint) with
        | Some originStation, Some destStation =>
            if Id_eqb (SimStation.id originStation) (SimStation.id destStation) then Some s
            else
              let passenger := newPassenger s originStation destStation in
              let s := set_nextPassengerId (nextPassengerId s + 1)%Z s in
              let s := set_allPassengers
                         (tset (String_ofZ (Passenger.id passenger)) tt (allPassengers s)) s in
              match tget (keyOf (SimStation.id originStation)) (stationQueues s) with
              | Some queue =>
                  Some (set_stationQueues
                          (tset (keyOf (SimStation.id originStation)) (queue ++ [passenger])
                                (stationQueues s)) s)
              | None => None
              end
        | _, _ => Some s
        end
  | _, _ => Some s
  end.

Fixpoint spawnLoop (features : list PointFeature) (n : nat) (s : State) : option State :=
  match n with
  | O => Some s
  | S n' =>
      match spawnPassenger features s with
      | Some s' => spawnLoop features n' s'
      | None => None
      end
  end.

Definition spawnPassengers (hour : Z) (s : State) : option State :=
  match DEMAND_GRID s with
  | None => Some s
  | Some features =>
      if (List.length (tkeys (simStations s)) =? 0)%nat then Some s
      else
        match arrayGet HOURLY_MULTIPLIERS hour with
        | None => Some s
        | Some hourlyMultiplier =>
            let passengersToSpawn :=
              Math_round ((TOTAL_DEMAND s / 86400) * TICK_SECONDS * hourlyMultiplier * 40) in
            spawnLoop features (Z.to_nat passengersToSpawn) s
        end
  end.

(** ** Station exchange *)

(** [(t[k] || 0) + 1] stored back under [k]. *)
Definition bump (k : string) (t : Table Z) : Table Z :=
  tset k ((match tget k t with Some n => n | None => 0 end) + 1)%Z t.

(** The callback of [train.passengers.filter(...)]: [acc] is
    [(the passengers that stay, alighting)]. *)
Definition alightStep (stationId : Id) (acc : list Passenger.t * list Passenger.t)
           (p : Passenger.t) : list Passenger.t * list Passenger.t :=
  let (staying, alighting) := acc in
  match Passenger.route p with
  | None => acc
  | Some route =>
      match nth_error (Route.legs route) (Passenger.currentLegIndex p) with
      | Some leg =>
          if Id_eqb (RouteLeg.toStationId leg) stationId
          then (staying, alighting ++ [p])
          else (staying ++ [p], alighting)
      | None => (staying ++ [p], alighting)
      end
  end.

(** The distance between the two stations of a leg, as the fare computation
    reads it; [None] when [simLines[leg.lineId]] is [undefined]. *)
Definition legDistance (s : State) (leg : RouteLeg.t) : option Q :=
  match tget (keyOf (RouteLeg.lineId leg)) (simLines s) with
  | None => None
  | Some legLine =>
      let from :=
        match find (fun sd => Id_eqb (StationDist.id sd) (RouteLeg.fromStationId leg))
                   (SimLine.stationDistances legLine) with
        | Some sd => StationDist.distance sd
        | None => 0
        end in
      let to :=
        match find (fun sd => Id_eqb (StationDist.id sd) (RouteLeg.toStationId leg))
                   (SimLine.stationDistances legLine) with
        | Some sd => StationDist.distance sd
        | None => 0
        end in
      Some (Math_abs (to - from))
  end.

Definition routeDistance (s : State) (legs : list RouteLeg.t) : option Q :=
  fold_left
    (fun sum leg =>
       match sum, legDistance s leg with
       | Some x, Some d => Some (x + d)
       | _, _ => None
       end)
    legs (Some 0).

(** The bookkeeping of a completed trip. *)
Definition completeTrip (s : State) (passenger : Passenger.t) : option State :=
  let s := set_totalPassengerWaitTime
             (totalPassengerWaitTime s + (simTime s - Passenger.spawnTime passenger)) s in
  let s := set_completedTrips (completedTrips s + 1)%Z s in
  let s := set_totalRidership (totalRidership s + 1)%Z s in
  let s := set_allPassengers (tdelete (String_ofZ (Passenger.id passenger)) (allPassengers s)) s in
  let s := set_dailyStationRidership
             (bump (keyOf (Passenger.originStationId passenger)) (dailyStationRidership s)) s in
  let s := set_dailyStationRidership
             (bump (keyOf (Passenger.destinationStationId passenger))
                   (dailyStationRidership s)) s in
  let legs := match Passenger.route passenger with Some r => Route.legs r | None => [] end in
  let s := set_dailyLineRidership
             (fold_left (fun t leg => bump (keyOf (RouteLeg.lineId leg)) t) legs
                        (dailyLineRidership s)) s in
  match routeDistance s legs with
  | Some routeDist => Some (set_totalRevenue (totalRevenue s + (routeDist / 1000) * FARE_PER_KM) s)
  | None => None
  end.

(** The callback of [alighting.forEach(...)]. *)
Definition alightPassenger (stationId : Id) (acc : option State) (p : Passenger.t)
  : option State :=
  match acc with
  | None => None
  | Some s =>
      let passenger := Passenger.set_currentLegIndex (S (Passenger.currentLegIndex p)) p in
      let finished :=
        match Passenger.route passenger with
        | None => true
        | Some route =>
            (List.length (Route.legs route) <=? Passenger.currentLegIndex passenger)%nat
        end in
      if finished then completeTrip s passenger
      else
        match tget (keyOf stationId) (stationQueues s) with
        | Some queue =>
            Some (set_stationQueues
                    (tset (keyOf stationId) (queue ++ [passenger]) (stationQueues s)) s)
        | None => None
        end
  end.

(** The callback of [queue.filter(...)]: [acc] is
    [(train.passengers, boarding, the passengers that stay queued)]. *)
Definition boardStep (s : State) (train : Train.t)
           (acc : list Passenger.t * Z * list Passenger.t) (p : Passenger.t)
  : list Passenger.t * Z * list Passenger.t :=
  let '(onboard, boarding, queued) := acc in
  if (Train.capacity train <=? Z.of_nat (List.length onboard))%Z
  then (onboard, boarding, queued ++ [p])
  else
    let passenger :=
      match Passenger.route p with
      | None =>
          Passenger.set_currentLegIndex 0
            (Passenger.set_route
               (findRoute s (Passenger.originStationId p) (Passenger.destinationStationId p)) p)
      | Some _ => p
      end in
    let leg :=
      match Passenger.route passenger with
      | Some route => nth_error (Route.legs route) (Passenger.currentLegIndex passenger)
      | None => None
      end in
    match leg with
    | Some leg =>
        if Id_eqb (RouteLeg.lineId leg) (Train.lineId train)
           && isTrainHeadingToStation s train (RouteLeg.toStationId leg)
        then (onboard ++ [passenger], (boarding + 1)%Z, queued)
        else (onboard, boarding, queued ++ [passenger])
    | None => (onboard, boarding, queued ++ [passenger])
    end.

Definition extraDwell (stationId : Id) (dwellTime : Q) (incident : Incident.t) : Q :=
  match Incident.type incident with
  | extra_dwell =>
      if Id_eqb (Incident.targetId incident) stationId
      then dwellTime + Incident.value incident
      else dwellTime
  | speed_cap => dwellTime
  end.

Definition handleStationArrival (s : State) (train : Train.t) (line : SimLine.t)
           (stationDist : StationDist.t) : option (State * Train.t) :=
  let train := Train.set_speed 0 train in
  let train := Train.set_state dwelling train in
  let train := Train.set_distanceAlongLine (StationDist.distance stationDist) train in
  match tget (keyOf (StationDist.id stationDist)) (simStations s) with
  | None => Some (s, train)
  | Some station =>
      let stationIdx :=
        findIndex (fun sd => Id_eqb (StationDist.id sd) (SimStation.id station))
                  (SimLine.stationDistances line) in
      let train := Train.set_currentStationIndex stationIdx train in
      let (staying, alighting) :=
        fold_left (alightStep (SimStation.id station)) (Train.passengers train) ([], []) in
      let train := Train.set_passengers staying train in
      match fold_left (alightPassenger (SimStation.id station)) alighting (Some s) with
      | None => None
      | Some s =>
          let '(s, train, boarding) :=
            match tget (keyOf (SimStation.id station)) (stationQueues s) with
            | Some queue =>
                let '(onboard, boarding, queued) :=
                  fold_left (boardStep s train) queue (Train.passengers train, 0%Z, []) in
                (set_stationQueues
                   (tset (keyOf (SimStation.id station)) queued (stationQueues s)) s,
                 Train.set_passengers onboard train, boarding)
            | None => (s, train, 0%Z)
            end in
          let dwellTime :=
            BASE_DWELL_TIME
            + (inject_Z (Z.of_nat (List.length alighting)) + inject_Z boarding) * (25 # 100) in
          let dwellTime :=
            fold_left (extraDwell (SimStation.id station)) (tvalues (activeIncidents s))
                      dwellTime in
          Some (s, Train.set_dwellTimeRemaining dwellTime train)
      end
  end.

(** ** Train kinematics *)

Definition speedCap (trainId : Z) (targetSpeed : Q) (incident : Incident.t) : Q :=
  match Incident.type incident with
  | speed_cap =>
      if Id_eqb (Incident.targetId incident) (IdNum trainId)
      then Math_min targetSpeed (Incident.value incident)
      else targetSpeed
  | extra_dwell => targetSpeed
  end.

Definition targetSpeedOf (s : State) (train : Train.t) : Q :=
  fold_left (speedCap (Train.id train)) (tvalues (activeIncidents s)) MAX_TRAIN_SPEED.

(** The end-of-line test that closes the callback of [trains.forEach]. *)
Definition turnAtLineEnd (line : SimLine.t) (train : Train.t) : Train.t :=
  if Qle_bool (SimLine.length line) (Train.distanceAlongLine train)
  then Train.set_direction Backward (Train.set_distanceAlongLine (SimLine.length line) train)
  else if Qle_bool (Train.distanceAlongLine train) 0
  then Train.set_direction Forward (Train.set_distanceAlongLine 0 train)
  else train.

(** The callback of [trains.forEach(...)] in [updateTrains]; the third
    component is what it adds to [distanceTraveledThisTick]. *)
Definition updateTrain (s : State) (train : Train.t) : option (State * Train.t * Q) :=
  match tget (keyOf (Train.lineId train)) (simLines s) with
  | None => Some (s, train, 0)
  | Some line =>
      if (List.length (SimLine.stationDistances line) <? 2)%nat then Some (s, train, 0)
      else
        match Train.state train with
        | dwelling =>
            let train :=
              Train.set_dwellTimeRemaining (Train.dwellTimeRemaining train - TICK_SECONDS)
                                           train in
            if Qle_bool (Train.dwellTimeRemaining train) 0
            then Some (s, Train.set_currentStationIndex (-1)%Z (Train.set_state moving train), 0)
            else Some (s, train, 0)
        | moving =>
            let next := getNextStation train line in
            let brakingDistance :=
              (Train.speed train * Train.speed train) / (2 * TRAIN_ACCELERATION) in
            let targetSpeed := targetSpeedOf s train in
            let braking :=
              match next with
              | Some (_, distToNextStation) => Qlt_bool distToNextStation brakingDistance
              | None => false
              end in
            let train :=
              if braking
              then Train.set_speed
                     (clamp (Train.speed train - TRAIN_ACCELERATION * TICK_SECONDS) 0 targetSpeed)
                     train
              else Train.set_speed
                     (clamp (Train.speed train + TRAIN_ACCELERATION * TICK_SECONDS) 0 targetSpeed)
                     train in
            let distanceMoved := Train.speed train * TICK_SECONDS in
            let train :=
              Train.set_distanceAlongLine
                (Train.distanceAlongLine train
                 + distanceMoved * directionSign (Train.direction train)) train in
            let arrived :=
              match next with
              | Some (nextStation, distToNextStation) =>
                  if Qle_bool distToNextStation distanceMoved
                  then handleStationArrival s train line nextStation
                  else Some (s, train)
              | None => Some (s, train)
              end in
            match arrived with
            | Some (s, train) => Some (s, turnAtLineEnd line train, distanceMoved)
            | None => None
            end
        end
  end.

(** [trains.forEach(...)]: [acc] is the state, the trains already updated
    and [distanceTraveledThisTick]. *)
Definition updateTrainsStep (acc : option (State * list Train.t * Q)) (train : Train.t)
  : option (State * list Train.t * Q) :=
  match acc with
  | None => None
  | Some (s, done, distanceTraveledThisTick) =>
      match updateTrain s train with
      | Some (s, train, distanceMoved) =>
          Some (s, done ++ [train], distanceTraveledThisTick + distanceMoved)
      | None => None
      end
  end.

Definition updateTrains (s : State) : option State :=
  match fold_left updateTrainsStep (trains s) (Some (s, [], 0)) with
  | Some (s, updated, distanceTraveledThisTick) =>
      Some (set_totalTrainKm (totalTrainKm s + distanceTraveledThisTick / 1000)
              (set_trains updated s))
  | None => None
  end.

(** ** Economics *)

Definition updateEconomics (s : State) : State :=
  let trainKmCost := totalTrainKm s * OPEX_PER_TRAIN_KM in
  let stationHoursCost :=
    inject_Z (Z.of_nat (List.length (tkeys (simStations s))))
    * (OPEX_PER_STATION_HOUR * (TICK_SECONDS / 3600)) in
  let s := set_totalOpex (totalOpex s + (trainKmCost + stationHoursCost)) s in
  let revenuePerHour := totalRevenue s / Math_max (simTime s / 3600) 1 in
  let opexPerHour := totalOpex s / Math_max (simTime s / 3600) 1 in
  let s := set_cashflowPerHour (revenuePerHour - opexPerHour) s in
  set_budget (budget s + (cashflowPerHour s / 3600) * TICK_SECONDS) s.

Definition handleInfrastructureBuild (cost : Q) (s : State) : State :=
  let s := set_budget (budget s - cost) s in
  if Qlt_bool (budget s) 0 then set_budget (Math_max (budget s) (-(5000000000))) s else s.

(** ** Incidents *)

Definition checkForIncidents (s : State) : State :=
  if Qlt_bool (totalTrainKm s - lastIncidentKm s)
              (10000 / Math_max INCIDENT_RATE_PER_10K_KM (1 # 100))
  then s
  else
    let s := set_lastIncidentKm (totalTrainKm s) s in
    let incidentId := nextIncidentId s in
    let s := set_nextIncidentId (nextIncidentId s + 1)%Z s in
    let (r, s) := random s in
    if Qlt_bool r (5 # 10) then
      let (r, s) := random s in
      match arrayGet (trains s)
              (Math_floor (r * inject_Z (Z.of_nat (List.length (trains s))))) with
      | None => s
      | Some randomTrain =>
          let incident :=
            Incident.mk incidentId speed_cap
              ("Speed restriction on Train " ++ String_ofZ (Train.id randomTrain))
              (IdNum (Train.id randomTrain)) (simTime s + 1800) (MAX_TRAIN_SPEED * (6 # 10)) in
          postMessage (INCIDENT_EVENT incident true)
            (set_activeIncidents (tset (String_ofZ incidentId) incident (activeIncidents s)) s)
      end
    else
      let stations := tvalues (simStations s) in
      let (r, s) := random s in
      match arrayGet stations (Math_floor (r * inject_Z (Z.of_nat (List.length stations)))) with
      | None => s
      | Some randomStation =>
          let incident :=
            Incident.mk incidentId extra_dwell
              ("Delays at " ++ SimStation.name randomStation)
              (SimStation.id randomStation) (simTime s + 1200) 15 in
          postMessage (INCIDENT_EVENT incident true)
            (set_activeIncidents (tset (String_ofZ incidentId) incident (activeIncidents s)) s)
      end.

(** The callback of [Object.values(activeIncidents).forEach(...)]. *)
Definition cleanupIncident (s : State) (incident : Incident.t) : State :=
  if Qle_bool (Incident.expiresAt incident) (simTime s)
  then set_activeIncidents
         (tdelete (String_ofZ (Incident.id incident)) (activeIncidents s))
         (postMessage (INCIDENT_EVENT incident false) s)
  else s.

Definition cleanupIncidents (s : State) : State :=
  fold_left cleanupIncident (tvalues (activeIncidents s)) s.

(** ** The tick *)

Definition buildTrainFeature (s : State) (train : Train.t) : TrainFeature :=
  let coords :=
    match tget (keyOf (Train.lineId train)) (simLines s) with
    | Some line =>
        getPointAlongLine line (clamp (Train.distanceAlongLine train) 0 (SimLine.length line))
    | None => Some (0, 0)
    end in
  let loadFactor :=
    if (0 <? Train.capacity train)%Z
    then inject_Z (Z.of_nat (List.length (Train.passengers train)))
         / inject_Z (Train.capacity train)
    else 0 in
  mkTrainFeature (match coords with Some c => c | None => (0, 0) end) (Train.id train) loadFactor.

Definition buildTrainFeatures (s : State) : list TrainFeature :=
  map (buildTrainFeature s) (trains s).

(** The [avgWaitTime] entry of the snapshot. *)
Definition avgWaitTime (s : State) : Q :=
  if (0 <? completedTrips s)%Z
  then totalPassengerWaitTime s / inject_Z (completedTrips s)
  else 0.

Definition tickPayload (s : State) : TickPayload :=
  let trainFeatures := buildTrainFeatures s in
  let queueSizes :=
    fold_left
      (fun (sizes : Table Z) (e : string * list Passenger.t) =>
         tset (fst e) (Z.of_nat (List.length (snd e))) sizes)
      (stationQueues s) [] in
  mkTickPayload trainFeatures (simTime s) queueSizes (totalRidership s) (budget s)
                (cashflowPerHour s) (avgWaitTime s)
                (dailyStationRidership s) (dailyLineRidership s).

Definition simulationTick (s : State) : option State :=
  let s := set_simTime (simTime s + TICK_SECONDS) s in
  let currentHour := Math_floor (jsRem (simTime s) 86400 / 3600) in
  let s :=
    if (Math_floor (lastDayRollover s / 86400) <? Math_floor (simTime s / 86400))%Z
    then set_lastDayRollover (simTime s)
           (set_dailyLineRidership [] (set_dailyStationRidership [] s))
    else s in
  match spawnPassengers currentHour s with
  | None => None
  | Some s =>
      match updateTrains s with
      | None => None
      | Some s =>
          let s := updateEconomics s in
          let s := checkForIncidents s in
          let s := cleanupIncidents s in
          Some (postMessage (TICK (tickPayload s)) s)
      end
  end.

(** ** Demand grid, journey planning, demand details *)

(** The body of the inner loop of [createDemandGrid] at cell [(i, j)];
    [acc] is the local [grid] and the state. *)
Definition demandCell (acc : list PointFeature * State) (cell : nat * nat)
  : list PointFeature * State :=
  let (grid, s) := acc in
  let width := ((1006 # 10) - (1004 # 10)) / 20 in
  let height := ((138 # 10) - (137 # 10)) / 20 in
  let lng := (1004 # 10) + inject_Z (Z.of_nat (fst cell)) * width in
  let lat := (137 # 10) + inject_Z (Z.of_nat (snd cell)) * height in
  let (r1, s) := random s in
  let (r2, s) := random s in
  let demand := Math_round (r1 * r2 * 200) in
  if (8 <? demand)%Z then
    (grid ++ [mkPointFeature (lng, lat) None None (Some (inject_Z demand)) None],
     set_TOTAL_DEMAND (TOTAL_DEMAND s + inject_Z demand) s)
  else (grid, s).

Definition createDemandGrid (s : State) : State :=
  let s := set_TOTAL_DEMAND 0 s in
  let (grid, s) :=
    fold_left demandCell
      (flat_map (fun i => map (fun j => (i, j)) (seq 0 20)) (seq 0 20)) ([], s) in
  set_DEMAND_GRID (Some grid) s.

Definition setDemandGrid (grid : list PointFeature) (s : State) : State :=
  set_TOTAL_DEMAND
    (fold_left
       (fun sum feature =>
          sum + match point_properties_demand feature with Some d => d | None => 0 end)
       grid 0)
    (set_DEMAND_GRID (Some grid) s).

Definition handlePlanJourney (originCoords destCoords : Coord) (s : State) : State :=
  match findNearestStation s originCoords, findNearestStation s destCoords with
  | Some originStation, Some destStation =>
      let walkTo := turfDistance originCoords (SimStation.coords originStation) / WALK_SPEED_MPS in
      let walkFrom := turfDistance destCoords (SimStation.coords destStation) / WALK_SPEED_MPS in
      match findRoute s (SimStation.id originStation) (SimStation.id destStation) with
      | None => postMessage (JOURNEY_PLAN_RESULT None walkTo walkFrom) s
      | Some route =>
          let route :=
            Route.mk (Route.legs route) (Route.totalTime route + (walkTo + walkFrom))
                     (Route.waitTime route) (Route.rideTime route) in
          postMessage (JOURNEY_PLAN_RESULT (Some route) walkTo walkFrom) s
      end
  | _, _ => s
  end.

Fixpoint randoms (n : nat) (s : State) : list Q * State :=
  match n with
  | O => ([], s)
  | S n' => let (r, s) := random s in let (rs, s) := randoms n' s in (r :: rs, s)
  end.

Definition handleDemandDetails (coords : Coord) (s : State) : State :=
  let nearbyStations :=
    map (fun e : SimStation.t * Q =>
           mkNearbyStation (SimStation.id (fst e)) (SimStation.name (fst e)) (snd e)
                           (snd e / WALK_SPEED_MPS))
        (firstn 5
           (sortBy snd
              (filter (fun e : SimStation.t * Q => Qlt_bool (snd e) 2000)
                 (map (fun station => (station, turfDistance coords (SimStation.coords station)))
                      (tvalues (simStations s)))))) in
  let (hourlyDistribution, s) := randoms 12 s in
  postMessage (DEMAND_DETAILS_RESULT coords nearbyStations hourlyDistribution) s.

(** ** The message handler and the timer *)

Inductive WorkerInboundMessage : Type :=
| START
| PAUSE
| UPDATE_NETWORK (lines : list LineFeature) (stations : list PointFeature)
| BUILD_INFRASTRUCTURE (cost : Q)
| PLAN_JOURNEY (origin destination : Coord)
| GET_DEMAND_GRID
| SET_DEMAND_GRID (payload : list PointFeature)
| GET_DEMAND_DETAILS (coords : Coord).

Definition onmessage (m : WorkerInboundMessage) (s : State) : State :=
  match m with
  | START => startSimulation s
  | PAUSE => pauseSimulation s
  | UPDATE_NETWORK lines stations => updateNetwork lines stations s
  | BUILD_INFRASTRUCTURE cost => handleInfrastructureBuild cost s
  | PLAN_JOURNEY origin destination => handlePlanJourney origin destination s
  | GET_DEMAND_GRID =>
      let s := match DEMAND_GRID s with None => createDemandGrid s | Some _ => s end in
      match DEMAND_GRID s with
      | Some grid => postMessage (DEMAND_GRID_DATA grid) s
      | None => s
      end
  | SET_DEMAND_GRID payload => postMessage (DEMAND_GRID_DATA payload) (setDemandGrid payload s)
  | GET_DEMAND_DETAILS coords => handleDemandDetails coords s
  end.

(** What the event loop delivers to the worker: a message of the host, or
    the interval timer that [START] arms and [PAUSE] clears. *)
Inductive step : State -> State -> Prop :=
| step_message (m : WorkerInboundMessage) (s : State) :
    step s (onmessage m s)
| step_timer (s s' : State) :
    simulationInterval s = Some tt -> simulationTick s = Some s' -> step s s'.

(** The states the worker can be in. *)
Inductive reachable : State -> Prop :=
| reachable_initial : reachable initialState
| reachable_step (s s' : State) : reachable s -> step s s' -> reachable s'.

End Worker.

(* ===================================================================== *)
(** * Invariants of the worker's state *)
(* ===================================================================== *)

(** A leg rides a line of the table. *)
Definition legOk (lines : Table SimLine.t) (leg : RouteLeg.t) : Prop :=
  exists line, tget (keyOf (RouteLeg.lineId leg)) lines = Some line.

(** A passenger's route, once assigned, rides lines of the table only. *)
Definition passengerOk (lines : Table SimLine.t) (p : Passenger.t) : Prop :=
  forall r, Passenger.route p = Some r -> Forall (legOk lines) (Route.legs r).

(** Every station is stored under the key of its own identifier and has a queue. *)
Definition stationsOk (s : State) : Prop :=
  forall k st, In (k, st) (simStations s) ->
    keyOf (SimStation.id st) = k /\ thas k (stationQueues s) = true.

Definition queuesOk (s : State) : Prop :=
  forall k q, In (k, q) (stationQueues s) -> Forall (passengerOk (simLines s)) q.

(** Every passenger aboard has a route. *)
Definition onboardOk (lines : Table SimLine.t) (t : Train.t) : Prop :=
  Forall (fun p => Passenger.route p <> None /\ passengerOk lines p) (Train.passengers t).

(** What boarding admits: a passenger with a route whose current leg rides
    the train's line. *)
Definition boardable (lineId : Id) (p : Passenger.t) : Prop :=
  exists r leg,
    Passenger.route p = Some r
    /\ nth_error (Route.legs r) (Passenger.currentLegIndex p) = Some leg
    /\ RouteLeg.lineId leg = lineId.

(** Only lines with two matched stations or more are in the table, each
    under the key of its own identifier. *)
Definition servicedOk (lines : Table SimLine.t) : Prop :=
  NoDup (tkeys lines)
  /\ forall k line, In (k, line) lines ->
       k = keyOf (SimLine.id line) /\ (2 <= List.length (SimLine.stationDistances line))%nat.

(** A train runs on a line of the table, and stands still while it dwells. *)
Definition trainLinked (lines : Table SimLine.t) (t : Train.t) : Prop :=
  (exists line, tget (keyOf (Train.lineId t)) lines = Some line)
  /\ (Train.state t = dwelling -> Train.speed t == 0).

(** Active incidents are stored under their own identifier, which was drawn
    from [nextIncidentId]. *)
Definition incidentsKeyed (incidents : Table Incident.t) (next : Z) : Prop :=
  forall k inc, In (k, inc) incidents ->
    k = String_ofZ (Incident.id inc)
    /\ (Incident.id inc < next)%Z
    /\ 0 <= Incident.value inc.

(** Between two ticks no active incident has expired. *)
Definition incidentsOk (s : State) : Prop :=
  incidentsKeyed (activeIncidents s) (nextIncidentId s)
  /\ forall k inc, In (k, inc) (activeIncidents s) -> simTime s < Incident.expiresAt inc.

Definition structOk (s : State) : Prop :=
  stationsOk s /\ queuesOk s /\ servicedOk (simLines s)
  /\ Forall (onboardOk (simLines s)) (trains s)
  /\ Forall (trainLinked (simLines s)) (trains s)
  /\ incidentsOk s.

(** The distances of a line's stations lie on the line. *)
Definition lineOk (line : SimLine.t) : Prop :=
  0 <= SimLine.length line
  /\ Forall (fun sd => 0 <= StationDist.distance sd <= SimLine.length line)
            (SimLine.stationDistances line).

(** On a line of positive length a train at the far end heads backward and
    a train at the near end heads forward. *)
Definition atEnds (line : SimLine.t) (t : Train.t) : Prop :=
  0 < SimLine.length line ->
  (Train.distanceAlongLine t == SimLine.length line -> Train.direction t = Backward)
  /\ (Train.distanceAlongLine t == 0 -> Train.direction t = Forward).

Definition trainOnLine (lines : Table SimLine.t) (t : Train.t) : Prop :=
  forall line, tget (keyOf (Train.lineId t)) lines = Some line ->
    0 <= Train.distanceAlongLine t <= SimLine.length line /\ atEnds line t.

Definition geomOk (s : State) : Prop :=
  (forall k line, In (k, line) (simLines s) -> lineOk line)
  /\ Forall (trainOnLine (simLines s)) (trains s).

(** The state with the variables erased that passenger handling writes: two
    states with the same image differ in those variables only. *)
Definition withoutPassengers (s : State) : State :=
  set_stationQueues []
    (set_allPassengers []
      (set_nextPassengerId 0%Z
        (set_totalPassengerWaitTime 0
          (set_completedTrips 0%Z
            (set_totalRidership 0%Z
              (set_dailyStationRidership []
                (set_dailyLineRidership []
                  (set_totalRevenue 0
                    (set_randomCalls 0%nat s))))))))).

Definition samePlant (s s' : State) : Prop := withoutPassengers s' = withoutPassengers s.

(** The state with the variables erased that the steps of a tick after the
    train update write. *)
Definition withoutLedger (s : State) : State :=
  set_activeIncidents []
    (set_outbox []
      (set_totalOpex 0
        (set_cashflowPerHour 0
          (set_budget 0
            (set_lastIncidentKm 0
              (set_nextIncidentId 0%Z
                (set_randomCalls 0%nat s))))))).

Definition sameFleet (s s' : State) : Prop := withoutLedger s' = withoutLedger s.

(** How one tick may move a train on a line of the table: it stays on the
    line, and its direction changes only where it was put on an end of the
    line, to backward at the far end and to forward at the near end. *)
Definition trainMoved (lines : Table SimLine.t) (t t' : Train.t) : Prop :=
  Train.lineId t' = Train.lineId t
  /\ forall line,
       tget (keyOf (Train.lineId t)) lines = Some line ->
       0 <= SimLine.length line ->
       0 <= Train.distanceAlongLine t <= SimLine.length line /\ atEnds line t ->
       0 <= Train.distanceAlongLine t' <= SimLine.length line
       /\ atEnds line t'
       /\ (Train.direction t' <> Train.direction t ->
           (Train.direction t' = Backward /\ Train.distanceAlongLine t' = SimLine.length line)
           \/ (Train.direction t' = Forward /\ Train.distanceAlongLine t' = 0)).


(** Right after a network update every queue is empty. *)
Definition queuesEmpty (s : State) : Prop :=
  forall k q, In (k, q) (stationQueues s) -> q = [].

(** A train as [spawnTrainsForLine] creates it on [line]. *)
Definition spawnedOn (line : SimLine.t) (t : Train.t) : Prop :=
  Train.lineId t = SimLine.id line
  /\ Train.passengers t = []
  /\ Train.state t = moving
  /\ Train.direction t = Forward
  /\ exists i, (i < TRAINS_PER_LINE)%nat
               /\ Train.distanceAlongLine t
                  = (SimLine.length line / inject_Z (Z.of_nat TRAINS_PER_LINE))
                    * inject_Z (Z.of_nat i).

(** The variables that the invariants read. *)
Definition coreView (s : State) :=
  (simStations s, stationQueues s, simLines s, trains s,
   activeIncidents s, nextIncidentId s, simTime s).

(** The variables that a network update leaves alone, among those. *)
Definition incidentView (s : State) := (activeIncidents s, nextIncidentId s, simTime s).

(** The first statements of [simulationTick]: the clock advanced and the
    daily tallies rolled over. *)
Definition clockAdvanced (s : State) : State :=
  let s := set_simTime (simTime s + TICK_SECONDS) s in
  if (Math_floor (lastDayRollover s / 86400) <? Math_floor (simTime s / 86400))%Z
  then set_lastDayRollover (simTime s)
         (set_dailyLineRidership [] (set_dailyStationRidership [] s))
  else s.

Definition currentHourOf (s : State) : Z := Math_floor (jsRem (simTime s) 86400 / 3600).

(** The steps of [simulationTick] that follow [updateTrains]. *)
Definition closeTick {Math : MathLib} (s : State) : State :=
  let s := cleanupIncidents (checkForIncidents (updateEconomics s)) in
  postMessage (TICK (tickPayload s)) s.

Definition expired (now : Q) (incident : Incident.t) : bool :=
  Qle_bool (Incident.expiresAt incident) now.

(** ** The station graph *)

Section Graph.
Context {Math : MathLib}.

(** [v] can be reached from [u] in one ride: the station stored for [u]
    lists a line of the table on which both it and [v] stop. *)
Definition rideable (s : State) (u v : Id) : Prop :=
  exists st lid line here there,
    tget (keyOf u) (simStations s) = Some st
    /\ In lid (SimStation.lines st)
    /\ tget (keyOf lid) (simLines s) = Some line
    /\ In here (SimLine.stationDistances line)
    /\ StationDist.id here = SimStation.id st
    /\ In there (SimLine.stationDistances line)
    /\ StationDist.id there = v.

Inductive connected (s : State) (u : Id) : Id -> Prop :=
| connected_here : connected s u u
| connected_ride (v w : Id) : connected s u v -> rideable s v w -> connected s u w.

(** What the search of [findRoute] maintains for an entry of its queue: the
    path rides lines of the table and leads from the origin to the entry's
    station. *)
Definition entryOk (s : State) (origin : Id) (e : QueueEntry) : Prop :=
  Forall (legOk (simLines s)) (entry_path e) /\ connected s origin (entry_stationId e).

(** The stations on lines of the table that the search has not visited. *)
Definition pending (s : State) (visited : list Id) : nat :=
  List.length (filter (fun x => negb (setHas x visited)) (lineStationIds s)).

(** The search state of [findRoute(a, b)] once [b] was found on [line]: one
    entry, with the one leg from [a] to [b]. *)
Definition foundOn (s : State) (line : SimLine.t) (a b : Id) (da db : Q)
           (acc : list QueueEntry * list Id) : Prop :=
  exists l coords,
    tget (keyOf l) (simLines s) = Some line
    /\ acc = ([mkQueueEntry b [RouteLeg.mk l a b ((Math_abs (db - da) / 500) * 60) coords] 1%Z],
              [a; b]).


(** The search state: sound entries, and a measure bounded by [bound]. *)
Definition searchOk (s : State) (origin : Id) (bound : nat)
           (acc : list QueueEntry * list Id) : Prop :=
  Forall (entryOk s origin) (fst acc) /\ (List.length (fst acc) + pending s (snd acc) <= bound)%nat.

(** What [matchVertices] keeps of the station table, and what it records. *)
Definition matchedOk (coords : list Coord) (t0 : Table SimStation.t)
           (acc : list StationDist.t * Table SimStation.t) : Prop :=
  (forall k st', In (k, st') (snd acc) ->
     exists st, In (k, st) t0 /\ SimStation.id st' = SimStation.id st)
  /\ Forall (fun sd => exists index,
               StationDist.distance sd
               = fold_left addSegment (firstn index (segments coords)) 0)
            (fst acc).

(** The invariants of the network tables while the lines are prepared. *)
Definition networkOk (s : State) : Prop :=
  stationsOk s /\ queuesEmpty s /\ servicedOk (simLines s).

(** The distances of a prepared line are sums over prefixes of its segments. *)
Definition prefixDistances (line : SimLine.t) : Prop :=
  SimLine.length line = fold_left addSegment (segments (SimLine.coords line)) 0
  /\ Forall (fun sd => exists index,
               StationDist.distance sd
               = fold_left addSegment (firstn index (segments (SimLine.coords line))) 0)
            (SimLine.stationDistances line).
End Graph.

(* ===================================================================== *)
(** * A small network to run the worker on *)
(* ===================================================================== *)

(** A stand-in for [Math] with which runs compute in [Q]: the small-angle
    readings [sin x = x], [cos x = 1] and [atan2 y x = y], the exact root of a
    fraction of two squares, [355/113] for pi, and a [Math.random()] that
    always returns 0.  On the equator it makes [turfDistance] the arc
    [6371000 * pi / 180] metres per degree of longitude. *)
Definition smallAngleMath : MathLib := {|
  Math_sin := fun x => x;
  Math_cos := fun _ => 1;
  Math_sqrt := fun x => Z.sqrt (Qnum x) # Pos.sqrt (Qden x);
  Math_atan2 := fun y _ => y;
  Math_PI := 355 # 113;
  Math_random := fun _ => 0;
  Number_toString := fun _ => "0"%string
|}.

(** Two stations a hundredth of a degree apart and the line that joins them. *)
Definition demoStations : list PointFeature :=
  [mkPointFeature (0, 0) (Some (IdStr "a")) None None None;
   mkPointFeature (1 # 100, 0) (Some (IdStr "b")) None None None].

Definition demoLine : LineFeature :=
  mkLineFeature [(0, 0); (1 # 100, 0)] (Some (IdStr "L")) None.

Definition demoNetwork : State :=
  onmessage (Math := smallAngleMath) (UPDATE_NETWORK [demoLine] demoStations) initialState.

Definition demoRunning : State := onmessage (Math := smallAngleMath) START demoNetwork.


(** Two lines that share no station. *)
Definition splitStations : list PointFeature :=
  demoStations
  ++ [mkPointFeature (0, 1 # 10) (Some (IdStr "c")) None None None;
      mkPointFeature (1 # 100, 1 # 10) (Some (IdStr "d")) None None None].

Definition splitLines : list LineFeature :=
  [demoLine; mkLineFeature [(0, 1 # 10); (1 # 100, 1 # 10)] (Some (IdStr "M")) None].

Definition splitNetwork : State :=
  onmessage (Math := smallAngleMath) (UPDATE_NETWORK splitLines splitStations) initialState.



(** The first two ticks of the running demonstration network. *)
Definition afterTick (s : State) : State :=
  match simulationTick (Math := smallAngleMath) s with
  | Some s' => s'
  | None => s
  end.

Definition demoTick1 : State := afterTick demoRunning.
Definition demoTick2 : State := afterTick demoTick1.

(** ** The economics step of the older variant, [src/simulation.worker.ts] *)

Module Legacy.
Definition updateEconomics (s : State) : State :=
  let opexThisTick :=
    (totalTrainKm s * OPEX_PER_TRAIN_KM)
    + (inject_Z (Z.of_nat (List.length (tkeys (simStations s))))
       * OPEX_PER_STATION_HOUR / 3600 * TICK_SECONDS) in
  let s := set_totalOpex (totalOpex s + opexThisTick) s in
  let s := set_budget (budget s - opexThisTick) s in
  let s := set_totalTrainKm 0 s in
  if (Math_floor ((simTime s - TICK_SECONDS) / 3600) <? Math_floor (simTime s / 3600))%Z
  then set_totalRevenue 0
         (set_totalOpex 0 (set_cashflowPerHour (totalRevenue s - totalOpex s) s))
  else s.

(** ** The incidents of the older variant *)

(** The [INCIDENT_EVENT] payloads of the older worker: [{id, active: false}]
    on expiry, with the key of the table as [id], and
    [{id, active: true, message}] on creation. *)
Inductive Posted : Type :=
| INCIDENT_EVENT (id : Id) (active : bool) (message : option string).

Section Incidents.
Context {Math : MathLib}.

(** [generateIncident]; [None] is the [TypeError] on reading a property of a
    target that is [undefined]. *)
Definition generateIncident (st : State * list Posted) : option (State * list Posted) :=
  let (s, posted) := st in
  if ((List.length (trains s) =? 0)%nat && (List.length (tkeys (simStations s)) =? 0)%nat)%bool
  then Some (s, posted)
  else
    let id := nextIncidentId s in
    let s := set_nextIncidentId (nextIncidentId s + 1)%Z s in
    let (r, s) := random s in
    let duration := 300 + r * 600 in
    let (r, s) := random s in
    if (Qlt_bool (5 # 10) r && negb (List.length (trains s) =? 0)%nat)%bool then
      let (r, s) := random s in
      match arrayGet (trains s)
              (Math_floor (r * inject_Z (Z.of_nat (List.length (trains s))))) with
      | None => None
      | Some targetTrain =>
          let (r, s) := random s in
          let speedCap := 8 + r * 5 in
          let incident :=
            Incident.mk id speed_cap
              ("Signal failure near Train " ++ String_ofZ (Train.id targetTrain)
               ++ ", speed capped at " ++ String_ofZ (Math_round (speedCap * (36 # 10)))
               ++ " km/h.")
              (IdNum (Train.id targetTrain)) (simTime s + duration) speedCap in
          Some (set_activeIncidents (tset (String_ofZ id) incident (activeIncidents s)) s,
                posted ++ [INCIDENT_EVENT (IdNum id) true (Some (Incident.message incident))])
      end
    else if negb (List.length (tkeys (simStations s)) =? 0)%nat then
      let stationIds := tkeys (simStations s) in
      let (r, s) := random s in
      let key :=
        match arrayGet stationIds
                (Math_floor (r * inject_Z (Z.of_nat (List.length stationIds)))) with
        | Some k => k
        | None => "undefined"%string
        end in
      match tget key (simStations s) with
      | None => None
      | Some targetStation =>
          let (r, s) := random s in
          let extraDwell := 30 + r * 60 in
          let incident :=
            Incident.mk id extra_dwell
              ("Mechanical issue at " ++ SimStation.name targetStation ++ ", causing "
               ++ String_ofZ (Math_round extraDwell) ++ "s delays.")
              (SimStation.id targetStation) (simTime s + duration) extraDwell in
          Some (set_activeIncidents (tset (String_ofZ id) incident (activeIncidents s)) s,
                posted ++ [INCIDENT_EVENT (IdNum id) true (Some (Incident.message incident))])
      end
    else Some (s, posted).

(** The callback of [Object.keys(activeIncidents).forEach(...)]. *)
Definition expireIncident (acc : option (State * list Posted)) (id : string)
  : option (State * list Posted) :=
  match acc with
  | None => None
  | Some (s, posted) =>
      match tget id (activeIncidents s) with
      | None => None
      | Some incident =>
          if Qlt_bool (Incident.expiresAt incident) (simTime s)
          then Some (set_activeIncidents (tdelete id (activeIncidents s)) s,
                     posted ++ [INCIDENT_EVENT (IdStr id) false None])
          else Some (s, posted)
      end
  end.

Definition checkForIncidents (st : State * list Posted) : option (State * list Posted) :=
  let kmSinceLastIncident := totalTrainKm (fst st) - lastIncidentKm (fst st) in
  let checked :=
    if Qlt_bool 10000 kmSinceLastIncident then
      let (r, s) := random (fst st) in
      match (if Qlt_bool r INCIDENT_RATE_PER_10K_KM
             then generateIncident (s, snd st) else Some (s, snd st)) with
      | Some (s, posted) => Some (set_lastIncidentKm (totalTrainKm s) s, posted)
      | None => None
      end
    else Some st in
  match checked with
  | Some (s, posted) =>
      fold_left expireIncident (tkeys (activeIncidents s)) (Some (s, posted))
  | None => None
  end.
End Incidents.
End Legacy.

(* ===================================================================== *)
(** * Further notions: routes, fleet, passengers, demand, stations *)
(* ===================================================================== *)

Definition aheadBy (train : Train.t) (sd : StationDist.t) (gap : Q) : Prop :=
  match Train.direction train with
  | Forward =>
      Train.distanceAlongLine train < StationDist.distance sd
      /\ gap = StationDist.distance sd - Train.distanceAlongLine train
  | Backward =>
      StationDist.distance sd < Train.distanceAlongLine train
      /\ gap = Train.distanceAlongLine train - StationDist.distance sd
  end.

(** A leg as [findRoute] builds it: both stations have an entry on the leg's
    line, the ride time is their distance at 500 metres a minute, and the
    geometry is the line segment that [extractLineSegment] cuts out. *)
Definition legOnLine (s : State) (leg : RouteLeg.t) : Prop :=
  exists line here there,
    tget (keyOf (RouteLeg.lineId leg)) (simLines s) = Some line
    /\ In here (SimLine.stationDistances line)
    /\ StationDist.id here = RouteLeg.fromStationId leg
    /\ In there (SimLine.stationDistances line)
    /\ StationDist.id there = RouteLeg.toStationId leg
    /\ RouteLeg.rideTime leg
       = (Math_abs (StationDist.distance there - StationDist.distance here) / 500) * 60
    /\ RouteLeg.coords leg
       = extractLineSegment line (RouteLeg.fromStationId leg) (RouteLeg.toStationId leg).

(** The legs of [path] lead from [u] to [v]: each leg departs from the
    station stored for the place where the previous one arrived, on a line
    that this station lists. *)
Fixpoint chained (s : State) (u : Id) (path : list RouteLeg.t) (v : Id) : Prop :=
  match path with
  | [] => u = v
  | leg :: rest =>
      (exists st,
         tget (keyOf u) (simStations s) = Some st
         /\ In (RouteLeg.lineId leg) (SimStation.lines st)
         /\ RouteLeg.fromStationId leg = SimStation.id st)
      /\ chained s (RouteLeg.toStationId leg) rest v
  end.

(** The stations a path calls at, the origin first. *)
Definition stops (origin : Id) (path : list RouteLeg.t) : list Id :=
  origin :: map RouteLeg.toStationId path.

(** What the search of [findRoute] maintains for a queue entry, given the
    stations visited so far. *)
Definition routeInv (s : State) (origin : Id) (visited : list Id) (e : QueueEntry) : Prop :=
  chained s origin (entry_path e) (entry_stationId e)
  /\ Forall (legOnLine s) (entry_path e)
  /\ NoDup (stops origin (entry_path e))
  /\ incl (stops origin (entry_path e)) visited.

(** The state with the variables erased that [updateNetwork] writes. *)
Definition withoutNetwork (s : State) : State :=
  set_linesOrigin []
    (set_stationsOrigin []
      (set_simLines []
        (set_simStations []
          (set_stationQueues []
            (set_trains []
              (set_nextTrainId 0%Z
                (set_nextPassengerId 0%Z
                  (set_totalRidership 0%Z
                    (set_totalPassengerWaitTime 0
                      (set_completedTrips 0%Z
                        (set_totalRevenue 0
                          (set_totalOpex 0
                            (set_cashflowPerHour 0
                              (set_outbox [] s)))))))))))))).

(** The state with the variables erased that [simulationTick] writes. *)
Definition withoutTick (s : State) : State :=
  set_simTime 0
    (set_lastDayRollover 0
      (set_trains []
        (set_totalTrainKm 0
          (withoutPassengers (withoutLedger s))))).

(** A train has the nominal capacity, is not loaded beyond it, and runs at a
    speed between 0 and the maximum. *)
Definition trainFit (t : Train.t) : Prop :=
  Train.capacity t = TRAIN_CAPACITY
  /\ (Z.of_nat (List.length (Train.passengers t)) <= Train.capacity t)%Z
  /\ 0 <= Train.speed t <= MAX_TRAIN_SPEED.

(** The fleet: four trains for every line of the table, each fit, with
    identifiers that differ. *)
Definition fleetOk (s : State) : Prop :=
  Forall trainFit (trains s)
  /\ NoDup (map Train.id (trains s))
  /\ List.length (trains s) = (TRAINS_PER_LINE * List.length (simLines s))%nat.

(** The passengers waiting in the station queues, and those aboard trains. *)
Definition queued (s : State) : nat := List.length (List.concat (tvalues (stationQueues s))).




(** The sum that [setDemandGrid] computes: the demand of the features of a
    grid, a feature without one counting for 0. *)
Definition gridDemand (grid : list PointFeature) : Q :=
  fold_left
    (fun sum feature =>
       sum + match point_properties_demand feature with Some d => d | None => 0 end)
    grid 0.


(** A cell of the grid that [createDemandGrid] generates. *)
Definition generatedCell (feature : PointFeature) : Prop :=
  exists (i j : nat) (demand : Z),
    (i < 20)%nat /\ (j < 20)%nat /\ (8 < demand)%Z
    /\ feature
       = mkPointFeature
           ((1004 # 10) + inject_Z (Z.of_nat i) * (((1006 # 10) - (1004 # 10)) / 20),
            (137 # 10) + inject_Z (Z.of_nat j) * (((138 # 10) - (137 # 10)) / 20))
           None None (Some (inject_Z demand)) None.

(** What [prepareLines] leaves of a station: everything but its set of lines. *)
Definition stationCards (t : Table SimStation.t)
  : list (string * (Id * Coord * string)) :=
  map (fun e => (fst e, (SimStation.id (snd e), SimStation.coords (snd e),
                         SimStation.name (snd e)))) t.

Definition stationIds (t : Table SimStation.t) : list (string * Id) :=
  map (fun e => (fst e, SimStation.id (snd e))) t.

(** The station table has one entry for a key, stored under the key of the
    station's identifier, and every station of a line is a station of the
    table. *)
Definition routingOk (s : State) : Prop :=
  NoDup (tkeys (simStations s))
  /\ (forall k i, In (k, i) (stationIds (simStations s)) -> keyOf i = k)
  /\ forall k line, In (k, line) (simLines s) ->
       Forall (fun sd => In (keyOf (StationDist.id sd), StationDist.id sd)
                            (stationIds (simStations s)))
              (SimLine.stationDistances line).

(** The search state [(queue, visited)] has grown out of [(queue0, visited0)]:
    nothing was dropped, every station added to [visited] is a station of
    the table and has an entry in the queue. *)
Definition grown (s : State) (start now : list QueueEntry * list Id) : Prop :=
  incl (snd start) (snd now)
  /\ incl (fst start) (fst now)
  /\ (forall u, In u (snd now) ->
        In u (snd start)
        \/ (In (keyOf u, u) (stationIds (simStations s))
            /\ exists e, In e (fst now) /\ entry_stationId e = u))
  /\ (forall e, In e (fst now) -> In e (fst start) \/ In (entry_stationId e) (snd now)).

(** What the loop of [findRoute] maintains on the way to [dest]: a visited
    station is the identifier of the station stored for it, it waits in the
    queue or all the stations one ride away are visited too. *)
Definition frontierOk (s : State) (dest : Id) (queue : list QueueEntry) (visited : list Id)
  : Prop :=
  (forall u st, In u visited -> tget (keyOf u) (simStations s) = Some st ->
                SimStation.id st = u)
  /\ (forall e, In e queue -> In (entry_stationId e) visited)
  /\ (forall u, In u visited ->
        (exists e, In e queue /\ entry_stationId e = u)
        \/ (u <> dest /\ forall w, rideable s u w -> In w visited)).

(** A train that dwells stands at a station of its line. *)
Definition atStation (lines : Table SimLine.t) (t : Train.t) : Prop :=
  Train.state t = dwelling ->
  forall line, tget (keyOf (Train.lineId t)) lines = Some line ->
    (2 <= List.length (SimLine.stationDistances line))%nat ->
    exists sd, In sd (SimLine.stationDistances line)
               /\ Train.distanceAlongLine t == StationDist.distance sd.



Section Prepared.
Context {Math : MathLib}.

(** What [prepareLines] stores under the key [k] for one of the features
    [origin]. *)
Definition preparedLine (origin : list LineFeature) (k : string) (line : SimLine.t) : Prop :=
  k = keyOf (SimLine.id line)
  /\ (exists lf, In lf origin /\ SimLine.coords line = line_coordinates lf)
  /\ (2 <= List.length (SimLine.coords line))%nat
  /\ SimLine.length line = fold_left addSegment (segments (SimLine.coords line)) 0
  /\ StronglySorted (fun a b => StationDist.distance a <= StationDist.distance b)
                    (SimLine.stationDistances line)
  /\ (2 <= List.length (SimLine.stationDistances line))%nat
  /\ SimLine.headway line
     = Math_max 120
         ((inject_Z (Z.of_nat (List.length (SimLine.stationDistances line))) - 1) * 90).

Definition linesOk (s : State) : Prop :=
  forall k line, In (k, line) (simLines s) -> preparedLine (linesOrigin s) k line.
End Prepared.

Section Registered.
Context {Math : MathLib}.

(** [feature.properties.id ?? feature.id ?? feature.geometry.coordinates.join(',')]. *)
Definition stationIdOf (feature : PointFeature) : Id :=
  match point_properties_id feature with
  | Some i => i
  | None =>
      match point_id feature with
      | Some i => i
      | None =>
          IdStr (Number_toString (fst (point_coordinates feature)) ++ ","
                 ++ Number_toString (snd (point_coordinates feature)))
      end
  end.

(** [feature.properties.name ?? `Station ${id}`]. *)
Definition stationNameOf (feature : PointFeature) : string :=
  match point_properties_name feature with
  | Some n => n
  | None => "Station " ++ keyOf (stationIdOf feature)
  end.

(** The station of the table that a feature registers, lines apart. *)
Definition registers (feature : PointFeature) (st : SimStation.t) : Prop :=
  SimStation.id st = stationIdOf feature
  /\ SimStation.coords st = point_coordinates feature
  /\ SimStation.name st = stationNameOf feature.
End Registered.

(* ===================================================================== *)
(** * Basic facts: numbers, arrays, tables *)
(* ===================================================================== *)

Lemma Qlt_bool_true (x y : Q) : Qlt_bool x y = true <-> x < y.
Proof.
  unfold Qlt_bool. rewrite negb_true_iff. split; intro H.
  - apply Qnot_le_lt. intro Hle. apply Qle_bool_iff in Hle. congruence.
  - destruct (Qle_bool y x) eqn:E; [|reflexivity].
    apply Qle_bool_iff in E. exfalso. apply (Qlt_not_le _ _ H E).
Qed.

Lemma Qlt_bool_false (x y : Q) : Qlt_bool x y = false <-> y <= x.
Proof.
  unfold Qlt_bool. rewrite negb_false_iff. apply Qle_bool_iff.
Qed.

Lemma Qle_bool_false (x y : Q) : Qle_bool x y = false <-> y < x.
Proof.
  split; intro H.
  - apply Qnot_le_lt. intro Hle. apply Qle_bool_iff in Hle. congruence.
  - destruct (Qle_bool x y) eqn:E; [|reflexivity].
    apply Qle_bool_iff in E. exfalso. apply (Qlt_not_le _ _ H E).
Qed.

Lemma Math_min_le_l (x y : Q) : Math_min x y <= x.
Proof.
  unfold Math_min. destruct (Qle_bool x y) eqn:E; [lra|].
  apply Qle_bool_false in E. lra.
Qed.


Lemma Math_max_ge_l (x y : Q) : x <= Math_max x y.
Proof.
  unfold Math_max. destruct (Qle_bool x y) eqn:E; [|lra].
  apply Qle_bool_iff in E. lra.
Qed.

Lemma Math_max_ge_r (x y : Q) : y <= Math_max x y.
Proof.
  unfold Math_max. destruct (Qle_bool x y) eqn:E; [lra|].
  apply Qle_bool_false in E. lra.
Qed.

Lemma Math_abs_nonneg (x : Q) : 0 <= Math_abs x.
Proof.
  unfold Math_abs. destruct (Qle_bool 0 x) eqn:E.
  - apply Qle_bool_iff in E. lra.
  - apply Qle_bool_false in E. lra.
Qed.

Lemma clamp_le_max (value lo hi : Q) : clamp value lo hi <= hi.
Proof. unfold clamp. apply Math_min_le_l. Qed.

Lemma clamp_ge_min (value lo hi : Q) : lo <= hi -> lo <= clamp value lo hi.
Proof.
  intro H. unfold clamp, Math_min.
  destruct (Qle_bool hi (Math_max lo value)); [exact H | apply Math_max_ge_l].
Qed.

Lemma Id_eqb_eq (a b : Id) : Id_eqb a b = true <-> a = b.
Proof.
  destruct a as [n|x], b as [m|y]; simpl; split; intro H; try discriminate.
  - apply Z.eqb_eq in H. congruence.
  - inversion H. apply Z.eqb_refl.
  - apply String.eqb_eq in H. congruence.
  - inversion H. apply String.eqb_refl.
Qed.

Lemma Id_eqb_refl (a : Id) : Id_eqb a a = true.
Proof. apply Id_eqb_eq. reflexivity. Qed.

Lemma Id_eqb_neq (a b : Id) : Id_eqb a b = false <-> a <> b.
Proof.
  split; intro H.
  - intro E. apply Id_eqb_eq in E. congruence.
  - destruct (Id_eqb a b) eqn:E; [|reflexivity]. apply Id_eqb_eq in E. contradiction.
Qed.

Lemma Id_eq_dec (a b : Id) : {a = b} + {a <> b}.
Proof.
  destruct (Id_eqb a b) eqn:E.
  - left. apply Id_eqb_eq. exact E.
  - right. apply Id_eqb_neq. exact E.
Qed.

Lemma setHas_In (x : Id) (l : list Id) : setHas x l = true <-> In x l.
Proof.
  unfold setHas. rewrite existsb_exists. split.
  - intros (y & Hy & E). apply Id_eqb_eq in E. subst. exact Hy.
  - intro H. exists x. split; [exact H | apply Id_eqb_refl].
Qed.

(** [String(n)] is injective on integers. *)
Lemma Z_to_int_not_nil (n : Z) :
  Z.to_int n <> Decimal.Pos Decimal.Nil /\ Z.to_int n <> Decimal.Neg Decimal.Nil.
Proof.
  destruct n as [|p|p]; simpl; split; intro H; try discriminate;
    inversion H as [H']; exact (DecimalPos.Unsigned.to_uint_nonnil p H').
Qed.

Lemma String_ofZ_inj (n m : Z) : String_ofZ n = String_ofZ m -> n = m.
Proof.
  unfold String_ofZ. intro H.
  apply DecimalZ.to_int_inj.
  assert (E : NilZero.int_of_string (NilZero.string_of_int (Z.to_int n))
              = NilZero.int_of_string (NilZero.string_of_int (Z.to_int m)))
    by (rewrite H; reflexivity).
  rewrite !NilZero.isi in E by apply Z_to_int_not_nil.
  congruence.
Qed.

Section TableFacts.
Variable V : Type.
Implicit Types (t : Table V) (k : string) (v : V).

Lemma tget_In k t v : tget k t = Some v -> In (k, v) t.
Proof.
  induction t as [|[k' v'] t IH]; simpl; [discriminate|].
  destruct (String.eqb k k') eqn:E.
  - apply String.eqb_eq in E. intro H. inversion H. subst. left. reflexivity.
  - intro H. right. apply IH. exact H.
Qed.

Lemma In_thas k t v : In (k, v) t -> thas k t = true.
Proof.
  unfold thas. induction t as [|[k' v'] t IH]; simpl; [tauto|].
  intros [H|H].
  - inversion H. subst. rewrite String.eqb_refl. reflexivity.
  - destruct (String.eqb k k'); [reflexivity | apply IH; exact H].
Qed.

Lemma thas_tget k t : thas k t = true -> exists v, tget k t = Some v.
Proof. unfold thas. destruct (tget k t) as [v|]; [eauto | discriminate]. Qed.

Lemma In_treplace k v t e : In e (treplace k v t) -> e = (k, v) \/ In e t.
Proof.
  induction t as [|[k' v'] t IH]; simpl; [tauto|].
  destruct (String.eqb k k') eqn:E; simpl.
  - apply String.eqb_eq in E. subst. intros [H|H]; [left; congruence | right; right; exact H].
  - intros [H|H]; [right; left; exact H|].
    destruct (IH H) as [H'|H']; [left; exact H' | right; right; exact H'].
Qed.

Lemma In_tplace k v t e : In e (tplace k v t) <-> e = (k, v) \/ In e t.
Proof.
  induction t as [|[k' v'] t IH]; simpl.
  - intuition congruence.
  - destruct (keyBefore k k'); simpl; rewrite ?IH; intuition congruence.
Qed.

Lemma In_tset k v t e : In e (tset k v t) -> e = (k, v) \/ In e t.
Proof.
  unfold tset. destruct (thas k t).
  - apply In_treplace.
  - apply In_tplace.
Qed.

Lemma In_treplace_other k v t k' v' :
  In (k', v') t -> k' <> k -> In (k', v') (treplace k v t).
Proof.
  induction t as [|[k0 v0] t IH]; simpl; [tauto|].
  intros [H|H] Hne.
  - inversion H. subst. destruct (String.eqb k k') eqn:E.
    + apply String.eqb_eq in E. congruence.
    + left. reflexivity.
  - destruct (String.eqb k k0); right; [exact H | apply IH; assumption].
Qed.

Lemma In_tset_other k v t k' v' : In (k', v') t -> k' <> k -> In (k', v') (tset k v t).
Proof.
  unfold tset. intros H Hne. destruct (thas k t).
  - apply In_treplace_other; assumption.
  - apply In_tplace. right. exact H.
Qed.

Lemma tget_treplace_eq k v t : thas k t = true -> tget k (treplace k v t) = Some v.
Proof.
  unfold thas. induction t as [|[k' v'] t IH]; simpl; [discriminate|].
  destruct (String.eqb k k') eqn:E; simpl; rewrite E; [reflexivity | exact IH].
Qed.

Lemma tget_treplace_ne k k' v t : k <> k' -> tget k (treplace k' v t) = tget k t.
Proof.
  intro Hne. induction t as [|[k0 v0] t IH]; simpl; [reflexivity|].
  destruct (String.eqb k' k0) eqn:E; simpl.
  - apply String.eqb_eq in E. subst.
    destruct (String.eqb k k0) eqn:E'; [|reflexivity].
    apply String.eqb_eq in E'. congruence.
  - rewrite IH. reflexivity.
Qed.

Lemma tget_tplace_eq k v t : thas k t = false -> tget k (tplace k v t) = Some v.
Proof.
  unfold thas. induction t as [|[k' v'] t IH]; simpl.
  - rewrite String.eqb_refl. reflexivity.
  - destruct (String.eqb k k') eqn:E; [discriminate|].
    intro H. destruct (keyBefore k k'); simpl.
    + rewrite String.eqb_refl. reflexivity.
    + rewrite E. apply IH. exact H.
Qed.

Lemma tget_tplace_ne k k' v t : k <> k' -> tget k (tplace k' v t) = tget k t.
Proof.
  intro Hne. assert (E : String.eqb k k' = false) by (apply String.eqb_neq; exact Hne).
  induction t as [|[k0 v0] t IH]; simpl.
  - rewrite E. reflexivity.
  - destruct (keyBefore k' k0); simpl.
    + rewrite E. reflexivity.
    + rewrite IH. reflexivity.
Qed.

Lemma tget_tset_eq k v t : tget k (tset k v t) = Some v.
Proof.
  unfold tset. destruct (thas k t) eqn:E.
  - apply tget_treplace_eq. exact E.
  - apply tget_tplace_eq. exact E.
Qed.

Lemma tget_tset_ne k k' v t : k <> k' -> tget k (tset k' v t) = tget k t.
Proof.
  intro Hne. unfold tset. destruct (thas k' t).
  - apply tget_treplace_ne. exact Hne.
  - apply tget_tplace_ne. exact Hne.
Qed.

Lemma thas_tset k k' v t : thas k t = true \/ k = k' -> thas k (tset k' v t) = true.
Proof.
  intro H. unfold thas at 1. destruct (string_dec k k') as [E|E].
  - subst. rewrite tget_tset_eq. reflexivity.
  - rewrite tget_tset_ne by exact E. destruct H as [H|H]; [exact H | contradiction].
Qed.

Lemma tkeys_treplace k v t : tkeys (treplace k v t) = tkeys t.
Proof.
  unfold tkeys. induction t as [|[k' v'] t IH]; simpl; [reflexivity|].
  destruct (String.eqb k k'); simpl; [reflexivity | rewrite IH; reflexivity].
Qed.

Lemma In_tdelete k t e : In e (tdelete k t) <-> In e t /\ fst e <> k.
Proof.
  unfold tdelete. rewrite filter_In, negb_true_iff, String.eqb_neq.
  intuition congruence.
Qed.

Lemma thas_false_keys k t : thas k t = false -> ~ In k (tkeys t).
Proof.
  unfold thas, tkeys. induction t as [|[k' v'] t IH]; simpl; [tauto|].
  destruct (String.eqb k k') eqn:E; [discriminate|].
  intros H [H'|H']; [|exact (IH H H')].
  subst. rewrite String.eqb_refl in E. discriminate.
Qed.

Lemma NoDup_tplace k v t : ~ In k (tkeys t) -> NoDup (tkeys t) -> NoDup (tkeys (tplace k v t)).
Proof.
  unfold tkeys. induction t as [|[k' v'] t IH]; simpl; intros Hk Hnd.
  - constructor; [tauto | constructor].
  - destruct (keyBefore k k'); simpl.
    + constructor; [simpl; exact Hk | exact Hnd].
    + inversion Hnd as [|? ? Hnot Hnd']. subst. constructor.
      * intro Hin. apply in_map_iff in Hin. destruct Hin as ([k0 v0] & E & Hin).
        simpl in E. subst k0. apply In_tplace in Hin. destruct Hin as [Hin|Hin].
        -- inversion Hin. subst. apply Hk. left. reflexivity.
        -- apply Hnot. apply in_map_iff. exists (k', v0). split; [reflexivity | exact Hin].
      * apply IH; [tauto | exact Hnd'].
Qed.

Lemma NoDup_tset k v t : NoDup (tkeys t) -> NoDup (tkeys (tset k v t)).
Proof.
  intro H. unfold tset. destruct (thas k t) eqn:E.
  - rewrite tkeys_treplace. exact H.
  - apply NoDup_tplace; [apply thas_false_keys; exact E | exact H].
Qed.

Lemma In_tget_NoDup k v t : NoDup (tkeys t) -> In (k, v) t -> tget k t = Some v.
Proof.
  unfold tkeys. induction t as [|[k' v'] t IH]; simpl; [tauto|].
  intros Hnd [H|H].
  - inversion H. subst. rewrite String.eqb_refl. reflexivity.
  - inversion Hnd as [|? ? Hnot Hnd']. subst.
    destruct (String.eqb k k') eqn:E.
    + apply String.eqb_eq in E. subst k'. exfalso. apply Hnot.
      apply in_map_iff. exists (k, v). split; [reflexivity | exact H].
    + apply IH; assumption.
Qed.
End TableFacts.

(* ===================================================================== *)
(** * What passenger handling leaves alone *)
(* ===================================================================== *)

Lemma samePlant_refl (s : State) : samePlant s s.
Proof. reflexivity. Qed.

Lemma samePlant_trans (s1 s2 s3 : State) : samePlant s1 s2 -> samePlant s2 s3 -> samePlant s1 s3.
Proof. unfold samePlant. congruence. Qed.

(** Reads a field that [withoutPassengers] keeps off both sides of [H]. *)
Ltac plant_field H f :=
  match type of H with
  | samePlant ?s ?s' =>
      change (f (withoutPassengers s') = f (withoutPassengers s)); rewrite H; reflexivity
  end.

Lemma samePlant_simLines s s' : samePlant s s' -> simLines s' = simLines s.
Proof. intro H. plant_field H simLines. Qed.

Lemma samePlant_simStations s s' : samePlant s s' -> simStations s' = simStations s.
Proof. intro H. plant_field H simStations. Qed.

Lemma samePlant_activeIncidents s s' : samePlant s s' -> activeIncidents s' = activeIncidents s.
Proof. intro H. plant_field H activeIncidents. Qed.

Lemma samePlant_simTime s s' : samePlant s s' -> simTime s' = simTime s.
Proof. intro H. plant_field H simTime. Qed.

Lemma samePlant_nextIncidentId s s' : samePlant s s' -> nextIncidentId s' = nextIncidentId s.
Proof. intro H. plant_field H nextIncidentId. Qed.

Lemma samePlant_simulationInterval s s' :
  samePlant s s' -> simulationInterval s' = simulationInterval s.
Proof. intro H. plant_field H simulationInterval. Qed.

Lemma samePlant_outbox s s' : samePlant s s' -> outbox s' = outbox s.
Proof. intro H. plant_field H outbox. Qed.

Lemma samePlant_totalOpex s s' : samePlant s s' -> totalOpex s' = totalOpex s.
Proof. intro H. plant_field H totalOpex. Qed.

Lemma samePlant_totalTrainKm s s' : samePlant s s' -> totalTrainKm s' = totalTrainKm s.
Proof. intro H. plant_field H totalTrainKm. Qed.

Lemma samePlant_trains s s' : samePlant s s' -> trains s' = trains s.
Proof. intro H. plant_field H trains. Qed.

Lemma samePlant_budget s s' : samePlant s s' -> budget s' = budget s.
Proof. intro H. plant_field H budget. Qed.

(** Closes [exists s', f s = Some s' /\ stationsOk s' /\ queuesOk s' /\ samePlant s s']
    when [f s] is [Some s] for the [s] whose invariants are at hand. *)
Ltac unchanged_ok s :=
  exists s; split; [reflexivity|]; split; [assumption|]; split;
  [assumption | apply samePlant_refl].

Section ExchangeFacts.
Context {Math : MathLib}.

Lemma passengerOk_no_route lines p : Passenger.route p = None -> passengerOk lines p.
Proof. intros H r Hr. congruence. Qed.

Lemma nearest_fold_In coords l acc st d :
  fold_left (nearestStep coords) l acc = Some (st, d) ->
  In st l \/ acc = Some (st, d).
Proof.
  revert acc. induction l as [|x l IH]; simpl; intros acc H; [right; exact H|].
  destruct (IH _ H) as [H'|H']; [left; right; exact H'|].
  unfold nearestStep in H'. destruct acc as [[st0 d0]|].
  - destruct (Qlt_bool _ d0).
    + inversion H'. subst. left. left. reflexivity.
    + right. exact H'.
  - inversion H'. subst. left. left. reflexivity.
Qed.

Lemma findNearestStation_In s coords st :
  findNearestStation s coords = Some st -> exists k, In (k, st) (simStations s).
Proof.
  unfold findNearestStation. intro H.
  destruct (fold_left _ _ _) as [[st' d]|] eqn:E; [|discriminate].
  simpl in H. inversion H. subst st'.
  destruct (nearest_fold_In _ _ _ E) as [Hin|Hin]; [|discriminate].
  unfold tvalues in Hin. apply in_map_iff in Hin. destruct Hin as ([k v] & Hv & Hin).
  simpl in Hv. subst v. exists k. exact Hin.
Qed.

(** Replacing a queue that exists keeps the station and queue invariants. *)
Lemma queue_update_ok s k q :
  stationsOk s -> queuesOk s -> Forall (passengerOk (simLines s)) q ->
  let s' := set_stationQueues (tset k q (stationQueues s)) s in
  stationsOk s' /\ queuesOk s'.
Proof.
  intros Hst Hq Hok. split.
  - intros k' st Hin. destruct (Hst k' st Hin) as [Hk Hhas]. split; [exact Hk|].
    apply thas_tset. left. exact Hhas.
  - intros k' q' Hin. simpl in Hin. apply In_tset in Hin. destruct Hin as [Hin|Hin].
    + inversion Hin. subst. exact Hok.
    + exact (Hq k' q' Hin).
Qed.

Lemma spawnPassenger_ok features s :
  stationsOk s -> queuesOk s ->
  exists s', spawnPassenger features s = Some s'
             /\ stationsOk s' /\ queuesOk s' /\ samePlant s s'.
Proof.
  intros Hst Hq. unfold spawnPassenger, random. cbv zeta.
  set (s2 := set_randomCalls (S (randomCalls (set_randomCalls (S (randomCalls s)) s)))
                             (set_randomCalls (S (randomCalls s)) s)).
  assert (Hst2 : stationsOk s2) by exact Hst.
  assert (Hq2 : queuesOk s2) by exact Hq.
  assert (Hpl : samePlant s s2) by reflexivity.
  assert (Hdone : exists s', Some s2 = Some s'
                             /\ stationsOk s' /\ queuesOk s' /\ samePlant s s')
    by (exists s2; exact (conj eq_refl (conj Hst2 (conj Hq2 Hpl)))).
  destruct (arrayGet features _) as [originPoint|]; [|exact Hdone].
  destruct (arrayGet features _) as [destPoint|]; [|exact Hdone].
  destruct (_ =? _)%Z; [exact Hdone|].
  destruct (findNearestStation s2 (point_coordinates originPoint)) as [o|] eqn:Eo;
    [|exact Hdone].
  destruct (findNearestStation s2 (point_coordinates destPoint)) as [d|] eqn:Ed;
    [|exact Hdone].
  destruct (Id_eqb _ _); [exact Hdone|].
  destruct (findNearestStation_In _ _ Eo) as [k Hk].
  destruct (Hst2 k o Hk) as [Hkey Hhas].
  destruct (thas_tget _ _ Hhas) as [queue Hqueue].
  cbn [stationQueues set_allPassengers set_nextPassengerId].
  change (stationQueues s2) with (stationQueues s) in *.
  rewrite Hkey, Hqueue.
  eexists. split; [reflexivity|].
  set (p := newPassenger _ o d).
  assert (Hok : Forall (passengerOk (simLines s)) (queue ++ [p])).
  { apply Forall_app. split.
    - apply (Hq k queue). apply tget_In. exact Hqueue.
    - constructor; [|constructor]. apply passengerOk_no_route. reflexivity. }
  destruct (@queue_update_ok s k (queue ++ [p]) Hst Hq Hok) as [H1 H2].
  split; [exact H1|]. split; [exact H2|]. reflexivity.
Qed.

Lemma spawnLoop_ok features n s :
  stationsOk s -> queuesOk s ->
  exists s', spawnLoop features n s = Some s'
             /\ stationsOk s' /\ queuesOk s' /\ samePlant s s'.
Proof.
  revert s. induction n as [|n IH]; intros s Hst Hq; simpl.
  - unchanged_ok s.
  - destruct (spawnPassenger_ok features Hst Hq) as (s1 & E & Hst1 & Hq1 & Hpl1).
    rewrite E. destruct (IH s1 Hst1 Hq1) as (s2 & E2 & Hst2 & Hq2 & Hpl2).
    exists s2. split; [exact E2|]. split; [exact Hst2|]. split; [exact Hq2|].
    eapply samePlant_trans; eassumption.
Qed.

Lemma spawnPassengers_ok hour s :
  stationsOk s -> queuesOk s ->
  exists s', spawnPassengers hour s = Some s'
             /\ stationsOk s' /\ queuesOk s' /\ samePlant s s'.
Proof.
  intros Hst Hq. unfold spawnPassengers.
  destruct (DEMAND_GRID s) as [features|]; [|unchanged_ok s].
  destruct (_ =? _)%nat; [unchanged_ok s|].
  destruct (arrayGet _ _); [|unchanged_ok s].
  apply spawnLoop_ok; assumption.
Qed.
End ExchangeFacts.

(* ===================================================================== *)
(** * The route search *)
(* ===================================================================== *)

Lemma fold_left_invariant (A B : Type) (f : A -> B -> A) (P : A -> Prop) (l : list B) (a : A) :
  P a -> (forall a b, In b l -> P a -> P (f a b)) -> P (fold_left f l a).
Proof.
  revert a. induction l as [|b l IH]; simpl; intros a Ha Hf; [exact Ha|].
  apply IH.
  - apply Hf; [left; reflexivity | exact Ha].
  - intros a' b' Hin. apply Hf. right. exact Hin.
Qed.

Lemma fold_left_keeps (A B C : Type) (f : A -> B -> A) (g : A -> C) (l : list B) (a : A) :
  (forall a b, g (f a b) = g a) -> g (fold_left f l a) = g a.
Proof.
  intro H. revert a. induction l as [|b l IH]; intro a; simpl; [reflexivity|].
  rewrite IH. apply H.
Qed.

Lemma findIndexFrom_spec (A : Type) (p : A -> bool) (l : list A) (i : Z) :
  (findIndexFrom p l i = -1 /\ i <> -1 \/ i <= findIndexFrom p l i)%Z.
Proof.
  revert i. induction l as [|x l IH]; simpl; intro i.
  - destruct (Z.eq_dec i (-1)); [right; lia | left; split; [reflexivity | assumption]].
  - destruct (p x); [right; lia|].
    destruct (IH (i + 1)%Z) as [[H1 H2]|H]; [|right; lia].
    destruct (Z.eq_dec i (-1)); [right; lia | left; split; assumption].
Qed.

(** The element at the index that [findIndex] returns satisfies the predicate. *)
Lemma findIndexFrom_nth (A : Type) (p : A -> bool) (l : list A) (i : Z) (x : A) :
  (0 <= i)%Z ->
  nth_error l (Z.to_nat (findIndexFrom p l i - i)) = Some x ->
  (i <= findIndexFrom p l i)%Z ->
  p x = true /\ In x l.
Proof.
  revert i. induction l as [|y l IH]; simpl; intros i Hi Hn Hle.
  - lia.
  - destruct (p y) eqn:E.
    + replace (i - i)%Z with 0%Z in Hn by lia. simpl in Hn. inversion Hn. subst.
      split; [exact E | left; reflexivity].
    + destruct (findIndexFrom_spec p l (i + 1)) as [[H1 H2]|H]; [lia|].
      replace (Z.to_nat (findIndexFrom p l (i + 1) - i))
        with (S (Z.to_nat (findIndexFrom p l (i + 1) - (i + 1)))) in Hn by lia.
      simpl in Hn. destruct (IH (i + 1)%Z ltac:(lia) Hn H) as [Hp Hin].
      split; [exact Hp | right; exact Hin].
Qed.

Lemma findIndex_arrayGet (A : Type) (p : A -> bool) (l : list A) (x : A) :
  arrayGet l (findIndex p l) = Some x -> p x = true /\ In x l.
Proof.
  unfold arrayGet, findIndex. destruct (_ <? 0)%Z eqn:E; [discriminate|].
  apply Z.ltb_ge in E. intro H.
  apply (@findIndexFrom_nth A p l 0%Z x); [lia | | exact E].
  rewrite Z.sub_0_r. exact H.
Qed.

Lemma In_firstn (A : Type) (n : nat) (l : list A) (x : A) : In x (firstn n l) -> In x l.
Proof.
  revert l. induction n as [|n IH]; intros [|y l]; simpl; try tauto.
  intros [H|H]; [left; exact H | right; apply IH; exact H].
Qed.

Lemma In_skipn (A : Type) (n : nat) (l : list A) (x : A) : In x (skipn n l) -> In x l.
Proof.
  revert l. induction n as [|n IH]; intros [|y l]; simpl; try tauto.
  intro H. right. apply IH. exact H.
Qed.

Lemma filter_length_lt (A : Type) (f g : A -> bool) (l : list A) (n : A) :
  (forall x, g x = true -> f x = true) ->
  In n l -> f n = true -> g n = false ->
  (List.length (filter g l) < List.length (filter f l))%nat.
Proof.
  intros Hgf Hin Hf Hg.
  assert (Hle : forall l', (List.length (filter g l') <= List.length (filter f l'))%nat).
  { induction l' as [|x l' IH]; simpl; [lia|].
    destruct (g x) eqn:Eg.
    - rewrite (Hgf x Eg). simpl. lia.
    - destruct (f x); simpl; lia. }
  induction l as [|x l IH]; simpl; [destruct Hin|].
  destruct Hin as [E|Hin].
  - subst x. rewrite Hf, Hg. simpl. specialize (Hle l). lia.
  - specialize (IH Hin). destruct (g x) eqn:Eg.
    + rewrite (Hgf x Eg). simpl. lia.
    + destruct (f x); simpl; lia.
Qed.

Section SearchFacts.
Context {Math : MathLib}.

Lemma setHas_app x v n : setHas x (v ++ [n]) = setHas x v || Id_eqb x n.
Proof. unfold setHas. rewrite existsb_app. simpl. rewrite orb_false_r. reflexivity. Qed.

Lemma pending_visit s v n :
  In n (lineStationIds s) -> setHas n v = false ->
  (pending s (v ++ [n]) < pending s v)%nat.
Proof.
  intros Hin Hv. unfold pending. apply filter_length_lt with (n := n).
  - intros x. rewrite setHas_app, negb_orb, andb_true_iff. tauto.
  - exact Hin.
  - rewrite Hv. reflexivity.
  - rewrite setHas_app, Id_eqb_refl, orb_true_r. reflexivity.
Qed.

Lemma line_stations_listed s k line sd :
  In (k, line) (simLines s) -> In sd (SimLine.stationDistances line) ->
  In (StationDist.id sd) (lineStationIds s).
Proof.
  intros Hl Hsd. unfold lineStationIds. apply in_flat_map.
  exists line. split.
  - unfold tvalues. apply in_map_iff. exists (k, line). split; [reflexivity | exact Hl].
  - apply in_map. exact Hsd.
Qed.

Lemma visitNeighbor_ok s origin bound lineId line station here current acc neighbor :
  tget (keyOf (entry_stationId current)) (simStations s) = Some station ->
  In lineId (SimStation.lines station) ->
  tget (keyOf lineId) (simLines s) = Some line ->
  In here (SimLine.stationDistances line) ->
  StationDist.id here = SimStation.id station ->
  In neighbor (SimLine.stationDistances line) ->
  entryOk s origin current ->
  searchOk s origin bound acc ->
  searchOk s origin bound (visitNeighbor lineId line station here current acc neighbor).
Proof.
  intros Hst Hlid Hline Hhere Hid Hn [Hpath Hconn] [Hq Hm].
  unfold visitNeighbor. destruct acc as [queue visited]. simpl in Hq, Hm.
  destruct (setHas (StationDist.id neighbor) visited) eqn:Ev; [split; assumption|].
  split; simpl.
  - apply Forall_app. split; [exact Hq|]. constructor; [|constructor].
    split; simpl.
    + apply Forall_app. split; [exact Hpath|]. constructor; [|constructor].
      exists line. exact Hline.
    + eapply connected_ride; [exact Hconn|].
      exists station, lineId, line, here, neighbor. repeat split; assumption.
  - rewrite length_app. simpl.
    assert (Hp := @pending_visit s visited (StationDist.id neighbor)
                    (line_stations_listed s _ _ _ (tget_In _ _ Hline) Hn) Ev).
    lia.
Qed.

Lemma expandLine_ok s origin bound station current acc lineId :
  tget (keyOf (entry_stationId current)) (simStations s) = Some station ->
  In lineId (SimStation.lines station) ->
  entryOk s origin current ->
  searchOk s origin bound acc ->
  searchOk s origin bound (expandLine s station current acc lineId).
Proof.
  intros Hst Hlid Hcur Hacc. unfold expandLine.
  destruct (tget (keyOf lineId) (simLines s)) as [line|] eqn:Hline; [|exact Hacc].
  destruct (arrayGet _ _) as [here|] eqn:Hhere; [|exact Hacc].
  apply findIndex_arrayGet in Hhere. destruct Hhere as [Hp Hin].
  apply Id_eqb_eq in Hp.
  apply fold_left_invariant.
  - apply fold_left_invariant; [exact Hacc|].
    intros a b Hb Ha. eapply visitNeighbor_ok; try eassumption.
    apply in_rev in Hb. eapply In_firstn. exact Hb.
  - intros a b Hb Ha. eapply visitNeighbor_ok; try eassumption.
    eapply In_skipn. exact Hb.
Qed.

(** The loop ends before its fuel does, and what it returns is sound. *)
Lemma findRouteLoop_ok s origin dest fuel queue visited :
  searchOk s origin (pred fuel) (queue, visited) -> (0 < fuel)%nat ->
  exists result,
    findRouteLoop s dest fuel queue visited = Some result
    /\ (forall r, result = Some r ->
          Forall (legOk (simLines s)) (Route.legs r) /\ connected s origin dest).
Proof.
  revert queue visited. induction fuel as [|fuel IH]; intros queue visited [Hq Hm] Hf; [lia|].
  simpl in Hq, Hm. simpl.
  destruct queue as [|current queue'].
  - exists None. split; [reflexivity | discriminate].
  - inversion Hq as [|? ? Hcur Hq']. subst.
    destruct (Id_eqb (entry_stationId current) dest) eqn:Ed.
    + eexists. split; [reflexivity|]. intros r Hr. inversion Hr. subst r. simpl.
      apply Id_eqb_eq in Ed. subst dest. exact Hcur.
    + simpl in Hm.
      destruct (tget (keyOf (entry_stationId current)) (simStations s)) as [station|] eqn:Hst.
      * assert (Hexp : searchOk s origin (pred fuel)
                         (fold_left (expandLine s station current) (SimStation.lines station)
                                    (queue', visited))).
        { apply fold_left_invariant.
          - split; [exact Hq' | simpl; lia].
          - intros a b Hb Ha. apply expandLine_ok; assumption. }
        destruct (fold_left _ _ _) as [queue'' visited'].
        apply IH; [exact Hexp|].
        destruct Hexp as [_ Hm']. simpl in Hm'. lia.
      * apply IH; [split; [exact Hq' | simpl; lia] | lia].
Qed.

Lemma pending_le s v : (pending s v <= List.length (lineStationIds s))%nat.
Proof. unfold pending. apply filter_length_le. Qed.

(** [findRoute] terminates: its loop never uses up [findRouteFuel]. *)
Lemma findRouteLoop_total s origin dest :
  findRouteLoop s dest (findRouteFuel s) [mkQueueEntry origin [] 0%Z] [origin]
  = Some (findRoute s origin dest).
Proof.
  unfold findRoute.
  destruct (@findRouteLoop_ok s origin dest (findRouteFuel s)
              [mkQueueEntry origin [] 0%Z] [origin]) as (result & E & _).
  - split; simpl.
    + constructor; [|constructor]. split; simpl; [constructor | apply connected_here].
    + pose proof (pending_le s [origin]). lia.
  - unfold findRouteFuel. lia.
  - rewrite E. reflexivity.
Qed.

(** A route that [findRoute] returns rides lines of the table, along a path
    of the station graph. *)
Lemma findRoute_sound s origin dest r :
  findRoute s origin dest = Some r ->
  Forall (legOk (simLines s)) (Route.legs r) /\ connected s origin dest.
Proof.
  unfold findRoute.
  destruct (@findRouteLoop_ok s origin dest (findRouteFuel s)
              [mkQueueEntry origin [] 0%Z] [origin]) as (result & E & Hsound).
  - split; simpl.
    + constructor; [|constructor]. split; simpl; [constructor | apply connected_here].
    + pose proof (pending_le s [origin]). lia.
  - unfold findRouteFuel. lia.
  - rewrite E. exact (Hsound r).
Qed.
End SearchFacts.

(* ===================================================================== *)
(** * Station exchange keeps the invariants and never fails *)
(* ===================================================================== *)

Section ArrivalFacts.
Context {Math : MathLib}.

Lemma routeDistance_total s legs :
  Forall (legOk (simLines s)) legs -> exists d, routeDistance s legs = Some d.
Proof.
  unfold routeDistance. generalize 0 as x.
  induction legs as [|leg legs IH]; intros x H; simpl; [eauto|].
  inversion H as [|? ? [line Hline] Hrest]. subst.
  unfold legDistance at 2. rewrite Hline. apply IH. exact Hrest.
Qed.

Lemma alightStep_ok lines stationId acc p :
  Forall (fun p => Passenger.route p <> None /\ passengerOk lines p) (fst acc) ->
  Forall (fun p => Passenger.route p <> None /\ passengerOk lines p) (snd acc) ->
  Passenger.route p <> None /\ passengerOk lines p ->
  let acc' := alightStep stationId acc p in
  Forall (fun p => Passenger.route p <> None /\ passengerOk lines p) (fst acc')
  /\ Forall (fun p => Passenger.route p <> None /\ passengerOk lines p) (snd acc').
Proof.
  intros H1 H2 Hp. unfold alightStep. destruct acc as [staying alighting]. simpl in *.
  assert (Hadd : forall l,
             Forall (fun p => Passenger.route p <> None /\ passengerOk lines p) l ->
             Forall (fun p => Passenger.route p <> None /\ passengerOk lines p) (l ++ [p])).
  { intros l Hl. apply Forall_app. split; [exact Hl | constructor; [exact Hp | constructor]]. }
  destruct (Passenger.route p); [|split; assumption].
  destruct (nth_error _ _) as [leg|]; [destruct (Id_eqb _ _)|]; simpl; split;
    solve [assumption | apply Hadd; assumption].
Qed.

Lemma alight_fold_ok lines stationId passengers :
  Forall (fun p => Passenger.route p <> None /\ passengerOk lines p) passengers ->
  let acc := fold_left (alightStep stationId) passengers ([], []) in
  Forall (fun p => Passenger.route p <> None /\ passengerOk lines p) (fst acc)
  /\ Forall (fun p => Passenger.route p <> None /\ passengerOk lines p) (snd acc).
Proof.
  intro H. cbv zeta.
  apply (@fold_left_invariant _ _ (alightStep stationId)
           (fun acc => Forall (fun p => Passenger.route p <> None /\ passengerOk lines p) (fst acc)
                       /\ Forall (fun p => Passenger.route p <> None /\ passengerOk lines p)
                                 (snd acc))).
  - split; constructor.
  - intros a b Hb [Ha1 Ha2]. apply alightStep_ok; try assumption.
    rewrite Forall_forall in H. apply H. exact Hb.
Qed.

Lemma completeTrip_ok s p :
  stationsOk s -> queuesOk s -> passengerOk (simLines s) p ->
  exists s', completeTrip s p = Some s'
             /\ stationsOk s' /\ queuesOk s' /\ samePlant s s'
             /\ stationQueues s' = stationQueues s.
Proof.
  intros Hst Hq Hp. unfold completeTrip. cbv zeta.
  match goal with
  | |- context [routeDistance ?s1 ?legs] =>
      destruct (@routeDistance_total s1 legs) as [d Hd]
  end.
  - destruct (Passenger.route p) as [r|] eqn:Er; [|constructor].
    exact (Hp r Er).
  - rewrite Hd. eexists. split; [reflexivity|].
    split; [exact Hst|]. split; [exact Hq|]. split; reflexivity.
Qed.

Lemma alightPassenger_ok stationId s p :
  stationsOk s -> queuesOk s -> thas (keyOf stationId) (stationQueues s) = true ->
  passengerOk (simLines s) p ->
  exists s', alightPassenger stationId (Some s) p = Some s'
             /\ stationsOk s' /\ queuesOk s' /\ samePlant s s'
             /\ thas (keyOf stationId) (stationQueues s') = true.
Proof.
  intros Hst Hq Hhas Hp. unfold alightPassenger. cbv zeta.
  set (passenger := Passenger.set_currentLegIndex _ p).
  assert (Hp' : passengerOk (simLines s) passenger) by exact Hp.
  match goal with |- context [if ?b then _ else _] => destruct b end.
  - destruct (completeTrip_ok Hst Hq Hp') as (s' & E & H1 & H2 & H3 & H4).
    exists s'. rewrite H4. auto.
  - destruct (thas_tget _ _ Hhas) as [queue Hqueue]. rewrite Hqueue.
    eexists. split; [reflexivity|].
    assert (Hok : Forall (passengerOk (simLines s)) (queue ++ [passenger])).
    { apply Forall_app. split.
      - apply (Hq (keyOf stationId) queue). apply tget_In. exact Hqueue.
      - constructor; [exact Hp' | constructor]. }
    destruct (@queue_update_ok s (keyOf stationId) (queue ++ [passenger]) Hst Hq Hok)
      as [H1 H2].
    split; [exact H1|]. split; [exact H2|]. split; [reflexivity|].
    apply thas_tset. right. reflexivity.
Qed.

Lemma alighting_fold_ok stationId alighting s :
  stationsOk s -> queuesOk s -> thas (keyOf stationId) (stationQueues s) = true ->
  Forall (passengerOk (simLines s)) alighting ->
  exists s', fold_left (alightPassenger stationId) alighting (Some s) = Some s'
             /\ stationsOk s' /\ queuesOk s' /\ samePlant s s'
             /\ thas (keyOf stationId) (stationQueues s') = true.
Proof.
  revert s. induction alighting as [|p alighting IH]; intros s Hst Hq Hhas Hall;
    cbn [fold_left].
  - exists s. split; [reflexivity|]. split; [exact Hst|]. split; [exact Hq|].
    split; [apply samePlant_refl | exact Hhas].
  - inversion Hall as [|? ? Hp Hrest]. subst.
    destruct (alightPassenger_ok stationId Hst Hq Hhas Hp) as (s1 & E & H1 & H2 & H3 & H4).
    rewrite E.
    destruct (IH s1 H1 H2 H4) as (s2 & E2 & G1 & G2 & G3 & G4).
    { rewrite (samePlant_simLines H3). exact Hrest. }
    exists s2. split; [exact E2|]. split; [exact G1|]. split; [exact G2|].
    split; [eapply samePlant_trans; eassumption | exact G4].
Qed.

Lemma boardStep_ok s train acc p :
  let lines := simLines s in
  Forall (fun p => Passenger.route p <> None /\ passengerOk lines p) (fst (fst acc)) ->
  Forall (passengerOk lines) (snd acc) ->
  passengerOk lines p ->
  let acc' := boardStep s train acc p in
  Forall (fun p => Passenger.route p <> None /\ passengerOk lines p) (fst (fst acc'))
  /\ Forall (passengerOk lines) (snd acc')
  /\ (forall q, In q (fst (fst acc')) -> In q (fst (fst acc)) \/ boardable (Train.lineId train) q).
Proof.
  intros lines H1 H2 Hp. unfold boardStep. destruct acc as [[onboard boarding] queued].
  simpl in H1, H2. cbv zeta.
  destruct (_ <=? _)%Z; simpl.
  { split; [exact H1|]. split; [|auto].
    apply Forall_app. split; [exact H2 | constructor; [exact Hp | constructor]]. }
  set (passenger := match Passenger.route p with None => _ | Some _ => p end).
  assert (Hpass : passengerOk lines passenger).
  { subst passenger. destruct (Passenger.route p) eqn:Er; [exact Hp|].
    intros r Hr. simpl in Hr. apply findRoute_sound in Hr. apply Hr. }
  destruct (Passenger.route passenger) as [route|] eqn:Eroute; simpl.
  - destruct (nth_error _ _) as [leg|] eqn:Eleg; simpl.
    + destruct (Id_eqb (RouteLeg.lineId leg) (Train.lineId train)) eqn:Eline; simpl.
      * destruct (isTrainHeadingToStation _ _ _); simpl.
        -- split; [|split; [exact H2|]].
           ++ apply Forall_app. split; [exact H1|]. constructor; [|constructor].
              split; [congruence | exact Hpass].
           ++ intros q Hq. apply in_app_or in Hq. destruct Hq as [Hq|[Hq|[]]]; [auto|].
              subst q. right. exists route, leg. apply Id_eqb_eq in Eline. auto.
        -- split; [exact H1|]. split; [|auto].
           apply Forall_app. split; [exact H2 | constructor; [exact Hpass | constructor]].
      * split; [exact H1|]. split; [|auto].
        apply Forall_app. split; [exact H2 | constructor; [exact Hpass | constructor]].
    + split; [exact H1|]. split; [|auto].
      apply Forall_app. split; [exact H2 | constructor; [exact Hpass | constructor]].
  - split; [exact H1|]. split; [|auto].
    apply Forall_app. split; [exact H2 | constructor; [exact Hpass | constructor]].
Qed.

Lemma board_fold_ok s train queue onboard :
  let lines := simLines s in
  Forall (fun p => Passenger.route p <> None /\ passengerOk lines p) onboard ->
  Forall (passengerOk lines) queue ->
  let acc := fold_left (boardStep s train) queue (onboard, 0%Z, []) in
  Forall (fun p => Passenger.route p <> None /\ passengerOk lines p) (fst (fst acc))
  /\ Forall (passengerOk lines) (snd acc)
  /\ (forall q, In q (fst (fst acc)) -> In q onboard \/ boardable (Train.lineId train) q).
Proof.
  intros lines H1 H2. cbv zeta.
  apply (@fold_left_invariant _ _ (boardStep s train)
           (fun acc =>
              Forall (fun p => Passenger.route p <> None /\ passengerOk lines p) (fst (fst acc))
              /\ Forall (passengerOk lines) (snd acc)
              /\ (forall q, In q (fst (fst acc)) ->
                    In q onboard \/ boardable (Train.lineId train) q))).
  - simpl. split; [exact H1|]. split; [constructor | auto].
  - intros a b Hb (Ha1 & Ha2 & Ha3).
    destruct (@boardStep_ok s train a b Ha1 Ha2) as (G1 & G2 & G3).
    { rewrite Forall_forall in H2. apply H2. exact Hb. }
    split; [exact G1|]. split; [exact G2|].
    intros q Hq. destruct (G3 q Hq) as [Hq'|Hq']; [apply Ha3; exact Hq' | right; exact Hq'].
Qed.
End ArrivalFacts.

Section TrainFacts.
Context {Math : MathLib}.

(** What an arrival does to the train record itself. *)
Lemma handleStationArrival_train s train line sd s' train' :
  handleStationArrival s train line sd = Some (s', train') ->
  Train.speed train' = 0
  /\ Train.state train' = dwelling
  /\ Train.distanceAlongLine train' = StationDist.distance sd
  /\ Train.direction train' = Train.direction train
  /\ Train.id train' = Train.id train
  /\ Train.lineId train' = Train.lineId train.
Proof.
  unfold handleStationArrival. cbv zeta.
  destruct (tget _ (simStations s)) as [station|].
  - destruct (fold_left (alightStep _) _ _) as [staying alighting].
    destruct (fold_left (alightPassenger _) _ _) as [s1|]; [|discriminate].
    destruct (tget _ (stationQueues s1)) as [queue|].
    + destruct (fold_left (boardStep _ _) _ _) as [[onboard boarding] queued].
      intro H. inversion H. subst. simpl. auto 10.
    + intro H. inversion H. subst. simpl. auto 10.
  - intro H. inversion H. subst. simpl. auto 10.
Qed.

Lemma handleStationArrival_ok s train line sd :
  stationsOk s -> queuesOk s -> onboardOk (simLines s) train ->
  exists s' train',
    handleStationArrival s train line sd = Some (s', train')
    /\ stationsOk s' /\ queuesOk s' /\ samePlant s s'
    /\ onboardOk (simLines s') train'
    /\ (forall q, In q (Train.passengers train') ->
          In q (Train.passengers train) \/ boardable (Train.lineId train) q).
Proof.
  intros Hst Hq Hon. unfold handleStationArrival. cbv zeta.
  destruct (tget _ (simStations s)) as [station|] eqn:Estation.
  - destruct (Hst _ _ (tget_In _ _ Estation)) as [Hkey Hhas]. rewrite <- Hkey in Hhas.
    pose proof (@alight_fold_ok (simLines s) (SimStation.id station) (Train.passengers train) Hon)
      as Hal. cbv zeta in Hal. simpl Train.passengers.
    destruct (fold_left (alightStep _) _ _) as [staying alighting] eqn:Efold.
    simpl in Hal. destruct Hal as [Hstay Halight].
    assert (Hsub : forall q, In q staying -> In q (Train.passengers train)).
    { clear - Efold. intros q.
      assert (G : forall l acc, fold_left (alightStep (SimStation.id station)) l acc
                                = (staying, alighting) ->
                                In q staying -> In q (fst acc) \/ In q l).
      { induction l as [|x l IH]; simpl; intros acc E Hin.
        - rewrite E. left. exact Hin.
        - destruct (IH _ E Hin) as [H|H]; [|right; right; exact H].
          unfold alightStep in H. destruct acc as [st al].
          destruct (Passenger.route x); [|left; exact H].
          destruct (nth_error _ _); [destruct (Id_eqb _ _)|]; simpl in H;
            try (left; exact H);
            apply in_app_or in H; destruct H as [H|[H|[]]]; auto. }
      intro Hin. destruct (G _ _ Efold Hin) as [H|H]; [destruct H | exact H]. }
    destruct (@alighting_fold_ok (SimStation.id station) alighting s Hst Hq Hhas)
      as (s1 & E1 & Hst1 & Hq1 & Hpl1 & Hhas1).
    { eapply Forall_impl; [|exact Halight]. intros a Ha. apply Ha. }
    rewrite E1.
    destruct (thas_tget _ _ Hhas1) as [queue Equeue]. rewrite Equeue.
    pose proof (samePlant_simLines Hpl1) as Hlines.
    match goal with
    | |- context [fold_left (boardStep ?s0 ?t0) queue ?init] =>
        pose proof (@board_fold_ok s0 t0 queue staying) as Hb;
        destruct (fold_left (boardStep s0 t0) queue init) as [[onboard boarding] queued]
    end.
    cbv zeta in Hb. simpl in Hb. rewrite Hlines in Hb.
    destruct Hb as (Hb1 & Hb2 & Hb3); [exact Hstay | |].
    { rewrite <- Hlines. apply (Hq1 _ _ (tget_In _ _ Equeue)). }
    do 2 eexists. split; [reflexivity|].
    destruct (@queue_update_ok s1 (keyOf (SimStation.id station)) queued Hst1 Hq1) as [G1 G2].
    { rewrite Hlines. exact Hb2. }
    split; [exact G1|]. split; [exact G2|].
    split; [eapply samePlant_trans; [exact Hpl1 | reflexivity]|].
    split.
    + change (Forall (fun p => Passenger.route p <> None /\ passengerOk (simLines s1) p)
                     onboard).
      rewrite Hlines. exact Hb1.
    + simpl. intros q Hin. destruct (Hb3 q Hin) as [H|H]; [left; apply Hsub; exact H | right; exact H].
  - do 2 eexists. split; [reflexivity|].
    split; [exact Hst|]. split; [exact Hq|]. split; [apply samePlant_refl|].
    split; [exact Hon | auto].
Qed.

Lemma turnAtLineEnd_fields line train :
  let train' := turnAtLineEnd line train in
  Train.speed train' = Train.speed train
  /\ Train.state train' = Train.state train
  /\ Train.id train' = Train.id train
  /\ Train.lineId train' = Train.lineId train
  /\ Train.passengers train' = Train.passengers train.
Proof.
  unfold turnAtLineEnd. destruct (Qle_bool _ _); [simpl; auto|].
  destruct (Qle_bool _ _); simpl; auto.
Qed.

(** One train's update never fails and keeps the structural invariants. *)
Lemma updateTrain_ok s train :
  stationsOk s -> queuesOk s -> onboardOk (simLines s) train ->
  trainLinked (simLines s) train ->
  exists s' train' moved,
    updateTrain s train = Some (s', train', moved)
    /\ stationsOk s' /\ queuesOk s' /\ samePlant s s'
    /\ onboardOk (simLines s') train' /\ trainLinked (simLines s') train'
    /\ Train.id train' = Train.id train
    /\ (forall q, In q (Train.passengers train') ->
          In q (Train.passengers train) \/ boardable (Train.lineId train') q).
Proof.
  intros Hst Hq Hon [Hline Hdw]. unfold updateTrain. cbv zeta.
  assert (Hsame : exists s' train' moved,
             Some (s, train, 0) = Some (s', train', moved)
             /\ stationsOk s' /\ queuesOk s' /\ samePlant s s'
             /\ onboardOk (simLines s') train' /\ trainLinked (simLines s') train'
             /\ Train.id train' = Train.id train
             /\ (forall q, In q (Train.passengers train') ->
                   In q (Train.passengers train) \/ boardable (Train.lineId train') q)).
  { exists s, train, 0. split; [reflexivity|]. split; [exact Hst|]. split; [exact Hq|].
    split; [apply samePlant_refl|]. split; [exact Hon|]. split; [split; assumption|]. auto. }
  destruct (tget _ (simLines s)) as [line|] eqn:Eline; [|exact Hsame].
  destruct (_ <? 2)%nat; [exact Hsame|]. clear Hsame.
  destruct (Train.state train) eqn:Estate.
  - (* moving *)
    match goal with
    | |- context [Train.set_distanceAlongLine ?d ?t0] =>
        set (train0 := t0); set (train1 := Train.set_distanceAlongLine _ train0)
    end.
    assert (Harr : exists s' train2,
               match getNextStation train line with
               | Some (nextStation, distToNextStation) =>
                   if Qle_bool distToNextStation (Train.speed train0 * TICK_SECONDS)
                   then handleStationArrival s train1 line nextStation
                   else Some (s, train1)
               | None => Some (s, train1)
               end = Some (s', train2)
               /\ stationsOk s' /\ queuesOk s' /\ samePlant s s'
               /\ onboardOk (simLines s') train2
               /\ Train.lineId train2 = Train.lineId train
               /\ Train.id train2 = Train.id train
               /\ (Train.state train2 = dwelling -> Train.speed train2 = 0)
               /\ (forall q, In q (Train.passengers train2) ->
                     In q (Train.passengers train) \/ boardable (Train.lineId train) q)).
    { assert (Hon1 : onboardOk (simLines s) train1).
      { subst train1 train0. unfold onboardOk.
        destruct (match getNextStation train line with Some _ => _ | None => _ end);
          exact Hon. }
      assert (Hf1 : Train.lineId train1 = Train.lineId train
                    /\ Train.id train1 = Train.id train
                    /\ Train.state train1 = moving
                    /\ Train.passengers train1 = Train.passengers train).
      { subst train1 train0.
        destruct (match getNextStation train line with Some _ => _ | None => _ end);
          simpl; auto. }
      destruct Hf1 as (F1 & F2 & F3 & F4).
      assert (Hstay : exists s' train2,
                 Some (s, train1) = Some (s', train2)
                 /\ stationsOk s' /\ queuesOk s' /\ samePlant s s'
                 /\ onboardOk (simLines s') train2
                 /\ Train.lineId train2 = Train.lineId train
                 /\ Train.id train2 = Train.id train
                 /\ (Train.state train2 = dwelling -> Train.speed train2 = 0)
                 /\ (forall q, In q (Train.passengers train2) ->
                       In q (Train.passengers train) \/ boardable (Train.lineId train) q)).
      { exists s, train1. split; [reflexivity|]. split; [exact Hst|]. split; [exact Hq|].
        split; [apply samePlant_refl|]. split; [exact Hon1|].
        split; [exact F1|]. split; [exact F2|].
        split; [intro H; rewrite F3 in H; discriminate|].
        intros q Hin. rewrite F4 in Hin. left. exact Hin. }
      destruct (getNextStation train line) as [[nextStation dist]|]; [|exact Hstay].
      destruct (Qle_bool _ _); [|exact Hstay].
      destruct (@handleStationArrival_ok s train1 line nextStation Hst Hq Hon1)
        as (s' & train2 & E & G1 & G2 & G3 & G4 & G5).
      destruct (handleStationArrival_train _ _ _ _ E) as (T1 & T2 & T3 & T4 & T5 & T6).
      exists s', train2. split; [exact E|]. split; [exact G1|]. split; [exact G2|].
      split; [exact G3|]. split; [exact G4|].
      split; [congruence|]. split; [congruence|]. split; [intros _; exact T1|].
      intros q Hin. destruct (G5 q Hin) as [H|H]; [left; rewrite <- F4; exact H|].
      right. rewrite <- F1. exact H. }
    destruct Harr as (s' & train2 & E & G1 & G2 & G3 & G4 & G5 & G6 & G7 & G8).
    rewrite E.
    pose proof (turnAtLineEnd_fields line train2) as Hturn. cbv zeta in Hturn.
    destruct Hturn as (U1 & U2 & U3 & U4 & U5).
    do 3 eexists. split; [reflexivity|].
    split; [exact G1|]. split; [exact G2|]. split; [exact G3|].
    split; [unfold onboardOk; rewrite U5; exact G4|].
    split.
    + split.
      * exists line. rewrite U4, G5, (samePlant_simLines G3). exact Eline.
      * rewrite U1, U2. intro H. rewrite (G7 H). reflexivity.
    + split; [congruence|]. rewrite U5, U4, G5. exact G8.
  - (* dwelling *)
    assert (H0 : Train.speed train == 0) by (apply Hdw; reflexivity).
    simpl. destruct (Qle_bool _ _); do 3 eexists; (split; [reflexivity|]);
      (split; [exact Hst|]); (split; [exact Hq|]); (split; [apply samePlant_refl|]);
      (split; [exact Hon|]); simpl;
      (split; [split; [exists line; exact Eline | intros _; exact H0] | auto]).
Qed.
End TrainFacts.

(* ===================================================================== *)
(** * The phases of a tick *)
(* ===================================================================== *)

Lemma sameFleet_trans (s1 s2 s3 : State) : sameFleet s1 s2 -> sameFleet s2 s3 -> sameFleet s1 s3.
Proof. unfold sameFleet. congruence. Qed.

Ltac fleet_field H f :=
  match type of H with
  | sameFleet ?s ?s' =>
      change (f (withoutLedger s') = f (withoutLedger s)); rewrite H; reflexivity
  end.

Lemma sameFleet_simLines s s' : sameFleet s s' -> simLines s' = simLines s.
Proof. intro H. fleet_field H simLines. Qed.

Lemma sameFleet_simStations s s' : sameFleet s s' -> simStations s' = simStations s.
Proof. intro H. fleet_field H simStations. Qed.

Lemma sameFleet_stationQueues s s' : sameFleet s s' -> stationQueues s' = stationQueues s.
Proof. intro H. fleet_field H stationQueues. Qed.

Lemma sameFleet_trains s s' : sameFleet s s' -> trains s' = trains s.
Proof. intro H. fleet_field H trains. Qed.

Lemma sameFleet_simTime s s' : sameFleet s s' -> simTime s' = simTime s.
Proof. intro H. fleet_field H simTime. Qed.

Lemma sameFleet_simulationInterval s s' :
  sameFleet s s' -> simulationInterval s' = simulationInterval s.
Proof. intro H. fleet_field H simulationInterval. Qed.


Lemma sameFleet_totalPassengerWaitTime s s' :
  sameFleet s s' -> totalPassengerWaitTime s' = totalPassengerWaitTime s.
Proof. intro H. fleet_field H totalPassengerWaitTime. Qed.

Lemma sameFleet_totalTrainKm s s' : sameFleet s s' -> totalTrainKm s' = totalTrainKm s.
Proof. intro H. fleet_field H totalTrainKm. Qed.

Section TickFacts.
Context {Math : MathLib}.

Lemma simulationTick_phases s :
  simulationTick s =
  match spawnPassengers (currentHourOf (clockAdvanced s)) (clockAdvanced s) with
  | Some s1 =>
      match updateTrains s1 with
      | Some s2 => Some (closeTick s2)
      | None => None
      end
  | None => None
  end.
Proof.
  unfold simulationTick, clockAdvanced, currentHourOf, closeTick. cbv zeta.
  destruct (_ <? _)%Z; reflexivity.
Qed.

(** The train loop: it never fails, keeps the invariants, and relates every
    train to its update by any relation [R] that one update establishes. *)
Lemma updateTrains_fold (R : Train.t -> Train.t -> Prop) s0 ts :
  (forall s t s' t' m,
      samePlant s0 s -> In t ts -> updateTrain s t = Some (s', t', m) -> R t t') ->
  Forall (onboardOk (simLines s0)) ts ->
  Forall (trainLinked (simLines s0)) ts ->
  forall s done dist,
    samePlant s0 s -> stationsOk s -> queuesOk s ->
    exists s' updated dist',
      fold_left updateTrainsStep ts (Some (s, done, dist)) = Some (s', done ++ updated, dist')
      /\ samePlant s0 s' /\ stationsOk s' /\ queuesOk s'
      /\ Forall (onboardOk (simLines s0)) updated
      /\ Forall (trainLinked (simLines s0)) updated
      /\ Forall2 R ts updated
      /\ Forall2 (fun t t' =>
                    Train.id t' = Train.id t
                    /\ forall q, In q (Train.passengers t') ->
                         In q (Train.passengers t) \/ boardable (Train.lineId t') q)
                 ts updated.
Proof.
  induction ts as [|t ts IH]; intros HR Hon Hln s done dist Hpl Hst Hq; cbn [fold_left].
  - exists s, [], dist. rewrite app_nil_r. split; [reflexivity|].
    split; [exact Hpl|]. split; [exact Hst|]. split; [exact Hq|].
    split; [constructor|]. split; [constructor|]. split; constructor.
  - inversion Hon as [|? ? Hon1 Hon']. inversion Hln as [|? ? Hln1 Hln']. subst.
    pose proof (samePlant_simLines Hpl) as Hlines.
    destruct (@updateTrain_ok s t Hst Hq) as
        (s1 & t1 & m & E & Hst1 & Hq1 & Hpl1 & Hon1' & Hln1' & Hid & Hpass).
    { rewrite Hlines. exact Hon1. }
    { rewrite Hlines. exact Hln1. }
    unfold updateTrainsStep at 2. rewrite E.
    assert (Hpl01 : samePlant s0 s1) by (eapply samePlant_trans; eassumption).
    pose proof (samePlant_simLines Hpl01) as Hlines1.
    destruct (IH (fun s t s' t' m Hs Hin => HR s t s' t' m Hs (or_intror Hin)) Hon' Hln'
                 s1 (done ++ [t1]) (dist + m) Hpl01 Hst1 Hq1)
      as (s2 & updated & dist' & E2 & G1 & G2 & G3 & G4 & G5 & G6 & G7).
    exists s2, (t1 :: updated), dist'.
    split; [rewrite E2, <- app_assoc; reflexivity|].
    split; [exact G1|]. split; [exact G2|]. split; [exact G3|].
    split; [constructor; [rewrite <- Hlines1; exact Hon1' | exact G4]|].
    split; [constructor; [rewrite <- Hlines1; exact Hln1' | exact G5]|].
    split; [constructor; [|exact G6]|constructor; [|exact G7]].
    + eapply HR; [exact Hpl | left; reflexivity | exact E].
    + split; assumption.
Qed.

Lemma updateTrains_ok (R : Train.t -> Train.t -> Prop) s :
  (forall s1 t s' t' m,
      samePlant s s1 -> In t (trains s) -> updateTrain s1 t = Some (s', t', m) -> R t t') ->
  stationsOk s -> queuesOk s ->
  Forall (onboardOk (simLines s)) (trains s) ->
  Forall (trainLinked (simLines s)) (trains s) ->
  exists s' plant km,
    updateTrains s = Some s'
    /\ samePlant s plant
    /\ s' = set_totalTrainKm (totalTrainKm s + km) (set_trains (trains s') plant)
    /\ stationsOk s' /\ queuesOk s'
    /\ Forall (onboardOk (simLines s')) (trains s')
    /\ Forall (trainLinked (simLines s')) (trains s')
    /\ Forall2 R (trains s) (trains s')
    /\ Forall2 (fun t t' =>
                  Train.id t' = Train.id t
                  /\ forall q, In q (Train.passengers t') ->
                       In q (Train.passengers t) \/ boardable (Train.lineId t') q)
               (trains s) (trains s').
Proof.
  intros HR Hst Hq Hon Hln. unfold updateTrains.
  destruct (@updateTrains_fold R s (trains s) HR Hon Hln s [] 0 (samePlant_refl s) Hst Hq)
    as (s1 & updated & dist' & E & G1 & G2 & G3 & G4 & G5 & G6 & G7).
  rewrite E. simpl app.
  pose proof (samePlant_simLines G1) as Hlines.
  pose proof (samePlant_totalTrainKm G1) as Hkm.
  exists (set_totalTrainKm (totalTrainKm s1 + dist' / 1000) (set_trains updated s1)),
         s1, (dist' / 1000).
  split; [reflexivity|]. split; [exact G1|].
  split; [rewrite Hkm; reflexivity|].
  split; [exact G2|]. split; [exact G3|].
  split; [change (Forall (onboardOk (simLines s1)) updated); rewrite Hlines; exact G4|].
  split; [change (Forall (trainLinked (simLines s1)) updated); rewrite Hlines; exact G5|].
  split; [exact G6 | exact G7].
Qed.
End TickFacts.

Section IncidentFacts.
Context {Math : MathLib}.

Lemma cleanupIncident_spec s inc :
  let s' := cleanupIncident s inc in
  sameFleet s s'
  /\ simTime s' = simTime s
  /\ outbox s' = outbox s ++ (if expired (simTime s) inc then [INCIDENT_EVENT inc false] else [])
  /\ (forall e, In e (activeIncidents s') ->
                In e (activeIncidents s)
                /\ (expired (simTime s) inc = true -> fst e <> String_ofZ (Incident.id inc))).
Proof.
  cbv zeta. unfold cleanupIncident, expired.
  destruct (Qle_bool _ _).
  - split; [reflexivity|]. split; [reflexivity|]. split; [reflexivity|].
    intros e He.
    change (In e (tdelete (String_ofZ (Incident.id inc)) (activeIncidents s))) in He.
    apply In_tdelete in He. destruct He as [H1 H2]. split; [exact H1 | intros _; exact H2].
  - split; [reflexivity|]. split; [reflexivity|].
    split; [rewrite app_nil_r; reflexivity|].
    intros e He. split; [exact He | discriminate].
Qed.

Lemma cleanup_fold l s :
  let s' := fold_left cleanupIncident l s in
  sameFleet s s'
  /\ outbox s' = outbox s ++ map (fun inc => INCIDENT_EVENT inc false)
                                 (filter (expired (simTime s)) l)
  /\ (forall e, In e (activeIncidents s') ->
                In e (activeIncidents s)
                /\ forall inc, In inc l -> expired (simTime s) inc = true ->
                               fst e <> String_ofZ (Incident.id inc)).
Proof.
  revert s. induction l as [|inc l IH]; intro s; cbn [fold_left].
  - cbv zeta. split; [reflexivity|]. split; [simpl; rewrite app_nil_r; reflexivity|].
    intros e H. split; [exact H | intros ? []].
  - destruct (cleanupIncident_spec s inc) as (F1 & T1 & O1 & A1).
    specialize (IH (cleanupIncident s inc)). cbv zeta in IH |- *.
    destruct IH as (F & O & A). rewrite T1 in O, A.
    split; [eapply sameFleet_trans; eassumption|].
    split.
    + rewrite O, O1, <- app_assoc. cbn [filter].
      destruct (expired (simTime s) inc); reflexivity.
    + intros e He. destruct (A e He) as [H1 H2]. destruct (A1 e H1) as [H3 H4].
      split; [exact H3|].
      intros i [Hi|Hi] Hex; [subst i; exact (H4 Hex) | exact (H2 i Hi Hex)].
Qed.

(** After [cleanupIncidents] only incidents that have not expired are
    active, and every expired one was announced as inactive. *)
Lemma cleanupIncidents_spec s :
  incidentsKeyed (activeIncidents s) (nextIncidentId s) ->
  let s' := cleanupIncidents s in
  sameFleet s s'
  /\ outbox s' = outbox s ++ map (fun inc => INCIDENT_EVENT inc false)
                                 (filter (expired (simTime s)) (tvalues (activeIncidents s)))
  /\ (forall k inc, In (k, inc) (activeIncidents s') ->
                    In (k, inc) (activeIncidents s) /\ expired (simTime s) inc = false).
Proof.
  intro Hk. cbv zeta. unfold cleanupIncidents.
  destruct (cleanup_fold (tvalues (activeIncidents s)) s) as (F & O & A). cbv zeta in F, O, A.
  split; [exact F|]. split; [exact O|].
  intros k inc Hin. destruct (A _ Hin) as [H1 H2]. split; [exact H1|].
  destruct (expired (simTime s) inc) eqn:Ex; [|reflexivity].
  exfalso. apply (H2 inc).
  - unfold tvalues. apply in_map_iff. exists (k, inc). split; [reflexivity | exact H1].
  - exact Ex.
  - apply (Hk k inc H1).
Qed.

Lemma checkForIncidents_spec s :
  incidentsKeyed (activeIncidents s) (nextIncidentId s) ->
  let s' := checkForIncidents s in
  sameFleet s s'
  /\ incidentsKeyed (activeIncidents s') (nextIncidentId s')
  /\ (forall e, In e (activeIncidents s) -> In e (activeIncidents s'))
  /\ (forall k inc, In (k, inc) (activeIncidents s') ->
        In (k, inc) (activeIncidents s) \/ simTime s < Incident.expiresAt inc)
  /\ (exists evs, outbox s' = outbox s ++ evs).
Proof.
  intro Hk. cbv zeta.
  assert (Hmono : forall next', (nextIncidentId s <= next')%Z ->
                                incidentsKeyed (activeIncidents s) next').
  { intros next' Hle k inc Hin. destruct (Hk k inc Hin) as (H1 & H2 & H3).
    split; [exact H1|]. split; [lia | exact H3]. }
  assert (Hadd : forall inc,
             Incident.id inc = nextIncidentId s -> 0 <= Incident.value inc ->
             simTime s < Incident.expiresAt inc ->
             let t := tset (String_ofZ (nextIncidentId s)) inc (activeIncidents s) in
             incidentsKeyed t (nextIncidentId s + 1)
             /\ (forall e, In e (activeIncidents s) -> In e t)
             /\ (forall k i, In (k, i) t ->
                   In (k, i) (activeIncidents s) \/ simTime s < Incident.expiresAt i)).
  { intros inc Hid Hv Hex. cbv zeta. split; [|split].
    - intros k i Hin. apply In_tset in Hin. destruct Hin as [Hin|Hin].
      + inversion Hin. subst. rewrite Hid. split; [reflexivity|]. split; [lia | exact Hv].
      + apply (Hmono (nextIncidentId s + 1)%Z); [lia | exact Hin].
    - intros [k i] Hin. apply In_tset_other; [exact Hin|].
      destruct (Hk k i Hin) as (H1 & H2 & _). subst k. intro E.
      apply String_ofZ_inj in E. lia.
    - intros k i Hin. apply In_tset in Hin. destruct Hin as [Hin|Hin].
      + inversion Hin. subst. right. exact Hex.
      + left. exact Hin. }
  unfold checkForIncidents, random. cbv zeta.
  destruct (Qlt_bool (totalTrainKm s - lastIncidentKm s) _).
  { split; [reflexivity|]. split; [exact Hk|]. split; [auto|]. split; [auto|].
    exists []. rewrite app_nil_r. reflexivity. }
  assert (Hnone : forall s1,
             sameFleet s s1 -> activeIncidents s1 = activeIncidents s ->
             nextIncidentId s1 = (nextIncidentId s + 1)%Z -> outbox s1 = outbox s ->
             sameFleet s s1
             /\ incidentsKeyed (activeIncidents s1) (nextIncidentId s1)
             /\ (forall e, In e (activeIncidents s) -> In e (activeIncidents s1))
             /\ (forall k inc, In (k, inc) (activeIncidents s1) ->
                   In (k, inc) (activeIncidents s) \/ simTime s < Incident.expiresAt inc)
             /\ (exists evs, outbox s1 = outbox s ++ evs)).
  { intros s1 F A N O. split; [exact F|]. rewrite A, N, O.
    split; [apply Hmono; lia|]. split; [auto|]. split; [auto|].
    exists []. rewrite app_nil_r. reflexivity. }
  destruct (Qlt_bool (Math_random _) _).
  - destruct (arrayGet _ _) as [randomTrain|]; [|apply Hnone; reflexivity].
    match goal with
    | |- context [INCIDENT_EVENT ?inc true] =>
        destruct (Hadd inc) as (A1 & A2 & A3);
          [reflexivity
          | apply Qle_bool_iff; reflexivity
          | change (simTime s < simTime s + 1800); lra |]
    end.
    split; [reflexivity|]. split; [exact A1|]. split; [exact A2|]. split; [exact A3|].
    eexists. reflexivity.
  - destruct (arrayGet _ _) as [randomStation|]; [|apply Hnone; reflexivity].
    match goal with
    | |- context [INCIDENT_EVENT ?inc true] =>
        destruct (Hadd inc) as (A1 & A2 & A3);
          [reflexivity
          | apply Qle_bool_iff; reflexivity
          | change (simTime s < simTime s + 1200); lra |]
    end.
    split; [reflexivity|]. split; [exact A1|]. split; [exact A2|]. split; [exact A3|].
    eexists. reflexivity.
Qed.
End IncidentFacts.

Unset Implicit Arguments.

Section TickStructure.
Context {Math : MathLib}.

Lemma clockAdvanced_simTime s : simTime (clockAdvanced s) = simTime s + TICK_SECONDS.
Proof. unfold clockAdvanced. cbv zeta. destruct (_ <? _)%Z; reflexivity. Qed.

(** The fields the clock step leaves alone, read through [f]. *)
Lemma clockAdvanced_keeps (A : Type) (f : State -> A) s :
  (forall v s, f (set_simTime v s) = f s) ->
  (forall v s, f (set_lastDayRollover v s) = f s) ->
  (forall v s, f (set_dailyLineRidership v s) = f s) ->
  (forall v s, f (set_dailyStationRidership v s) = f s) ->
  f (clockAdvanced s) = f s.
Proof.
  intros H1 H2 H3 H4. unfold clockAdvanced. cbv zeta.
  destruct (_ <? _)%Z; rewrite ?H2, ?H3, ?H4, ?H1; reflexivity.
Qed.

Lemma clockAdvanced_struct s :
  stationsOk s -> queuesOk s ->
  stationsOk (clockAdvanced s) /\ queuesOk (clockAdvanced s).
Proof.
  intros Hst Hq. unfold clockAdvanced. cbv zeta. destruct (_ <? _)%Z; split; assumption.
Qed.

(** The closing steps of a tick. *)
Lemma closeTick_spec s :
  incidentsKeyed (activeIncidents s) (nextIncidentId s) ->
  let s' := closeTick s in
  sameFleet s s'
  /\ incidentsOk s'
  /\ (exists evs,
        outbox s' = outbox s ++ evs ++ [TICK (tickPayload
                               (cleanupIncidents (checkForIncidents (updateEconomics s))))]
        /\ forall k inc, In (k, inc) (activeIncidents s) ->
             expired (simTime s) inc = true ->
             In (INCIDENT_EVENT inc false) evs /\ ~ In (k, inc) (activeIncidents s')).
Proof.
  intro Hk. cbv zeta. unfold closeTick. cbv zeta.
  set (s1 := updateEconomics s).
  assert (F1 : sameFleet s s1) by reflexivity.
  assert (Hk1 : incidentsKeyed (activeIncidents s1) (nextIncidentId s1)) by exact Hk.
  destruct (@checkForIncidents_spec _ s1 Hk1) as (F2 & Hk2 & Hin2 & Hnew2 & evs2 & O2).
  set (s2 := checkForIncidents s1) in *.
  destruct (@cleanupIncidents_spec s2 Hk2) as (F3 & O3 & A3).
  set (s3 := cleanupIncidents s2) in *.
  assert (T2 : simTime s2 = simTime s) by (rewrite (sameFleet_simTime F2); reflexivity).
  assert (T3 : simTime s3 = simTime s) by (rewrite (sameFleet_simTime F3); exact T2).
  split; [|split].
  - eapply sameFleet_trans; [exact F1|]. eapply sameFleet_trans; [exact F2|].
    eapply sameFleet_trans; [exact F3|]. reflexivity.
  - split.
    + intros k inc Hin.
      change (In (k, inc) (activeIncidents s3)) in Hin.
      destruct (A3 k inc Hin) as [H1 _].
      destruct (Hk2 k inc H1) as (K1 & K2 & K3).
      split; [exact K1|]. split; [|exact K3].
      change (Incident.id inc < nextIncidentId s3)%Z.
      assert (N : nextIncidentId s3 = nextIncidentId s2).
      { unfold s3, cleanupIncidents.
        apply (fold_left_keeps cleanupIncident nextIncidentId).
        intros a b. unfold cleanupIncident. destruct (Qle_bool _ _); reflexivity. }
      rewrite N. exact K2.
    + intros k inc Hin.
      change (In (k, inc) (activeIncidents s3)) in Hin.
      change (simTime s3 < Incident.expiresAt inc).
      destruct (A3 k inc Hin) as [_ H2]. unfold expired in H2.
      apply Qle_bool_false in H2. rewrite T3, <- T2. exact H2.
  - exists (evs2 ++ map (fun inc => INCIDENT_EVENT inc false)
                        (filter (expired (simTime s2)) (tvalues (activeIncidents s2)))).
    split.
    + change (outbox s3 ++ [TICK (tickPayload s3)]
              = outbox s ++ (evs2 ++ map (fun inc => INCIDENT_EVENT inc false)
                               (filter (expired (simTime s2)) (tvalues (activeIncidents s2))))
                ++ [TICK (tickPayload s3)]).
      rewrite O3, O2. change (outbox s1) with (outbox s).
      rewrite <- !app_assoc. reflexivity.
    + intros k inc Hin Hex.
      assert (Hin2' : In (k, inc) (activeIncidents s2)) by (apply Hin2; exact Hin).
      split.
      * apply in_or_app. right.
        apply in_map_iff. exists inc. split; [reflexivity|].
        apply filter_In. split.
        -- unfold tvalues. apply in_map_iff. exists (k, inc). split; [reflexivity | exact Hin2'].
        -- rewrite T2. exact Hex.
      * change (~ In (k, inc) (activeIncidents s3)). intro H.
        destruct (A3 k inc H) as [_ H']. rewrite T2 in H'. congruence.
Qed.

(** A tick from a state that satisfies the structural invariants: every
    phase returns, the invariants hold again, and every train is related to
    its update by any relation [R] that one update establishes. *)
Lemma simulationTick_struct (R : Train.t -> Train.t -> Prop) s :
  structOk s ->
  (forall s1 t s' t' m,
      samePlant (clockAdvanced s) s1 -> In t (trains s) ->
      updateTrain s1 t = Some (s', t', m) -> R t t') ->
  exists s1 s2,
    spawnPassengers (currentHourOf (clockAdvanced s)) (clockAdvanced s) = Some s1
    /\ samePlant (clockAdvanced s) s1
    /\ updateTrains s1 = Some s2
    /\ simulationTick s = Some (closeTick s2)
    /\ structOk (closeTick s2)
    /\ simLines s2 = simLines s
    /\ activeIncidents s2 = activeIncidents s
    /\ nextIncidentId s2 = nextIncidentId s
    /\ outbox s2 = outbox s
    /\ totalOpex s2 = totalOpex s
    /\ simulationInterval s2 = simulationInterval s
    /\ simTime s2 = simTime s + TICK_SECONDS
    /\ (exists km, totalTrainKm s2 = totalTrainKm s + km)
    /\ Forall2 R (trains s) (trains s2)
    /\ Forall2 (fun t t' =>
                  Train.id t' = Train.id t
                  /\ forall q, In q (Train.passengers t') ->
                       In q (Train.passengers t) \/ boardable (Train.lineId t') q)
               (trains s) (trains s2)
    /\ sameFleet s2 (closeTick s2)
    /\ simStations s2 = simStations s.
Proof.
  intros (Hst & Hq & Hsv & Hon & Hln & Hik & Hiu) HR.
  destruct (clockAdvanced_struct s Hst Hq) as [Hst0 Hq0].
  set (s0 := clockAdvanced s) in *.
  assert (K : forall (A : Type) (f : State -> A),
             (forall v s, f (set_simTime v s) = f s) ->
             (forall v s, f (set_lastDayRollover v s) = f s) ->
             (forall v s, f (set_dailyLineRidership v s) = f s) ->
             (forall v s, f (set_dailyStationRidership v s) = f s) ->
             f s0 = f s) by (intros; apply clockAdvanced_keeps; assumption).
  assert (L0 : simLines s0 = simLines s) by (apply K; reflexivity).
  assert (T0 : trains s0 = trains s) by (apply K; reflexivity).
  destruct (spawnPassengers_ok (currentHourOf s0) Hst0 Hq0) as (s1 & E1 & Hst1 & Hq1 & P1).
  pose proof (samePlant_simLines P1) as L1.
  pose proof (samePlant_trains P1) as T1.
  destruct (@updateTrains_ok R s1) as (s2 & plant & km & E2 & P2 & Es2 & Hst2 & Hq2 & Hon2 & Hln2
                                       & HR2 & Hid2).
  { intros sx t s' t' m Hs Hin Hu. apply (HR sx t s' t' m).
    - exact (samePlant_trans P1 Hs).
    - rewrite <- T0, <- T1. exact Hin.
    - exact Hu. }
  { exact Hst1. } { exact Hq1. }
  { rewrite L1, L0, T1, T0. exact Hon. }
  { rewrite L1, L0, T1, T0. exact Hln. }
  assert (P02 : samePlant s0 plant) by exact (samePlant_trans P1 P2).
  assert (L2 : simLines s2 = simLines s).
  { rewrite Es2. change (simLines plant = simLines s).
    rewrite (samePlant_simLines P02). exact L0. }
  assert (A2 : activeIncidents s2 = activeIncidents s).
  { rewrite Es2. change (activeIncidents plant = activeIncidents s).
    rewrite (samePlant_activeIncidents P02). apply K; reflexivity. }
  assert (N2 : nextIncidentId s2 = nextIncidentId s).
  { rewrite Es2. change (nextIncidentId plant = nextIncidentId s).
    rewrite (samePlant_nextIncidentId P02). apply K; reflexivity. }
  assert (Hk2 : incidentsKeyed (activeIncidents s2) (nextIncidentId s2))
    by (rewrite A2, N2; exact Hik).
  destruct (closeTick_spec s2 Hk2) as (F & Hinc & _).
  exists s1, s2.
  split; [exact E1|]. split; [exact P1|]. split; [exact E2|].
  split; [rewrite simulationTick_phases; fold s0; rewrite E1, E2; reflexivity|].
  split.
  { split; [|split; [|split; [|split; [|split]]]].
    - intros k st Hin. rewrite (sameFleet_simStations F) in Hin.
      rewrite (sameFleet_stationQueues F). exact (Hst2 k st Hin).
    - intros k q Hin. rewrite (sameFleet_stationQueues F) in Hin.
      rewrite (sameFleet_simLines F). exact (Hq2 k q Hin).
    - rewrite (sameFleet_simLines F), L2. exact Hsv.
    - rewrite (sameFleet_simLines F), (sameFleet_trains F). exact Hon2.
    - rewrite (sameFleet_simLines F), (sameFleet_trains F). exact Hln2.
    - exact Hinc. }
  split; [exact L2|]. split; [exact A2|]. split; [exact N2|].
  split.
  { rewrite Es2. change (outbox plant = outbox s).
    rewrite (samePlant_outbox P02). apply K; reflexivity. }
  split.
  { rewrite Es2. change (totalOpex plant = totalOpex s).
    rewrite (samePlant_totalOpex P02). apply K; reflexivity. }
  split.
  { rewrite Es2. change (simulationInterval plant = simulationInterval s).
    rewrite (samePlant_simulationInterval P02). apply K; reflexivity. }
  split.
  { rewrite Es2. change (simTime plant = simTime s + TICK_SECONDS).
    rewrite (samePlant_simTime P02). apply clockAdvanced_simTime. }
  split.
  { exists km. rewrite Es2.
    change (totalTrainKm s1 + km = totalTrainKm s + km).
    rewrite (samePlant_totalTrainKm P1).
    replace (totalTrainKm s0) with (totalTrainKm s) by (symmetry; apply K; reflexivity).
    reflexivity. }
  split; [rewrite <- T0, <- T1; exact HR2|].
  split; [rewrite <- T0, <- T1; exact Hid2|]. split; [exact F|].
  rewrite Es2. change (simStations plant = simStations s).
  rewrite (samePlant_simStations P02). apply K; reflexivity.
Qed.
End TickStructure.

(* ===================================================================== *)
(** * A network update establishes the invariants *)
(* ===================================================================== *)

Lemma In_insertSorted (A : Type) (key : A -> Q) (x y : A) (l : list A) :
  In y (insertSorted key x l) <-> y = x \/ In y l.
Proof.
  induction l as [|z l IH]; simpl; [intuition congruence|].
  destruct (Qle_bool (key x) (key z)); simpl; rewrite ?IH; intuition congruence.
Qed.

Lemma In_sortBy (A : Type) (key : A -> Q) (y : A) (l : list A) :
  In y (sortBy key l) <-> In y l.
Proof.
  unfold sortBy. induction l as [|x l IH]; simpl; [tauto|].
  rewrite In_insertSorted, IH. intuition congruence.
Qed.

Lemma length_insertSorted (A : Type) (key : A -> Q) (x : A) (l : list A) :
  List.length (insertSorted key x l) = S (List.length l).
Proof.
  induction l as [|z l IH]; simpl; [reflexivity|].
  destruct (Qle_bool (key x) (key z)); simpl; [reflexivity | rewrite IH; reflexivity].
Qed.

Lemma length_sortBy (A : Type) (key : A -> Q) (l : list A) :
  List.length (sortBy key l) = List.length l.
Proof.
  unfold sortBy. induction l as [|x l IH]; simpl; [reflexivity|].
  rewrite length_insertSorted, IH. reflexivity.
Qed.

Section NetworkFacts.
Context {Math : MathLib}.

Lemma addLineToFound_keeps p l t k st' :
  In (k, st') (addLineToFound p l t) ->
  exists st, In (k, st) t /\ SimStation.id st' = SimStation.id st.
Proof.
  induction t as [|[k0 st0] t IH]; simpl; [tauto|].
  destruct (p st0); simpl.
  - intros [H|H].
    + inversion H. subst. exists st0. split; [left; reflexivity | reflexivity].
    + exists st'. split; [right; exact H | reflexivity].
  - intros [H|H].
    + inversion H. subst. exists st'. split; [left; reflexivity | reflexivity].
    + destruct (IH H) as (st & H1 & H2). exists st. split; [right; exact H1 | exact H2].
Qed.

Lemma matchVertex_ok id coords t0 acc coord index :
  matchedOk coords t0 acc -> matchedOk coords t0 (matchVertex id coords acc coord index).
Proof.
  intros [H1 H2]. unfold matchVertex. destruct acc as [sds stations]. simpl in H1, H2.
  destruct (find _ _) as [station|]; [|split; assumption].
  split; simpl.
  - intros k st' Hin. apply addLineToFound_keeps in Hin.
    destruct Hin as (st1 & Hin1 & E1). destruct (H1 k st1 Hin1) as (st & Hin & E).
    exists st. split; [exact Hin | congruence].
  - apply Forall_app. split; [exact H2|]. constructor; [|constructor].
    exists index. reflexivity.
Qed.

Lemma matchVertices_ok id coords t0 rest index acc :
  matchedOk coords t0 acc -> matchedOk coords t0 (matchVertices id coords rest index acc).
Proof.
  revert index acc. induction rest as [|c rest IH]; intros index acc H; simpl; [exact H|].
  apply IH. apply matchVertex_ok. exact H.
Qed.

Lemma turfDistance_nonneg {MS : MathSpec Math} (a b : Coord) : 0 <= turfDistance a b.
Proof.
  unfold turfDistance. cbv zeta.
  match goal with
  | |- 0 <= 6371 * (2 * Math_atan2 ?y ?x) * 1000 =>
      assert (H : 0 <= Math_atan2 y x)
        by (apply Math_atan2_nonneg; apply Math_sqrt_nonneg)
  end.
  lra.
Qed.

Lemma fold_addSegment_ge {MS : MathSpec Math} l x : x <= fold_left addSegment l x.
Proof.
  revert x. induction l as [|seg l IH]; intro x; simpl; [lra|].
  eapply Qle_trans; [|apply IH]. unfold addSegment.
  pose proof (turfDistance_nonneg (fst seg) (snd seg)). lra.
Qed.

Lemma prefix_le_total {MS : MathSpec Math} n l :
  fold_left addSegment (firstn n l) 0 <= fold_left addSegment l 0.
Proof.
  rewrite <- (firstn_skipn n l) at 2. rewrite fold_left_app. apply fold_addSegment_ge.
Qed.

Lemma lineIdentity_state s lf :
  set_nextTrainId 0%Z (snd (lineIdentity s lf)) = set_nextTrainId 0%Z s.
Proof.
  unfold lineIdentity. destruct (line_properties_id lf); [reflexivity|].
  destruct (line_id lf); reflexivity.
Qed.

(** The state after [prepareLine]: the station table holds the stations it
    held, under the same keys and identifiers; a line is added to the line
    table only with two matched stations or more, each at a distance that
    is the length of a prefix of the line. *)
Lemma prepareLine_spec s lf :
  let s' := prepareLine s lf in
  (forall k st', In (k, st') (simStations s') ->
     exists st, In (k, st) (simStations s) /\ SimStation.id st' = SimStation.id st)
  /\ stationQueues s' = stationQueues s
  /\ trains s' = trains s
  /\ incidentView s' = incidentView s
  /\ linesOrigin s' = linesOrigin s
  /\ (simLines s' = simLines s
      \/ exists line,
           simLines s' = tset (keyOf (SimLine.id line)) line (simLines s)
           /\ (2 <= List.length (SimLine.stationDistances line))%nat
           /\ SimLine.length line = fold_left addSegment (segments (SimLine.coords line)) 0
           /\ Forall (fun sd => exists index,
                        StationDist.distance sd
                        = fold_left addSegment
                            (firstn index (segments (SimLine.coords line))) 0)
                     (SimLine.stationDistances line)).
Proof.
  cbv zeta. unfold prepareLine. cbv zeta.
  destruct (_ <? 2)%nat.
  { split; [intros k st' H; exists st'; split; [exact H | reflexivity]|].
    repeat (split; [reflexivity|]). left. reflexivity. }
  pose proof (lineIdentity_state s lf) as Hs1.
  destruct (lineIdentity s lf) as [id s1]. simpl in Hs1.
  assert (Hf : simStations s1 = simStations s /\ stationQueues s1 = stationQueues s
               /\ trains s1 = trains s /\ incidentView s1 = incidentView s
               /\ linesOrigin s1 = linesOrigin s /\ simLines s1 = simLines s).
  { repeat split;
      match goal with
      | |- ?f s1 = ?f s =>
          change (f (set_nextTrainId 0%Z s1) = f (set_nextTrainId 0%Z s));
          rewrite Hs1; reflexivity
      end. }
  destruct Hf as (F1 & F2 & F3 & F4 & F5 & F6).
  pose proof (matchVertices_ok id (line_coordinates lf) (simStations s)
                (line_coordinates lf) 0%nat ([], simStations s1)) as Hm.
  destruct (matchVertices id _ _ 0%nat ([], simStations s1)) as [sds stations].
  destruct Hm as [Hm1 Hm2].
  { split; simpl; [|constructor].
    intros k0 st0 Hin. exists st0. split; [rewrite <- F1; exact Hin | reflexivity]. }
  simpl in Hm1, Hm2.
  destruct (_ <? 2)%nat eqn:Elen.
  - split; [exact Hm1|]. split; [exact F2|]. split; [exact F3|]. split; [exact F4|].
    split; [exact F5|]. left. exact F6.
  - split; [exact Hm1|]. split; [exact F2|]. split; [exact F3|]. split; [exact F4|].
    split; [exact F5|]. right.
    match goal with |- context [tset _ ?l _] => exists l end.
    split; [rewrite <- F6; reflexivity|].
    apply Nat.ltb_ge in Elen. simpl.
    split; [rewrite length_sortBy; exact Elen|]. split; [reflexivity|].
    apply Forall_forall. intros sd Hin. apply In_sortBy in Hin.
    rewrite Forall_forall in Hm2. exact (Hm2 sd Hin).
Qed.
Lemma addStation_spec s f :
  stationsOk s -> queuesEmpty s ->
  let s' := addStationToSimulation s f in
  stationsOk s' /\ queuesEmpty s'
  /\ set_stationQueues [] (set_simStations [] s') = set_stationQueues [] (set_simStations [] s).
Proof.
  intros Hst Hq. cbv zeta. unfold addStationToSimulation. cbv zeta.
  set (id := match point_properties_id f with Some i => i | None => _ end).
  split; [|split; [|reflexivity]].
  - intros k st Hin.
    change (In (k, st) (tset (keyOf id)
              (SimStation.mk id (point_coordinates f)
                 match point_properties_name f with
                 | Some n => n
                 | None => ("Station " ++ keyOf id)%string
                 end []) (simStations s))) in Hin.
    change (keyOf (SimStation.id st) = k
            /\ thas k (tset (keyOf id) [] (stationQueues s)) = true).
    apply In_tset in Hin. destruct Hin as [Hin|Hin].
    + inversion Hin. subst. split; [reflexivity|]. apply thas_tset. right. reflexivity.
    + destruct (Hst k st Hin) as [H1 H2]. split; [exact H1|]. apply thas_tset. left. exact H2.
  - intros k q Hin.
    change (In (k, q) (tset (keyOf id) [] (stationQueues s))) in Hin.
    apply In_tset in Hin. destruct Hin as [Hin|Hin]; [congruence | exact (Hq k q Hin)].
Qed.

Lemma addStations_spec fs s :
  stationsOk s -> queuesEmpty s ->
  let s' := fold_left addStationToSimulation fs s in
  stationsOk s' /\ queuesEmpty s'
  /\ set_stationQueues [] (set_simStations [] s') = set_stationQueues [] (set_simStations [] s).
Proof.
  revert s. induction fs as [|f fs IH]; intros s Hst Hq; cbn [fold_left].
  - cbv zeta. split; [exact Hst|]. split; [exact Hq | reflexivity].
  - destruct (addStation_spec s f Hst Hq) as (H1 & H2 & H3).
    destruct (IH _ H1 H2) as (G1 & G2 & G3). cbv zeta in *.
    split; [exact G1|]. split; [exact G2|]. rewrite G3. exact H3.
Qed.

Lemma prepareLine_ok s lf :
  networkOk s ->
  (forall k line, In (k, line) (simLines s) -> prefixDistances line) ->
  let s' := prepareLine s lf in
  networkOk s'
  /\ (forall k line, In (k, line) (simLines s') -> prefixDistances line)
  /\ trains s' = trains s /\ incidentView s' = incidentView s
  /\ linesOrigin s' = linesOrigin s.
Proof.
  intros (Hst & Hq & Hnd & Hsv) Hpre. cbv zeta.
  destruct (prepareLine_spec s lf) as (S1 & S2 & S3 & S4 & S5 & S6). cbv zeta in *.
  assert (Hst' : stationsOk (prepareLine s lf)).
  { intros k st' Hin. destruct (S1 k st' Hin) as (st & Hin0 & E).
    rewrite S2, E. exact (Hst k st Hin0). }
  assert (Hq' : queuesEmpty (prepareLine s lf)).
  { intros k q Hin. rewrite S2 in Hin. exact (Hq k q Hin). }
  destruct S6 as [S6|(line & S6 & L1 & L2 & L3)]; rewrite S6.
  - split; [split; [exact Hst' | split; [exact Hq' | rewrite S6; split; assumption]]|].
    split; [exact Hpre|]. auto.
  - split; [split; [exact Hst' | split; [exact Hq'|]]|].
    + rewrite S6. split; [apply NoDup_tset; exact Hnd|].
      intros k l Hin. apply In_tset in Hin. destruct Hin as [Hin|Hin].
      * inversion Hin. subst. split; [reflexivity | exact L1].
      * exact (Hsv k l Hin).
    + split; [|auto].
      intros k l Hin. apply In_tset in Hin. destruct Hin as [Hin|Hin].
      * inversion Hin. subst. split; assumption.
      * exact (Hpre k l Hin).
Qed.

Lemma prepareLines_ok lfs s :
  networkOk s ->
  (forall k line, In (k, line) (simLines s) -> prefixDistances line) ->
  let s' := fold_left prepareLine lfs s in
  networkOk s'
  /\ (forall k line, In (k, line) (simLines s') -> prefixDistances line)
  /\ trains s' = trains s /\ incidentView s' = incidentView s
  /\ linesOrigin s' = linesOrigin s.
Proof.
  revert s. induction lfs as [|lf lfs IH]; intros s Hn Hp; cbn [fold_left].
  - cbv zeta. auto.
  - destruct (prepareLine_ok s lf Hn Hp) as (H1 & H2 & H3 & H4 & H5).
    destruct (IH _ H1 H2) as (G1 & G2 & G3 & G4 & G5). cbv zeta in *.
    split; [exact G1|]. split; [exact G2|].
    split; [congruence|]. split; congruence.
Qed.

Lemma spawnTrain_fold line spacing todo s :
  let s' := fold_left (spawnTrain line spacing) todo s in
  (exists news,
      trains s' = trains s ++ news
      /\ Forall (fun t => Train.lineId t = SimLine.id line
                          /\ Train.passengers t = []
                          /\ Train.state t = moving
                          /\ Train.direction t = Forward
                          /\ exists i, In i todo
                               /\ Train.distanceAlongLine t
                                  = spacing * inject_Z (Z.of_nat i))
                news)
  /\ set_trains [] (set_nextTrainId 0%Z s') = set_trains [] (set_nextTrainId 0%Z s).
Proof.
  revert s. induction todo as [|i todo IH]; intro s; cbn [fold_left]; cbv zeta.
  - split; [|reflexivity]. exists []. rewrite app_nil_r. split; [reflexivity | constructor].
  - specialize (IH (spawnTrain line spacing s i)). cbv zeta in IH.
    destruct IH as ((news & H1 & H2) & H3).
    split; [|rewrite H3; reflexivity].
    eexists (_ :: news). split.
    + rewrite H1. unfold spawnTrain at 1.
      change (trains (set_nextTrainId ?n (set_trains ?x s))) with x.
      rewrite <- app_assoc. reflexivity.
    + constructor.
      * simpl. split; [reflexivity|]. split; [reflexivity|]. split; [reflexivity|].
        split; [reflexivity|].
        exists i. split; [left; reflexivity | reflexivity].
      * eapply Forall_impl; [|exact H2].
        intros t (T1 & T2 & T3 & T5 & j & Hj & T4).
        split; [exact T1|]. split; [exact T2|]. split; [exact T3|]. split; [exact T5|].
        exists j. split; [right; exact Hj | exact T4].
Qed.

Lemma spawnTrainsForLine_spec s line :
  let s' := spawnTrainsForLine s line in
  (exists news, trains s' = trains s ++ news /\ Forall (spawnedOn line) news)
  /\ set_trains [] (set_nextTrainId 0%Z s') = set_trains [] (set_nextTrainId 0%Z s).
Proof.
  cbv zeta. unfold spawnTrainsForLine. destruct (_ <? 2)%nat.
  { split; [|reflexivity]. exists []. rewrite app_nil_r. split; [reflexivity | constructor]. }
  cbv zeta.
  destruct (spawnTrain_fold line (SimLine.length line / inject_Z (Z.of_nat TRAINS_PER_LINE))
              (seq 0 TRAINS_PER_LINE) s) as ((news & H1 & H2) & H3).
  split; [|exact H3]. exists news. split; [exact H1|].
  eapply Forall_impl; [|exact H2].
  intros t (T1 & T2 & T3 & T5 & i & Hi & T4). split; [exact T1|]. split; [exact T2|].
  split; [exact T3|]. split; [exact T5|]. exists i. apply in_seq in Hi. split; [lia | exact T4].
Qed.

Lemma spawn_fold lines s :
  let s' := fold_left spawnTrainsForLine lines s in
  (exists news,
      trains s' = trains s ++ news
      /\ Forall (fun t => exists line, In line lines /\ spawnedOn line t) news)
  /\ set_trains [] (set_nextTrainId 0%Z s') = set_trains [] (set_nextTrainId 0%Z s).
Proof.
  revert s. induction lines as [|line lines IH]; intro s; cbn [fold_left]; cbv zeta.
  - split; [|reflexivity]. exists []. rewrite app_nil_r. split; [reflexivity | constructor].
  - destruct (spawnTrainsForLine_spec s line) as ((n1 & A1 & A2) & A3). cbv zeta in *.
    destruct (IH (spawnTrainsForLine s line)) as ((n2 & B1 & B2) & B3).
    split; [|rewrite B3; exact A3].
    exists (n1 ++ n2). split; [rewrite B1, A1, app_assoc; reflexivity|].
    apply Forall_app. split.
    + eapply Forall_impl; [|exact A2]. intros t Ht. exists line. split; [left; reflexivity | exact Ht].
    + eapply Forall_impl; [|exact B2]. intros t (l & Hl & Ht). exists l. split; [right; exact Hl | exact Ht].
Qed.
(** Reads a field off both sides of an equation between erased states. *)
Ltac via_frame H :=
  match type of H with
  | ?e1 = ?e2 =>
      match goal with
      | |- ?f _ = ?f _ => change (f e1 = f e2); rewrite H; reflexivity
      end
  end.

Lemma updateNetwork_spec lines stations s :
  let s' := updateNetwork lines stations s in
  networkOk s'
  /\ (forall k line, In (k, line) (simLines s') -> prefixDistances line)
  /\ Forall (fun t => exists k line, In (k, line) (simLines s') /\ spawnedOn line t) (trains s')
  /\ incidentView s' = incidentView s
  /\ linesOrigin s' = lines.
Proof.
  cbv zeta. unfold updateNetwork, prepareLines. cbv zeta.
  set (s2 := resetSimulation (set_stationsOrigin stations (set_linesOrigin lines s))).
  assert (N2 : networkOk s2).
  { split; [intros k st []|]. split; [intros k q []|]. split; [constructor | intros k l []]. }
  destruct N2 as (A1 & A2 & A3).
  destruct (addStations_spec (stationsOrigin s2) s2 A1 A2) as (B1 & B2 & B3). cbv zeta in *.
  set (s3 := fold_left addStationToSimulation (stationsOrigin s2) s2) in *.
  assert (L3 : simLines s3 = simLines s2) by via_frame B3.
  assert (T3 : trains s3 = trains s2) by via_frame B3.
  assert (I3 : incidentView s3 = incidentView s2) by via_frame B3.
  assert (O3 : linesOrigin s3 = linesOrigin s2) by via_frame B3.
  assert (N3 : networkOk s3).
  { split; [exact B1|]. split; [exact B2|]. rewrite L3. exact A3. }
  destruct (prepareLines_ok (linesOrigin s3) s3 N3) as (C1 & C2 & C3 & C4 & C5).
  { rewrite L3. intros k l []. }
  cbv zeta in *.
  set (s4 := fold_left prepareLine (linesOrigin s3) s3) in *.
  destruct (spawn_fold (tvalues (simLines s4)) s4) as ((news & D1 & D2) & D3). cbv zeta in *.
  set (s5 := fold_left spawnTrainsForLine (tvalues (simLines s4)) s4) in *.
  assert (L5 : simLines s5 = simLines s4) by via_frame D3.
  assert (S5 : simStations s5 = simStations s4) by via_frame D3.
  assert (Q5 : stationQueues s5 = stationQueues s4) by via_frame D3.
  assert (I5 : incidentView s5 = incidentView s4) by via_frame D3.
  assert (O5 : linesOrigin s5 = linesOrigin s4) by via_frame D3.
  change (networkOk s5
          /\ (forall k line, In (k, line) (simLines s5) -> prefixDistances line)
          /\ Forall (fun t => exists k line, In (k, line) (simLines s5) /\ spawnedOn line t)
                    (trains s5)
          /\ incidentView s5 = incidentView s
          /\ linesOrigin s5 = lines).
  destruct C1 as (C1a & C1b & C1c).
  split; [|split; [|split; [|split]]].
  - split; [|split].
    + intros k st Hin. rewrite S5 in Hin. rewrite Q5. exact (C1a k st Hin).
    + intros k q Hin. rewrite Q5 in Hin. exact (C1b k q Hin).
    + rewrite L5. exact C1c.
  - rewrite L5. exact C2.
  - rewrite D1, C3, T3. change (trains s2) with (@nil Train.t). simpl.
    eapply Forall_impl; [|exact D2]. intros t (line & Hl & Ht).
    unfold tvalues in Hl. apply in_map_iff in Hl. destruct Hl as ([k l] & E & Hin).
    simpl in E. subst l. exists k, line. rewrite L5. split; assumption.
  - rewrite I5, C4, I3. reflexivity.
  - rewrite O5, C5, O3. reflexivity.
Qed.

Lemma spawnedOn_linked lines k line t :
  servicedOk lines -> In (k, line) lines -> spawnedOn line t ->
  onboardOk lines t /\ trainLinked lines t /\ tget (keyOf (Train.lineId t)) lines = Some line.
Proof.
  intros [Hnd Hsv] Hin (T1 & T2 & T3 & _ & _).
  destruct (Hsv k line Hin) as [Hk _].
  assert (Hget : tget (keyOf (Train.lineId t)) lines = Some line).
  { rewrite T1, <- Hk. apply In_tget_NoDup; assumption. }
  split; [unfold onboardOk; rewrite T2; constructor|].
  split; [|exact Hget].
  split; [exists line; exact Hget | rewrite T3; discriminate].
Qed.

(** A network update establishes the structural invariants. *)
Lemma updateNetwork_struct lines stations s :
  incidentsOk s -> structOk (updateNetwork lines stations s).
Proof.
  intros [Hik Hiu].
  destruct (updateNetwork_spec lines stations s) as ((N1 & N2 & N3) & _ & T & I & _).
  cbv zeta in *.
  split; [exact N1|]. split; [|split; [exact N3|split; [|split]]].
  - intros k q Hin. rewrite (N2 k q Hin). constructor.
  - eapply Forall_impl; [|exact T]. intros t (k & line & Hin & Ht).
    exact (proj1 (spawnedOn_linked _ k line t N3 Hin Ht)).
  - eapply Forall_impl; [|exact T]. intros t (k & line & Hin & Ht).
    exact (proj1 (proj2 (spawnedOn_linked _ k line t N3 Hin Ht))).
  - unfold incidentView in I.
    assert (I1 : activeIncidents (updateNetwork lines stations s) = activeIncidents s)
      by congruence.
    assert (I2 : nextIncidentId (updateNetwork lines stations s) = nextIncidentId s)
      by congruence.
    assert (I3 : simTime (updateNetwork lines stations s) = simTime s) by congruence.
    split; [rewrite I1, I2; exact Hik|].
    rewrite I1, I3. exact Hiu.
Qed.

Lemma prefixDistances_lineOk {MS : MathSpec Math} line : prefixDistances line -> lineOk line.
Proof.
  intros [H1 H2]. split.
  - rewrite H1. apply fold_addSegment_ge.
  - eapply Forall_impl; [|exact H2]. intros sd [index E]. rewrite E, H1. split.
    + apply fold_addSegment_ge.
    + apply prefix_le_total.
Qed.

(** A network update establishes the geometric invariants. *)
Lemma updateNetwork_geom {MS : MathSpec Math} lines stations s :
  geomOk (updateNetwork lines stations s).
Proof.
  destruct (updateNetwork_spec lines stations s) as ((N1 & N2 & N3) & P & T & _ & _).
  cbv zeta in *. set (s' := updateNetwork lines stations s) in *.
  split.
  - intros k line Hin. apply prefixDistances_lineOk. exact (P k line Hin).
  - eapply Forall_impl; [|exact T]. intros t (k & line & Hin & Ht).
    destruct (spawnedOn_linked _ k line t N3 Hin Ht) as (_ & _ & Hget).
    intros line' Hget'. rewrite Hget in Hget'. inversion Hget'. subst line'.
    destruct (prefixDistances_lineOk line (P k line Hin)) as [Hlen _].
    destruct Ht as (_ & _ & _ & Hfw & i & Hi & Hd). unfold atEnds. rewrite Hd, Hfw.
    unfold TRAINS_PER_LINE in *.
    assert (Hcase : (i = 0 \/ i = 1 \/ i = 2 \/ i = 3)%nat) by lia.
    destruct Hcase as [E|[E|[E|E]]]; subst i; unfold Qdiv;
      change (/ inject_Z (Z.of_nat 4)) with (1 # 4);
      [change (inject_Z (Z.of_nat 0)) with 0
      |change (inject_Z (Z.of_nat 1)) with 1
      |change (inject_Z (Z.of_nat 2)) with 2
      |change (inject_Z (Z.of_nat 3)) with 3];
      (split; [split; lra|]); intro Hpos; (split; [intro Heq; exfalso; lra | reflexivity]).
Qed.
End NetworkFacts.

(* ===================================================================== *)
(** * One train's update: position, direction, speed *)
(* ===================================================================== *)

Section KinematicsFacts.
Context {Math : MathLib}.

Lemma turnAtLineEnd_spec line t :
  0 <= SimLine.length line ->
  let t' := turnAtLineEnd line t in
  0 <= Train.distanceAlongLine t' <= SimLine.length line
  /\ atEnds line t'
  /\ (Train.direction t' <> Train.direction t ->
      (Train.direction t' = Backward /\ Train.distanceAlongLine t' = SimLine.length line)
      \/ (Train.direction t' = Forward /\ Train.distanceAlongLine t' = 0)).
Proof.
  intro Hlen. cbv zeta. unfold turnAtLineEnd, atEnds.
  destruct (Qle_bool (SimLine.length line) _) eqn:E1.
  - simpl. split; [lra|]. split; [|intros _; left; auto].
    intro Hpos. split; [reflexivity | intro H; exfalso; lra].
  - destruct (Qle_bool _ 0) eqn:E2.
    + simpl. split; [lra|]. split; [|intros _; right; auto].
      intro Hpos. split; [intro H; exfalso; lra | reflexivity].
    + apply Qle_bool_false in E1. apply Qle_bool_false in E2.
      split; [lra|]. split; [|intro H; contradiction H; reflexivity].
      intro Hpos. split; intro H; exfalso; lra.
Qed.

(** Where a train is after its update, and how its direction changed. *)
Lemma updateTrain_geom s t s' t' m line :
  updateTrain s t = Some (s', t', m) ->
  tget (keyOf (Train.lineId t)) (simLines s) = Some line ->
  0 <= SimLine.length line ->
  0 <= Train.distanceAlongLine t <= SimLine.length line /\ atEnds line t ->
  Train.lineId t' = Train.lineId t
  /\ 0 <= Train.distanceAlongLine t' <= SimLine.length line
  /\ atEnds line t'
  /\ (Train.direction t' <> Train.direction t ->
      (Train.direction t' = Backward /\ Train.distanceAlongLine t' = SimLine.length line)
      \/ (Train.direction t' = Forward /\ Train.distanceAlongLine t' = 0)).
Proof.
  intros Hu Hline Hlen [Hd Hends]. unfold updateTrain in Hu. rewrite Hline in Hu.
  cbv zeta in Hu.
  assert (Hsame : Some (s, t, 0) = Some (s', t', m) ->
                  Train.lineId t' = Train.lineId t
                  /\ 0 <= Train.distanceAlongLine t' <= SimLine.length line
                  /\ atEnds line t'
                  /\ (Train.direction t' <> Train.direction t ->
                      (Train.direction t' = Backward
                       /\ Train.distanceAlongLine t' = SimLine.length line)
                      \/ (Train.direction t' = Forward /\ Train.distanceAlongLine t' = 0))).
  { intro H. inversion H. subst. split; [reflexivity|]. split; [exact Hd|].
    split; [exact Hends|]. intro C. contradiction C. reflexivity. }
  destruct (_ <? 2)%nat; [exact (Hsame Hu)|]. clear Hsame.
  destruct (Train.state t).
  - (* moving *)
    match type of Hu with
    | match ?arrived with Some _ => _ | None => _ end = _ =>
        destruct arrived as [[s2 t2]|] eqn:Earr; [|discriminate]
    end.
    inversion Hu. subst s' t' m. clear Hu.
    assert (Hdir : Train.direction t2 = Train.direction t /\ Train.lineId t2 = Train.lineId t).
    { destruct (getNextStation t line) as [[nextStation dist]|].
      - destruct (Qle_bool dist _).
        + apply handleStationArrival_train in Earr.
          destruct Earr as (_ & _ & _ & H4 & _ & H6). rewrite H4, H6.
          destruct (Qlt_bool dist _); split; reflexivity.
        + inversion Earr. subst. destruct (Qlt_bool dist _); split; reflexivity.
      - inversion Earr. subst. split; reflexivity. }
    destruct Hdir as [Hdir Hlid].
    pose proof (turnAtLineEnd_spec line t2 Hlen) as Hturn. cbv zeta in Hturn.
    destruct (turnAtLineEnd_fields line t2) as (_ & _ & _ & U4 & _).
    rewrite <- Hdir, <- Hlid. split; [exact U4 | exact Hturn].
  - (* dwelling *)
    destruct (Qle_bool _ 0); inversion Hu; subst; simpl;
      (split; [reflexivity|]; split; [exact Hd|]; split; [exact Hends|];
       intro C; contradiction C; reflexivity).
Qed.

Lemma speedCap_fold_le trainId l acc :
  fold_left (speedCap trainId) l acc <= acc.
Proof.
  revert acc. induction l as [|inc l IH]; intro acc; simpl; [lra|].
  eapply Qle_trans; [apply IH|].
  unfold speedCap. destruct (Incident.type inc); [|lra].
  destruct (Id_eqb _ _); [apply Math_min_le_l | lra].
Qed.



End KinematicsFacts.

(* ===================================================================== *)
(** * The invariants hold in every reachable state *)
(* ===================================================================== *)

Section Reachability.
Context {Math : MathLib}.

Lemma structOk_view s s' : coreView s' = coreView s -> structOk s -> structOk s'.
Proof.
  unfold coreView. intro E.
  assert (E1 : simStations s' = simStations s) by congruence.
  assert (E2 : stationQueues s' = stationQueues s) by congruence.
  assert (E3 : simLines s' = simLines s) by congruence.
  assert (E4 : trains s' = trains s) by congruence.
  assert (E5 : activeIncidents s' = activeIncidents s) by congruence.
  assert (E6 : nextIncidentId s' = nextIncidentId s) by congruence.
  assert (E7 : simTime s' = simTime s) by congruence.
  unfold structOk, stationsOk, queuesOk, incidentsOk.
  rewrite E1, E2, E3, E4, E5, E6, E7. tauto.
Qed.

Lemma geomOk_view s s' : coreView s' = coreView s -> geomOk s -> geomOk s'.
Proof.
  unfold coreView. intro E.
  assert (E3 : simLines s' = simLines s) by congruence.
  assert (E4 : trains s' = trains s) by congruence.
  unfold geomOk. rewrite E3, E4. tauto.
Qed.

Lemma randoms_view n s : coreView (snd (randoms n s)) = coreView s.
Proof.
  revert s. induction n as [|n IH]; intro s; simpl; [reflexivity|].
  unfold random. specialize (IH (set_randomCalls (S (randomCalls s)) s)).
  destruct (randoms n _) as [rs s1]. simpl in *. rewrite IH. reflexivity.
Qed.

Lemma demandCells_view cells acc :
  coreView (snd (fold_left demandCell cells acc)) = coreView (snd acc).
Proof.
  revert acc. induction cells as [|c cells IH]; intro acc; simpl; [reflexivity|].
  rewrite IH. unfold demandCell, random. destruct acc as [grid s]. cbv zeta.
  destruct (8 <? _)%Z; reflexivity.
Qed.

Lemma createDemandGrid_view s : coreView (createDemandGrid s) = coreView s.
Proof.
  unfold createDemandGrid. cbv zeta.
  pose proof (demandCells_view
                (flat_map (fun i => map (fun j => (i, j)) (seq 0 20)) (seq 0 20))
                ([], set_TOTAL_DEMAND 0 s)) as H.
  destruct (fold_left demandCell _ _) as [grid s1]. simpl in H.
  change (coreView s1 = coreView s). rewrite H. reflexivity.
Qed.

(** Only [UPDATE_NETWORK] writes a variable that the invariants read. *)
Lemma onmessage_view m s :
  (forall lines stations, m <> UPDATE_NETWORK lines stations) ->
  coreView (onmessage m s) = coreView s.
Proof.
  intro Hm. destruct m as [| |lines stations|cost|o d| |payload|coords]; simpl.
  - unfold startSimulation. destruct (simulationInterval s); reflexivity.
  - unfold pauseSimulation. destruct (simulationInterval s); reflexivity.
  - exfalso. exact (Hm lines stations eq_refl).
  - unfold handleInfrastructureBuild. cbv zeta. destruct (Qlt_bool _ 0); reflexivity.
  - unfold handlePlanJourney.
    destruct (findNearestStation s o); [|reflexivity].
    destruct (findNearestStation s d); [|reflexivity].
    cbv zeta. destruct (findRoute _ _ _); reflexivity.
  - destruct (DEMAND_GRID s) eqn:E.
    + rewrite E. reflexivity.
    + pose proof (createDemandGrid_view s) as H.
      destruct (DEMAND_GRID (createDemandGrid s)); [|exact H].
      change (coreView (createDemandGrid s) = coreView s). exact H.
  - reflexivity.
  - unfold handleDemandDetails. cbv zeta.
    pose proof (randoms_view 12 s) as H.
    destruct (randoms 12 s) as [rs s1]. simpl in H.
    change (coreView s1 = coreView s). exact H.
Qed.

Lemma initialState_structOk : structOk initialState.
Proof.
  split; [intros k st []|]. split; [intros k q []|].
  split; [split; [constructor | intros k l []]|].
  split; [constructor|]. split; [constructor|].
  split; intros k inc [].
Qed.

(** Every reachable state satisfies the structural invariants. *)
Lemma reachable_structOk s : reachable s -> structOk s.
Proof.
  induction 1 as [|s s' Hr IH Hstep]; [apply initialState_structOk|].
  destruct Hstep as [m s|s s' Htimer Htick].
  - destruct m as [| |lines stations|cost|o d| |payload|coords];
      try (apply (structOk_view s); [apply onmessage_view; discriminate | exact IH]).
    apply updateNetwork_struct. apply IH.
  - destruct (simulationTick_struct (fun _ _ => True) s IH) as (s1 & s2 & _ & _ & _ & E & Hok & _).
    { trivial. }
    rewrite E in Htick. inversion Htick. subst s'. exact Hok.
Qed.

(** A tick never fails in a reachable state. *)
Lemma simulationTick_total s : reachable s -> exists s', simulationTick s = Some s'.
Proof.
  intro Hr.
  destruct (simulationTick_struct (fun _ _ => True) s (reachable_structOk s Hr))
    as (s1 & s2 & _ & _ & _ & E & _); [trivial|].
  eexists. exact E.
Qed.

Lemma updateTrain_lineId s t s' t' m :
  updateTrain s t = Some (s', t', m) -> Train.lineId t' = Train.lineId t.
Proof.
  unfold updateTrain. intro Hu.
  destruct (tget _ (simLines s)) as [line|]; [|inversion Hu; subst; reflexivity].
  destruct (_ <? 2)%nat; [inversion Hu; subst; reflexivity|].
  cbv zeta in Hu. destruct (Train.state t).
  - match type of Hu with
    | match ?arrived with Some _ => _ | None => _ end = _ =>
        destruct arrived as [[s2 t2]|] eqn:Earr; [|discriminate]
    end.
    inversion Hu. subst s' t' m.
    destruct (turnAtLineEnd_fields line t2) as (_ & _ & _ & U4 & _). rewrite U4.
    destruct (getNextStation t line) as [[nextStation dist]|].
    + destruct (Qle_bool dist _).
      * apply handleStationArrival_train in Earr.
        destruct Earr as (_ & _ & _ & _ & _ & H6). rewrite H6.
        destruct (Qlt_bool dist _); reflexivity.
      * inversion Earr. subst. destruct (Qlt_bool dist _); reflexivity.
    + inversion Earr. subst. reflexivity.
  - destruct (Qle_bool _ 0); inversion Hu; subst; reflexivity.
Qed.

Lemma updateTrain_moved s0 s1 t s' t' m :
  simLines s1 = simLines s0 ->
  updateTrain s1 t = Some (s', t', m) -> trainMoved (simLines s0) t t'.
Proof.
  intros Hl Hu. split; [exact (updateTrain_lineId s1 t s' t' m Hu)|].
  intros line Hline Hlen Hd. rewrite <- Hl in Hline.
  destruct (updateTrain_geom s1 t s' t' m line Hu Hline Hlen Hd) as (_ & H).
  exact H.
Qed.

(** A tick moves every train of a reachable state as [trainMoved] says. *)
Lemma simulationTick_moved s :
  reachable s ->
  exists s', simulationTick s = Some s'
             /\ simLines s' = simLines s
             /\ Forall2 (trainMoved (simLines s)) (trains s) (trains s').
Proof.
  intro Hr.
  destruct (simulationTick_struct (trainMoved (simLines s)) s (reachable_structOk s Hr))
    as (s1 & s2 & _ & _ & _ & E & _ & L2 & _ & _ & _ & _ & _ & _ & _ & HR & _ & F & _).
  { intros sx t sy t' m Hs Hin Hu. apply (updateTrain_moved s sx t sy t' m); [|exact Hu].
    rewrite (samePlant_simLines Hs). apply clockAdvanced_keeps; reflexivity. }
  exists (closeTick s2). split; [exact E|].
  rewrite (sameFleet_simLines F), (sameFleet_trains F). split; [exact L2 | exact HR].
Qed.

(** Every reachable state satisfies the geometric invariants. *)
Lemma reachable_geomOk {MS : MathSpec Math} s : reachable s -> geomOk s.
Proof.
  induction 1 as [|s s' Hr IH Hstep].
  - split; [intros k l [] | constructor].
  - destruct Hstep as [m s|s s' Htimer Htick].
    + destruct m as [| |lines stations|cost|o d| |payload|coords];
        try (apply (geomOk_view s); [apply onmessage_view; discriminate | exact IH]).
      apply updateNetwork_geom.
    + destruct (simulationTick_moved s Hr) as (s'' & E & L & HR).
      rewrite E in Htick. inversion Htick. subst s''.
      destruct IH as [Hlines Htrains].
      split; [rewrite L; exact Hlines|]. rewrite L.
      clear - HR Htrains Hlines.
      induction HR as [|t t' ts ts' [Hlid Hmove] HR IH]; [constructor|].
      inversion Htrains as [|? ? Ht Hts]. subst.
      constructor; [|apply IH; exact Hts].
      intros line Hline. rewrite Hlid in Hline.
      assert (Hlen : 0 <= SimLine.length line).
      { apply tget_In in Hline. exact (proj1 (Hlines _ _ Hline)). }
      destruct (Hmove line Hline Hlen (Ht line Hline)) as (M1 & M2 & _).
      split; assumption.
Qed.
End Reachability.

(* ===================================================================== *)
(** * The properties of the specification *)
(* ===================================================================== *)

Section Claims.
Context {Math : MathLib}.

(** C7.  Handling [BUILD_INFRASTRUCTURE{cost}] in a reachable state lowers
    the budget by [cost] at once, down to the floor of -5,000,000,000 at
    which it is clamped: the new budget is [max (budget - cost) floor], which
    is exactly [budget - cost] whenever that is not below the floor.  The
    handler reads and writes no other variable (in particular none of the
    per-tick cashflow accrual, and not the timer), and whatever the budget
    has become, the next tick runs to completion. *)
Theorem C7_build_infrastructure (s : State) (cost : Q) :
  reachable s ->
  let s' := onmessage (BUILD_INFRASTRUCTURE cost) s in
  budget s' = Math_max (budget s - cost) (-(5000000000))
  /\ (-(5000000000) <= budget s - cost -> budget s' == budget s - cost)
  /\ s' = set_budget (budget s') s
  /\ exists s'', simulationTick s' = Some s''.
Proof.
  intro Hr. cbv zeta.
  assert (Hb : budget (onmessage (BUILD_INFRASTRUCTURE cost) s)
               = Math_max (budget s - cost) (-(5000000000))).
  { simpl. unfold handleInfrastructureBuild. cbv zeta.
    change (budget (set_budget (budget s - cost) s)) with (budget s - cost).
    destruct (Qlt_bool (budget s - cost) 0) eqn:E; [reflexivity|].
    apply Qlt_bool_false in E. unfold Math_max.
    destruct (Qle_bool (budget s - cost) _) eqn:E'; [|reflexivity].
    apply Qle_bool_iff in E'. lra. }
  split; [exact Hb|]. split; [|split].
  - intro Hfloor. rewrite Hb. unfold Math_max.
    destruct (Qle_bool (budget s - cost) _) eqn:E'; [|reflexivity].
    apply Qle_bool_iff in E'. lra.
  - simpl. unfold handleInfrastructureBuild. cbv zeta.
    destruct (Qlt_bool _ 0); reflexivity.
  - apply simulationTick_total. eapply reachable_step; [exact Hr | apply step_message].
Qed.



(** C3.  A tick from a reachable state leaves every train whose line is in
    the table (with its two matched stations or more) at a distance within
    [[0, line.length]]; if the tick changed the train's direction, then it
    put the train on an end of the line: at [line.length] with direction -1,
    or at 0 with direction +1; and on a line of positive length every train
    at [line.length] has direction -1 and every train at 0 has direction
    +1. *)
Theorem C3_train_stays_on_line {MS : MathSpec Math} (s : State) :
  reachable s ->
  exists s',
    simulationTick s = Some s'
    /\ Forall2 (fun t t' =>
                  forall line,
                    tget (keyOf (Train.lineId t')) (simLines s') = Some line ->
                    (2 <= List.length (SimLine.stationDistances line))%nat ->
                    0 <= Train.distanceAlongLine t' <= SimLine.length line
                    /\ (Train.direction t' <> Train.direction t ->
                        (Train.direction t' = Backward
                         /\ Train.distanceAlongLine t' = SimLine.length line)
                        \/ (Train.direction t' = Forward
                            /\ Train.distanceAlongLine t' = 0))
                    /\ (0 < SimLine.length line ->
                        (Train.distanceAlongLine t' == SimLine.length line ->
                         Train.direction t' = Backward)
                        /\ (Train.distanceAlongLine t' == 0 ->
                            Train.direction t' = Forward)))
               (trains s) (trains s').
Proof.
  intro Hr.
  destruct (simulationTick_moved s Hr) as (s' & E & L & HR).
  destruct (reachable_geomOk s Hr) as [Hlines Htrains].
  exists s'. split; [exact E|]. rewrite L.
  clear E L. induction HR as [|t t' ts ts' [Hlid Hmove] HR IH]; [constructor|].
  inversion Htrains as [|? ? Ht Hts]. subst.
  constructor; [|apply IH; exact Hts].
  intros line Hline _. rewrite Hlid in Hline.
  destruct (Hmove line Hline) as (M1 & M2 & M3); [|exact (Ht line Hline)|].
  - apply tget_In in Hline. exact (proj1 (Hlines _ _ Hline)).
  - split; [exact M1|]. split; [exact M3 | exact M2].
Qed.

Lemma expand_two_station_line s line st a b da db current acc lid :
  (forall k l, In (k, l) (simLines s) -> l = line) ->
  (SimLine.stationDistances line = [StationDist.mk a da; StationDist.mk b db]
   \/ SimLine.stationDistances line = [StationDist.mk b db; StationDist.mk a da]) ->
  a <> b ->
  SimStation.id st = a ->
  entry_path current = [] -> entry_wait current = 0%Z ->
  let acc' := expandLine s st current acc lid in
  (foundOn s line a b da db acc -> foundOn s line a b da db acc')
  /\ (acc = ([], [a]) ->
      (acc' = ([], [a]) /\ tget (keyOf lid) (simLines s) = None)
      \/ foundOn s line a b da db acc').
Proof.
  intros Honly Hsds Hab Hst Hpath Hwait. cbv zeta. unfold expandLine.
  destruct (tget (keyOf lid) (simLines s)) as [l|] eqn:El.
  2:{ split; [auto | intro H; left; split; [exact H | reflexivity]]. }
  assert (l = line) by (apply (Honly (keyOf lid)); apply tget_In; exact El). subst l.
  assert (Hba : Id_eqb b a = false) by (apply Id_eqb_neq; congruence).
  rewrite Hst.
  destruct Hsds as [Hsds|Hsds]; rewrite Hsds; unfold findIndex; simpl;
    rewrite ?Id_eqb_refl, ?Hba; simpl.
  - split.
    + intros (l0 & c0 & Hl0 & Hacc). subst acc. unfold visitNeighbor, setHas. simpl.
      rewrite Hba, Id_eqb_refl. simpl. exists l0, c0. split; [exact Hl0 | reflexivity].
    + intro Hacc. subst acc. right. unfold visitNeighbor, setHas. simpl.
      rewrite Hba. simpl. rewrite Hpath, Hwait, Hst. simpl.
      eexists lid, _. split; [exact El | reflexivity].
  - split.
    + intros (l0 & c0 & Hl0 & Hacc). subst acc. unfold visitNeighbor, setHas. simpl.
      rewrite Hba, Id_eqb_refl. simpl. exists l0, c0. split; [exact Hl0 | reflexivity].
    + intro Hacc. subst acc. right. unfold visitNeighbor, setHas. simpl.
      rewrite Hba. simpl. rewrite Hpath, Hwait, Hst. simpl.
      eexists lid, _. split; [exact El | reflexivity].
Qed.

Lemma Math_abs_sym (x y : Q) : Math_abs (x - y) == Math_abs (y - x).
Proof.
  unfold Math_abs.
  destruct (Qle_bool 0 (x - y)) eqn:E1; destruct (Qle_bool 0 (y - x)) eqn:E2;
    try apply Qle_bool_iff in E1; try apply Qle_bool_iff in E2;
    try apply Qle_bool_false in E1; try apply Qle_bool_false in E2; lra.
Qed.

(** C5.  In a state whose line table holds one line only, with exactly two
    matched stations [a] and [b], and in which the station [a] lists that
    line, [findRoute(a, b)] returns a route of exactly one leg, from [a] to
    [b] on that line; the distance of the leg, as the fare computation reads
    it, is [|distance a - distance b|], and its ride time is that distance
    at the planner's 500 metres a minute. *)
Theorem C5_two_station_route (s : State) (line : SimLine.t) (st : SimStation.t)
        (a b : Id) (da db : Q) :
  (forall k l, In (k, l) (simLines s) -> l = line) ->
  (SimLine.stationDistances line = [StationDist.mk a da; StationDist.mk b db]
   \/ SimLine.stationDistances line = [StationDist.mk b db; StationDist.mk a da]) ->
  a <> b ->
  tget (keyOf a) (simStations s) = Some st ->
  SimStation.id st = a ->
  (exists lid, In lid (SimStation.lines st) /\ tget (keyOf lid) (simLines s) = Some line) ->
  exists r leg,
    findRoute s a b = Some r
    /\ Route.legs r = [leg]
    /\ RouteLeg.fromStationId leg = a
    /\ RouteLeg.toStationId leg = b
    /\ tget (keyOf (RouteLeg.lineId leg)) (simLines s) = Some line
    /\ (exists d, legDistance s leg = Some d /\ d == Math_abs (da - db))
    /\ RouteLeg.rideTime leg == (Math_abs (da - db) / 500) * 60.
Proof.
  intros Honly Hsds Hab Hst Hid (lid & Hlid & Hline).
  set (current := mkQueueEntry a [] 0%Z).
  assert (Hkeep : forall ls acc,
             foundOn s line a b da db acc ->
             foundOn s line a b da db (fold_left (expandLine s st current) ls acc)).
  { induction ls as [|l ls IH]; intros acc Hacc; cbn [fold_left]; [exact Hacc|].
    apply IH.
    exact (proj1 (expand_two_station_line s line st a b da db current acc l
                    Honly Hsds Hab Hid eq_refl eq_refl) Hacc). }
  assert (Hfold : forall ls,
             (fold_left (expandLine s st current) ls ([], [a]) = ([], [a])
              /\ forall l, In l ls -> tget (keyOf l) (simLines s) = None)
             \/ foundOn s line a b da db (fold_left (expandLine s st current) ls ([], [a]))).
  { induction ls as [|l ls IH]; cbn [fold_left].
    - left. split; [reflexivity | intros ? []].
    - destruct (proj2 (expand_two_station_line s line st a b da db current ([], [a]) l
                         Honly Hsds Hab Hid eq_refl eq_refl) eq_refl)
        as [[Hstep Hnone]|Hstep].
      + rewrite Hstep. destruct IH as [[IH1 IH2]|IH]; [left | right; exact IH].
        split; [exact IH1|]. intros l' [E|Hin]; [subst; exact Hnone | exact (IH2 l' Hin)].
      + right. apply Hkeep. exact Hstep. }
  destruct (Hfold (SimStation.lines st)) as [[_ Hnone]|(l & coords & Hl & Hres)].
  { rewrite (Hnone lid Hlid) in Hline. discriminate. }
  set (leg := RouteLeg.mk l a b ((Math_abs (db - da) / 500) * 60) coords) in *.
  assert (Hroute : findRoute s a b = Some (routeOfPath [leg])).
  { unfold findRoute, findRouteFuel. cbn [plus findRouteLoop entry_stationId].
    assert (Hab' : Id_eqb a b = false) by (apply Id_eqb_neq; exact Hab).
    rewrite Hab', Hst. fold current. rewrite Hres.
    destruct (List.length (lineStationIds s)); cbn [findRouteLoop entry_stationId entry_path];
      rewrite Id_eqb_refl; reflexivity. }
  exists (routeOfPath [leg]), leg.
  split; [exact Hroute|]. split; [reflexivity|]. split; [reflexivity|]. split; [reflexivity|].
  split; [exact Hl|]. split.
  - unfold legDistance. simpl RouteLeg.lineId. rewrite Hl. eexists. split; [reflexivity|].
    assert (Hba : Id_eqb b a = false) by (apply Id_eqb_neq; congruence).
    assert (Hab' : Id_eqb a b = false) by (apply Id_eqb_neq; exact Hab).
    destruct Hsds as [Hsds|Hsds]; rewrite Hsds; simpl;
      rewrite ?Id_eqb_refl, ?Hba, ?Hab'; simpl; rewrite ?Id_eqb_refl;
      apply Math_abs_sym.
  - simpl. rewrite (Math_abs_sym db da). reflexivity.
Qed.

(** C6.  When the stations nearest to the two ends of a [PLAN_JOURNEY]
    request are not connected in the station graph, the search of
    [findRoute] ends with [null], and the handler posts exactly one
    [JOURNEY_PLAN_RESULT], with [route: null] and the two walking times;
    nothing else of the state changes, so the worker goes on as before. *)
Theorem C6_no_path_plan (s : State) (origin destination : Coord)
        (originStation destStation : SimStation.t) :
  findNearestStation s origin = Some originStation ->
  findNearestStation s destination = Some destStation ->
  ~ connected s (SimStation.id originStation) (SimStation.id destStation) ->
  findRouteLoop s (SimStation.id destStation) (findRouteFuel s)
                [mkQueueEntry (SimStation.id originStation) [] 0%Z]
                [SimStation.id originStation]
  = Some None
  /\ onmessage (PLAN_JOURNEY origin destination) s
     = set_outbox
         (outbox s
          ++ [JOURNEY_PLAN_RESULT None
                (turfDistance origin (SimStation.coords originStation) / WALK_SPEED_MPS)
                (turfDistance destination (SimStation.coords destStation) / WALK_SPEED_MPS)])
         s.
Proof.
  intros Ho Hd Hnot.
  assert (Hnone : findRoute s (SimStation.id originStation) (SimStation.id destStation) = None).
  { destruct (findRoute s _ _) as [r|] eqn:E; [|reflexivity].
    exfalso. apply Hnot. exact (proj2 (findRoute_sound s _ _ E)). }
  split.
  - rewrite findRouteLoop_total, Hnone. reflexivity.
  - simpl. unfold handlePlanJourney. rewrite Ho, Hd. cbv zeta. rewrite Hnone. reflexivity.
Qed.


Lemma checkForIncidents_totalOpex s : totalOpex (checkForIncidents s) = totalOpex s.
Proof.
  unfold checkForIncidents, random. cbv zeta.
  destruct (Qlt_bool _ _); [reflexivity|].
  destruct (Qlt_bool _ _); destruct (arrayGet _ _); reflexivity.
Qed.

Lemma cleanupIncidents_totalOpex s : totalOpex (cleanupIncidents s) = totalOpex s.
Proof.
  unfold cleanupIncidents. apply (fold_left_keeps cleanupIncident totalOpex).
  intros a b. unfold cleanupIncident. destruct (Qle_bool _ _); reflexivity.
Qed.

(** What a tick adds to [totalOpex]: the station hours of the tick, and the
    train-kilometres of all the ticks so far, this one included. *)
Lemma simulationTick_opex s :
  reachable s ->
  exists s',
    simulationTick s = Some s'
    /\ totalOpex s'
       = totalOpex s
         + (totalTrainKm s' * OPEX_PER_TRAIN_KM
            + inject_Z (Z.of_nat (List.length (tkeys (simStations s))))
              * (OPEX_PER_STATION_HOUR * (TICK_SECONDS / 3600))).
Proof.
  intro Hr.
  destruct (simulationTick_struct (fun _ _ => True) s (reachable_structOk s Hr))
    as (s1 & s2 & _ & _ & _ & E & _ & _ & _ & _ & _ & O2 & _ & _ & _ & _ & _ & F & S2);
    [trivial|].
  exists (closeTick s2). split; [exact E|].
  rewrite (sameFleet_totalTrainKm F).
  change (totalOpex (closeTick s2))
    with (totalOpex (cleanupIncidents (checkForIncidents (updateEconomics s2)))).
  rewrite cleanupIncidents_totalOpex, checkForIncidents_totalOpex.
  unfold updateEconomics. cbv zeta.
  change (totalOpex s2
          + (totalTrainKm s2 * OPEX_PER_TRAIN_KM
             + inject_Z (Z.of_nat (List.length (tkeys (simStations s2))))
               * (OPEX_PER_STATION_HOUR * (TICK_SECONDS / 3600)))
          = totalOpex s
            + (totalTrainKm s2 * OPEX_PER_TRAIN_KM
               + inject_Z (Z.of_nat (List.length (tkeys (simStations s))))
                 * (OPEX_PER_STATION_HOUR * (TICK_SECONDS / 3600)))).
  rewrite O2, S2. reflexivity.
Qed.

(** The older variant charges the kilometres counted since its last call,
    and starts the count again. *)
Lemma Legacy_updateEconomics_resets s :
  totalTrainKm (Legacy.updateEconomics s) = 0.
Proof.
  unfold Legacy.updateEconomics. cbv zeta. destruct (_ <? _)%Z; reflexivity.
Qed.
End Claims.

(* ===================================================================== *)
(** * The properties on the demonstration networks *)
(* ===================================================================== *)

Lemma smallAngleMath_spec : MathSpec smallAngleMath.
Proof.
  split.
  - intro x. simpl. unfold Qle. simpl. rewrite Z.mul_1_r. apply Z.sqrt_nonneg.
  - intros y x Hy _. exact Hy.
Qed.

Lemma demoRunning_reachable : reachable (Math := smallAngleMath) demoRunning.
Proof.
  unfold demoRunning, demoNetwork.
  eapply reachable_step; [|apply step_message].
  eapply reachable_step; [|apply step_message].
  apply reachable_initial.
Qed.

Lemma splitNetwork_reachable : reachable (Math := smallAngleMath) splitNetwork.
Proof.
  unfold splitNetwork. eapply reachable_step; [|apply step_message]. apply reachable_initial.
Qed.

Lemma afterTick_reachable (s : State) :
  reachable (Math := smallAngleMath) s ->
  simulationInterval s = Some tt ->
  simulationTick (Math := smallAngleMath) s = Some (afterTick s)
  /\ reachable (Math := smallAngleMath) (afterTick s).
Proof.
  intros Hr Ht. destruct (simulationTick_total s Hr) as [s' E].
  unfold afterTick. rewrite E. split; [reflexivity|].
  eapply reachable_step; [exact Hr | apply step_timer; assumption].
Qed.

(** C1, on the demonstration network.  The first tick moves the four trains
    0.4608 km, the second one 0.9216 km.  The second tick adds to [totalOpex]
    the station hours and 5 per kilometre of all 1.3824 km travelled so far,
    not of the 0.9216 km of that tick alone. *)
Theorem C1_opex_charges_cumulative_km :
  simulationTick (Math := smallAngleMath) demoRunning = Some demoTick1
  /\ simulationTick (Math := smallAngleMath) demoTick1 = Some demoTick2
  /\ totalTrainKm demoTick1 == 4608 # 10000
  /\ totalTrainKm demoTick2 - totalTrainKm demoTick1 == 9216 # 10000
  /\ totalOpex demoTick2 - totalOpex demoTick1
     == totalTrainKm demoTick2 * OPEX_PER_TRAIN_KM
        + 2 * (OPEX_PER_STATION_HOUR * (TICK_SECONDS / 3600))
  /\ ~ totalOpex demoTick2 - totalOpex demoTick1
       == (totalTrainKm demoTick2 - totalTrainKm demoTick1) * OPEX_PER_TRAIN_KM
          + 2 * (OPEX_PER_STATION_HOUR * (TICK_SECONDS / 3600)).
Proof.
  destruct (afterTick_reachable demoRunning demoRunning_reachable eq_refl) as [E1 R1].
  assert (T1 : simulationInterval demoTick1 = Some tt) by (vm_compute; reflexivity).
  destruct (afterTick_reachable demoTick1 R1 T1) as [E2 _].
  split; [exact E1|]. split; [exact E2|].
  split; [vm_compute; reflexivity|]. split; [vm_compute; reflexivity|].
  split; [vm_compute; reflexivity|].
  intro H. vm_compute in H. discriminate H.
Qed.


Lemma demoTick1_reachable : reachable (Math := smallAngleMath) demoTick1.
Proof. exact (proj2 (afterTick_reachable demoRunning demoRunning_reachable eq_refl)). Qed.

(** On the split network only [a] and [b] can be reached from [a]. *)
Lemma splitNetwork_component (v : Id) :
  connected splitNetwork (IdStr "a") v -> v = IdStr "a" \/ v = IdStr "b".
Proof.
  induction 1 as [|v w _ IH R]; [left; reflexivity|].
  destruct R as (st & lid & line & here & there & Hst & Hlid & Hline & _ & _ & Hthere & Hid).
  assert (Hl : SimStation.lines st = [IdStr "L"]).
  { destruct IH; subst v; vm_compute in Hst; inversion Hst; reflexivity. }
  rewrite Hl in Hlid. destruct Hlid as [<-|[]].
  vm_compute in Hline. inversion Hline as [E]. clear Hline. subst line.
  destruct Hthere as [<-|[<-|[]]]; subst w; [left | right]; reflexivity.
Qed.

Lemma C7_witness :
  reachable (Math := smallAngleMath) demoRunning
  /\ budget (onmessage (Math := smallAngleMath) (BUILD_INFRASTRUCTURE 1000000) demoRunning)
     == 4999000000
  /\ exists s'',
       simulationTick (Math := smallAngleMath)
         (onmessage (Math := smallAngleMath) (BUILD_INFRASTRUCTURE 1000000) demoRunning)
       = Some s''.
Proof.
  split; [exact demoRunning_reachable|].
  destruct (C7_build_infrastructure demoRunning 1000000 demoRunning_reachable)
    as (_ & H & _ & T).
  split; [|exact T].
  rewrite H; [vm_compute; reflexivity | vm_compute; discriminate].
Defined.




Lemma C3_witness :
  reachable (Math := smallAngleMath) demoTick1
  /\ exists s',
       simulationTick (Math := smallAngleMath) demoTick1 = Some s'
       /\ Forall2 (fun t t' =>
                     forall line,
                       tget (keyOf (Train.lineId t')) (simLines s') = Some line ->
                       (2 <= List.length (SimLine.stationDistances line))%nat ->
                       0 <= Train.distanceAlongLine t' <= SimLine.length line
                       /\ (Train.direction t' <> Train.direction t ->
                           (Train.direction t' = Backward
                            /\ Train.distanceAlongLine t' = SimLine.length line)
                           \/ (Train.direction t' = Forward
                               /\ Train.distanceAlongLine t' = 0))
                       /\ (0 < SimLine.length line ->
                           (Train.distanceAlongLine t' == SimLine.length line ->
                            Train.direction t' = Backward)
                           /\ (Train.distanceAlongLine t' == 0 ->
                               Train.direction t' = Forward)))
                  (trains demoTick1) (trains s').
Proof.
  split; [exact demoTick1_reachable|].
  exact (C3_train_stays_on_line (MS := smallAngleMath_spec) demoTick1 demoTick1_reachable).
Defined.


Lemma C5_witness :
  exists line r leg,
    tget (keyOf (IdStr "L")) (simLines demoNetwork) = Some line
    /\ map StationDist.id (SimLine.stationDistances line) = [IdStr "a"; IdStr "b"]
    /\ findRoute demoNetwork (IdStr "a") (IdStr "b") = Some r
    /\ Route.legs r = [leg]
    /\ RouteLeg.fromStationId leg = IdStr "a"
    /\ RouteLeg.toStationId leg = IdStr "b"
    /\ tget (keyOf (RouteLeg.lineId leg)) (simLines demoNetwork) = Some line
    /\ (exists d, legDistance demoNetwork leg = Some d /\ d == SimLine.length line)
    /\ RouteLeg.rideTime leg == (SimLine.length line / 500) * 60.
Proof.
  let v := eval vm_compute in (tget (keyOf (IdStr "L")) (simLines demoNetwork)) in
  match v with Some ?l => pose (line := l) end.
  let v := eval vm_compute in (tget (keyOf (IdStr "a")) (simStations demoNetwork)) in
  match v with Some ?x => pose (st := x) end.
  assert (H1 : forall k l, In (k, l) (simLines demoNetwork) -> l = line).
  { intros k l H. vm_compute in H. destruct H as [H|[]]. inversion H. reflexivity. }
  destruct (C5_two_station_route demoNetwork line st (IdStr "a") (IdStr "b")
              0 (SimLine.length line) H1)
    as (r & leg & Hr & Hlegs & Hfrom & Hto & Hline & (d & Hd & Hdist) & Hride).
  - left. reflexivity.
  - discriminate.
  - vm_compute. reflexivity.
  - reflexivity.
  - exists (IdStr "L"). split; [left; reflexivity | vm_compute; reflexivity].
  - exists line, r, leg.
    split; [vm_compute; reflexivity|]. split; [reflexivity|].
    split; [exact Hr|]. split; [exact Hlegs|]. split; [exact Hfrom|]. split; [exact Hto|].
    split; [exact Hline|]. split.
    + exists d. split; [exact Hd|]. rewrite Hdist. vm_compute. reflexivity.
    + rewrite Hride. vm_compute. reflexivity.
Defined.

Lemma C6_witness :
  findNearestStation (Math := smallAngleMath) splitNetwork (1 # 1000, 0)
  = tget (keyOf (IdStr "a")) (simStations splitNetwork)
  /\ findNearestStation (Math := smallAngleMath) splitNetwork (0, 1 # 10)
     = tget (keyOf (IdStr "c")) (simStations splitNetwork)
  /\ ~ connected splitNetwork (IdStr "a") (IdStr "c")
  /\ findRouteLoop splitNetwork (IdStr "c") (findRouteFuel splitNetwork)
       [mkQueueEntry (IdStr "a") [] 0%Z] [IdStr "a"]
     = Some None
  /\ onmessage (Math := smallAngleMath) (PLAN_JOURNEY (1 # 1000, 0) (0, 1 # 10)) splitNetwork
     = set_outbox
         (outbox splitNetwork
          ++ [JOURNEY_PLAN_RESULT None
                (turfDistance (Math := smallAngleMath) (1 # 1000, 0) (0, 0) / WALK_SPEED_MPS)
                (turfDistance (Math := smallAngleMath) (0, 1 # 10) (0, 1 # 10)
                 / WALK_SPEED_MPS)])
         splitNetwork.
Proof.
  let v := eval vm_compute in (tget (keyOf (IdStr "a")) (simStations splitNetwork)) in
  match v with Some ?x => pose (originStation := x) end.
  let v := eval vm_compute in (tget (keyOf (IdStr "c")) (simStations splitNetwork)) in
  match v with Some ?x => pose (destStation := x) end.
  assert (Ho : findNearestStation (Math := smallAngleMath) splitNetwork (1 # 1000, 0)
               = Some originStation) by (vm_compute; reflexivity).
  assert (Hd : findNearestStation (Math := smallAngleMath) splitNetwork (0, 1 # 10)
               = Some destStation) by (vm_compute; reflexivity).
  assert (Hn : ~ connected splitNetwork (IdStr "a") (IdStr "c")).
  { intro H. destruct (splitNetwork_component _ H) as [E|E]; discriminate E. }
  destruct (C6_no_path_plan splitNetwork (1 # 1000, 0) (0, 1 # 10)
              originStation destStation Ho Hd Hn) as [Hloop Hplan].
  split; [vm_compute; reflexivity|]. split; [vm_compute; reflexivity|].
  split; [exact Hn|]. split.
  - exact Hloop.
  - exact Hplan.
Defined.

(* ===================================================================== *)
(** * The next station *)
(* ===================================================================== *)

Lemma nextStation_fold (f : StationDist.t -> option Q) (l : list StationDist.t)
      (acc : option (StationDist.t * Q)) :
  match fold_left (nextStationStep f) l acc with
  | Some (st, d) =>
      (acc = Some (st, d) \/ (In st l /\ f st = Some d))
      /\ (forall sd d', In sd l -> f sd = Some d' -> d <= d')
      /\ (forall st0 d0, acc = Some (st0, d0) -> d <= d0)
  | None => acc = None /\ forall sd, In sd l -> f sd = None
  end.
Proof.
  revert acc. induction l as [|x l IH]; intro acc; simpl.
  - destruct acc as [[st d]|].
    + split; [left; reflexivity|]. split; [intros ? ? []|].
      intros st0 d0 E. inversion E. subst. lra.
    + split; [reflexivity | intros ? []].
  - specialize (IH (nextStationStep f acc x)).
    destruct (fold_left _ l _) as [[st d]|].
    + destruct IH as (H1 & H2 & H3).
      unfold nextStationStep in H1, H3.
      destruct (f x) as [dx|] eqn:Ex.
      * destruct acc as [[st0 d0]|].
        -- destruct (Qlt_bool dx d0) eqn:Elt.
           ++ apply Qlt_bool_true in Elt.
              pose proof (H3 _ _ eq_refl) as Hx.
              split; [|split].
              ** destruct H1 as [H1|[H1 H1']]; [|right; split; [right; exact H1 | exact H1']].
                 inversion H1. subst. right. split; [left; reflexivity | exact Ex].
              ** intros sd d' [->|Hin] Hf; [|exact (H2 _ _ Hin Hf)].
                 rewrite Ex in Hf. inversion Hf. subst. exact Hx.
              ** intros st1 d1 E. inversion E. subst. lra.
           ++ apply Qlt_bool_false in Elt.
              pose proof (H3 _ _ eq_refl) as Hx.
              split; [|split].
              ** destruct H1 as [H1|[H1 H1']]; [left; exact H1|].
                 right. split; [right; exact H1 | exact H1'].
              ** intros sd d' [->|Hin] Hf; [|exact (H2 _ _ Hin Hf)].
                 rewrite Ex in Hf. inversion Hf. subst. lra.
              ** exact H3.
        -- pose proof (H3 _ _ eq_refl) as Hx.
           split; [|split].
           ** destruct H1 as [H1|[H1 H1']]; [|right; split; [right; exact H1 | exact H1']].
              inversion H1. subst. right. split; [left; reflexivity | exact Ex].
           ** intros sd d' [->|Hin] Hf; [|exact (H2 _ _ Hin Hf)].
              rewrite Ex in Hf. inversion Hf. subst. exact Hx.
           ** intros ? ? E. discriminate E.
      * split; [|split].
        -- destruct H1 as [H1|[H1 H1']]; [left; exact H1|].
           right. split; [right; exact H1 | exact H1'].
        -- intros sd d' [->|Hin] Hf; [congruence | exact (H2 _ _ Hin Hf)].
        -- exact H3.
    + destruct IH as [H1 H2]. unfold nextStationStep in H1.
      destruct (f x) as [dx|] eqn:Ex.
      * destruct acc as [[st0 d0]|]; [destruct (Qlt_bool dx d0)|]; discriminate H1.
      * split; [exact H1|]. intros sd [->|Hin]; [exact Ex | exact (H2 _ Hin)].
Qed.

(** X1. [getNextStation] returns the station of the line that is nearest
    ahead of the train in its direction of travel, strictly ahead and with
    the gap to it, and [null] exactly when no station of the line lies
    ahead. *)
Theorem getNextStation_nearest_ahead (train : Train.t) (line : SimLine.t) :
  match getNextStation train line with
  | Some (station, gap) =>
      In station (SimLine.stationDistances line)
      /\ aheadBy train station gap
      /\ 0 < gap
      /\ forall sd gap',
           In sd (SimLine.stationDistances line) -> aheadBy train sd gap' -> gap <= gap'
  | None =>
      forall sd gap', In sd (SimLine.stationDistances line) -> ~ aheadBy train sd gap'
  end.
Proof.
  unfold getNextStation, aheadBy. destruct (Train.direction train).
  - match goal with |- context [fold_left (nextStationStep ?f) ?l None] =>
      pose proof (nextStation_fold f l None) as H end.
    destruct (fold_left _ _ _) as [[st d]|].
    + destruct H as ([H1|[H1 H1']] & H2 & _); [discriminate|].
      destruct (Qlt_bool _ _) eqn:E in H1'; [|discriminate].
      apply Qlt_bool_true in E. inversion H1'. subst d.
      split; [exact H1|]. split; [split; [exact E | reflexivity]|]. split; [lra|].
      intros sd gap' Hin [Hlt ->]. apply (H2 sd _ Hin).
      apply Qlt_bool_true in Hlt. rewrite Hlt. reflexivity.
    + destruct H as [_ H]. intros sd gap' Hin [Hlt _]. specialize (H sd Hin). cbv beta in H.
      apply Qlt_bool_true in Hlt. rewrite Hlt in H. discriminate.
  - match goal with |- context [fold_left (nextStationStep ?f) ?l None] =>
      pose proof (nextStation_fold f l None) as H end.
    destruct (fold_left _ _ _) as [[st d]|].
    + destruct H as ([H1|[H1 H1']] & H2 & _); [discriminate|].
      destruct (Qlt_bool _ _) eqn:E in H1'; [|discriminate].
      apply Qlt_bool_true in E. inversion H1'. subst d.
      split; [apply in_rev; exact H1|]. split; [split; [exact E | reflexivity]|]. split; [lra|].
      intros sd gap' Hin [Hlt ->]. apply (H2 sd); [apply in_rev in Hin; exact Hin|].
      apply Qlt_bool_true in Hlt. rewrite Hlt. reflexivity.
    + destruct H as [_ H]. intros sd gap' Hin [Hlt _].
      apply in_rev in Hin. specialize (H sd Hin). cbv beta in H.
      apply Qlt_bool_true in Hlt. rewrite Hlt in H. discriminate.
Qed.

(* ===================================================================== *)
(** * Nearest station, points on a line, line segments *)
(* ===================================================================== *)

Section PureFacts.
Context {Math : MathLib}.

Lemma nearest_fold (coords : Coord) (l : list SimStation.t) (acc : option (SimStation.t * Q)) :
  match fold_left (nearestStep coords) l acc with
  | Some (st, d) =>
      (acc = Some (st, d) \/ (In st l /\ d = turfDistance coords (SimStation.coords st)))
      /\ (forall st', In st' l -> d <= turfDistance coords (SimStation.coords st'))
      /\ (forall st0 d0, acc = Some (st0, d0) -> d <= d0)
  | None => acc = None /\ l = []
  end.
Proof.
  revert acc. induction l as [|x l IH]; intro acc; simpl.
  - destruct acc as [[st d]|].
    + split; [left; reflexivity|]. split; [intros ? []|].
      intros st0 d0 E. inversion E. subst. lra.
    + split; reflexivity.
  - specialize (IH (nearestStep coords acc x)).
    destruct (fold_left _ l _) as [[st d]|].
    + destruct IH as (H1 & H2 & H3). unfold nearestStep in H1, H3.
      destruct acc as [[st0 d0]|].
      * destruct (Qlt_bool _ d0) eqn:Elt.
        -- apply Qlt_bool_true in Elt. pose proof (H3 _ _ eq_refl) as Hx.
           split; [|split].
           ++ destruct H1 as [H1|[H1 H1']]; [|right; split; [right; exact H1 | exact H1']].
              inversion H1. subst. right. split; [left; reflexivity | reflexivity].
           ++ intros st' [->|Hin]; [exact Hx | exact (H2 _ Hin)].
           ++ intros st1 d1 E. inversion E. subst. lra.
        -- apply Qlt_bool_false in Elt. pose proof (H3 _ _ eq_refl) as Hx.
           split; [|split].
           ++ destruct H1 as [H1|[H1 H1']]; [left; exact H1|].
              right. split; [right; exact H1 | exact H1'].
           ++ intros st' [->|Hin]; [lra | exact (H2 _ Hin)].
           ++ exact H3.
      * pose proof (H3 _ _ eq_refl) as Hx.
        split; [|split].
        -- destruct H1 as [H1|[H1 H1']]; [|right; split; [right; exact H1 | exact H1']].
           inversion H1. subst. right. split; [left; reflexivity | reflexivity].
        -- intros st' [->|Hin]; [exact Hx | exact (H2 _ Hin)].
        -- intros ? ? E. discriminate E.
    + destruct IH as [H1 _]. unfold nearestStep in H1.
      destruct acc as [[st0 d0]|]; [destruct (Qlt_bool _ d0)|]; discriminate H1.
Qed.

Lemma findNearestStation_spec (s : State) (coords : Coord) :
  match findNearestStation s coords with
  | Some station =>
      (exists k, In (k, station) (simStations s))
      /\ forall k st, In (k, st) (simStations s) ->
           turfDistance coords (SimStation.coords station)
           <= turfDistance coords (SimStation.coords st)
  | None => simStations s = []
  end.
Proof.
  unfold findNearestStation.
  pose proof (nearest_fold coords (tvalues (simStations s)) None) as H.
  destruct (fold_left _ _ _) as [[st d]|]; simpl.
  - destruct H as ([H1|[H1 H1']] & H2 & _); [discriminate|]. subst d. split.
    + unfold tvalues in H1. apply in_map_iff in H1. destruct H1 as ([k v] & Hv & Hin).
      simpl in Hv. subst v. exists k. exact Hin.
    + intros k st' Hin. apply H2. unfold tvalues. apply in_map_iff.
      exists (k, st'). split; [reflexivity | exact Hin].
  - destruct H as [_ H]. unfold tvalues in H. apply map_eq_nil in H. exact H.
Qed.

(** X2. [findNearestStation] returns a station of the table at the least
    distance from the point, and [null] only when the table is empty. *)
Theorem findNearestStation_nearest (s : State) (coords : Coord) :
  match findNearestStation s coords with
  | Some station =>
      (exists k, In (k, station) (simStations s))
      /\ forall k st, In (k, st) (simStations s) ->
           turfDistance coords (SimStation.coords station)
           <= turfDistance coords (SimStation.coords st)
  | None => simStations s = []
  end.
Proof. exact (findNearestStation_spec s coords). Qed.

Lemma pointAlongSegments_spec (segs : list (Coord * Coord)) (distance traveled : Q)
      (last : option Coord) :
  traveled < distance ->
  pointAlongSegments segs distance traveled last = last
  \/ exists start stop ratio,
       In (start, stop) segs
       /\ 0 < turfDistance start stop
       /\ 0 < ratio <= 1
       /\ pointAlongSegments segs distance traveled last
          = Some (fst start + (fst stop - fst start) * ratio,
                  snd start + (snd stop - snd start) * ratio).
Proof.
  revert traveled. induction segs as [|[start stop] segs IH]; intros traveled Hlt; simpl.
  - left. reflexivity.
  - destruct (Qle_bool distance (traveled + turfDistance start stop)) eqn:E.
    + apply Qle_bool_iff in E. right.
      assert (Hpos : 0 < turfDistance start stop) by lra.
      exists start, stop, ((distance - traveled) / turfDistance start stop).
      split; [left; reflexivity|]. split; [exact Hpos|]. split; [|reflexivity].
      split.
      * apply Qlt_shift_div_l; [exact Hpos | lra].
      * apply Qle_shift_div_r; [exact Hpos | lra].
    + apply Qle_bool_false in E.
      destruct (IH (traveled + turfDistance start stop) E) as [H|H].
      * left. exact H.
      * right. destruct H as (a & b & r & Hin & H). exists a, b, r.
        split; [right; exact Hin | exact H].
Qed.

Lemma getPointAlongLine_spec (line : SimLine.t) (distance : Q) :
  (SimLine.coords line = [] -> getPointAlongLine line distance = None)
  /\ (SimLine.coords line <> [] ->
      exists p,
        getPointAlongLine line distance = Some p
        /\ (In p (SimLine.coords line)
            \/ exists start stop ratio,
                 In (start, stop) (segments (SimLine.coords line))
                 /\ 0 < turfDistance start stop
                 /\ 0 < ratio <= 1
                 /\ p = (fst start + (fst stop - fst start) * ratio,
                         snd start + (snd stop - snd start) * ratio))).
Proof.
  unfold getPointAlongLine. split.
  - intro E. rewrite E. simpl. destruct (Qle_bool distance 0); reflexivity.
  - intro Hne. destruct (SimLine.coords line) as [|c cs] eqn:Ec; [congruence|].
    destruct (Qle_bool distance 0) eqn:E.
    + exists c. split; [reflexivity | left; left; reflexivity].
    + apply Qle_bool_false in E.
      assert (Hlast : exists q, nth_error (c :: cs) (List.length (c :: cs) - 1) = Some q
                                /\ In q (c :: cs)).
      { destruct (nth_error (c :: cs) (List.length (c :: cs) - 1)) as [q|] eqn:En.
        - exists q. split; [reflexivity | eapply nth_error_In; exact En].
        - apply nth_error_None in En. simpl in En. lia. }
      destruct Hlast as (q & Hq & Hin). rewrite Hq.
      destruct (pointAlongSegments_spec (segments (c :: cs)) distance 0 (Some q) E) as [H|H].
      * exists q. split; [exact H | left; exact Hin].
      * destruct H as (a & b & r & Hseg & Hpos & Hr & H).
        eexists. split; [exact H|]. right. exists a, b, r.
        split; [exact Hseg|]. split; [exact Hpos|]. split; [exact Hr | reflexivity].
Qed.

(** X3. [getPointAlongLine] returns [null] only for a line without
    coordinates.  Otherwise it returns a vertex of the line, or the point at
    a ratio in (0, 1] of one of its segments, and that segment has a positive
    length: the interpolation never divides by zero. *)
Theorem getPointAlongLine_on_line (line : SimLine.t) (distance : Q) :
  (SimLine.coords line = [] -> getPointAlongLine line distance = None)
  /\ (SimLine.coords line <> [] ->
      exists p,
        getPointAlongLine line distance = Some p
        /\ (In p (SimLine.coords line)
            \/ exists start stop ratio,
                 In (start, stop) (segments (SimLine.coords line))
                 /\ 0 < turfDistance start stop
                 /\ 0 < ratio <= 1
                 /\ p = (fst start + (fst stop - fst start) * ratio,
                         snd start + (snd stop - snd start) * ratio))).
Proof. exact (getPointAlongLine_spec line distance). Qed.

End PureFacts.

(** X4. [extractLineSegment] does not depend on the order of its two
    stations and returns a contiguous part of the line's coordinates: all of
    them when one of the stations is not on the line, and otherwise the
    coordinates from position [min] to position [max], where the positions
    are the indices of the two stations in the line's list of stations. *)
Theorem extractLineSegment_slice (line : SimLine.t) (a b : Id) :
  let i := findIndex (fun sd => Id_eqb (StationDist.id sd) a) (SimLine.stationDistances line) in
  let j := findIndex (fun sd => Id_eqb (StationDist.id sd) b) (SimLine.stationDistances line) in
  extractLineSegment line a b = extractLineSegment line b a
  /\ (exists before after,
        SimLine.coords line = before ++ extractLineSegment line a b ++ after)
  /\ (i = (-1)%Z \/ j = (-1)%Z -> extractLineSegment line a b = SimLine.coords line)
  /\ (i <> (-1)%Z -> j <> (-1)%Z ->
      extractLineSegment line a b
      = firstn (Z.to_nat (Z.abs (i - j)) + 1)
               (skipn (Z.to_nat (Z.min i j)) (SimLine.coords line))).
Proof.
  cbv zeta. unfold extractLineSegment.
  pose proof (findIndexFrom_spec (fun sd => Id_eqb (StationDist.id sd) a)
                (SimLine.stationDistances line) 0%Z) as Ha.
  pose proof (findIndexFrom_spec (fun sd => Id_eqb (StationDist.id sd) b)
                (SimLine.stationDistances line) 0%Z) as Hb.
  fold (findIndex (fun sd => Id_eqb (StationDist.id sd) a) (SimLine.stationDistances line))
    in Ha.
  fold (findIndex (fun sd => Id_eqb (StationDist.id sd) b) (SimLine.stationDistances line))
    in Hb.
  set (i := findIndex _ _) in *. set (j := findIndex (fun sd => Id_eqb _ b) _) in *.
  split; [rewrite orb_comm, Z.min_comm, Z.max_comm; reflexivity|].
  split; [|split].
  - destruct (_ || _)%bool.
    + exists [], []. rewrite app_nil_r. reflexivity.
    + unfold slice.
      match goal with |- context [firstn ?n (skipn ?m ?l)] =>
        exists (firstn m l), (skipn n (skipn m l)) end.
      rewrite firstn_skipn. rewrite firstn_skipn. reflexivity.
  - intros [E|E]; rewrite E; [reflexivity|]. rewrite orb_comm. reflexivity.
  - intros Hi Hj.
    assert (Ei : (i =? -1)%Z = false) by (apply Z.eqb_neq; exact Hi).
    assert (Ej : (j =? -1)%Z = false) by (apply Z.eqb_neq; exact Hj).
    rewrite Ei, Ej. simpl. unfold slice. f_equal. lia.
Qed.

(* ===================================================================== *)
(** * The routes of the search *)
(* ===================================================================== *)

Lemma chained_app (s : State) (u v : Id) (path : list RouteLeg.t) (leg : RouteLeg.t)
      (st : SimStation.t) :
  chained s u path v ->
  tget (keyOf v) (simStations s) = Some st ->
  In (RouteLeg.lineId leg) (SimStation.lines st) ->
  RouteLeg.fromStationId leg = SimStation.id st ->
  chained s u (path ++ [leg]) (RouteLeg.toStationId leg).
Proof.
  revert u. induction path as [|l path IH]; simpl; intros u H Hst Hl Hf.
  - subst v. split; [|reflexivity]. exists st. auto.
  - destruct H as [H1 H2]. split; [exact H1|]. apply IH; assumption.
Qed.

Lemma routeInv_mono (s : State) (origin : Id) (v v' : list Id) (e : QueueEntry) :
  incl v v' -> routeInv s origin v e -> routeInv s origin v' e.
Proof.
  intros Hv (H1 & H2 & H3 & H4). repeat split; try assumption.
  intros x Hx. apply Hv, H4, Hx.
Qed.

Lemma visitNeighbor_route (s : State) (origin lineId : Id) (line : SimLine.t)
      (station : SimStation.t) (here : StationDist.t) (current : QueueEntry)
      (acc : list QueueEntry * list Id) (neighbor : StationDist.t) :
  tget (keyOf (entry_stationId current)) (simStations s) = Some station ->
  In lineId (SimStation.lines station) ->
  tget (keyOf lineId) (simLines s) = Some line ->
  In here (SimLine.stationDistances line) ->
  StationDist.id here = SimStation.id station ->
  In neighbor (SimLine.stationDistances line) ->
  routeInv s origin (snd acc) current /\ Forall (routeInv s origin (snd acc)) (fst acc) ->
  let acc' := visitNeighbor lineId line station here current acc neighbor in
  routeInv s origin (snd acc') current /\ Forall (routeInv s origin (snd acc')) (fst acc').
Proof.
  intros Hst Hlid Hline Hhere Hid Hn [Hcur Hq]. destruct acc as [queue visited].
  simpl in Hcur, Hq. unfold visitNeighbor.
  destruct (setHas (StationDist.id neighbor) visited) eqn:Ev; [split; assumption|].
  simpl.
  assert (Hincl : incl visited (visited ++ [StationDist.id neighbor]))
    by (intros x Hx; apply in_or_app; left; exact Hx).
  split; [eapply routeInv_mono; eassumption|].
  apply Forall_app. split.
  - eapply Forall_impl; [|exact Hq]. intros e He. eapply routeInv_mono; eassumption.
  - constructor; [|constructor].
    destruct Hcur as (C1 & C2 & C3 & C4). unfold routeInv. simpl.
    split; [|split; [|split]].
    + match goal with |- chained _ _ (_ ++ [?l]) _ =>
        exact (chained_app s origin _ _ l station C1 Hst Hlid eq_refl) end.
    + apply Forall_app. split; [exact C2|]. constructor; [|constructor].
      exists line, here, neighbor. simpl. repeat split; assumption.
    + unfold stops in *. rewrite map_app. simpl.
      change (NoDup ((origin :: map RouteLeg.toStationId (entry_path current))
                     ++ [StationDist.id neighbor])).
      apply NoDup_app; [exact C3 | constructor; [intros [] | constructor] |].
      intros x Hx [E|[]]. subst x.
      apply C4 in Hx. apply setHas_In in Hx. congruence.
    + unfold stops in *. rewrite map_app. simpl.
      change (incl ((origin :: map RouteLeg.toStationId (entry_path current))
                    ++ [StationDist.id neighbor]) (visited ++ [StationDist.id neighbor])).
      intros x Hx. apply in_app_or in Hx. apply in_or_app.
      destruct Hx as [Hx|Hx]; [left; apply C4; exact Hx | right; exact Hx].
Qed.

Lemma expandLine_route (s : State) (origin : Id) (station : SimStation.t)
      (current : QueueEntry) (acc : list QueueEntry * list Id) (lineId : Id) :
  tget (keyOf (entry_stationId current)) (simStations s) = Some station ->
  In lineId (SimStation.lines station) ->
  routeInv s origin (snd acc) current /\ Forall (routeInv s origin (snd acc)) (fst acc) ->
  let acc' := expandLine s station current acc lineId in
  routeInv s origin (snd acc') current /\ Forall (routeInv s origin (snd acc')) (fst acc').
Proof.
  intros Hst Hlid Hacc. unfold expandLine.
  destruct (tget (keyOf lineId) (simLines s)) as [line|] eqn:Hline; [|exact Hacc].
  destruct (arrayGet _ _) as [here|] eqn:Hhere; [|exact Hacc].
  apply findIndex_arrayGet in Hhere. destruct Hhere as [Hp Hin].
  apply Id_eqb_eq in Hp. cbv zeta.
  apply (@fold_left_invariant _ _ _
           (fun a => routeInv s origin (snd a) current
                     /\ Forall (routeInv s origin (snd a)) (fst a))).
  - apply (@fold_left_invariant _ _ _
             (fun a => routeInv s origin (snd a) current
                       /\ Forall (routeInv s origin (snd a)) (fst a))); [exact Hacc|].
    intros a b Hb Ha. apply visitNeighbor_route; try assumption.
    apply in_rev in Hb. eapply In_firstn. exact Hb.
  - intros a b Hb Ha. apply visitNeighbor_route; try assumption.
    eapply In_skipn. exact Hb.
Qed.

Lemma findRouteLoop_route (s : State) (origin dest : Id) (fuel : nat) :
  forall queue visited r,
    Forall (routeInv s origin visited) queue ->
    findRouteLoop s dest fuel queue visited = Some (Some r) ->
    exists path visited',
      routeInv s origin visited' (mkQueueEntry dest path 0%Z)
      /\ r = routeOfPath path.
Proof.
  induction fuel as [|fuel IH]; intros queue visited r Hq H; simpl in H; [discriminate|].
  destruct queue as [|current queue']; [discriminate|].
  inversion Hq as [|? ? Hcur Hq']. subst.
  destruct (Id_eqb (entry_stationId current) dest) eqn:Ed.
  - apply Id_eqb_eq in Ed. inversion H. subst.
    exists (entry_path current), visited. split; [exact Hcur | reflexivity].
  - destruct (tget (keyOf (entry_stationId current)) (simStations s)) as [station|] eqn:Hst.
    + assert (Hexp :
        let acc' := fold_left (expandLine s station current) (SimStation.lines station)
                              (queue', visited) in
        routeInv s origin (snd acc') current /\ Forall (routeInv s origin (snd acc')) (fst acc')).
      { cbv zeta.
        apply (@fold_left_invariant _ _ _
                 (fun a => routeInv s origin (snd a) current
                           /\ Forall (routeInv s origin (snd a)) (fst a))).
        - split; assumption.
        - intros a b Hb Ha. apply expandLine_route; assumption. }
      cbv zeta in Hexp. destruct (fold_left _ _ _) as [queue'' visited'].
      destruct Hexp as [_ Hexp]. exact (IH _ _ _ Hexp H).
    + exact (IH _ _ _ Hq' H).
Qed.

Lemma findRoute_route (s : State) (origin dest : Id) (r : Route.t) :
  findRoute s origin dest = Some r ->
  r = routeOfPath (Route.legs r)
  /\ chained s origin (Route.legs r) dest
  /\ Forall (legOnLine s) (Route.legs r)
  /\ NoDup (stops origin (Route.legs r)).
Proof.
  unfold findRoute. intro H.
  destruct (findRouteLoop _ _ _ _ _) as [[r'|]|] eqn:E; try discriminate.
  inversion H. subst r'.
  apply (findRouteLoop_route s origin) in E.
  - destruct E as (path & visited' & (C1 & C2 & C3 & _) & ->). simpl in *.
    repeat split; assumption.
  - constructor; [|constructor]. unfold routeInv, stops. simpl.
    split; [reflexivity|]. split; [constructor|]. split.
    + constructor; [intros [] | constructor].
    + intros x [->|[]]. left. reflexivity.
Qed.

Lemma rideTimes_nonneg (s : State) (path : list RouteLeg.t) (x : Q) :
  Forall (legOnLine s) path -> 0 <= x ->
  0 <= fold_left (fun sum leg => sum + RouteLeg.rideTime leg) path x.
Proof.
  revert x. induction path as [|leg path IH]; simpl; intros x H Hx; [exact Hx|].
  inversion H as [|? ? Hl Hp]. subst. apply IH; [exact Hp|].
  destruct Hl as (line & here & there & _ & _ & _ & _ & _ & Hr & _). rewrite Hr.
  pose proof (Math_abs_nonneg (StationDist.distance there - StationDist.distance here)) as Ha.
  set (a := Math_abs _) in *.
  assert (0 <= a / 500 * 60).
  { unfold Qdiv. change (/ 500) with (1 # 500). nra. }
  lra.
Qed.

Lemma chained_last (s : State) (path : list RouteLeg.t) (u v : Id) :
  chained s u path v -> path <> [] -> In v (map RouteLeg.toStationId path).
Proof.
  revert u. induction path as [|leg rest IH]; simpl; intros u C Hne; [congruence|].
  destruct C as [_ C]. destruct rest as [|leg' rest'].
  - simpl in C. left. exact C.
  - right. apply (IH _ C). discriminate.
Qed.

(** X6. A route that [findRoute] returns has the sum of the ride times of
    its legs as ride time, 90 seconds for every leg as wait time, and their
    sum as total time; its ride time is not negative, and it has no leg
    exactly when the origin is the destination. *)
Theorem findRoute_totals (s : State) (origin dest : Id) (r : Route.t) :
  findRoute s origin dest = Some r ->
  Route.rideTime r = fold_left (fun sum leg => sum + RouteLeg.rideTime leg) (Route.legs r) 0
  /\ Route.waitTime r = inject_Z (Z.of_nat (List.length (Route.legs r))) * 90
  /\ Route.totalTime r = Route.rideTime r + Route.waitTime r
  /\ 0 <= Route.rideTime r
  /\ (Route.legs r = [] <-> origin = dest).
Proof.
  intro H. destruct (findRoute_route s origin dest r H) as (E & C & L & N).
  split; [rewrite E at 1; reflexivity|].
  split; [rewrite E at 1; reflexivity|].
  split; [rewrite E; reflexivity|].
  split.
  - rewrite E. simpl. apply (rideTimes_nonneg s); [exact L | lra].
  - split.
    + intro El. rewrite El in C. exact C.
    + intro Eo. subst dest. destruct (Route.legs r) as [|leg rest] eqn:El; [reflexivity|].
      exfalso. unfold stops in N. inversion N as [|? ? Hnin _]. apply Hnin.
      apply (chained_last s _ origin origin C). discriminate.
Qed.

(** X5. A route that [findRoute] returns leads from the origin to the
    destination: every leg departs from the station stored for the place
    where the previous leg arrived, on a line that this station lists; it
    joins two stations of that line, rides |distance difference| / 500
    minutes, and has the geometry that [extractLineSegment] cuts out; no
    station is called at twice. *)
Theorem findRoute_path (s : State) (origin dest : Id) (r : Route.t) :
  findRoute s origin dest = Some r ->
  chained s origin (Route.legs r) dest
  /\ Forall (legOnLine s) (Route.legs r)
  /\ NoDup (stops origin (Route.legs r)).
Proof.
  intro H. destruct (findRoute_route s origin dest r H) as (_ & C & L & N).
  split; [exact C|]. split; [exact L | exact N].
Qed.

(* ===================================================================== *)
(** * The variables that the steps write *)
(* ===================================================================== *)

Section FrameFacts.
Context {Math : MathLib}.

Lemma addStations_frame (fs : list PointFeature) (s : State) :
  set_stationQueues [] (set_simStations [] (fold_left addStationToSimulation fs s))
  = set_stationQueues [] (set_simStations [] s).
Proof.
  apply (@fold_left_keeps _ _ _ addStationToSimulation
           (fun s => set_stationQueues [] (set_simStations [] s))).
  intros a b. reflexivity.
Qed.

Lemma prepareLine_frame (s : State) (lf : LineFeature) :
  set_simStations [] (set_simLines [] (set_nextTrainId 0%Z (prepareLine s lf)))
  = set_simStations [] (set_simLines [] (set_nextTrainId 0%Z s)).
Proof.
  unfold prepareLine. cbv zeta. destruct (_ <? 2)%nat; [reflexivity|].
  pose proof (lineIdentity_state s lf) as Hs1.
  destruct (lineIdentity s lf) as [id s1]. simpl in Hs1.
  destruct (matchVertices _ _ _ _ _) as [sds stations].
  destruct (_ <? 2)%nat.
  - change (set_simStations [] (set_simLines [] (set_nextTrainId 0%Z s1))
            = set_simStations [] (set_simLines [] (set_nextTrainId 0%Z s))).
    rewrite Hs1. reflexivity.
  - change (set_simStations [] (set_simLines [] (set_nextTrainId 0%Z s1))
            = set_simStations [] (set_simLines [] (set_nextTrainId 0%Z s))).
    rewrite Hs1. reflexivity.
Qed.

Lemma prepareLines_frame (lfs : list LineFeature) (s : State) :
  set_simStations [] (set_simLines [] (set_nextTrainId 0%Z (fold_left prepareLine lfs s)))
  = set_simStations [] (set_simLines [] (set_nextTrainId 0%Z s)).
Proof.
  apply (@fold_left_keeps _ _ _ prepareLine
           (fun s => set_simStations [] (set_simLines [] (set_nextTrainId 0%Z s)))).
  intros a b. apply prepareLine_frame.
Qed.

Lemma updateNetwork_frame (lines : list LineFeature) (stations : list PointFeature)
      (s : State) :
  withoutNetwork (updateNetwork lines stations s) = withoutNetwork s.
Proof.
  unfold updateNetwork, prepareLines. cbv zeta.
  set (s2 := resetSimulation (set_stationsOrigin stations (set_linesOrigin lines s))).
  pose proof (addStations_frame (stationsOrigin s2) s2) as B.
  set (s3 := fold_left addStationToSimulation (stationsOrigin s2) s2) in *.
  pose proof (prepareLines_frame (linesOrigin s3) s3) as C.
  set (s4 := fold_left prepareLine (linesOrigin s3) s3) in *.
  destruct (spawn_fold (tvalues (simLines s4)) s4) as (_ & D). cbv zeta in D.
  set (s5 := fold_left spawnTrainsForLine (tvalues (simLines s4)) s4) in *.
  change (withoutNetwork s5 = withoutNetwork s).
  transitivity (withoutNetwork s4).
  { change (withoutNetwork (set_trains [] (set_nextTrainId 0%Z s5))
            = withoutNetwork (set_trains [] (set_nextTrainId 0%Z s4))).
    rewrite D. reflexivity. }
  transitivity (withoutNetwork s3).
  { change (withoutNetwork (set_simStations [] (set_simLines [] (set_nextTrainId 0%Z s4)))
            = withoutNetwork (set_simStations [] (set_simLines [] (set_nextTrainId 0%Z s3)))).
    rewrite C. reflexivity. }
  transitivity (withoutNetwork s2).
  { change (withoutNetwork (set_stationQueues [] (set_simStations [] s3))
            = withoutNetwork (set_stationQueues [] (set_simStations [] s2))).
    rewrite B. reflexivity. }
  reflexivity.
Qed.

Lemma randoms_frame (n : nat) (s : State) :
  set_randomCalls 0%nat (snd (randoms n s)) = set_randomCalls 0%nat s
  /\ randomCalls (snd (randoms n s)) = (randomCalls s + n)%nat
  /\ fst (randoms n s) = map Math_random (seq (randomCalls s) n).
Proof.
  revert s. induction n as [|n IH]; intro s; simpl.
  - split; [reflexivity|]. split; [lia | reflexivity].
  - unfold random. specialize (IH (set_randomCalls (S (randomCalls s)) s)).
    destruct (randoms n _) as [rs s1]. simpl in *. destruct IH as (H1 & H2 & H3).
    split; [rewrite H1; reflexivity|]. split; [rewrite H2; simpl; lia|].
    rewrite H3. reflexivity.
Qed.

(** The phases of a tick from a state that satisfies the invariants. *)
Lemma simulationTick_run (s : State) :
  structOk s ->
  exists s1 plant km s2,
    spawnPassengers (currentHourOf (clockAdvanced s)) (clockAdvanced s) = Some s1
    /\ samePlant (clockAdvanced s) s1
    /\ stationsOk s1 /\ queuesOk s1
    /\ updateTrains s1 = Some s2
    /\ samePlant s1 plant
    /\ s2 = set_totalTrainKm (totalTrainKm s1 + km) (set_trains (trains s2) plant)
    /\ simulationTick s = Some (closeTick s2)
    /\ sameFleet s2 (closeTick s2).
Proof.
  intros (Hst & Hq & Hsv & Hon & Hln & Hik & Hiu).
  destruct (clockAdvanced_struct s Hst Hq) as [Hst0 Hq0].
  set (s0 := clockAdvanced s) in *.
  assert (L0 : simLines s0 = simLines s) by (apply clockAdvanced_keeps; reflexivity).
  assert (T0 : trains s0 = trains s) by (apply clockAdvanced_keeps; reflexivity).
  destruct (spawnPassengers_ok (currentHourOf s0) Hst0 Hq0) as (s1 & E1 & Hst1 & Hq1 & P1).
  pose proof (samePlant_simLines P1) as L1.
  pose proof (samePlant_trains P1) as T1.
  destruct (@updateTrains_ok (fun _ _ => True) s1)
    as (s2 & plant & km & E2 & P2 & Es2 & _).
  { trivial. } { exact Hst1. } { exact Hq1. }
  { rewrite L1, L0, T1, T0. exact Hon. }
  { rewrite L1, L0, T1, T0. exact Hln. }
  exists s1, plant, km, s2.
  split; [exact E1|]. split; [exact P1|]. split; [exact Hst1|]. split; [exact Hq1|].
  split; [exact E2|]. split; [exact P2|]. split; [exact Es2|].
  split; [rewrite simulationTick_phases; fold s0; rewrite E1, E2; reflexivity|].
  assert (Hk2 : incidentsKeyed (activeIncidents s2) (nextIncidentId s2)).
  { rewrite Es2.
    change (incidentsKeyed (activeIncidents plant) (nextIncidentId plant)).
    pose proof (samePlant_trans P1 P2) as P02.
    rewrite (samePlant_activeIncidents P02), (samePlant_nextIncidentId P02).
    assert (A0 : activeIncidents s0 = activeIncidents s)
      by (apply clockAdvanced_keeps; reflexivity).
    assert (N0 : nextIncidentId s0 = nextIncidentId s)
      by (apply clockAdvanced_keeps; reflexivity).
    rewrite A0, N0. exact Hik. }
  exact (proj1 (closeTick_spec s2 Hk2)).
Qed.

Lemma clockAdvanced_frame (s : State) : withoutTick (clockAdvanced s) = withoutTick s.
Proof. unfold clockAdvanced. cbv zeta. destruct (_ <? _)%Z; reflexivity. Qed.

Lemma simulationTick_frame (s s' : State) :
  structOk s -> simulationTick s = Some s' -> withoutTick s' = withoutTick s.
Proof.
  intros Hok Htick.
  destruct (simulationTick_run s Hok) as (s1 & plant & km & s2 & _ & P1 & _ & _ & _ & P2 & Es2 & E & F).
  rewrite E in Htick. inversion Htick. subst s'.
  rewrite <- (clockAdvanced_frame s).
  transitivity (withoutTick s2).
  { unfold sameFleet in F.
    change (withoutTick (withoutLedger (closeTick s2)) = withoutTick (withoutLedger s2)).
    rewrite F. reflexivity. }
  transitivity (withoutTick plant).
  { rewrite Es2. reflexivity. }
  pose proof (samePlant_trans P1 P2) as P. unfold samePlant in P.
  change (withoutTick (withoutPassengers plant)
          = withoutTick (withoutPassengers (clockAdvanced s))).
  rewrite P. reflexivity.
Qed.
End FrameFacts.

(* ===================================================================== *)
(** * The messages of the host *)
(* ===================================================================== *)

(** Reads a field off an equation between two erased states. *)
Ltac read_frame H :=
  match type of H with
  | ?e1 = ?e2 =>
      match goal with
      | |- ?f _ = ?f _ => change (f e1 = f e2); rewrite H; reflexivity
      end
  end.

Section HostFacts.
Context {Math : MathLib}.

Lemma demandCells_frame (cells : list (nat * nat)) (acc : list PointFeature * State) :
  set_TOTAL_DEMAND 0 (set_randomCalls 0%nat (snd (fold_left demandCell cells acc)))
  = set_TOTAL_DEMAND 0 (set_randomCalls 0%nat (snd acc)).
Proof.
  revert acc. induction cells as [|c cells IH]; intro acc; simpl; [reflexivity|].
  rewrite IH. unfold demandCell, random. destruct acc as [grid s]. cbv zeta.
  destruct (8 <? _)%Z; reflexivity.
Qed.

Lemma createDemandGrid_frame (s : State) :
  set_DEMAND_GRID None (set_TOTAL_DEMAND 0 (set_randomCalls 0%nat (createDemandGrid s)))
  = set_DEMAND_GRID None (set_TOTAL_DEMAND 0 (set_randomCalls 0%nat s)).
Proof.
  unfold createDemandGrid. cbv zeta.
  pose proof (demandCells_frame
                (flat_map (fun i => map (fun j => (i, j)) (seq 0 20)) (seq 0 20))
                ([], set_TOTAL_DEMAND 0 s)) as H.
  destruct (fold_left demandCell _ _) as [grid s1]. simpl in H.
  change (set_DEMAND_GRID None (set_TOTAL_DEMAND 0 (set_randomCalls 0%nat s1))
          = set_DEMAND_GRID None (set_TOTAL_DEMAND 0 (set_randomCalls 0%nat s))).
  rewrite H. reflexivity.
Qed.

(** The variables that each message may write. *)
Lemma onmessage_frame (m : WorkerInboundMessage) (s : State) :
  let s' := onmessage m s in
  match m with
  | START | PAUSE =>
      set_running false (set_simulationInterval None s')
      = set_running false (set_simulationInterval None s)
  | UPDATE_NETWORK _ _ => withoutNetwork s' = withoutNetwork s
  | BUILD_INFRASTRUCTURE _ => set_budget 0 s' = set_budget 0 s
  | PLAN_JOURNEY _ _ => set_outbox [] s' = set_outbox [] s
  | GET_DEMAND_GRID =>
      set_DEMAND_GRID None (set_TOTAL_DEMAND 0 (set_randomCalls 0%nat (set_outbox [] s')))
      = set_DEMAND_GRID None (set_TOTAL_DEMAND 0 (set_randomCalls 0%nat (set_outbox [] s)))
  | SET_DEMAND_GRID _ =>
      set_DEMAND_GRID None (set_TOTAL_DEMAND 0 (set_outbox [] s'))
      = set_DEMAND_GRID None (set_TOTAL_DEMAND 0 (set_outbox [] s))
  | GET_DEMAND_DETAILS _ =>
      set_randomCalls 0%nat (set_outbox [] s') = set_randomCalls 0%nat (set_outbox [] s)
  end.
Proof.
  cbv zeta. destruct m as [| |lines stations|cost|o d| |payload|coords]; simpl.
  - unfold startSimulation. destruct (simulationInterval s); reflexivity.
  - unfold pauseSimulation. destruct (simulationInterval s); reflexivity.
  - apply updateNetwork_frame.
  - unfold handleInfrastructureBuild. cbv zeta. destruct (Qlt_bool _ 0); reflexivity.
  - unfold handlePlanJourney.
    destruct (findNearestStation s o); [|reflexivity].
    destruct (findNearestStation s d); [|reflexivity].
    cbv zeta. destruct (findRoute _ _ _); reflexivity.
  - destruct (DEMAND_GRID s) eqn:E.
    + rewrite E. reflexivity.
    + pose proof (createDemandGrid_frame s) as H.
      destruct (DEMAND_GRID (createDemandGrid s)).
      * change (set_DEMAND_GRID None
                  (set_TOTAL_DEMAND 0 (set_randomCalls 0%nat
                     (set_outbox [] (createDemandGrid s))))
                = set_DEMAND_GRID None
                    (set_TOTAL_DEMAND 0 (set_randomCalls 0%nat (set_outbox [] s)))).
        change (set_outbox [] (set_DEMAND_GRID None
                  (set_TOTAL_DEMAND 0 (set_randomCalls 0%nat (createDemandGrid s))))
                = set_outbox [] (set_DEMAND_GRID None
                    (set_TOTAL_DEMAND 0 (set_randomCalls 0%nat s)))).
        rewrite H. reflexivity.
      * change (set_outbox [] (set_DEMAND_GRID None
                  (set_TOTAL_DEMAND 0 (set_randomCalls 0%nat (createDemandGrid s))))
                = set_outbox [] (set_DEMAND_GRID None
                    (set_TOTAL_DEMAND 0 (set_randomCalls 0%nat s)))).
        rewrite H. reflexivity.
  - reflexivity.
  - unfold handleDemandDetails. cbv zeta.
    pose proof (randoms_frame 12 s) as (H & _).
    destruct (randoms 12 s) as [rs s1]. simpl in H.
    change (set_outbox [] (set_randomCalls 0%nat s1)
            = set_outbox [] (set_randomCalls 0%nat s)).
    rewrite H. reflexivity.
Qed.

(** Only [START] and [PAUSE] write the timer and the running flag. *)
Lemma onmessage_timer (m : WorkerInboundMessage) (s : State) :
  m <> START -> m <> PAUSE ->
  simulationInterval (onmessage m s) = simulationInterval s
  /\ running (onmessage m s) = running s.
Proof.
  intros H1 H2. pose proof (onmessage_frame m s) as H. cbv zeta in H.
  destruct m; try congruence; split; read_frame H.
Qed.

Lemma reachable_timer (s : State) :
  reachable s -> (running s = true <-> simulationInterval s = Some tt).
Proof.
  induction 1 as [|s s' Hr IH Hstep]; [simpl; split; discriminate|].
  destruct Hstep as [m s|s s' Htimer Htick].
  - destruct m as [| |lines stations|cost|o d| |payload|coords];
      try (match goal with
           | |- context [onmessage ?m s] =>
               destruct (onmessage_timer m s ltac:(discriminate) ltac:(discriminate))
                 as [E1 E2]
           end; rewrite E1, E2; exact IH).
    + assert (E : running (startSimulation s) = true
                  /\ simulationInterval (startSimulation s) = Some tt).
      { unfold startSimulation. destruct (simulationInterval s) as [[]|] eqn:E.
        - split; [apply IH; reflexivity | exact E].
        - split; reflexivity. }
      change (onmessage START s) with (startSimulation s).
      destruct E as [E1 E2]. rewrite E1, E2. split; reflexivity.
    + assert (E : running (pauseSimulation s) = false
                  /\ simulationInterval (pauseSimulation s) = None).
      { unfold pauseSimulation. destruct (simulationInterval s) eqn:E;
          split; [reflexivity | reflexivity | reflexivity | exact E]. }
      change (onmessage PAUSE s) with (pauseSimulation s).
      destruct E as [E1 E2]. rewrite E1, E2. split; discriminate.
  - pose proof (simulationTick_frame s s' (reachable_structOk s Hr) Htick) as F.
    assert (E1 : simulationInterval s' = simulationInterval s) by read_frame F.
    assert (E2 : running s' = running s) by read_frame F.
    rewrite E1, E2. exact IH.
Qed.
End HostFacts.

(* ===================================================================== *)
(** * The load and the speed of a train *)
(* ===================================================================== *)

Lemma alight_fold_count (stationId : Id) (ps : list Passenger.t)
      (acc : list Passenger.t * list Passenger.t) :
  let res := fold_left (alightStep stationId) ps acc in
  (List.length (fst res) <= List.length (fst acc) + List.length ps)%nat
  /\ (Forall (fun p => Passenger.route p <> None) ps ->
      (List.length (fst res) + List.length (snd res)
       = List.length (fst acc) + List.length (snd acc) + List.length ps)%nat).
Proof.
  cbv zeta. revert acc. induction ps as [|p ps IH]; intro acc; cbn [fold_left].
  - split; [simpl; lia | intros _; simpl; lia].
  - destruct (IH (alightStep stationId acc p)) as [H1 H2].
    assert (Hs : (List.length (fst (alightStep stationId acc p)) <= S (List.length (fst acc)))%nat
                 /\ (Passenger.route p <> None ->
                     (List.length (fst (alightStep stationId acc p))
                      + List.length (snd (alightStep stationId acc p))
                      = S (List.length (fst acc) + List.length (snd acc)))%nat)).
    { unfold alightStep. destruct acc as [st al]. destruct (Passenger.route p) as [r|].
      - destruct (nth_error _ _) as [leg|]; [destruct (Id_eqb _ _)|];
          simpl; rewrite ?length_app; simpl; split; try lia; intros _; lia.
      - simpl. split; [lia | congruence]. }
    destruct Hs as [S1 S2]. split; [simpl; lia|].
    intro Hall. inversion Hall as [|? ? Hp Hps]. subst.
    specialize (H2 Hps). specialize (S2 Hp). simpl. lia.
Qed.

Lemma board_fold_count (s : State) (train : Train.t) (queue : list Passenger.t)
      (acc : list Passenger.t * Z * list Passenger.t) :
  let res := fold_left (boardStep s train) queue acc in
  (List.length (fst (fst res)) + List.length (snd res)
   = List.length (fst (fst acc)) + List.length (snd acc) + List.length queue)%nat
  /\ (snd (fst res) - snd (fst acc)
      = Z.of_nat (List.length (fst (fst res))) - Z.of_nat (List.length (fst (fst acc))))%Z
  /\ ((Z.of_nat (List.length (fst (fst acc))) <= Train.capacity train)%Z ->
      (Z.of_nat (List.length (fst (fst res))) <= Train.capacity train)%Z).
Proof.
  cbv zeta. revert acc. induction queue as [|p queue IH]; intro acc; cbn [fold_left].
  - split; [simpl; lia|]. split; [lia | tauto].
  - destruct (IH (boardStep s train acc p)) as (H1 & H2 & H3).
    assert (Hs :
      (List.length (fst (fst (boardStep s train acc p)))
       + List.length (snd (boardStep s train acc p))
       = S (List.length (fst (fst acc)) + List.length (snd acc)))%nat
      /\ (snd (fst (boardStep s train acc p)) - snd (fst acc)
          = Z.of_nat (List.length (fst (fst (boardStep s train acc p))))
            - Z.of_nat (List.length (fst (fst acc))))%Z
      /\ ((Z.of_nat (List.length (fst (fst acc))) <= Train.capacity train)%Z ->
          (Z.of_nat (List.length (fst (fst (boardStep s train acc p))))
           <= Train.capacity train)%Z)).
    { unfold boardStep. destruct acc as [[onboard boarding] queued].
      destruct (_ <=? _)%Z eqn:Ecap.
      - simpl. rewrite length_app. simpl. split; [lia|]. split; [lia | tauto].
      - apply Z.leb_gt in Ecap. cbv zeta.
        repeat match goal with
               | |- context [match ?x with Some _ => _ | None => _ end] => destruct x
               | |- context [if ?b then _ else _] => destruct b
               end;
          simpl; rewrite ?length_app; simpl;
          (split; [lia|]); (split; [lia|]); intros _; lia. }
    destruct Hs as (S1 & S2 & S3).
    split; [simpl; lia|]. split; [lia|]. intro H. apply H3, S3, H.
Qed.

Lemma handleStationArrival_load (s : State) (train : Train.t) (line : SimLine.t)
      (sd : StationDist.t) (s' : State) (train' : Train.t) :
  handleStationArrival s train line sd = Some (s', train') ->
  Train.capacity train' = Train.capacity train
  /\ ((Z.of_nat (List.length (Train.passengers train)) <= Train.capacity train)%Z ->
      (Z.of_nat (List.length (Train.passengers train')) <= Train.capacity train)%Z).
Proof.
  unfold handleStationArrival. cbv zeta.
  destruct (tget _ (simStations s)) as [station|].
  - pose proof (alight_fold_count (SimStation.id station) (Train.passengers train) ([], []))
      as [Ha _]. cbv zeta in Ha. simpl in Ha.
    change (Train.passengers
              (Train.set_currentStationIndex _ (Train.set_distanceAlongLine _
                 (Train.set_state dwelling (Train.set_speed 0 train)))))
      with (Train.passengers train).
    destruct (fold_left (alightStep _) _ _) as [staying alighting]. simpl in Ha.
    destruct (fold_left (alightPassenger _) _ _) as [s1|]; [|discriminate].
    destruct (tget _ (stationQueues s1)) as [queue|].
    + match goal with
      | |- context [fold_left (boardStep s1 ?t) queue ?a] =>
          pose proof (board_fold_count s1 t queue a) as (_ & _ & Hb)
      end.
      cbv zeta in Hb. simpl in Hb.
      destruct (fold_left (boardStep _ _) _ _) as [[onboard boarding] queued]. simpl in Hb.
      intro H. inversion H. subst. simpl. split; [reflexivity|]. intro Hc. apply Hb. lia.
    + intro H. inversion H. subst. simpl. split; [reflexivity|]. intro Hc. lia.
  - intro H. inversion H. subst. simpl. split; [reflexivity | tauto].
Qed.

Lemma turnAtLineEnd_load (line : SimLine.t) (train : Train.t) :
  Train.capacity (turnAtLineEnd line train) = Train.capacity train.
Proof.
  unfold turnAtLineEnd. destruct (Qle_bool _ _); [reflexivity|].
  destruct (Qle_bool _ _); reflexivity.
Qed.

Lemma targetSpeed_range (s : State) (t : Train.t) :
  (forall inc, In inc (tvalues (activeIncidents s)) -> 0 <= Incident.value inc) ->
  0 <= targetSpeedOf s t <= MAX_TRAIN_SPEED.
Proof.
  intro Hv. split; [|apply speedCap_fold_le].
  unfold targetSpeedOf. apply (@fold_left_invariant _ _ _ (fun acc => 0 <= acc)).
  - apply Qle_bool_iff. reflexivity.
  - intros a inc Hin Ha. unfold speedCap. destruct (Incident.type inc); [|exact Ha].
    destruct (Id_eqb _ _); [|exact Ha].
    unfold Math_min. destruct (Qle_bool a _); [exact Ha | apply Hv, Hin].
Qed.

Lemma clamp_range (v hi : Q) : 0 <= hi -> 0 <= clamp v 0 hi <= hi.
Proof. intro H. split; [apply clamp_ge_min; exact H | apply clamp_le_max]. Qed.

(** One train update keeps a train fit and moves it forward by at most the
    distance covered at the maximum speed. *)
Lemma updateTrain_fit (s : State) (t : Train.t) (s' : State) (t' : Train.t) (m : Q) :
  (forall inc, In inc (tvalues (activeIncidents s)) -> 0 <= Incident.value inc) ->
  updateTrain s t = Some (s', t', m) ->
  trainFit t ->
  trainFit t' /\ 0 <= m <= MAX_TRAIN_SPEED * TICK_SECONDS.
Proof.
  intros Hv Hu (F1 & F2 & F3).
  assert (Hzero : 0 <= 0 <= MAX_TRAIN_SPEED * TICK_SECONDS)
    by (split; apply Qle_bool_iff; reflexivity).
  unfold updateTrain in Hu.
  destruct (tget _ (simLines s)) as [line|];
    [|inversion Hu; subst; split; [repeat split; tauto | exact Hzero]].
  destruct (_ <? 2)%nat; [inversion Hu; subst; split; [repeat split; tauto | exact Hzero]|].
  cbv zeta in Hu. destruct (Train.state t).
  - match type of Hu with
    | match ?arrived with Some _ => _ | None => _ end = _ =>
        destruct arrived as [[s2 t2]|] eqn:Earr; [|discriminate]
    end.
    inversion Hu. subst s' t' m. clear Hu.
    destruct (turnAtLineEnd_fields line t2) as (U1 & _ & _ & _ & U5).
    pose proof (turnAtLineEnd_load line t2) as U6.
    pose proof (targetSpeed_range s t Hv) as [T1 T2].
    assert (Hclamp : forall v, 0 <= clamp v 0 (targetSpeedOf s t) <= MAX_TRAIN_SPEED).
    { intro v. destruct (clamp_range v _ T1). split; [assumption | lra]. }
    assert (Hm : forall v, 0 <= clamp v 0 (targetSpeedOf s t) * TICK_SECONDS
                           <= MAX_TRAIN_SPEED * TICK_SECONDS).
    { intro v. destruct (Hclamp v) as [C1 C2].
      assert (HT : 0 <= TICK_SECONDS) by (apply Qle_bool_iff; reflexivity).
      split; [apply Qmult_le_0_compat; assumption | apply Qmult_le_compat_r; assumption]. }
    unfold trainFit. rewrite U1, U5, U6.
    destruct (getNextStation t line) as [[nextStation dist]|].
    + destruct (Qle_bool dist _).
      * pose proof (handleStationArrival_train _ _ _ _ Earr) as (H1 & _).
        pose proof (handleStationArrival_load _ _ _ _ _ _ Earr) as (H2 & H3).
        rewrite H1, H2.
        destruct (Qlt_bool dist _); simpl in *;
          (split; [|apply Hm]);
          (split; [exact F1|]);
          (split; [apply H3; exact F2|]);
          split; apply Qle_bool_iff; reflexivity.
      * inversion Earr. subst. destruct (Qlt_bool dist _); simpl;
          (split; [split; [exact F1 | split; [exact F2 | apply Hclamp]] | apply Hm]).
    + inversion Earr. subst. simpl.
      split; [split; [exact F1 | split; [exact F2 | apply Hclamp]] | apply Hm].
  - destruct (Qle_bool _ 0); inversion Hu; subst; simpl;
      (split; [split; [exact F1 | split; [exact F2 | exact F3]] | exact Hzero]).
Qed.

(* ===================================================================== *)
(** * The fleet *)
(* ===================================================================== *)

Lemma spawnTrain_fleet (line : SimLine.t) (spacing : Q) (todo : list nat) (s : State) :
  let s' := fold_left (spawnTrain line spacing) todo s in
  exists news,
    trains s' = trains s ++ news
    /\ List.length news = List.length todo
    /\ nextTrainId s' = (nextTrainId s + Z.of_nat (List.length todo))%Z
    /\ Forall trainFit news
    /\ Forall (fun t => (nextTrainId s <= Train.id t < nextTrainId s')%Z) news
    /\ NoDup (map Train.id news).
Proof.
  cbv zeta. revert s. induction todo as [|i todo IH]; intro s; cbn [fold_left].
  - exists []. rewrite app_nil_r. simpl. rewrite Z.add_0_r.
    repeat split; constructor.
  - destruct (IH (spawnTrain line spacing s i)) as (news & H1 & H2 & H3 & H4 & H5 & H6).
    set (t0 := Train.mk (nextTrainId s) (SimLine.id line) (spacing * inject_Z (Z.of_nat i)) 0
                 Forward moving 0 (-1)%Z [] TRAIN_CAPACITY).
    change (trains (spawnTrain line spacing s i)) with (trains s ++ [t0]) in H1.
    change (nextTrainId (spawnTrain line spacing s i)) with (nextTrainId s + 1)%Z in H3, H5.
    exists (t0 :: news).
    split; [rewrite H1, <- app_assoc; reflexivity|].
    split; [simpl; rewrite H2; reflexivity|].
    split; [rewrite H3; simpl List.length; lia|].
    split.
    { constructor; [|exact H4]. split; [reflexivity|]. split; [simpl; unfold TRAIN_CAPACITY; lia|].
      simpl. split; apply Qle_bool_iff; reflexivity. }
    split.
    { constructor; [simpl; lia|]. eapply Forall_impl; [|exact H5]. simpl. intros t Ht. lia. }
    simpl. constructor; [|exact H6].
    intro Hin. apply in_map_iff in Hin. destruct Hin as (t & Et & Hin).
    rewrite Forall_forall in H5. specialize (H5 t Hin). simpl in H5. lia.
Qed.

Lemma spawn_fleet (lines : list SimLine.t) (s : State) :
  Forall (fun line => (2 <= List.length (SimLine.stationDistances line))%nat) lines ->
  let s' := fold_left spawnTrainsForLine lines s in
  exists news,
    trains s' = trains s ++ news
    /\ List.length news = (TRAINS_PER_LINE * List.length lines)%nat
    /\ (nextTrainId s <= nextTrainId s')%Z
    /\ Forall trainFit news
    /\ Forall (fun t => (nextTrainId s <= Train.id t < nextTrainId s')%Z) news
    /\ NoDup (map Train.id news).
Proof.
  cbv zeta. revert s. induction lines as [|line lines IH]; intros s Hall; cbn [fold_left].
  - exists []. rewrite app_nil_r. simpl. split; [reflexivity|]. split; [reflexivity|].
    split; [lia|]. repeat split; constructor.
  - inversion Hall as [|? ? H2 Hrest]. subst.
    assert (E : spawnTrainsForLine s line
                = fold_left (spawnTrain line (SimLine.length line
                                              / inject_Z (Z.of_nat TRAINS_PER_LINE)))
                            (seq 0 TRAINS_PER_LINE) s).
    { unfold spawnTrainsForLine. apply Nat.ltb_ge in H2. rewrite H2. reflexivity. }
    destruct (spawnTrain_fleet line (SimLine.length line / inject_Z (Z.of_nat TRAINS_PER_LINE))
                (seq 0 TRAINS_PER_LINE) s) as (n1 & A1 & A2 & A3 & A4 & A5 & A6).
    cbv zeta in *. rewrite <- E in A1, A3, A5.
    destruct (IH (spawnTrainsForLine s line) Hrest) as (n2 & B1 & B2 & B3 & B4 & B5 & B6).
    rewrite length_seq in A2, A3.
    exists (n1 ++ n2).
    split; [rewrite B1, A1, <- app_assoc; reflexivity|].
    split; [rewrite length_app, A2, B2; simpl; lia|].
    split; [lia|].
    split; [apply Forall_app; split; assumption|].
    split.
    { apply Forall_app. split.
      - eapply Forall_impl; [|exact A5]. simpl. intros t Ht. lia.
      - eapply Forall_impl; [|exact B5]. simpl. intros t Ht. lia. }
    rewrite map_app. apply NoDup_app; [exact A6 | exact B6 |].
    intros x H1 H3. apply in_map_iff in H1. apply in_map_iff in H3.
    destruct H1 as (t1 & E1 & H1). destruct H3 as (t3 & E3 & H3).
    rewrite Forall_forall in A5, B5. specialize (A5 t1 H1). specialize (B5 t3 H3).
    simpl in A5, B5. lia.
Qed.

Section FleetFacts.
Context {Math : MathLib}.

Lemma updateNetwork_fleet (lines : list LineFeature) (stations : list PointFeature)
      (s : State) :
  fleetOk (updateNetwork lines stations s).
Proof.
  destruct (updateNetwork_spec lines stations s) as ((_ & _ & Hsv) & _). cbv zeta in Hsv.
  revert Hsv. unfold updateNetwork, prepareLines. cbv zeta.
  set (s2 := resetSimulation (set_stationsOrigin stations (set_linesOrigin lines s))).
  pose proof (addStations_frame (stationsOrigin s2) s2) as B.
  set (s3 := fold_left addStationToSimulation (stationsOrigin s2) s2) in *.
  pose proof (prepareLines_frame (linesOrigin s3) s3) as C.
  set (s4 := fold_left prepareLine (linesOrigin s3) s3) in *.
  destruct (spawn_fold (tvalues (simLines s4)) s4) as (_ & D). cbv zeta in D.
  pose proof (spawn_fleet (tvalues (simLines s4)) s4) as F. cbv zeta in F.
  set (s5 := fold_left spawnTrainsForLine (tvalues (simLines s4)) s4) in *.
  assert (L5 : simLines s5 = simLines s4) by read_frame D.
  assert (T4 : trains s4 = []).
  { transitivity (trains s3); [read_frame C|].
    transitivity (trains s2); [read_frame B | reflexivity]. }
  change (servicedOk (simLines s5) -> fleetOk s5).
  intros [_ Hsv]. rewrite L5 in Hsv.
  destruct F as (news & F1 & F2 & _ & F4 & _ & F6).
  { apply Forall_forall. intros line Hin. unfold tvalues in Hin.
    apply in_map_iff in Hin. destruct Hin as ([k l] & E & Hin). simpl in E. subst l.
    exact (proj2 (Hsv k line Hin)). }
  rewrite T4 in F1. simpl in F1.
  unfold fleetOk. change (trains s5) with (trains s5). rewrite F1, L5.
  split; [exact F4|]. split; [exact F6|].
  rewrite F2. unfold tvalues. rewrite length_map. reflexivity.
Qed.

Lemma simulationTick_fleet (s s' : State) :
  structOk s -> fleetOk s -> simulationTick s = Some s' -> fleetOk s'.
Proof.
  intros Hok (F1 & F2 & F3) Htick.
  destruct (simulationTick_struct (fun t t' => trainFit t -> trainFit t') s Hok)
    as (s1 & s2 & _ & _ & _ & E & _ & L2 & _ & _ & _ & _ & _ & _ & _ & HR & Hid & F & _).
  { intros sx t sy t' m Hs Hin Hu Hfit.
    refine (proj1 (updateTrain_fit sx t sy t' m _ Hu Hfit)).
    intros inc Hinc. rewrite (samePlant_activeIncidents Hs) in Hinc.
    assert (A0 : activeIncidents (clockAdvanced s) = activeIncidents s)
      by (apply clockAdvanced_keeps; reflexivity).
    rewrite A0 in Hinc.
    destruct Hok as (_ & _ & _ & _ & _ & Hik & _).
    unfold tvalues in Hinc. apply in_map_iff in Hinc. destruct Hinc as ([k i] & Ei & Hinc).
    simpl in Ei. subst i. exact (proj2 (proj2 (Hik k inc Hinc))). }
  rewrite E in Htick. inversion Htick. subst s'.
  unfold fleetOk. rewrite (sameFleet_trains F), (sameFleet_simLines F), L2.
  split; [|split].
  - clear - HR F1. induction HR as [|t t' ts ts' Ht HR IH]; [constructor|].
    inversion F1. subst. constructor; [apply Ht; assumption | apply IH; assumption].
  - assert (Em : map Train.id (trains s2) = map Train.id (trains s)).
    { clear - Hid. induction Hid as [|t t' ts ts' [Ht _] Hid IH]; [reflexivity|].
      simpl. rewrite Ht, IH. reflexivity. }
    rewrite Em. exact F2.
  - rewrite <- (Forall2_length HR). exact F3.
Qed.

Lemma reachable_fleetOk (s : State) : reachable s -> fleetOk s.
Proof.
  induction 1 as [|s s' Hr IH Hstep].
  - split; [constructor|]. split; [constructor | reflexivity].
  - destruct Hstep as [m s|s s' Htimer Htick].
    + destruct m as [| |lines stations|cost|o d| |payload|coords];
        try (match goal with
             | |- fleetOk (onmessage ?m s) =>
                 assert (V : coreView (onmessage m s) = coreView s)
                   by (apply onmessage_view; discriminate);
                 unfold coreView in V;
                 assert (E1 : trains (onmessage m s) = trains s) by congruence;
                 assert (E2 : simLines (onmessage m s) = simLines s) by congruence;
                 unfold fleetOk; rewrite E1, E2; exact IH
             end).
      apply updateNetwork_fleet.
    + exact (simulationTick_fleet s s' (reachable_structOk s Hr) IH Htick).
Qed.
End FleetFacts.

(* ===================================================================== *)
(** * Counting passengers *)
(* ===================================================================== *)



Section CountFacts.
Context {Math : MathLib}.



End CountFacts.





(* ===================================================================== *)
(** * The passenger ledger *)
(* ===================================================================== *)





Section LedgerFacts.
Context {Math : MathLib}.

(** What the steps of [updateNetwork] after the reset write. *)
Lemma updateNetwork_writes (lines : list LineFeature) (stations : list PointFeature)
      (s : State) :
  set_outbox []
    (set_trains []
      (set_nextTrainId 0%Z
        (set_simLines []
          (set_simStations []
            (set_stationQueues [] (updateNetwork lines stations s))))))
  = set_outbox []
      (set_trains []
        (set_nextTrainId 0%Z
          (set_simLines []
            (set_simStations []
              (set_stationQueues []
                (resetSimulation
                   (set_stationsOrigin stations (set_linesOrigin lines s)))))))).
Proof.
  unfold updateNetwork, prepareLines. cbv zeta.
  set (s2 := resetSimulation (set_stationsOrigin stations (set_linesOrigin lines s))).
  pose proof (addStations_frame (stationsOrigin s2) s2) as B.
  set (s3 := fold_left addStationToSimulation (stationsOrigin s2) s2) in *.
  pose proof (prepareLines_frame (linesOrigin s3) s3) as C.
  set (s4 := fold_left prepareLine (linesOrigin s3) s3) in *.
  destruct (spawn_fold (tvalues (simLines s4)) s4) as (_ & D). cbv zeta in D.
  set (s5 := fold_left spawnTrainsForLine (tvalues (simLines s4)) s4) in *.
  set (E := fun x => set_outbox [] (set_trains [] (set_nextTrainId 0%Z
                       (set_simLines [] (set_simStations [] (set_stationQueues [] x)))))).
  change (E s5 = E s2).
  transitivity (E s4).
  { change (E (set_trains [] (set_nextTrainId 0%Z s5))
            = E (set_trains [] (set_nextTrainId 0%Z s4))).
    rewrite D. reflexivity. }
  transitivity (E s3).
  { change (E (set_simStations [] (set_simLines [] (set_nextTrainId 0%Z s4)))
            = E (set_simStations [] (set_simLines [] (set_nextTrainId 0%Z s3)))).
    rewrite C. reflexivity. }
  change (E (set_stationQueues [] (set_simStations [] s3))
          = E (set_stationQueues [] (set_simStations [] s2))).
  rewrite B. reflexivity.
Qed.



End LedgerFacts.

(* ===================================================================== *)
(** * The clock and the demand grid *)
(* ===================================================================== *)

Lemma jsRem_range (x : Q) : 0 <= x -> 0 <= jsRem x 86400 < 86400.
Proof.
  intro Hx. unfold jsRem, Qtrunc.
  set (y := x / 86400).
  assert (Ey : y * 86400 == x) by (unfold y; apply Qdiv_mult_l; discriminate).
  assert (Hy : 0 <= y) by lra.
  apply Qle_bool_iff in Hy. rewrite Hy.
  pose proof (Qfloor_le y) as H1. pose proof (Qlt_floor y) as H2.
  rewrite inject_Z_plus in H2. change (inject_Z 1) with 1 in H2.
  split; lra.
Qed.

Lemma hour_range (x : Q) :
  0 <= x -> (0 <= Math_floor (jsRem x 86400 / 3600) < 24)%Z.
Proof.
  intro Hx. destruct (jsRem_range x Hx) as [H1 H2]. unfold Math_floor.
  set (r := jsRem x 86400) in *. set (y := r / 3600).
  assert (Ey : y * 3600 == r) by (unfold y; apply Qdiv_mult_l; discriminate).
  split.
  - change 0%Z with (Qfloor 0). apply Qfloor_resp_le. lra.
  - pose proof (Qfloor_le y) as H3.
    assert (H4 : inject_Z (Qfloor y) < inject_Z 24) by (change (inject_Z 24) with 24; lra).
    rewrite <- Zlt_Qlt in H4. exact H4.
Qed.

Lemma hourly_multiplier_defined (hour : Z) :
  (0 <= hour < 24)%Z -> exists m, arrayGet HOURLY_MULTIPLIERS hour = Some m /\ 0 < m.
Proof.
  intro H. unfold arrayGet.
  assert (E : (hour <? 0)%Z = false) by (apply Z.ltb_ge; lia). rewrite E.
  assert (Hn : (Z.to_nat hour < 24)%nat) by lia.
  remember (Z.to_nat hour) as n eqn:En. clear En H E.
  do 24 (destruct n as [|n]; [eexists; split; [reflexivity | reflexivity]|]).
  lia.
Qed.

Section ClockFacts.
Context {Math : MathLib}.

Lemma reachable_simTime (s : State) :
  reachable s -> exists ticks : nat, simTime s == inject_Z (Z.of_nat ticks) * TICK_SECONDS.
Proof.
  induction 1 as [|s s' Hr IH Hstep].
  - exists 0%nat. reflexivity.
  - destruct Hstep as [m s|s s' Htimer Htick].
    + assert (E : simTime (onmessage m s) = simTime s).
      { pose proof (onmessage_frame m s) as H. cbv zeta in H.
        destruct m; read_frame H. }
      rewrite E. exact IH.
    + destruct IH as [n IH]. exists (S n).
      pose proof (simulationTick_run s (reachable_structOk s Hr))
        as (s1 & plant & km & s2 & _ & P1 & _ & _ & _ & P2 & Es2 & E & F).
      rewrite E in Htick. inversion Htick. subst s'.
      rewrite (sameFleet_simTime F), Es2.
      change (simTime plant == inject_Z (Z.of_nat (S n)) * TICK_SECONDS).
      rewrite (samePlant_simTime (samePlant_trans P1 P2)), clockAdvanced_simTime, IH.
      rewrite Nat2Z.inj_succ. unfold Z.succ. rewrite inject_Z_plus. ring.
Qed.

Lemma demandCells_total (cells : list (nat * nat)) (acc : list PointFeature * State) :
  Forall (fun c => (fst c < 20)%nat /\ (snd c < 20)%nat) cells ->
  TOTAL_DEMAND (snd acc) = gridDemand (fst acc) ->
  Forall generatedCell (fst acc) ->
  let res := fold_left demandCell cells acc in
  TOTAL_DEMAND (snd res) = gridDemand (fst res)
  /\ Forall generatedCell (fst res)
  /\ (List.length (fst res) <= List.length (fst acc) + List.length cells)%nat
  /\ randomCalls (snd res) = (randomCalls (snd acc) + 2 * List.length cells)%nat.
Proof.
  cbv zeta. revert acc. induction cells as [|c cells IH]; intros acc Hc Ht Hg; cbn [fold_left].
  - split; [exact Ht|]. split; [exact Hg|]. split; simpl; lia.
  - inversion Hc as [|? ? [Hi Hj] Hcs]. subst.
    assert (Hstep :
      TOTAL_DEMAND (snd (demandCell acc c)) = gridDemand (fst (demandCell acc c))
      /\ Forall generatedCell (fst (demandCell acc c))
      /\ (List.length (fst (demandCell acc c)) <= S (List.length (fst acc)))%nat
      /\ randomCalls (snd (demandCell acc c)) = (randomCalls (snd acc) + 2)%nat).
    { unfold demandCell, random. destruct acc as [grid s]. simpl in Ht, Hg. cbv zeta.
      destruct (8 <? _)%Z eqn:E8; simpl.
      - apply Z.ltb_lt in E8.
        split; [|split; [|split]].
        + unfold gridDemand. rewrite fold_left_app. simpl.
          fold (gridDemand grid). rewrite <- Ht. reflexivity.
        + apply Forall_app. split; [exact Hg|]. constructor; [|constructor].
          eexists (fst c), (snd c), _. split; [exact Hi|]. split; [exact Hj|].
          split; [exact E8 | reflexivity].
        + rewrite length_app. simpl. lia.
        + lia.
      - split; [exact Ht|]. split; [exact Hg|]. split; lia. }
    destruct Hstep as (S1 & S2 & S3 & S4).
    destruct (IH (demandCell acc c) Hcs S1 S2) as (I1 & I2 & I3 & I4).
    split; [exact I1|]. split; [exact I2|]. split; simpl; lia.
Qed.

Lemma createDemandGrid_spec (s : State) :
  exists grid,
    DEMAND_GRID (createDemandGrid s) = Some grid
    /\ TOTAL_DEMAND (createDemandGrid s) = gridDemand grid
    /\ Forall generatedCell grid
    /\ (List.length grid <= 400)%nat
    /\ randomCalls (createDemandGrid s) = (randomCalls s + 800)%nat.
Proof.
  unfold createDemandGrid. cbv zeta.
  set (cells := flat_map (fun i => map (fun j => (i, j)) (seq 0 20)) (seq 0 20)).
  assert (Hlen : List.length cells = 400%nat) by reflexivity.
  assert (Hcells : Forall (fun c => (fst c < 20)%nat /\ (snd c < 20)%nat) cells).
  { apply Forall_forall. intros [i j] Hin. unfold cells in Hin. apply in_flat_map in Hin.
    destruct Hin as (i' & Hi & Hin). apply in_map_iff in Hin.
    destruct Hin as (j' & E & Hj). inversion E. subst.
    apply in_seq in Hi. apply in_seq in Hj. simpl. lia. }
  pose proof (demandCells_total cells ([], set_TOTAL_DEMAND 0 s) Hcells eq_refl
                (Forall_nil _)) as H.
  cbv zeta in H. destruct (fold_left demandCell cells _) as [grid s1].
  cbn [fst snd] in H. rewrite Hlen in H. destruct H as (H1 & H2 & H3 & H4).
  exists grid. split; [reflexivity|]. split; [exact H1|]. split; [exact H2|].
  split; [simpl in H3; lia|]. exact H4.
Qed.

End ClockFacts.

(* ===================================================================== *)
(** * The replies to the host *)
(* ===================================================================== *)

Lemma insertSorted_sorted (A : Type) (key : A -> Q) (x : A) (l : list A) :
  StronglySorted (fun a b => key a <= key b) l ->
  StronglySorted (fun a b => key a <= key b) (insertSorted key x l).
Proof.
  induction 1 as [|y l Hl IH Hy]; simpl.
  - constructor; [constructor | constructor].
  - destruct (Qle_bool (key x) (key y)) eqn:E.
    + apply Qle_bool_iff in E. constructor; [constructor; assumption|].
      constructor; [exact E|]. eapply Forall_impl; [|exact Hy]. simpl. intros a Ha. lra.
    + apply Qle_bool_false in E. constructor; [exact IH|].
      apply Forall_forall. intros a Ha. apply In_insertSorted in Ha.
      destruct Ha as [->|Ha]; [lra|]. rewrite Forall_forall in Hy. exact (Hy a Ha).
Qed.

(** The sort is stable: elements with the same key keep their order. *)
Lemma insertSorted_stable (A : Type) (key : A -> Q) (q : Q) (x : A) (l : list A) :
  filter (fun e => Qeq_bool (key e) q) (insertSorted key x l)
  = filter (fun e => Qeq_bool (key e) q) (x :: l).
Proof.
  induction l as [|y l IH]; [reflexivity|].
  cbn [insertSorted]. destruct (Qle_bool (key x) (key y)) eqn:E; [reflexivity|].
  apply Qle_bool_false in E. cbn [filter] in *. rewrite IH.
  destruct (Qeq_bool (key x) q) eqn:Ex; [|reflexivity].
  destruct (Qeq_bool (key y) q) eqn:Ey; [|reflexivity].
  apply Qeq_bool_iff in Ex. apply Qeq_bool_iff in Ey. lra.
Qed.

Lemma sortBy_stable (A : Type) (key : A -> Q) (q : Q) (l : list A) :
  filter (fun e => Qeq_bool (key e) q) (sortBy key l)
  = filter (fun e => Qeq_bool (key e) q) l.
Proof.
  unfold sortBy. induction l as [|x l IH]; [reflexivity|].
  cbn [fold_right]. rewrite insertSorted_stable. cbn [filter]. rewrite IH. reflexivity.
Qed.

Lemma sortBy_sorted (A : Type) (key : A -> Q) (l : list A) :
  StronglySorted (fun a b => key a <= key b) (sortBy key l).
Proof.
  unfold sortBy. induction l as [|x l IH]; simpl; [constructor|].
  apply insertSorted_sorted. exact IH.
Qed.

Lemma sorted_firstn (A : Type) (R : A -> A -> Prop) (n : nat) (l : list A) :
  StronglySorted R l -> StronglySorted R (firstn n l).
Proof.
  revert l. induction n as [|n IH]; intros l H; simpl; [constructor|].
  destruct l as [|x l]; [constructor|]. inversion H. subst.
  constructor; [apply IH; assumption|].
  apply Forall_forall. intros a Ha. apply In_firstn in Ha.
  match goal with Hf : Forall _ l |- _ => rewrite Forall_forall in Hf; exact (Hf a Ha) end.
Qed.

Lemma sorted_split (A : Type) (R : A -> A -> Prop) (n : nat) (l : list A) (x y : A) :
  StronglySorted R l -> In x (firstn n l) -> In y (skipn n l) -> R x y.
Proof.
  revert l. induction n as [|n IH]; intros l H Hx Hy; simpl in *; [destruct Hx|].
  destruct l as [|z l]; [destruct Hx|]. inversion H as [|? ? Hl Hz]. subst.
  destruct Hx as [->|Hx].
  - rewrite Forall_forall in Hz. apply Hz. eapply In_skipn. exact Hy.
  - exact (IH l Hl Hx Hy).
Qed.

Lemma sorted_map (A B : Type) (f : A -> B) (R : B -> B -> Prop) (l : list A) :
  StronglySorted (fun a b => R (f a) (f b)) l -> StronglySorted R (map f l).
Proof.
  induction 1 as [|x l Hl IH Hx]; simpl; constructor; [exact IH|].
  apply Forall_forall. intros b Hb. apply in_map_iff in Hb. destruct Hb as (a & <- & Ha).
  rewrite Forall_forall in Hx. exact (Hx a Ha).
Qed.

Lemma filter_firstn (A : Type) (p : A -> bool) (n : nat) (l : list A) :
  exists m, filter p (firstn n l) = firstn m (filter p l).
Proof.
  revert l. induction n as [|n IH]; intro l; [exists 0%nat; reflexivity|].
  destruct l as [|x l]; [exists 0%nat; reflexivity|].
  destruct (IH l) as [m Hm]. simpl. destruct (p x).
  - exists (S m). simpl. rewrite Hm. reflexivity.
  - exists m. exact Hm.
Qed.

Lemma filter_map_comm (A B : Type) (f : A -> B) (p : B -> bool) (l : list A) :
  filter p (map f l) = map f (filter (fun x => p (f x)) l).
Proof.
  induction l as [|x l IH]; [reflexivity|]. simpl. destruct (p (f x)); simpl; rewrite IH; reflexivity.
Qed.

Lemma filter_both (A : Type) (p q : A -> bool) (l : list A) :
  filter p (filter q l) = filter (fun x => p x && q x) l.
Proof.
  induction l as [|x l IH]; [reflexivity|]. simpl.
  destruct (q x); simpl; [destruct (p x); simpl; rewrite IH; reflexivity|].
  rewrite andb_false_r. exact IH.
Qed.

Section HandlerFacts.
Context {Math : MathLib}.

(** Stations at the same distance are listed in the order of the table. *)
Lemma nearbyStations_stable (coords : Coord) (stations : list SimStation.t) (d : Q) :
  exists m,
    filter (fun n => Qeq_bool (nearby_distance n) d)
      (map (fun e : SimStation.t * Q =>
              mkNearbyStation (SimStation.id (fst e)) (SimStation.name (fst e)) (snd e)
                              (snd e / WALK_SPEED_MPS))
           (firstn 5
              (sortBy snd
                 (filter (fun e : SimStation.t * Q => Qlt_bool (snd e) 2000)
                    (map (fun station =>
                            (station, turfDistance coords (SimStation.coords station)))
                         stations)))))
    = firstn m
        (map (fun st =>
                mkNearbyStation (SimStation.id st) (SimStation.name st)
                  (turfDistance coords (SimStation.coords st))
                  (turfDistance coords (SimStation.coords st) / WALK_SPEED_MPS))
             (filter (fun st =>
                        Qeq_bool (turfDistance coords (SimStation.coords st)) d
                        && Qlt_bool (turfDistance coords (SimStation.coords st)) 2000)
                     stations)).
Proof.
  rewrite filter_map_comm. cbn [nearby_distance].
  destruct (filter_firstn _ (fun e : SimStation.t * Q => Qeq_bool (snd e) d) 5
              (sortBy snd
                 (filter (fun e : SimStation.t * Q => Qlt_bool (snd e) 2000)
                    (map (fun station =>
                            (station, turfDistance coords (SimStation.coords station)))
                         stations)))) as [m Hm].
  exists m. rewrite Hm, (sortBy_stable _ snd d), filter_both, filter_map_comm.
  cbn [snd]. rewrite <- firstn_map, map_map. reflexivity.
Qed.

(** X9. [GET_DEMAND_DETAILS] posts one [DEMAND_DETAILS_RESULT] with the
    point, twelve fresh random numbers, and at most five stations of the
    table, each less than 2000 m from the point, in ascending order of
    distance, with walk time distance / 1.4.  A station within 2000 m is
    listed unless five stations at most as far are.  The sort is stable:
    the listed stations at one distance are the first stations of the table
    at that distance, in the order of the table. *)
Theorem demand_details_reply (s : State) (coords : Coord) :
  let s' := onmessage (GET_DEMAND_DETAILS coords) s in
  exists nearby,
    outbox s'
    = outbox s ++ [DEMAND_DETAILS_RESULT coords nearby
                     (map Math_random (seq (randomCalls s) 12))]
    /\ randomCalls s' = (randomCalls s + 12)%nat
    /\ (List.length nearby <= 5)%nat
    /\ StronglySorted (fun a b => nearby_distance a <= nearby_distance b) nearby
    /\ Forall (fun n =>
                 nearby_distance n < 2000
                 /\ nearby_walkTime n = nearby_distance n / WALK_SPEED_MPS
                 /\ exists k st,
                      In (k, st) (simStations s)
                      /\ nearby_id n = SimStation.id st
                      /\ nearby_name n = SimStation.name st
                      /\ nearby_distance n = turfDistance coords (SimStation.coords st))
              nearby
    /\ (forall k st,
          In (k, st) (simStations s) ->
          turfDistance coords (SimStation.coords st) < 2000 ->
          (exists n, In n nearby
                     /\ nearby_id n = SimStation.id st
                     /\ nearby_distance n = turfDistance coords (SimStation.coords st))
          \/ (List.length nearby = 5%nat
              /\ Forall (fun n => nearby_distance n
                                  <= turfDistance coords (SimStation.coords st))
                        nearby))
    /\ (forall d, exists m,
          filter (fun n => Qeq_bool (nearby_distance n) d) nearby
          = firstn m
              (map (fun st =>
                      mkNearbyStation (SimStation.id st) (SimStation.name st)
                        (turfDistance coords (SimStation.coords st))
                        (turfDistance coords (SimStation.coords st) / WALK_SPEED_MPS))
                   (filter (fun st =>
                              Qeq_bool (turfDistance coords (SimStation.coords st)) d
                              && Qlt_bool (turfDistance coords (SimStation.coords st)) 2000)
                           (tvalues (simStations s))))).
Proof.
  cbv zeta. change (onmessage (GET_DEMAND_DETAILS coords) s) with (handleDemandDetails coords s).
  unfold handleDemandDetails. cbv zeta.
  destruct (randoms_frame 12 s) as (R1 & R2 & R3).
  destruct (randoms 12 s) as [rs s1]. simpl in R1, R2, R3. subst rs.
  set (near := fun e : SimStation.t * Q => Qlt_bool (snd e) 2000).
  set (entries := map (fun station => (station, turfDistance coords (SimStation.coords station)))
                      (tvalues (simStations s))).
  set (L := sortBy snd (filter near entries)).
  set (g := fun e : SimStation.t * Q =>
              mkNearbyStation (SimStation.id (fst e)) (SimStation.name (fst e)) (snd e)
                              (snd e / WALK_SPEED_MPS)).
  assert (HL : forall e, In e L <->
                 (exists k, In (k, fst e) (simStations s))
                 /\ snd e = turfDistance coords (SimStation.coords (fst e))
                 /\ snd e < 2000).
  { intro e. unfold L. rewrite In_sortBy, filter_In. unfold entries, near, tvalues.
    rewrite in_map_iff. split.
    - intros [(st & <- & Hst) Hn]. simpl in *. apply Qlt_bool_true in Hn.
      apply in_map_iff in Hst. destruct Hst as ([k v] & <- & Hin).
      split; [exists k; exact Hin | split; [reflexivity | exact Hn]].
    - intros ((k & Hin) & Hd & Hn). split.
      + exists (fst e). split; [destruct e; simpl in *; congruence|].
        apply in_map_iff. exists (k, fst e). split; [reflexivity | exact Hin].
      + apply Qlt_bool_true. exact Hn. }
  exists (map g (firstn 5 L)).
  split.
  { change (outbox s1 ++ [DEMAND_DETAILS_RESULT coords (map g (firstn 5 L))
                             (map Math_random (seq (randomCalls s) 12))]
            = outbox s ++ [DEMAND_DETAILS_RESULT coords (map g (firstn 5 L))
                             (map Math_random (seq (randomCalls s) 12))]).
    assert (E : outbox s1 = outbox s) by read_frame R1. rewrite E. reflexivity. }
  split; [exact R2|].
  split; [rewrite length_map, length_firstn; lia|].
  split.
  { apply sorted_map. refine (sorted_firstn _ _ 5 L _). exact (sortBy_sorted _ snd _). }
  split.
  { apply Forall_forall. intros n Hn. apply in_map_iff in Hn. destruct Hn as (e & <- & He).
    apply In_firstn in He. apply HL in He. destruct He as ((k & Hin) & Hd & Hlt).
    simpl. split; [exact Hlt|]. split; [reflexivity|].
    exists k, (fst e). split; [exact Hin|]. split; [reflexivity|]. split; [reflexivity | exact Hd]. }
  split; [|intro d; exact (nearbyStations_stable coords (tvalues (simStations s)) d)].
  intros k st Hin Hlt.
  assert (He : In (st, turfDistance coords (SimStation.coords st)) L).
  { apply HL. simpl. split; [exists k; exact Hin | split; [reflexivity | exact Hlt]]. }
  rewrite <- (firstn_skipn 5 L) in He. apply in_app_or in He. destruct He as [He|He].
  - left. exists (g (st, turfDistance coords (SimStation.coords st))).
    split; [apply in_map; exact He | split; reflexivity].
  - right. split.
    + rewrite length_map, length_firstn.
      destruct (Nat.le_gt_cases 5 (List.length L)) as [Hge|Hlt5]; [lia|].
      rewrite skipn_all2 in He by lia. destruct He.
    + apply Forall_forall. intros n Hn. apply in_map_iff in Hn.
      destruct Hn as (e & <- & Hn). simpl.
      exact (sorted_split _ (fun a b : SimStation.t * Q => snd a <= snd b) 5 L e _
               (sortBy_sorted _ snd _) Hn He).
Qed.

(** X8. [PLAN_JOURNEY] does nothing when there is no station.  Otherwise it
    posts one [JOURNEY_PLAN_RESULT] for the stations nearest to the two
    points, with the two walk times at 1.4 m/s; the route is [null] exactly
    when [findRoute] finds none, and otherwise its total time is ride time,
    wait time (90 s a leg) and the two walk times. *)
Theorem plan_journey_reply (s : State) (origin destination : Coord) :
  let s' := onmessage (PLAN_JOURNEY origin destination) s in
  (simStations s = [] -> s' = s)
  /\ (simStations s <> [] ->
      exists a b route,
        findNearestStation s origin = Some a
        /\ findNearestStation s destination = Some b
        /\ s' = postMessage
                  (JOURNEY_PLAN_RESULT route
                     (turfDistance origin (SimStation.coords a) / WALK_SPEED_MPS)
                     (turfDistance destination (SimStation.coords b) / WALK_SPEED_MPS))
                  s
        /\ (route = None <-> findRoute s (SimStation.id a) (SimStation.id b) = None)
        /\ (forall r, route = Some r ->
              Route.totalTime r
              = Route.rideTime r + Route.waitTime r
                + (turfDistance origin (SimStation.coords a) / WALK_SPEED_MPS
                   + turfDistance destination (SimStation.coords b) / WALK_SPEED_MPS)
              /\ Route.waitTime r = inject_Z (Z.of_nat (List.length (Route.legs r))) * 90
              /\ (Route.legs r = [] <-> SimStation.id a = SimStation.id b))).
Proof.
  cbv zeta. change (onmessage (PLAN_JOURNEY origin destination) s)
    with (handlePlanJourney origin destination s).
  unfold handlePlanJourney.
  pose proof (findNearestStation_spec s origin) as Ho.
  pose proof (findNearestStation_spec s destination) as Hd.
  split.
  - intro E. destruct (findNearestStation s origin) as [a|]; [|reflexivity].
    destruct Ho as [(k & Hin) _]. rewrite E in Hin. destruct Hin.
  - intro Hne.
    destruct (findNearestStation s origin) as [a|]; [|contradiction].
    destruct (findNearestStation s destination) as [b|]; [|contradiction].
    cbv zeta.
    destruct (findRoute s (SimStation.id a) (SimStation.id b)) as [r0|] eqn:Er.
    + eexists a, b, (Some _). split; [reflexivity|]. split; [reflexivity|].
      split; [reflexivity|]. split; [rewrite Er; split; discriminate|].
      intros r Hr. inversion Hr. subst r. simpl.
      destruct (findRoute_route s _ _ r0 Er) as (E0 & C & _ & N).
      assert (T : Route.totalTime r0 = Route.rideTime r0 + Route.waitTime r0)
        by (rewrite E0; reflexivity).
      assert (W : Route.waitTime r0 = inject_Z (Z.of_nat (List.length (Route.legs r0))) * 90)
        by (rewrite E0 at 1; reflexivity).
      split; [rewrite T; reflexivity|]. split; [exact W|].
      split.
      * intro El. rewrite El in C. exact C.
      * intro Eab. destruct (Route.legs r0) as [|leg rest] eqn:El; [reflexivity|].
        exfalso. unfold stops in N. inversion N as [|? ? Hnin _]. apply Hnin.
        rewrite Eab. apply (chained_last s _ (SimStation.id a) (SimStation.id b) C).
        discriminate.
    + exists a, b, None. split; [reflexivity|]. split; [reflexivity|].
      split; [reflexivity|]. split; [rewrite Er; split; reflexivity|].
      intros r Hr. discriminate Hr.
Qed.

(** X10. [checkForIncidents] does nothing until 20000 km were run since the
    last check that passed (10000 / max(0.5, 0.01)).  Then it records the
    kilometres, uses up one incident number and two random numbers, and adds
    at most one incident: a speed cap of 0.6 of the maximum speed for 1800 s
    on a train of the fleet, or an extra dwell of 15 s for 1200 s at a
    station of the table, announced by one [INCIDENT_EVENT]. *)
Theorem incidents_paced (s : State) :
  (totalTrainKm s - lastIncidentKm s < 20000 -> checkForIncidents s = s)
  /\ (20000 <= totalTrainKm s - lastIncidentKm s ->
      let s' := checkForIncidents s in
      lastIncidentKm s' = totalTrainKm s
      /\ nextIncidentId s' = (nextIncidentId s + 1)%Z
      /\ randomCalls s' = (randomCalls s + 2)%nat
      /\ ((activeIncidents s' = activeIncidents s /\ outbox s' = outbox s)
          \/ exists inc,
               activeIncidents s'
               = tset (String_ofZ (nextIncidentId s)) inc (activeIncidents s)
               /\ outbox s' = outbox s ++ [INCIDENT_EVENT inc true]
               /\ Incident.id inc = nextIncidentId s
               /\ ((Incident.type inc = speed_cap
                    /\ Incident.value inc = MAX_TRAIN_SPEED * (6 # 10)
                    /\ Incident.expiresAt inc = simTime s + 1800
                    /\ exists t, In t (trains s) /\ Incident.targetId inc = IdNum (Train.id t))
                   \/ (Incident.type inc = extra_dwell
                       /\ Incident.value inc = 15
                       /\ Incident.expiresAt inc = simTime s + 1200
                       /\ exists k st, In (k, st) (simStations s)
                                       /\ Incident.targetId inc = SimStation.id st)))).
Proof.
  assert (Ethr : 10000 / Math_max INCIDENT_RATE_PER_10K_KM (1 # 100) == 20000) by reflexivity.
  unfold checkForIncidents. split.
  - intro H. rewrite <- Ethr in H. apply Qlt_bool_true in H. rewrite H. reflexivity.
  - intro H. rewrite <- Ethr in H. apply Qlt_bool_false in H. rewrite H.
    cbv zeta. unfold random.
    destruct (Qlt_bool _ (5 # 10)).
    + destruct (arrayGet _ _) as [randomTrain|] eqn:Eg.
      * split; [reflexivity|]. split; [reflexivity|]. split; [lazy -[Nat.add]; lia|].
        right. eexists. split; [reflexivity|]. split; [reflexivity|]. split; [reflexivity|].
        left. split; [reflexivity|]. split; [reflexivity|]. split; [reflexivity|].
        exists randomTrain. split; [|reflexivity].
        unfold arrayGet in Eg. destruct (_ <? 0)%Z; [discriminate|].
        apply nth_error_In in Eg. exact Eg.
      * split; [reflexivity|]. split; [reflexivity|]. split; [lazy -[Nat.add]; lia|].
        left. split; reflexivity.
    + destruct (arrayGet _ _) as [randomStation|] eqn:Eg.
      * split; [reflexivity|]. split; [reflexivity|]. split; [lazy -[Nat.add]; lia|].
        right. eexists. split; [reflexivity|]. split; [reflexivity|]. split; [reflexivity|].
        right. split; [reflexivity|]. split; [reflexivity|]. split; [reflexivity|].
        unfold arrayGet in Eg. destruct (_ <? 0)%Z; [discriminate|].
        apply nth_error_In in Eg. unfold tvalues in Eg. apply in_map_iff in Eg.
        destruct Eg as ([k st] & E & Hin). simpl in E. subst st.
        exists k, randomStation. split; [exact Hin | reflexivity].
      * split; [reflexivity|]. split; [reflexivity|]. split; [lazy -[Nat.add]; lia|].
        left. split; reflexivity.
Qed.
End HandlerFacts.

(* ===================================================================== *)
(** * The station table *)
(* ===================================================================== *)

Lemma stationIds_cards (t t' : Table SimStation.t) :
  stationCards t' = stationCards t -> stationIds t' = stationIds t.
Proof.
  intro H. unfold stationIds, stationCards in *.
  assert (E : forall u : Table SimStation.t,
             map (fun e => (fst e, SimStation.id (snd e))) u
             = map (fun c : string * (Id * Coord * string) => (fst c, fst (fst (snd c))))
                   (map (fun e => (fst e, (SimStation.id (snd e), SimStation.coords (snd e),
                                           SimStation.name (snd e)))) u)).
  { intro u. rewrite map_map. reflexivity. }
  rewrite (E t'), (E t), H. reflexivity.
Qed.

Lemma tkeys_ids (t : Table SimStation.t) : tkeys t = map fst (stationIds t).
Proof. unfold tkeys, stationIds. rewrite map_map. reflexivity. Qed.

Lemma addLineToFound_cards (p : SimStation.t -> bool) (l : Id) (t : Table SimStation.t) :
  stationCards (addLineToFound p l t) = stationCards t.
Proof.
  induction t as [|[k st] t IH]; simpl; [reflexivity|].
  destruct (p st); simpl; [reflexivity | rewrite IH; reflexivity].
Qed.

Section StationFacts.
Context {Math : MathLib}.

Lemma matchVertices_cards (id : Id) (coords rest : list Coord) (index : nat)
      (acc : list StationDist.t * Table SimStation.t) :
  (forall k i, In (k, i) (stationIds (snd acc)) -> keyOf i = k) ->
  Forall (fun sd => In (keyOf (StationDist.id sd), StationDist.id sd) (stationIds (snd acc)))
         (fst acc) ->
  let res := matchVertices id coords rest index acc in
  stationCards (snd res) = stationCards (snd acc)
  /\ Forall (fun sd => In (keyOf (StationDist.id sd), StationDist.id sd)
                          (stationIds (snd acc)))
            (fst res).
Proof.
  cbv zeta. revert index acc. induction rest as [|c rest IH]; intros index acc Hk Hs; simpl.
  - split; [reflexivity | exact Hs].
  - assert (Hstep :
      stationCards (snd (matchVertex id coords acc c index)) = stationCards (snd acc)
      /\ Forall (fun sd => In (keyOf (StationDist.id sd), StationDist.id sd)
                              (stationIds (snd acc)))
                (fst (matchVertex id coords acc c index))).
    { unfold matchVertex. destruct acc as [sds stations]. simpl in Hk, Hs.
      destruct (find _ _) as [station|] eqn:Ef; simpl.
      - split; [apply addLineToFound_cards|].
        apply Forall_app. split; [exact Hs|]. constructor; [|constructor]. simpl.
        apply find_some in Ef. destruct Ef as [Hin _].
        unfold tvalues in Hin. apply in_map_iff in Hin. destruct Hin as ([k st] & E & Hin).
        simpl in E. subst st.
        assert (Hi : In (k, SimStation.id station) (stationIds stations)).
        { unfold stationIds. apply in_map_iff. exists (k, station). split; [reflexivity | exact Hin]. }
        rewrite (Hk _ _ Hi). exact Hi.
      - split; [reflexivity | exact Hs]. }
    destruct Hstep as [S1 S2].
    pose proof (stationIds_cards _ _ S1) as S3.
    destruct (IH (S index) (matchVertex id coords acc c index)) as [I1 I2].
    + rewrite S3. exact Hk.
    + rewrite S3. exact S2.
    + split; [rewrite I1; exact S1 | rewrite <- S3; exact I2].
Qed.

(** One line prepared: the stations keep their cards, and a line that enters
    the table calls at stations of the table only. *)
Lemma prepareLine_routing (s : State) (lf : LineFeature) :
  (forall k i, In (k, i) (stationIds (simStations s)) -> keyOf i = k) ->
  let s' := prepareLine s lf in
  stationCards (simStations s') = stationCards (simStations s)
  /\ forall k line, In (k, line) (simLines s') ->
       In (k, line) (simLines s)
       \/ Forall (fun sd => In (keyOf (StationDist.id sd), StationDist.id sd)
                               (stationIds (simStations s)))
                 (SimLine.stationDistances line).
Proof.
  intro Hk. cbv zeta. unfold prepareLine. cbv zeta.
  destruct (_ <? 2)%nat; [split; [reflexivity | intros; left; assumption]|].
  pose proof (lineIdentity_state s lf) as Hs1.
  destruct (lineIdentity s lf) as [id s1]. simpl in Hs1.
  assert (F1 : simStations s1 = simStations s) by read_frame Hs1.
  assert (F2 : simLines s1 = simLines s) by read_frame Hs1.
  pose proof (matchVertices_cards id (line_coordinates lf) (line_coordinates lf) 0%nat
                ([], simStations s1)) as Hm.
  cbv zeta in Hm. simpl in Hm. rewrite F1 in Hm. specialize (Hm Hk (Forall_nil _)).
  rewrite F1.
  destruct (matchVertices id _ _ 0%nat ([], simStations s)) as [sds stations].
  simpl in Hm. destruct Hm as [M1 M2].
  destruct (_ <? 2)%nat.
  - split; [exact M1|]. intros k line Hin. left.
    change (In (k, line) (simLines s1)) in Hin. rewrite F2 in Hin. exact Hin.
  - split; [exact M1|]. intros k line Hin.
    match type of Hin with
    | In _ (simLines (set_simLines ?t _)) => change (In (k, line) t) in Hin
    end.
    apply In_tset in Hin. destruct Hin as [Hin|Hin].
    + right. inversion Hin. subst. simpl.
      apply Forall_forall. intros sd Hsd. apply In_sortBy in Hsd.
      rewrite Forall_forall in M2. exact (M2 sd Hsd).
    + left. change (In (k, line) (simLines s1)) in Hin. rewrite F2 in Hin. exact Hin.
Qed.

Lemma prepareLines_routing (lfs : list LineFeature) (s : State) :
  (forall k i, In (k, i) (stationIds (simStations s)) -> keyOf i = k) ->
  (forall k line, In (k, line) (simLines s) ->
     Forall (fun sd => In (keyOf (StationDist.id sd), StationDist.id sd)
                          (stationIds (simStations s)))
            (SimLine.stationDistances line)) ->
  let s' := fold_left prepareLine lfs s in
  stationCards (simStations s') = stationCards (simStations s)
  /\ forall k line, In (k, line) (simLines s') ->
       Forall (fun sd => In (keyOf (StationDist.id sd), StationDist.id sd)
                            (stationIds (simStations s)))
              (SimLine.stationDistances line).
Proof.
  cbv zeta. revert s. induction lfs as [|lf lfs IH]; intros s Hk Hl; cbn [fold_left].
  - split; [reflexivity | exact Hl].
  - destruct (prepareLine_routing s lf Hk) as [P1 P2]. cbv zeta in P1, P2.
    pose proof (stationIds_cards _ _ P1) as P3.
    destruct (IH (prepareLine s lf)) as [I1 I2].
    + rewrite P3. exact Hk.
    + intros k line Hin. rewrite P3. destruct (P2 k line Hin) as [H|H]; [exact (Hl k line H) | exact H].
    + split; [rewrite I1; exact P1|]. intros k line Hin. rewrite <- P3. exact (I2 k line Hin).
Qed.

(** The set [features] of stations registered, in a table without lines. *)
Lemma addStations_registered (fs : list PointFeature) (s : State) :
  NoDup (tkeys (simStations s)) ->
  (forall k i, In (k, i) (stationIds (simStations s)) -> keyOf i = k) ->
  let s' := fold_left addStationToSimulation fs s in
  NoDup (tkeys (simStations s'))
  /\ (forall k i, In (k, i) (stationIds (simStations s')) -> keyOf i = k).
Proof.
  cbv zeta. revert s. induction fs as [|f fs IH]; intros s Hn Hk; cbn [fold_left].
  - split; assumption.
  - apply IH.
    + unfold addStationToSimulation. cbv zeta.
      match goal with
      | |- NoDup (tkeys (simStations (set_stationQueues _ (set_simStations ?t _)))) =>
          change (NoDup (tkeys t))
      end.
      apply NoDup_tset. exact Hn.
    + intros k i Hin. unfold addStationToSimulation in Hin. cbv zeta in Hin.
      match type of Hin with
      | In _ (stationIds (simStations (set_stationQueues _ (set_simStations ?t _)))) =>
          change (In (k, i) (stationIds t)) in Hin
      end.
      unfold stationIds in Hin. apply in_map_iff in Hin. destruct Hin as ([k' st] & E & Hin).
      simpl in E. inversion E. subst k' i. clear E.
      apply In_tset in Hin. destruct Hin as [Hin|Hin].
      * inversion Hin. subst. reflexivity.
      * apply Hk. unfold stationIds. apply in_map_iff. exists (k, st).
        split; [reflexivity | exact Hin].
Qed.

Lemma updateNetwork_routing (lines : list LineFeature) (stations : list PointFeature)
      (s : State) :
  routingOk (updateNetwork lines stations s).
Proof.
  unfold updateNetwork, prepareLines. cbv zeta.
  set (s2 := resetSimulation (set_stationsOrigin stations (set_linesOrigin lines s))).
  pose proof (addStations_frame (stationsOrigin s2) s2) as B.
  destruct (addStations_registered (stationsOrigin s2) s2) as [B1 B2].
  { constructor. } { intros k i []. }
  cbv zeta in B1, B2.
  set (s3 := fold_left addStationToSimulation (stationsOrigin s2) s2) in *.
  assert (L3 : simLines s3 = []).
  { transitivity (simLines s2); [read_frame B | reflexivity]. }
  destruct (prepareLines_routing (linesOrigin s3) s3 B2) as [C1 C2].
  { rewrite L3. intros k line []. }
  cbv zeta in C1, C2.
  set (s4 := fold_left prepareLine (linesOrigin s3) s3) in *.
  destruct (spawn_fold (tvalues (simLines s4)) s4) as (_ & D). cbv zeta in D.
  set (s5 := fold_left spawnTrainsForLine (tvalues (simLines s4)) s4) in *.
  assert (L5 : simLines s5 = simLines s4) by read_frame D.
  assert (S5 : simStations s5 = simStations s4) by read_frame D.
  change (routingOk s5). unfold routingOk. rewrite L5, S5.
  pose proof (stationIds_cards _ _ C1) as C3.
  split; [|split].
  - rewrite tkeys_ids, C3, <- tkeys_ids. exact B1.
  - rewrite C3. exact B2.
  - rewrite C3. exact C2.
Qed.

Lemma reachable_routingOk (s : State) : reachable s -> routingOk s.
Proof.
  induction 1 as [|s s' Hr IH Hstep].
  - split; [constructor|]. split; [intros k i [] | intros k line []].
  - destruct Hstep as [m s|s s' Htimer Htick].
    + destruct m as [| |lines stations|cost|o d| |payload|coords];
        try (match goal with
             | |- routingOk (onmessage ?m s) =>
                 assert (V : coreView (onmessage m s) = coreView s)
                   by (apply onmessage_view; discriminate);
                 unfold coreView in V;
                 assert (E1 : simStations (onmessage m s) = simStations s) by congruence;
                 assert (E2 : simLines (onmessage m s) = simLines s) by congruence;
                 unfold routingOk; rewrite E1, E2; exact IH
             end).
      apply updateNetwork_routing.
    + pose proof (simulationTick_frame s s' (reachable_structOk s Hr) Htick) as F.
      assert (E1 : simStations s' = simStations s) by read_frame F.
      assert (E2 : simLines s' = simLines s) by read_frame F.
      unfold routingOk. rewrite E1, E2. exact IH.
Qed.
End StationFacts.

(* ===================================================================== *)
(** * The search finds what can be reached *)
(* ===================================================================== *)

Lemma findIndexFrom_found (A : Type) (p : A -> bool) (l : list A) (i : Z) :
  (exists x, In x l /\ p x = true) ->
  exists n here,
    findIndexFrom p l i = (i + Z.of_nat n)%Z
    /\ nth_error l n = Some here /\ p here = true.
Proof.
  revert i. induction l as [|y l IH]; intros i (x & Hin & Hp); [destruct Hin|].
  simpl. destruct (p y) eqn:Ey.
  - exists 0%nat, y. split; [simpl; lia | split; [reflexivity | exact Ey]].
  - destruct Hin as [->|Hin]; [congruence|].
    destruct (IH (i + 1)%Z (ex_intro _ x (conj Hin Hp))) as (n & here & H1 & H2 & H3).
    exists (S n), here. split; [rewrite H1; lia | split; [exact H2 | exact H3]].
Qed.

Lemma nth_error_parts (A : Type) (l : list A) (n : nat) (here x : A) :
  nth_error l n = Some here -> In x l ->
  In x (firstn n l) \/ x = here \/ In x (skipn (S n) l).
Proof.
  revert l. induction n as [|n IH]; intros [|y l] Hn Hin; simpl in *; try discriminate.
  - inversion Hn. subst. destruct Hin as [->|Hin]; [right; left; reflexivity | right; right; exact Hin].
  - destruct Hin as [->|Hin]; [left; left; reflexivity|].
    destruct (IH l Hn Hin) as [H|[H|H]]; [left; right; exact H | right; left; exact H | right; right; exact H].
Qed.

Lemma grown_refl (s : State) (acc : list QueueEntry * list Id) : grown s acc acc.
Proof.
  split; [apply incl_refl|]. split; [apply incl_refl|].
  split; intros x Hx; left; exact Hx.
Qed.

Lemma grown_trans (s : State) (a b c : list QueueEntry * list Id) :
  grown s a b -> grown s b c -> grown s a c.
Proof.
  intros (A1 & A2 & A3 & A4) (B1 & B2 & B3 & B4).
  split; [eapply incl_tran; eassumption|]. split; [eapply incl_tran; eassumption|]. split.
  - intros u Hu. destruct (B3 u Hu) as [H|H]; [|right; exact H].
    destruct (A3 u H) as [H'|(H1 & e & He & Ee)]; [left; exact H'|].
    right. split; [exact H1|]. exists e. split; [apply B2; exact He | exact Ee].
  - intros e He. destruct (B4 e He) as [H|H]; [|right; exact H].
    destruct (A4 e H) as [H'|H']; [left; exact H' | right; apply B1; exact H'].
Qed.

Section CompletenessFacts.
Context {Math : MathLib}.

Lemma visitNeighbor_grown (s : State) (lineId : Id) (line : SimLine.t) (station : SimStation.t)
      (here : StationDist.t) (current : QueueEntry) (acc : list QueueEntry * list Id)
      (neighbor : StationDist.t) :
  In (keyOf (StationDist.id neighbor), StationDist.id neighbor) (stationIds (simStations s)) ->
  let acc' := visitNeighbor lineId line station here current acc neighbor in
  grown s acc acc' /\ In (StationDist.id neighbor) (snd acc').
Proof.
  intro Hn. cbv zeta. unfold visitNeighbor. destruct acc as [queue visited].
  destruct (setHas (StationDist.id neighbor) visited) eqn:Ev.
  - split; [apply grown_refl | apply setHas_In; exact Ev].
  - split; [|simpl; apply in_or_app; right; left; reflexivity].
    split; [simpl; apply incl_appl, incl_refl|].
    split; [simpl; apply incl_appl, incl_refl|]. split; simpl.
    + intros u Hu. apply in_app_or in Hu. destruct Hu as [Hu|[<-|[]]]; [left; exact Hu|].
      right. split; [exact Hn|]. eexists. split; [apply in_or_app; right; left; reflexivity|].
      reflexivity.
    + intros e He. apply in_app_or in He. destruct He as [He|[<-|[]]]; [left; exact He|].
      right. simpl. apply in_or_app. right. left. reflexivity.
Qed.

Lemma visitNeighbors_grown (s : State) (lineId : Id) (line : SimLine.t) (station : SimStation.t)
      (here : StationDist.t) (current : QueueEntry) (neighbors : list StationDist.t) :
  Forall (fun n => In (keyOf (StationDist.id n), StationDist.id n)
                      (stationIds (simStations s))) neighbors ->
  forall acc,
    let acc' := fold_left (visitNeighbor lineId line station here current) neighbors acc in
    grown s acc acc' /\ forall n, In n neighbors -> In (StationDist.id n) (snd acc').
Proof.
  induction 1 as [|n ns Hn Hns IH]; intro acc; cbn [fold_left]; cbv zeta.
  - split; [apply grown_refl | intros n []].
  - destruct (visitNeighbor_grown s lineId line station here current acc n Hn) as [G1 G2].
    cbv zeta in G1, G2.
    destruct (IH (visitNeighbor lineId line station here current acc n)) as [G3 G4].
    cbv zeta in G3, G4.
    split; [exact (grown_trans s _ _ _ G1 G3)|].
    intros m [<-|Hm]; [|exact (G4 m Hm)].
    destruct G3 as (G3 & _). apply G3. exact G2.
Qed.

(** One line expanded: the stations of the line other than the current one
    are visited. *)
Lemma expandLine_grown (s : State) (station : SimStation.t) (current : QueueEntry)
      (acc : list QueueEntry * list Id) (lineId : Id) :
  routingOk s ->
  let acc' := expandLine s station current acc lineId in
  grown s acc acc'
  /\ forall line here there,
       tget (keyOf lineId) (simLines s) = Some line ->
       In here (SimLine.stationDistances line) ->
       StationDist.id here = SimStation.id station ->
       In there (SimLine.stationDistances line) ->
       In (StationDist.id there) (snd acc') \/ StationDist.id there = SimStation.id station.
Proof.
  intros (_ & _ & R3). cbv zeta. unfold expandLine.
  destruct (tget (keyOf lineId) (simLines s)) as [line|] eqn:Hline;
    [|split; [apply grown_refl | intros; discriminate]].
  assert (Hcalls : Forall (fun n => In (keyOf (StationDist.id n), StationDist.id n)
                                       (stationIds (simStations s)))
                          (SimLine.stationDistances line))
    by exact (R3 _ _ (tget_In _ _ Hline)).
  set (p := fun sd => Id_eqb (StationDist.id sd) (SimStation.id station)).
  destruct (arrayGet (SimLine.stationDistances line) (findIndex p (SimLine.stationDistances line)))
    as [here0|] eqn:Hget.
  - cbv zeta.
    set (i := Z.to_nat (findIndex p (SimLine.stationDistances line))) in *.
    assert (Hn : nth_error (SimLine.stationDistances line) i = Some here0).
    { unfold arrayGet in Hget. destruct (_ <? 0)%Z; [discriminate | exact Hget]. }
    destruct (findIndex_arrayGet _ _ Hget) as [Hp0 _]. unfold p in Hp0. apply Id_eqb_eq in Hp0.
    assert (H1 : Forall (fun n => In (keyOf (StationDist.id n), StationDist.id n)
                                     (stationIds (simStations s)))
                        (rev (firstn i (SimLine.stationDistances line)))).
    { apply Forall_forall. intros n Hin. apply in_rev in Hin. apply In_firstn in Hin.
      rewrite Forall_forall in Hcalls. exact (Hcalls n Hin). }
    assert (H2 : Forall (fun n => In (keyOf (StationDist.id n), StationDist.id n)
                                     (stationIds (simStations s)))
                        (skipn (S i) (SimLine.stationDistances line))).
    { apply Forall_forall. intros n Hin. apply In_skipn in Hin.
      rewrite Forall_forall in Hcalls. exact (Hcalls n Hin). }
    destruct (visitNeighbors_grown s lineId line station here0 current _ H1 acc) as [G1 G2].
    cbv zeta in G1, G2.
    set (acc1 := fold_left (visitNeighbor lineId line station here0 current)
                           (rev (firstn i (SimLine.stationDistances line))) acc) in *.
    destruct (visitNeighbors_grown s lineId line station here0 current _ H2 acc1) as [G3 G4].
    cbv zeta in G3, G4.
    split; [exact (grown_trans s _ _ _ G1 G3)|].
    intros line' here there El Hhere Hid Hthere. inversion El. subst line'.
    destruct (nth_error_parts _ _ i here0 there Hn Hthere) as [H|[H|H]].
    + left. destruct G3 as (G3 & _). apply G3. apply G2. apply in_rev in H. exact H.
    + right. subst there. exact Hp0.
    + left. exact (G4 there H).
  - split; [apply grown_refl|].
    intros line' here there El Hhere Hid Hthere. inversion El. subst line'. exfalso.
    destruct (findIndexFrom_found _ p (SimLine.stationDistances line) 0%Z) as (n & h & E1 & E2 & _).
    { exists here. split; [exact Hhere|]. unfold p. apply Id_eqb_eq. exact Hid. }
    unfold arrayGet, findIndex in Hget. rewrite E1, Z.add_0_l in Hget.
    destruct (Z.of_nat n <? 0)%Z eqn:En; [apply Z.ltb_lt in En; lia|].
    rewrite Nat2Z.id in Hget. congruence.
Qed.

Lemma expandLines_grown (s : State) (station : SimStation.t) (current : QueueEntry)
      (lineIds : list Id) :
  routingOk s ->
  forall acc,
    let acc' := fold_left (expandLine s station current) lineIds acc in
    grown s acc acc'
    /\ forall lid line here there,
         In lid lineIds ->
         tget (keyOf lid) (simLines s) = Some line ->
         In here (SimLine.stationDistances line) ->
         StationDist.id here = SimStation.id station ->
         In there (SimLine.stationDistances line) ->
         In (StationDist.id there) (snd acc') \/ StationDist.id there = SimStation.id station.
Proof.
  intro Hok. induction lineIds as [|lid lids IH]; intro acc; cbn [fold_left]; cbv zeta.
  - split; [apply grown_refl | intros ? ? ? ? []].
  - destruct (expandLine_grown s station current acc lid Hok) as [G1 G2]. cbv zeta in G1, G2.
    destruct (IH (expandLine s station current acc lid)) as [G3 G4]. cbv zeta in G3, G4.
    split; [exact (grown_trans s _ _ _ G1 G3)|].
    intros l line here there [<-|Hl] Hline Hhere Hid Hthere.
    + destruct (G2 line here there Hline Hhere Hid Hthere) as [H|H]; [|right; exact H].
      left. destruct G3 as (G3 & _). apply G3. exact H.
    + exact (G4 l line here there Hl Hline Hhere Hid Hthere).
Qed.

Lemma canonical_station (s : State) (u : Id) (st : SimStation.t) :
  routingOk s ->
  In (keyOf u, u) (stationIds (simStations s)) ->
  tget (keyOf u) (simStations s) = Some st -> SimStation.id st = u.
Proof.
  intros (R1 & _ & _) Hin Hget. unfold stationIds in Hin. apply in_map_iff in Hin.
  destruct Hin as ([k st'] & E & Hin). simpl in E. inversion E. subst.
  rewrite (In_tget_NoDup _ _ _ R1 Hin) in Hget. inversion Hget. reflexivity.
Qed.

(** While the destination can be reached, the loop does not end empty-handed. *)
Lemma findRouteLoop_complete (s : State) (origin dest : Id) :
  routingOk s -> connected s origin dest ->
  forall fuel queue visited,
    frontierOk s dest queue visited -> In origin visited ->
    findRouteLoop s dest fuel queue visited <> Some None.
Proof.
  intros Hok Hconn. induction fuel as [|fuel IH]; intros queue visited (Fa & Fb & Fc) Ho;
    simpl; [discriminate|].
  destruct queue as [|current queue'].
  - intros _.
    assert (Hall : forall v, connected s origin v -> In v visited).
    { induction 1 as [|v w Hv IHv Hr]; [exact Ho|].
      destruct (Fc v IHv) as [(e & [] & _)|[_ Hcl]]. exact (Hcl w Hr). }
    destruct (Fc dest (Hall dest Hconn)) as [(e & [] & _)|[Hne _]]. congruence.
  - destruct (Id_eqb (entry_stationId current) dest) eqn:Ed; [discriminate|].
    apply Id_eqb_neq in Ed.
    assert (Hv : In (entry_stationId current) visited) by (apply Fb; left; reflexivity).
    destruct (tget (keyOf (entry_stationId current)) (simStations s)) as [station|] eqn:Hst.
    + pose proof (Fa _ _ Hv Hst) as Hid.
      destruct (expandLines_grown s station current (SimStation.lines station) Hok
                  (queue', visited)) as [(G1 & G2 & G3 & G4) G5].
      cbv zeta in G1, G2, G3, G4, G5.
      destruct (fold_left _ _ _) as [queue'' visited']. simpl in G1, G2, G3, G4, G5.
      apply IH; [|apply G1; exact Ho].
      split; [|split].
      * intros u st Hu Hget. destruct (G3 u Hu) as [H|[H _]]; [exact (Fa u st H Hget)|].
        exact (canonical_station s u st Hok H Hget).
      * intros e He. destruct (G4 e He) as [H|H]; [|exact H].
        apply G1. apply Fb. right. exact H.
      * intros u Hu. destruct (G3 u Hu) as [H|[_ H]]; [|left; exact H].
        destruct (Fc u H) as [(e & [<-|He] & Ee)|[Hne Hcl]].
        -- right. subst u. split; [exact Ed|].
           intros w (st & lid & line & here & there & R1 & R2 & R3 & R4 & R5 & R6 & R7).
           rewrite Hst in R1. inversion R1. subst st. subst w.
           destruct (G5 lid line here there R2 R3 R4 R5 R6) as [Hw|Hw]; [exact Hw|].
           rewrite Hw, Hid. apply G1. exact Hv.
        -- left. exists e. split; [apply G2; exact He | exact Ee].
        -- right. split; [exact Hne|]. intros w Hw. apply G1. exact (Hcl w Hw).
    + apply IH; [|exact Ho].
      split; [exact Fa|]. split; [intros e He; apply Fb; right; exact He|].
      intros u Hu. destruct (Fc u Hu) as [(e & [<-|He] & Ee)|H]; [| |right; exact H].
      * right. subst u. split; [exact Ed|].
        intros w (st & lid & line & here & there & R1 & _). congruence.
      * left. exists e. split; assumption.
Qed.

Lemma findRoute_complete_at (s : State) (origin dest : Id) :
  routingOk s ->
  (forall st, tget (keyOf origin) (simStations s) = Some st -> SimStation.id st = origin) ->
  connected s origin dest ->
  exists r, findRoute s origin dest = Some r.
Proof.
  intros Hok Ho Hconn.
  pose proof (findRouteLoop_total s origin dest) as T.
  pose proof (findRouteLoop_complete s origin dest Hok Hconn (findRouteFuel s)
                [mkQueueEntry origin [] 0%Z] [origin]) as C.
  destruct (findRoute s origin dest) as [r|]; [exists r; reflexivity|].
  exfalso. apply C; [|left; reflexivity | exact T].
  split; [|split].
  - intros u st [<-|[]] Hget. exact (Ho st Hget).
  - intros e [<-|[]]. left. reflexivity.
  - intros u [<-|[]]. left. eexists. split; [left; reflexivity | reflexivity].
Qed.
End CompletenessFacts.

(* ===================================================================== *)
(** * Dwelling trains *)
(* ===================================================================== *)

Lemma getNextStation_In (train : Train.t) (line : SimLine.t) (sd : StationDist.t) (d : Q) :
  getNextStation train line = Some (sd, d) -> In sd (SimLine.stationDistances line).
Proof.
  unfold getNextStation. destruct (Train.direction train).
  - match goal with |- fold_left (nextStationStep ?f) ?l None = _ -> _ =>
      pose proof (nextStation_fold f l None) as H end.
    intro E. rewrite E in H. destruct H as ([H|[H _]] & _); [discriminate | exact H].
  - match goal with |- fold_left (nextStationStep ?f) ?l None = _ -> _ =>
      pose proof (nextStation_fold f l None) as H end.
    intro E. rewrite E in H. destruct H as ([H|[H _]] & _); [discriminate|].
    apply in_rev. exact H.
Qed.

Lemma turnAtLineEnd_position (line : SimLine.t) (train : Train.t) :
  0 <= Train.distanceAlongLine train <= SimLine.length line ->
  Train.distanceAlongLine (turnAtLineEnd line train) == Train.distanceAlongLine train.
Proof.
  intros [H1 H2]. unfold turnAtLineEnd.
  destruct (Qle_bool (SimLine.length line) _) eqn:E1.
  - apply Qle_bool_iff in E1. simpl. lra.
  - destruct (Qle_bool _ 0) eqn:E2; [|reflexivity].
    apply Qle_bool_iff in E2. simpl. lra.
Qed.

Lemma updateTrain_dwell (s : State) (t : Train.t) (s' : State) (t' : Train.t) (m : Q) :
  (forall line, tget (keyOf (Train.lineId t)) (simLines s) = Some line -> lineOk line) ->
  updateTrain s t = Some (s', t', m) ->
  atStation (simLines s) t -> atStation (simLines s) t'.
Proof.
  intros Hline Hu Hat. pose proof (updateTrain_lineId s t s' t' m Hu) as Hlid.
  unfold updateTrain in Hu.
  destruct (tget (keyOf (Train.lineId t)) (simLines s)) as [line|] eqn:El;
    [|inversion Hu; subst; exact Hat].
  destruct (_ <? 2)%nat; [inversion Hu; subst; exact Hat|].
  cbv zeta in Hu. destruct (Train.state t) eqn:Est.
  - match type of Hu with
    | match ?arrived with Some _ => _ | None => _ end = _ =>
        destruct arrived as [[s2 t2]|] eqn:Earr; [|discriminate]
    end.
    inversion Hu. subst s' t' m. clear Hu.
    destruct (turnAtLineEnd_fields line t2) as (_ & U2 & _).
    intros Hdw line' El' H2. rewrite Hlid, El in El'. inversion El'. subst line'.
    rewrite U2 in Hdw.
    destruct (getNextStation t line) as [[nextStation dist]|] eqn:En.
    + destruct (Qle_bool dist _).
      * pose proof (handleStationArrival_train _ _ _ _ Earr) as (_ & _ & H3 & _).
        exists nextStation. split; [exact (getNextStation_In _ _ _ _ En)|].
        rewrite <- H3. apply turnAtLineEnd_position. rewrite H3.
        destruct (Hline line eq_refl) as [_ Hsd]. rewrite Forall_forall in Hsd.
        exact (Hsd _ (getNextStation_In _ _ _ _ En)).
      * inversion Earr. subst. destruct (Qlt_bool dist _); simpl in Hdw; congruence.
    + inversion Earr. subst. simpl in Hdw. congruence.
  - intros Hdw line' El' H2.
    assert (Ed : Train.distanceAlongLine t' = Train.distanceAlongLine t)
      by (destruct (Qle_bool _ 0); inversion Hu; subst; reflexivity).
    rewrite Ed. rewrite Hlid in El'. exact (Hat Est line' El' H2).
Qed.

Section DwellFacts.
Context {Math : MathLib} {MS : MathSpec Math}.

Lemma reachable_atStation (s : State) :
  reachable s -> Forall (atStation (simLines s)) (trains s).
Proof.
  induction 1 as [|s s' Hr IH Hstep]; [constructor|].
  destruct Hstep as [m s|s s' Htimer Htick].
  - destruct m as [| |lines stations|cost|o d| |payload|coords];
      try (match goal with
           | |- Forall _ (trains (onmessage ?m s)) =>
               assert (V : coreView (onmessage m s) = coreView s)
                 by (apply onmessage_view; discriminate);
               unfold coreView in V;
               assert (E1 : trains (onmessage m s) = trains s) by congruence;
               assert (E2 : simLines (onmessage m s) = simLines s) by congruence;
               rewrite E1, E2; exact IH
           end).
    destruct (updateNetwork_spec lines stations s) as (_ & _ & Hsp & _). cbv zeta in Hsp.
    change (onmessage (UPDATE_NETWORK lines stations) s) with (updateNetwork lines stations s).
    eapply Forall_impl; [|exact Hsp].
    intros t (k & line & _ & _ & _ & Hmov & _) Hdw. congruence.
  - pose proof (reachable_geomOk s Hr) as [Hlines _].
    destruct (simulationTick_struct (fun t t' => atStation (simLines s) t
                                                 -> atStation (simLines s) t')
                s (reachable_structOk s Hr))
      as (s1 & s2 & _ & _ & _ & E & _ & L2 & _ & _ & _ & _ & _ & _ & _ & HR & _ & F & _).
    { intros sx t sy t' m Hs Hin Hu.
      assert (Lx : simLines sx = simLines s).
      { rewrite (samePlant_simLines Hs). apply clockAdvanced_keeps; reflexivity. }
      rewrite <- Lx. apply (updateTrain_dwell sx t sy t' m); [|exact Hu].
      intros line El. rewrite Lx in El. apply tget_In in El. exact (Hlines _ _ El). }
    rewrite E in Htick. inversion Htick. subst s'.
    rewrite (sameFleet_trains F), (sameFleet_simLines F), L2.
    clear - HR IH. induction HR as [|t t' ts ts' Ht HR IHR]; [constructor|].
    inversion IH. subst. constructor; [apply Ht; assumption | apply IHR; assumption].
Qed.
End DwellFacts.

(* ===================================================================== *)
(** * Spawning passengers *)
(* ===================================================================== *)




Section SpawnFacts.
Context {Math : MathLib}.




End SpawnFacts.

(* ===================================================================== *)
(** * Prepared lines *)
(* ===================================================================== *)

Section PreparedFacts.
Context {Math : MathLib}.

Lemma prepareLine_prepared (origin : list LineFeature) (s : State) (lf : LineFeature) :
  In lf origin ->
  (forall k line, In (k, line) (simLines s) -> preparedLine origin k line) ->
  forall k line, In (k, line) (simLines (prepareLine s lf)) -> preparedLine origin k line.
Proof.
  intros Hlf Hs k line. unfold prepareLine. cbv zeta.
  destruct (_ <? 2)%nat eqn:Ec; [apply Hs|].
  pose proof (lineIdentity_state s lf) as Hs1.
  destruct (lineIdentity s lf) as [id s1]. simpl in Hs1.
  assert (F2 : simLines s1 = simLines s) by read_frame Hs1.
  destruct (matchVertices id _ _ 0%nat ([], simStations s1)) as [sds stations].
  destruct (List.length sds <? 2)%nat eqn:Ed.
  - intro Hin. change (In (k, line) (simLines s1)) in Hin. rewrite F2 in Hin.
    exact (Hs k line Hin).
  - intro Hin.
    match type of Hin with
    | In _ (simLines (set_simLines ?t _)) => change (In (k, line) t) in Hin
    end.
    apply In_tset in Hin. destruct Hin as [Hin|Hin].
    + inversion Hin. subst k line. clear Hin.
      apply Nat.ltb_ge in Ec, Ed.
      unfold preparedLine. cbn [SimLine.id SimLine.coords SimLine.length
                                 SimLine.stationDistances SimLine.headway].
      split; [reflexivity|]. split; [exists lf; split; [exact Hlf | reflexivity]|].
      split; [exact Ec|]. split; [reflexivity|].
      split; [apply sortBy_sorted|]. split; [|reflexivity].
      rewrite length_sortBy. exact Ed.
    + change (In (k, line) (simLines s1)) in Hin. rewrite F2 in Hin. exact (Hs k line Hin).
Qed.

Lemma prepareLines_prepared (origin lfs : list LineFeature) (s : State) :
  incl lfs origin ->
  (forall k line, In (k, line) (simLines s) -> preparedLine origin k line) ->
  forall k line, In (k, line) (simLines (fold_left prepareLine lfs s)) ->
                 preparedLine origin k line.
Proof.
  revert s. induction lfs as [|lf lfs IH]; intros s Hincl Hs; cbn [fold_left]; [exact Hs|].
  apply IH.
  - intros x Hx. apply Hincl. right. exact Hx.
  - apply prepareLine_prepared; [apply Hincl; left; reflexivity | exact Hs].
Qed.

Lemma updateNetwork_prepared (lines : list LineFeature) (stations : list PointFeature)
      (s : State) :
  linesOk (updateNetwork lines stations s).
Proof.
  unfold updateNetwork, prepareLines. cbv zeta.
  set (s2 := resetSimulation (set_stationsOrigin stations (set_linesOrigin lines s))).
  pose proof (addStations_frame (stationsOrigin s2) s2) as B.
  set (s3 := fold_left addStationToSimulation (stationsOrigin s2) s2) in *.
  assert (L3 : simLines s3 = []).
  { transitivity (simLines s2); [read_frame B | reflexivity]. }
  assert (O3 : linesOrigin s3 = lines).
  { transitivity (linesOrigin s2); [read_frame B | reflexivity]. }
  pose proof (prepareLines_prepared lines (linesOrigin s3) s3) as C.
  pose proof (prepareLines_frame (linesOrigin s3) s3) as CF.
  set (s4 := fold_left prepareLine (linesOrigin s3) s3) in *.
  destruct (spawn_fold (tvalues (simLines s4)) s4) as (_ & D). cbv zeta in D.
  set (s5 := fold_left spawnTrainsForLine (tvalues (simLines s4)) s4) in *.
  assert (L5 : simLines s5 = simLines s4) by read_frame D.
  assert (O5 : linesOrigin s5 = lines).
  { transitivity (linesOrigin s4); [read_frame D|].
    transitivity (linesOrigin s3); [read_frame CF | exact O3]. }
  change (linesOk s5). unfold linesOk. rewrite L5, O5. apply C.
  - rewrite O3. apply incl_refl.
  - rewrite L3. intros k line [].
Qed.

Lemma reachable_linesOk (s : State) : reachable s -> linesOk s.
Proof.
  induction 1 as [|s s' Hr IH Hstep]; [intros k line []|].
  destruct Hstep as [m s|s s' Htimer Htick].
  - pose proof (onmessage_frame m s) as F. cbv zeta in F.
    destruct m as [| |lines stations|cost|o d| |payload|coords];
      try (match goal with
           | |- linesOk (onmessage ?m s) =>
               assert (E1 : simLines (onmessage m s) = simLines s) by read_frame F;
               assert (E2 : linesOrigin (onmessage m s) = linesOrigin s) by read_frame F;
               unfold linesOk; rewrite E1, E2; exact IH
           end).
    apply updateNetwork_prepared.
  - pose proof (simulationTick_frame s s' (reachable_structOk s Hr) Htick) as F.
    assert (E1 : simLines s' = simLines s) by read_frame F.
    assert (E2 : linesOrigin s' = linesOrigin s) by read_frame F.
    unfold linesOk. rewrite E1, E2. exact IH.
Qed.
End PreparedFacts.

(* ===================================================================== *)
(** * Registered stations *)
(* ===================================================================== *)

Section RegisterFacts.
Context {Math : MathLib}.

Lemma addStationToSimulation_tables (s : State) (f : PointFeature) :
  simStations (addStationToSimulation s f)
  = tset (keyOf (stationIdOf f))
         (SimStation.mk (stationIdOf f) (point_coordinates f) (stationNameOf f) [])
         (simStations s)
  /\ stationQueues (addStationToSimulation s f)
     = tset (keyOf (stationIdOf f)) [] (stationQueues s).
Proof. split; reflexivity. Qed.

(** The last feature with a key is the one the table holds. *)
Lemma addStations_lookup (fs : list PointFeature) (s : State) (k : string) :
  let s' := fold_left addStationToSimulation fs s in
  (forall before f after,
     fs = before ++ f :: after -> keyOf (stationIdOf f) = k ->
     (forall g, In g after -> keyOf (stationIdOf g) <> k) ->
     exists st, tget k (simStations s') = Some st /\ registers f st
                /\ SimStation.lines st = [])
  /\ ((forall g, In g fs -> keyOf (stationIdOf g) <> k) ->
      tget k (simStations s') = tget k (simStations s)).
Proof.
  cbv zeta. revert s. induction fs as [|g fs IH]; intro s; cbn [fold_left].
  - split; [|reflexivity]. intros [|? ?] f after E; discriminate.
  - destruct (IH (addStationToSimulation s g)) as [I1 I2].
    destruct (addStationToSimulation_tables s g) as [T _].
    split.
    + intros before f after E Hk Hafter. destruct before as [|b before]; simpl in E.
      * inversion E. subst g fs. rewrite (I2 Hafter), T. subst k.
        rewrite tget_tset_eq. eexists. split; [reflexivity|]. repeat split.
      * inversion E. subst b fs. exact (I1 before f after eq_refl Hk Hafter).
    + intro Hno. rewrite I2; [|intros x Hx; apply Hno; right; exact Hx].
      rewrite T. apply tget_tset_ne. intro E. apply (Hno g); [left; reflexivity|].
      symmetry. exact E.
Qed.

Lemma last_with_key (fs : list PointFeature) (f : PointFeature) :
  In f fs ->
  exists before f' after,
    fs = before ++ f' :: after
    /\ keyOf (stationIdOf f') = keyOf (stationIdOf f)
    /\ forall g, In g after -> keyOf (stationIdOf g) <> keyOf (stationIdOf f).
Proof.
  induction fs as [|g fs IH]; intro Hin; [destruct Hin|].
  destruct (existsb (fun x => String.eqb (keyOf (stationIdOf x)) (keyOf (stationIdOf f))) fs)
    eqn:E.
  - apply existsb_exists in E. destruct E as (x & Hx & Ex). apply String.eqb_eq in Ex.
    assert (Hex : exists y, In y fs /\ keyOf (stationIdOf y) = keyOf (stationIdOf f))
      by (exists x; split; assumption).
    clear x Hx Ex Hin.
    assert (Hgen : exists before f' after,
               fs = before ++ f' :: after
               /\ keyOf (stationIdOf f') = keyOf (stationIdOf f)
               /\ forall g, In g after -> keyOf (stationIdOf g) <> keyOf (stationIdOf f)).
    { clear IH. induction fs as [|h fs IHfs]; [destruct Hex as (y & [] & _)|].
      destruct (existsb (fun x => String.eqb (keyOf (stationIdOf x)) (keyOf (stationIdOf f)))
                        fs) eqn:E.
      - apply existsb_exists in E. destruct E as (x & Hx & Ex). apply String.eqb_eq in Ex.
        destruct IHfs as (before & f' & after & E1 & E2 & E3);
          [exists x; split; assumption|].
        exists (h :: before), f', after. subst fs. repeat split; assumption.
      - destruct Hex as (y & [->|Hy] & Ey).
        + exists [], y, fs. repeat split; [exact Ey|].
          intros g0 Hg0 Eg0.
          assert (C : existsb (fun x => String.eqb (keyOf (stationIdOf x))
                                                   (keyOf (stationIdOf f))) fs = true).
          { apply existsb_exists. exists g0. split; [exact Hg0 | apply String.eqb_eq; exact Eg0]. }
          congruence.
        + assert (C : existsb (fun x => String.eqb (keyOf (stationIdOf x))
                                                   (keyOf (stationIdOf f))) fs = true).
          { apply existsb_exists. exists y. split; [exact Hy | apply String.eqb_eq; exact Ey]. }
          congruence. }
    destruct Hgen as (before & f' & after & E1 & E2 & E3).
    exists (g :: before), f', after. subst fs. repeat split; assumption.
  - destruct Hin as [->|Hin].
    + exists [], f, fs. repeat split. intros g0 Hg0 Eg0.
      assert (C : existsb (fun x => String.eqb (keyOf (stationIdOf x))
                                               (keyOf (stationIdOf f))) fs = true).
      { apply existsb_exists. exists g0. split; [exact Hg0 | apply String.eqb_eq; exact Eg0]. }
      congruence.
    + exfalso.
      assert (C : existsb (fun x => String.eqb (keyOf (stationIdOf x))
                                               (keyOf (stationIdOf f))) fs = true).
      { apply existsb_exists. exists f. split; [exact Hin | apply String.eqb_eq; reflexivity]. }
      congruence.
Qed.

Lemma tget_cards (t t' : Table SimStation.t) (k : string) (st : SimStation.t) :
  stationCards t' = stationCards t -> tget k t = Some st ->
  exists st', tget k t' = Some st'
              /\ SimStation.id st' = SimStation.id st
              /\ SimStation.coords st' = SimStation.coords st
              /\ SimStation.name st' = SimStation.name st.
Proof.
  revert t'. induction t as [|[k0 v] t IH]; intros t' E H; [discriminate|].
  destruct t' as [|[k1 v1] t']; [discriminate|]. simpl in E. inversion E. subst k1.
  simpl in H |- *. destruct (String.eqb k k0).
  - inversion H. subst v. exists v1. repeat split; assumption.
  - apply IH; assumption.
Qed.

Lemma In_cards (t : Table SimStation.t) (k : string) (st : SimStation.t) :
  In (k, st) t ->
  In (k, (SimStation.id st, SimStation.coords st, SimStation.name st)) (stationCards t).
Proof.
  intro H. unfold stationCards. apply in_map_iff. exists (k, st). split; [reflexivity | exact H].
Qed.

Lemma cards_In (t : Table SimStation.t) (k : string) (c : Id * Coord * string) :
  In (k, c) (stationCards t) ->
  exists st, In (k, st) t
             /\ c = (SimStation.id st, SimStation.coords st, SimStation.name st).
Proof.
  unfold stationCards. intro H. apply in_map_iff in H. destruct H as ([k' st] & E & H).
  simpl in E. inversion E. subst. exists st. split; [exact H | reflexivity].
Qed.

Lemma addStations_from (fs : list PointFeature) (s : State) (k : string) (st : SimStation.t) :
  In (k, st) (simStations (fold_left addStationToSimulation fs s)) ->
  In (k, st) (simStations s)
  \/ exists f, In f fs /\ k = keyOf (stationIdOf f) /\ registers f st.
Proof.
  revert s. induction fs as [|g fs IH]; intro s; cbn [fold_left]; [left; assumption|].
  intro H. destruct (IH _ H) as [H1|(f & F1 & F2 & F3)].
  - destruct (addStationToSimulation_tables s g) as [T _]. rewrite T in H1.
    apply In_tset in H1. destruct H1 as [H1|H1]; [|left; exact H1].
    inversion H1. subst. right. exists g. split; [left; reflexivity|].
    split; [reflexivity | repeat split].
  - right. exists f. split; [right; exact F1 | split; assumption].
Qed.

Lemma updateNetwork_stations (lines : list LineFeature) (stations : list PointFeature)
      (s : State) :
  let s' := updateNetwork lines stations s in
  stationsOrigin s' = stations
  /\ NoDup (tkeys (simStations s'))
  /\ (forall f, In f stations ->
        exists before f' after st,
          stations = before ++ f' :: after
          /\ keyOf (stationIdOf f') = keyOf (stationIdOf f)
          /\ (forall g, In g after -> keyOf (stationIdOf g) <> keyOf (stationIdOf f))
          /\ tget (keyOf (stationIdOf f)) (simStations s') = Some st
          /\ registers f' st)
  /\ (forall k st, In (k, st) (simStations s') ->
        (exists f, In f stations /\ k = keyOf (stationIdOf f) /\ registers f st)
        /\ tget k (stationQueues s') = Some []).
Proof.
  cbv zeta.
  pose proof (updateNetwork_spec lines stations s) as ((N1 & N2 & _) & _). cbv zeta in N1, N2.
  pose proof (updateNetwork_routing lines stations s) as (R1 & _).
  revert N1 N2 R1.
  unfold updateNetwork, prepareLines. cbv zeta.
  set (s2 := resetSimulation (set_stationsOrigin stations (set_linesOrigin lines s))).
  pose proof (addStations_frame (stationsOrigin s2) s2) as B.
  pose proof (addStations_lookup (stationsOrigin s2) s2) as BL.
  pose proof (addStations_from (stationsOrigin s2) s2) as BF.
  cbv zeta in BL.
  change (stationsOrigin s2) with stations in BL, BF.
  change (simStations s2) with (@nil (string * SimStation.t)) in BL, BF.
  set (s3 := fold_left addStationToSimulation (stationsOrigin s2) s2) in *.
  change (fold_left addStationToSimulation stations s2) with s3 in BL, BF.
  assert (O3 : stationsOrigin s3 = stations).
  { transitivity (stationsOrigin s2); [read_frame B | reflexivity]. }
  destruct (prepareLines_routing (linesOrigin s3) s3) as [C1 _].
  { intros k i Hin. unfold stationIds in Hin. apply in_map_iff in Hin.
    destruct Hin as ([k' st] & E & Hin). simpl in E. inversion E. subst k' i.
    destruct (BF k st Hin) as [[]|(f & _ & F2 & F3 & _)]. rewrite F3. symmetry. exact F2. }
  { intros k line Hin.
    assert (L3 : simLines s3 = []).
    { transitivity (simLines s2); [read_frame B | reflexivity]. }
    rewrite L3 in Hin. destruct Hin. }
  cbv zeta in C1.
  pose proof (prepareLines_frame (linesOrigin s3) s3) as CF.
  set (s4 := fold_left prepareLine (linesOrigin s3) s3) in *.
  destruct (spawn_fold (tvalues (simLines s4)) s4) as (_ & D). cbv zeta in D.
  set (s5 := fold_left spawnTrainsForLine (tvalues (simLines s4)) s4) in *.
  assert (S5 : simStations s5 = simStations s4) by read_frame D.
  assert (O5 : stationsOrigin s5 = stations).
  { transitivity (stationsOrigin s4); [read_frame D|].
    transitivity (stationsOrigin s3); [read_frame CF | exact O3]. }
  change (stationsOk s5 -> queuesEmpty s5 -> NoDup (tkeys (simStations s5)) ->
          stationsOrigin s5 = stations
          /\ NoDup (tkeys (simStations s5))
          /\ (forall f, In f stations ->
                exists before f' after st,
                  stations = before ++ f' :: after
                  /\ keyOf (stationIdOf f') = keyOf (stationIdOf f)
                  /\ (forall g, In g after -> keyOf (stationIdOf g) <> keyOf (stationIdOf f))
                  /\ tget (keyOf (stationIdOf f)) (simStations s5) = Some st
                  /\ registers f' st)
          /\ (forall k st, In (k, st) (simStations s5) ->
                (exists f, In f stations /\ k = keyOf (stationIdOf f) /\ registers f st)
                /\ tget k (stationQueues s5) = Some [])).
  intros N1 N2 R1. split; [exact O5|]. split; [exact R1|]. split.
  - intros f Hf. destruct (last_with_key stations f Hf) as (before & f' & after & E1 & E2 & E3).
    destruct (BL (keyOf (stationIdOf f))) as [BL1 _].
    destruct (BL1 before f' after E1 E2 E3) as (st & G1 & G2 & _).
    destruct (tget_cards (simStations s3) (simStations s4) _ st C1 G1) as (st' & H1 & H2 & H3 & H4).
    exists before, f', after, st'. rewrite S5.
    split; [exact E1|]. split; [exact E2|]. split; [exact E3|]. split; [exact H1|].
    destruct G2 as (G2 & G3 & G4). unfold registers. rewrite H2, H3, H4.
    repeat split; assumption.
  - intros k st Hin. split.
    + rewrite S5 in Hin. apply In_cards in Hin. rewrite C1 in Hin.
      apply cards_In in Hin. destruct Hin as (st3 & Hin3 & E).
      inversion E as [[E1 E2 E3]].
      destruct (BF k st3 Hin3) as [[]|(f & F1 & F2 & F3 & F4 & F5)].
      exists f. split; [exact F1|]. split; [exact F2|]. unfold registers.
      rewrite E1, E2, E3. repeat split; assumption.
    + destruct (N1 k st Hin) as [_ Hq]. apply thas_tget in Hq. destruct Hq as [q Hq].
      rewrite Hq. f_equal. exact (N2 k q (tget_In _ _ Hq)).
Qed.
End RegisterFacts.

(* ===================================================================== *)
(** * The incidents of the older worker *)
(* ===================================================================== *)



(* ===================================================================== *)
(** * Properties of the worker *)
(* ===================================================================== *)

Section Extras.
Context {Math : MathLib}.

(** X7. On a reachable state, from a station of the table, [findRoute] returns
    a route exactly when the destination can be reached by rides over lines
    of the table. *)
Theorem findRoute_finds_connected (s : State) (origin dest : Id) :
  reachable s ->
  (exists k st, In (k, st) (simStations s) /\ SimStation.id st = origin) ->
  (connected s origin dest <-> exists r, findRoute s origin dest = Some r).
Proof.
  intros Hr (k & st & Hin & Hid).
  pose proof (reachable_routingOk s Hr) as Hok.
  split.
  - apply findRoute_complete_at; [exact Hok|].
    intros st' Hget. apply (canonical_station s origin st' Hok); [|exact Hget].
    destruct Hok as (_ & R2 & _).
    assert (Hi : In (k, origin) (stationIds (simStations s))).
    { unfold stationIds. apply in_map_iff. exists (k, st). split; [simpl; congruence | exact Hin]. }
    rewrite (R2 k origin Hi). exact Hi.
  - intros [r E]. exact (proj2 (findRoute_sound s origin dest E)).
Qed.

(** X11. Each message writes its own variables only: the state after it and
    the state before it agree once those variables are erased. *)
Theorem message_footprint (m : WorkerInboundMessage) (s : State) :
  let s' := onmessage m s in
  match m with
  | START | PAUSE =>
      set_running false (set_simulationInterval None s')
      = set_running false (set_simulationInterval None s)
  | UPDATE_NETWORK _ _ => withoutNetwork s' = withoutNetwork s
  | BUILD_INFRASTRUCTURE _ => set_budget 0 s' = set_budget 0 s
  | PLAN_JOURNEY _ _ => set_outbox [] s' = set_outbox [] s
  | GET_DEMAND_GRID =>
      set_DEMAND_GRID None (set_TOTAL_DEMAND 0 (set_randomCalls 0%nat (set_outbox [] s')))
      = set_DEMAND_GRID None (set_TOTAL_DEMAND 0 (set_randomCalls 0%nat (set_outbox [] s)))
  | SET_DEMAND_GRID _ =>
      set_DEMAND_GRID None (set_TOTAL_DEMAND 0 (set_outbox [] s'))
      = set_DEMAND_GRID None (set_TOTAL_DEMAND 0 (set_outbox [] s))
  | GET_DEMAND_DETAILS _ =>
      set_randomCalls 0%nat (set_outbox [] s') = set_randomCalls 0%nat (set_outbox [] s)
  end.
Proof. exact (onmessage_frame m s). Qed.

(** X12. In every reachable state the worker is running exactly when its
    interval timer is armed.  [START] on a running worker changes nothing, so
    no second timer is started; after [PAUSE] no timer is armed. *)
Theorem running_iff_timer (s : State) :
  reachable s ->
  (running s = true <-> simulationInterval s = Some tt)
  /\ (running s = true -> onmessage START s = s)
  /\ running (onmessage START s) = true
  /\ simulationInterval (onmessage START s) = Some tt
  /\ running (onmessage PAUSE s) = false
  /\ simulationInterval (onmessage PAUSE s) = None.
Proof.
  intro Hr. pose proof (reachable_timer s Hr) as H.
  assert (S1 : simulationInterval (onmessage START s) = Some tt).
  { simpl. unfold startSimulation. destruct (simulationInterval s) as [[]|] eqn:E;
      [exact E | reflexivity]. }
  pose proof (reachable_timer _ (reachable_step Hr (step_message START s))) as H1.
  split; [exact H|]. split; [|split; [|split; [|split]]].
  - intro E. apply H in E. simpl. unfold startSimulation. rewrite E. reflexivity.
  - apply H1. exact S1.
  - exact S1.
  - reflexivity.
  - simpl. unfold pauseSimulation. destruct (simulationInterval s) eqn:E;
      [reflexivity | exact E].
Qed.

(** X13. [GET_DEMAND_GRID] with a grid in place posts that grid and changes
    nothing else.  Without one it generates a grid of at most 400 cells of
    the 20 x 20 lattice, each with an integer demand above 8, sets
    [TOTAL_DEMAND] to the sum of their demands, draws 800 random numbers and
    posts the grid. *)
Theorem demand_grid_generated (s : State) :
  let s' := onmessage GET_DEMAND_GRID s in
  match DEMAND_GRID s with
  | Some grid => s' = postMessage (DEMAND_GRID_DATA grid) s
  | None =>
      exists grid,
        DEMAND_GRID s' = Some grid
        /\ outbox s' = outbox s ++ [DEMAND_GRID_DATA grid]
        /\ TOTAL_DEMAND s' = gridDemand grid
        /\ Forall generatedCell grid
        /\ (List.length grid <= 400)%nat
        /\ randomCalls s' = (randomCalls s + 800)%nat
  end.
Proof.
  cbv zeta. simpl. destruct (DEMAND_GRID s) as [grid|] eqn:E.
  - rewrite E. reflexivity.
  - destruct (createDemandGrid_spec s) as (grid & G1 & G2 & G3 & G4 & G5).
    pose proof (createDemandGrid_frame s) as F.
    rewrite G1. exists grid. split; [exact G1|]. split; [|split; [exact G2|]].
    + change (outbox (createDemandGrid s) ++ [DEMAND_GRID_DATA grid]
              = outbox s ++ [DEMAND_GRID_DATA grid]).
      f_equal. read_frame F.
    + split; [exact G3|]. split; [exact G4 | exact G5].
Qed.


Lemma updateNetwork_outbox (lines : list LineFeature) (stations : list PointFeature)
      (s : State) :
  outbox (updateNetwork lines stations s) = outbox s ++ [NETWORK_READY].
Proof.
  unfold updateNetwork, prepareLines. cbv zeta.
  set (s2 := resetSimulation (set_stationsOrigin stations (set_linesOrigin lines s))).
  pose proof (addStations_frame (stationsOrigin s2) s2) as B.
  set (s3 := fold_left addStationToSimulation (stationsOrigin s2) s2) in *.
  pose proof (prepareLines_frame (linesOrigin s3) s3) as C.
  set (s4 := fold_left prepareLine (linesOrigin s3) s3) in *.
  destruct (spawn_fold (tvalues (simLines s4)) s4) as (_ & D). cbv zeta in D.
  set (s5 := fold_left spawnTrainsForLine (tvalues (simLines s4)) s4) in *.
  change (outbox s5 ++ [NETWORK_READY] = outbox s ++ [NETWORK_READY]). f_equal.
  transitivity (outbox s4); [read_frame D|].
  transitivity (outbox s3); [read_frame C|].
  transitivity (outbox s2); [read_frame B | reflexivity].
Qed.

(** X15. [UPDATE_NETWORK] stores the two feature lists, restarts the
    passenger and money counters and posts [NETWORK_READY]; it keeps the
    clock, the budget, the kilometres run, the incidents, the passenger
    registry, the demand grid and the timer. *)
Theorem update_network_resets (lines : list LineFeature) (stations : list PointFeature)
        (s : State) :
  let s' := onmessage (UPDATE_NETWORK lines stations) s in
  withoutNetwork s' = withoutNetwork s
  /\ linesOrigin s' = lines /\ stationsOrigin s' = stations
  /\ nextPassengerId s' = 1%Z /\ totalRidership s' = 0%Z /\ completedTrips s' = 0%Z
  /\ totalPassengerWaitTime s' = 0 /\ totalRevenue s' = 0 /\ totalOpex s' = 0
  /\ cashflowPerHour s' = 0
  /\ outbox s' = outbox s ++ [NETWORK_READY]
  /\ simTime s' = simTime s /\ budget s' = budget s /\ totalTrainKm s' = totalTrainKm s
  /\ lastIncidentKm s' = lastIncidentKm s
  /\ activeIncidents s' = activeIncidents s /\ allPassengers s' = allPassengers s
  /\ DEMAND_GRID s' = DEMAND_GRID s
  /\ running s' = running s /\ simulationInterval s' = simulationInterval s.
Proof.
  cbv zeta.
  change (onmessage (UPDATE_NETWORK lines stations) s) with (updateNetwork lines stations s).
  pose proof (updateNetwork_frame lines stations s) as F.
  pose proof (updateNetwork_writes lines stations s) as W.
  set (s2 := resetSimulation (set_stationsOrigin stations (set_linesOrigin lines s))) in W.
  split; [exact F|].
  repeat match goal with
         | |- _ /\ _ => split
         end;
    try (read_frame F);
    try (apply updateNetwork_outbox);
    match goal with
    | |- ?f (updateNetwork lines stations s) = _ =>
        transitivity (f s2); [read_frame W | reflexivity]
    end.
Qed.

(** X16. After [UPDATE_NETWORK] the station table has one entry for a key; a
    station feature is found under the key of its identifier
    ([properties.id], else [id], else the joined coordinates), where the table
    holds the last feature with that key; every entry stems from a feature,
    and has an empty queue. *)
Theorem update_network_registers_stations (lines : list LineFeature)
        (stations : list PointFeature) (s : State) :
  let s' := onmessage (UPDATE_NETWORK lines stations) s in
  stationsOrigin s' = stations
  /\ NoDup (tkeys (simStations s'))
  /\ (forall f, In f stations ->
        exists before f' after st,
          stations = before ++ f' :: after
          /\ keyOf (stationIdOf f') = keyOf (stationIdOf f)
          /\ (forall g, In g after -> keyOf (stationIdOf g) <> keyOf (stationIdOf f))
          /\ tget (keyOf (stationIdOf f)) (simStations s') = Some st
          /\ registers f' st)
  /\ (forall k st, In (k, st) (simStations s') ->
        (exists f, In f stations /\ k = keyOf (stationIdOf f) /\ registers f st)
        /\ tget k (stationQueues s') = Some []).
Proof. exact (updateNetwork_stations lines stations s). Qed.


(** X18. In every reachable state there are four trains for every line of the
    table, with identifiers that differ; every train has capacity 200,
    carries no more passengers than that, and runs at a speed between 0 and
    the maximum speed. *)
Theorem fleet_sized_and_fit (s : State) :
  reachable s ->
  List.length (trains s) = (TRAINS_PER_LINE * List.length (simLines s))%nat
  /\ NoDup (map Train.id (trains s))
  /\ Forall trainFit (trains s).
Proof.
  intro Hr. destruct (reachable_fleetOk s Hr) as (F1 & F2 & F3).
  split; [exact F3|]. split; [exact F2 | exact F1].
Qed.


(** X20. In every reachable state the clock is a whole number of ticks of 12
    seconds; the hour of the next tick lies in 0..23, so that
    [HOURLY_MULTIPLIERS[currentHour]] is defined, and positive. *)
Theorem clock_counts_ticks (s : State) :
  reachable s ->
  (exists ticks : nat, simTime s == inject_Z (Z.of_nat ticks) * TICK_SECONDS)
  /\ 0 <= simTime s
  /\ (0 <= currentHourOf (clockAdvanced s) < 24)%Z
  /\ exists m, arrayGet HOURLY_MULTIPLIERS (currentHourOf (clockAdvanced s)) = Some m
               /\ 0 < m.
Proof.
  intro Hr. destruct (reachable_simTime s Hr) as [n Hn].
  assert (H0 : 0 <= simTime s).
  { rewrite Hn. apply Qmult_le_0_compat; [|apply Qle_bool_iff; reflexivity].
    change 0 with (inject_Z 0). rewrite <- Zle_Qle. lia. }
  assert (Hh : (0 <= currentHourOf (clockAdvanced s) < 24)%Z).
  { unfold currentHourOf. apply hour_range. rewrite clockAdvanced_simTime.
    assert (0 <= TICK_SECONDS) by (apply Qle_bool_iff; reflexivity). lra. }
  split; [exists n; exact Hn|]. split; [exact H0|]. split; [exact Hh|].
  apply hourly_multiplier_defined. exact Hh.
Qed.

(** X21. A tick of a reachable state returns; it advances the clock by 12
    seconds and leaves the network, the demand grid, the timer and the train
    counter as they are; the trains stay the same trains, in order, each on
    its line. *)
Theorem tick_leaves_network (s : State) :
  reachable s ->
  exists s',
    simulationTick s = Some s'
    /\ simTime s' = simTime s + TICK_SECONDS
    /\ linesOrigin s' = linesOrigin s /\ stationsOrigin s' = stationsOrigin s
    /\ simLines s' = simLines s /\ simStations s' = simStations s
    /\ nextTrainId s' = nextTrainId s
    /\ DEMAND_GRID s' = DEMAND_GRID s /\ TOTAL_DEMAND s' = TOTAL_DEMAND s
    /\ running s' = running s /\ simulationInterval s' = simulationInterval s
    /\ Forall2 (fun t t' => Train.id t' = Train.id t /\ Train.lineId t' = Train.lineId t)
               (trains s) (trains s').
Proof.
  intro Hr. pose proof (reachable_structOk s Hr) as Hok.
  destruct (simulationTick_struct (fun t t' => Train.lineId t' = Train.lineId t) s Hok)
    as (s1 & s2 & _ & _ & _ & E & _ & _ & _ & _ & _ & _ & _ & T2 & _ & HR & Hid & SF & _).
  { intros sx t sy t' m _ _ Hu. exact (updateTrain_lineId sx t sy t' m Hu). }
  exists (closeTick s2). split; [exact E|].
  pose proof (simulationTick_frame s (closeTick s2) Hok E) as F.
  split; [rewrite (sameFleet_simTime SF); exact T2|].
  repeat match goal with
         | |- (_ = _) /\ _ => split; [read_frame F|]
         end.
  rewrite (sameFleet_trains SF).
  clear - HR Hid. induction HR as [|t t' ts ts' Ht HR IH]; [constructor|].
  inversion Hid. subst. constructor; [split; [tauto | exact Ht] | apply IH; assumption].
Qed.


(** X24. In every reachable state the train features of the snapshot are one
    for each train, in order, with the train's identifier, a load factor of
    passengers / 200 between 0 and 1, and a position on the polyline of the
    train's line: one of its vertices or a point of one of its segments, never
    the fallback [0, 0] of a train without a line. *)
Theorem train_features_on_lines (s : State) :
  reachable s ->
  Forall2 (fun t f =>
             feature_id f = Train.id t
             /\ feature_loadFactor f
                == inject_Z (Z.of_nat (List.length (Train.passengers t))) / 200
             /\ 0 <= feature_loadFactor f <= 1
             /\ exists line,
                  tget (keyOf (Train.lineId t)) (simLines s) = Some line
                  /\ (In (feature_coordinates f) (SimLine.coords line)
                      \/ exists start stop ratio,
                           In (start, stop) (segments (SimLine.coords line))
                           /\ 0 < ratio <= 1
                           /\ feature_coordinates f
                              = (fst start + (fst stop - fst start) * ratio,
                                 snd start + (snd stop - snd start) * ratio)))
          (trains s) (buildTrainFeatures s).
Proof.
  intro Hr.
  destruct (reachable_fleetOk s Hr) as (F1 & _ & _).
  destruct (reachable_structOk s Hr) as (_ & _ & _ & _ & Hln & _).
  pose proof (reachable_linesOk s Hr) as Hlines.
  unfold buildTrainFeatures.
  induction (trains s) as [|t ts IH]; [constructor|].
  inversion F1 as [|? ? (C1 & C2 & _) F1']. inversion Hln as [|? ? ((line & Hl) & _) Hln']. subst.
  simpl. constructor; [|apply IH; assumption].
  unfold buildTrainFeature. cbv zeta. cbn [feature_id feature_loadFactor feature_coordinates].
  rewrite Hl, C1. change (0 <? TRAIN_CAPACITY)%Z with true. cbv iota.
  change (inject_Z TRAIN_CAPACITY) with 200.
  rewrite C1 in C2. unfold TRAIN_CAPACITY in C2.
  split; [reflexivity|]. split; [reflexivity|]. split.
  - set (n := Z.of_nat (List.length (Train.passengers t))) in *.
    assert (Hn : (0 <= n)%Z) by (unfold n; lia).
    assert (Q1 : 0 <= inject_Z n) by (change 0 with (inject_Z 0); rewrite <- Zle_Qle; exact Hn).
    assert (Q2 : inject_Z n <= 200)
      by (change 200 with (inject_Z 200); rewrite <- Zle_Qle; exact C2).
    unfold Qdiv. change (/ 200) with (1 # 200). split; lra.
  - exists line. split; [reflexivity|].
    destruct (Hlines _ _ (tget_In _ _ Hl)) as (_ & _ & Hc & _).
    destruct (getPointAlongLine_spec line
                (clamp (Train.distanceAlongLine t) 0 (SimLine.length line))) as [_ Hp].
    destruct Hp as (p & Ep & Hp).
    { intro E0. rewrite E0 in Hc. simpl in Hc. lia. }
    rewrite Ep. destruct Hp as [Hp|(a & b & r & H1 & _ & H3 & H4)]; [left; exact Hp|].
    right. exists a, b, r. split; [exact H1|]. split; [exact H3 | exact H4].
Qed.
End Extras.

Section GeometryExtras.
Context {Math : MathLib} {MS : MathSpec Math}.

(** X22. In every reachable state a train that dwells stands at a station of
    its line: its distance along the line is the distance of one of the
    line's stations, and its speed is 0. *)
Theorem dwelling_at_station (s : State) (t : Train.t) :
  reachable s -> In t (trains s) -> Train.state t = dwelling ->
  Train.speed t == 0
  /\ exists line sd,
       tget (keyOf (Train.lineId t)) (simLines s) = Some line
       /\ In sd (SimLine.stationDistances line)
       /\ Train.distanceAlongLine t == StationDist.distance sd.
Proof.
  intros Hr Hin Hdw.
  destruct (reachable_structOk s Hr) as (_ & _ & (_ & Hsv) & _ & Hln & _).
  rewrite Forall_forall in Hln. destruct (Hln t Hin) as ((line & Hl) & Hsp).
  split; [exact (Hsp Hdw)|].
  pose proof (reachable_atStation s Hr) as Hat. rewrite Forall_forall in Hat.
  destruct (Hat t Hin Hdw line Hl) as (sd & H1 & H2).
  { exact (proj2 (Hsv _ _ (tget_In _ _ Hl))). }
  exists line, sd. split; [exact Hl|]. split; assumption.
Qed.
End GeometryExtras.


(* ===================================================================== *)
(** * The properties on the demonstration networks, continued *)
(* ===================================================================== *)

Lemma demoTick2_reachable : reachable (Math := smallAngleMath) demoTick2.
Proof. exact (proj2 (afterTick_reachable demoTick1 demoTick1_reachable eq_refl)). Qed.

Lemma demoNetwork_route :
  exists r, findRoute demoNetwork (IdStr "a") (IdStr "b") = Some r.
Proof. vm_compute. eexists. reflexivity. Qed.

Lemma X5_witness :
  exists r,
    findRoute demoNetwork (IdStr "a") (IdStr "b") = Some r
    /\ chained demoNetwork (IdStr "a") (Route.legs r) (IdStr "b")
    /\ Forall (legOnLine demoNetwork) (Route.legs r)
    /\ NoDup (stops (IdStr "a") (Route.legs r)).
Proof.
  destruct demoNetwork_route as [r Hr]. exists r.
  split; [exact Hr | exact (findRoute_path demoNetwork (IdStr "a") (IdStr "b") r Hr)].
Defined.

Lemma X6_witness :
  exists r,
    findRoute demoNetwork (IdStr "a") (IdStr "b") = Some r
    /\ Route.rideTime r
       = fold_left (fun sum leg => sum + RouteLeg.rideTime leg) (Route.legs r) 0
    /\ Route.waitTime r = inject_Z (Z.of_nat (List.length (Route.legs r))) * 90
    /\ Route.totalTime r = Route.rideTime r + Route.waitTime r
    /\ 0 <= Route.rideTime r
    /\ (Route.legs r = [] <-> IdStr "a" = IdStr "b").
Proof.
  destruct demoNetwork_route as [r Hr]. exists r.
  split; [exact Hr | exact (findRoute_totals demoNetwork (IdStr "a") (IdStr "b") r Hr)].
Defined.

Lemma demoRunning_station :
  exists k st, In (k, st) (simStations demoRunning) /\ SimStation.id st = IdStr "a".
Proof.
  let v := eval vm_compute in (simStations demoRunning) in
  match v with (?k, ?st) :: _ => exists k, st end.
  split; [vm_compute; left; reflexivity | reflexivity].
Qed.

Lemma X7_witness :
  reachable (Math := smallAngleMath) demoRunning
  /\ (exists k st, In (k, st) (simStations demoRunning) /\ SimStation.id st = IdStr "a")
  /\ (connected demoRunning (IdStr "a") (IdStr "b")
      <-> exists r, findRoute demoRunning (IdStr "a") (IdStr "b") = Some r).
Proof.
  split; [exact demoRunning_reachable|]. split; [exact demoRunning_station|].
  exact (findRoute_finds_connected (Math := smallAngleMath) demoRunning (IdStr "a") (IdStr "b")
           demoRunning_reachable demoRunning_station).
Defined.

Lemma X12_witness :
  reachable (Math := smallAngleMath) demoTick1
  /\ (running demoTick1 = true <-> simulationInterval demoTick1 = Some tt)
  /\ (running demoTick1 = true -> onmessage (Math := smallAngleMath) START demoTick1 = demoTick1)
  /\ running (onmessage (Math := smallAngleMath) START demoTick1) = true
  /\ simulationInterval (onmessage (Math := smallAngleMath) START demoTick1) = Some tt
  /\ running (onmessage (Math := smallAngleMath) PAUSE demoTick1) = false
  /\ simulationInterval (onmessage (Math := smallAngleMath) PAUSE demoTick1) = None.
Proof.
  split; [exact demoTick1_reachable|].
  exact (running_iff_timer (Math := smallAngleMath) demoTick1 demoTick1_reachable).
Defined.




Lemma X18_witness :
  reachable (Math := smallAngleMath) demoTick1
  /\ List.length (trains demoTick1) = (TRAINS_PER_LINE * List.length (simLines demoTick1))%nat
  /\ NoDup (map Train.id (trains demoTick1))
  /\ Forall trainFit (trains demoTick1).
Proof.
  split; [exact demoTick1_reachable|].
  exact (fleet_sized_and_fit (Math := smallAngleMath) demoTick1 demoTick1_reachable).
Defined.


Lemma X20_witness :
  reachable (Math := smallAngleMath) demoTick1
  /\ (exists ticks : nat, simTime demoTick1 == inject_Z (Z.of_nat ticks) * TICK_SECONDS)
  /\ 0 <= simTime demoTick1
  /\ (0 <= currentHourOf (clockAdvanced demoTick1) < 24)%Z
  /\ exists m, arrayGet HOURLY_MULTIPLIERS (currentHourOf (clockAdvanced demoTick1)) = Some m
               /\ 0 < m.
Proof.
  split; [exact demoTick1_reachable|].
  exact (clock_counts_ticks (Math := smallAngleMath) demoTick1 demoTick1_reachable).
Defined.

Lemma X21_witness :
  reachable (Math := smallAngleMath) demoTick1
  /\ exists s',
       simulationTick (Math := smallAngleMath) demoTick1 = Some s'
       /\ simTime s' = simTime demoTick1 + TICK_SECONDS
       /\ linesOrigin s' = linesOrigin demoTick1
       /\ stationsOrigin s' = stationsOrigin demoTick1
       /\ simLines s' = simLines demoTick1 /\ simStations s' = simStations demoTick1
       /\ nextTrainId s' = nextTrainId demoTick1
       /\ DEMAND_GRID s' = DEMAND_GRID demoTick1 /\ TOTAL_DEMAND s' = TOTAL_DEMAND demoTick1
       /\ running s' = running demoTick1
       /\ simulationInterval s' = simulationInterval demoTick1
       /\ Forall2 (fun t t' => Train.id t' = Train.id t /\ Train.lineId t' = Train.lineId t)
                  (trains demoTick1) (trains s').
Proof.
  split; [exact demoTick1_reachable|].
  exact (tick_leaves_network (Math := smallAngleMath) demoTick1 demoTick1_reachable).
Defined.

Lemma demoTick2_dwelling :
  exists t, In t (trains demoTick2) /\ Train.state t = dwelling.
Proof.
  let v := eval vm_compute in (nth_error (trains demoTick2) 3) in
  match v with Some ?t => exists t end.
  split; [vm_compute; do 3 right; left; reflexivity | reflexivity].
Qed.

Lemma X22_witness :
  exists t,
    reachable (Math := smallAngleMath) demoTick2
    /\ In t (trains demoTick2)
    /\ Train.state t = dwelling
    /\ Train.speed t == 0
    /\ exists line sd,
         tget (keyOf (Train.lineId t)) (simLines demoTick2) = Some line
         /\ In sd (SimLine.stationDistances line)
         /\ Train.distanceAlongLine t == StationDist.distance sd.
Proof.
  destruct demoTick2_dwelling as (t & Hin & Hdw). exists t.
  split; [exact demoTick2_reachable|]. split; [exact Hin|]. split; [exact Hdw|].
  exact (dwelling_at_station (MS := smallAngleMath_spec) demoTick2 t
           demoTick2_reachable Hin Hdw).
Defined.



Lemma X24_witness :
  reachable (Math := smallAngleMath) demoTick1
  /\ Forall2 (fun t f =>
                feature_id f = Train.id t
                /\ feature_loadFactor f
                   == inject_Z (Z.of_nat (List.length (Train.passengers t))) / 200
                /\ 0 <= feature_loadFactor f <= 1
                /\ exists line,
                     tget (keyOf (Train.lineId t)) (simLines demoTick1) = Some line
                     /\ (In (feature_coordinates f) (SimLine.coords line)
                         \/ exists start stop ratio,
                              In (start, stop) (segments (SimLine.coords line))
                              /\ 0 < ratio <= 1
                              /\ feature_coordinates f
                                 = (fst start + (fst stop - fst start) * ratio,
                                    snd start + (snd stop - snd start) * ratio)))
             (trains demoTick1) (buildTrainFeatures (Math := smallAngleMath) demoTick1).
Proof.
  split; [exact demoTick1_reachable|].
  exact (train_features_on_lines (Math := smallAngleMath) demoTick1 demoTick1_reachable).
Defined.


(* ===================================================================== *)
(** * The kilometres run *)
(* ===================================================================== *)

Section MileageFacts.
Context {Math : MathLib}.

(** The train loop adds up distances between 0 and [bound] for every train. *)
Lemma updateTrains_fold_km (bound : Q) (s0 : State) (ts : list Train.t) :
  (forall s t s' t' m,
      samePlant s0 s -> In t ts -> updateTrain s t = Some (s', t', m) -> 0 <= m <= bound) ->
  Forall (onboardOk (simLines s0)) ts ->
  Forall (trainLinked (simLines s0)) ts ->
  forall s done dist s' done' dist',
    samePlant s0 s -> stationsOk s -> queuesOk s ->
    fold_left updateTrainsStep ts (Some (s, done, dist)) = Some (s', done', dist') ->
    samePlant s0 s'
    /\ dist <= dist' <= dist + inject_Z (Z.of_nat (List.length ts)) * bound.
Proof.
  induction ts as [|t ts IH];
    intros HB Hon Hln s done dist s' done' dist' Hpl Hst Hq H; cbn [fold_left] in H.
  - inversion H. subst. split; [exact Hpl|].
    change (inject_Z (Z.of_nat (List.length (@nil Train.t)))) with 0. lra.
  - inversion Hon as [|? ? Hon1 Hon']. inversion Hln as [|? ? Hln1 Hln']. subst.
    pose proof (samePlant_simLines Hpl) as Hlines.
    destruct (@updateTrain_ok s t Hst Hq) as
        (s1 & t1 & m & E & Hst1 & Hq1 & Hpl1 & _).
    { rewrite Hlines. exact Hon1. }
    { rewrite Hlines. exact Hln1. }
    unfold updateTrainsStep at 2 in H. rewrite E in H.
    assert (Hpl01 : samePlant s0 s1) by (eapply samePlant_trans; eassumption).
    destruct (IH (fun s t s' t' m Hs Hin => HB s t s' t' m Hs (or_intror Hin)) Hon' Hln'
                 s1 (done ++ [t1]) (dist + m) s' done' dist' Hpl01 Hst1 Hq1 H)
      as (G1 & G2 & G3).
    split; [exact G1|].
    pose proof (HB s t s1 t1 m Hpl (or_introl eq_refl) E) as [M1 M2].
    change (List.length (t :: ts)) with (S (List.length ts)).
    rewrite Nat2Z.inj_succ. unfold Z.succ. rewrite inject_Z_plus.
    set (n := inject_Z (Z.of_nat (List.length ts))) in *.
    change (inject_Z 1) with 1. split; [lra|]. nra.
Qed.

Lemma simulationTick_km (s s' : State) :
  structOk s -> Forall trainFit (trains s) -> simulationTick s = Some s' ->
  totalTrainKm s <= totalTrainKm s'
  /\ totalTrainKm s'
     <= totalTrainKm s
        + inject_Z (Z.of_nat (List.length (trains s)))
          * (MAX_TRAIN_SPEED * TICK_SECONDS / 1000).
Proof.
  intros Hok Hfit Htick.
  destruct (simulationTick_run s Hok)
    as (s1 & plant & km & s2 & E1 & P1 & Hst1 & Hq1 & E2 & P2 & Es2 & E & F).
  rewrite E in Htick. inversion Htick. subst s'. clear Htick.
  rewrite (sameFleet_totalTrainKm F).
  destruct Hok as (_ & _ & _ & Hon & Hln & (Hik & _)).
  assert (L0 : simLines (clockAdvanced s) = simLines s)
    by (apply clockAdvanced_keeps; reflexivity).
  assert (T0 : trains (clockAdvanced s) = trains s)
    by (apply clockAdvanced_keeps; reflexivity).
  assert (K0 : totalTrainKm (clockAdvanced s) = totalTrainKm s)
    by (apply clockAdvanced_keeps; reflexivity).
  assert (A0 : activeIncidents (clockAdvanced s) = activeIncidents s)
    by (apply clockAdvanced_keeps; reflexivity).
  pose proof (samePlant_simLines P1) as L1. pose proof (samePlant_trains P1) as T1.
  pose proof (samePlant_totalTrainKm P1) as K1.
  pose proof (samePlant_activeIncidents P1) as A1.
  unfold updateTrains in E2.
  destruct (fold_left updateTrainsStep (trains s1) (Some (s1, [], 0)))
    as [[[sF updated] d]|] eqn:Ef; [|discriminate].
  inversion E2. subst s2. clear E2.
  destruct (updateTrains_fold_km (MAX_TRAIN_SPEED * TICK_SECONDS) s1 (trains s1))
    with (4 := samePlant_refl s1) (5 := Hst1) (6 := Hq1) (7 := Ef) as (G1 & G2 & G3).
  { intros sx t sy t' m Hs Hin Hu.
    refine (proj2 (updateTrain_fit sx t sy t' m _ Hu _)).
    - intros inc Hinc. rewrite (samePlant_activeIncidents Hs), A1, A0 in Hinc.
      unfold tvalues in Hinc. apply in_map_iff in Hinc. destruct Hinc as ([k i] & Ei & Hinc).
      simpl in Ei. subst i. exact (proj2 (proj2 (Hik k inc Hinc))).
    - rewrite T1, T0 in Hin. rewrite Forall_forall in Hfit. exact (Hfit t Hin). }
  { rewrite L1, L0, T1, T0. exact Hon. }
  { rewrite L1, L0, T1, T0. exact Hln. }
  change (totalTrainKm s <= totalTrainKm sF + d / 1000
          /\ totalTrainKm sF + d / 1000
             <= totalTrainKm s
                + inject_Z (Z.of_nat (List.length (trains s)))
                  * (MAX_TRAIN_SPEED * TICK_SECONDS / 1000)).
  rewrite (samePlant_totalTrainKm G1), K1, K0.
  rewrite T1, T0 in G3.
  set (n := inject_Z (Z.of_nat (List.length (trains s)))) in *.
  set (B := MAX_TRAIN_SPEED * TICK_SECONDS) in *.
  unfold Qdiv. change (/ 1000) with (1 # 1000). split; lra.
Qed.

Lemma reachable_km (s : State) : reachable s -> 0 <= totalTrainKm s.
Proof.
  induction 1 as [|s s' Hr IH Hstep]; [apply Qle_refl|].
  destruct Hstep as [m s|s s' Htimer Htick].
  - assert (E : totalTrainKm (onmessage m s) = totalTrainKm s).
    { pose proof (onmessage_frame m s) as H. cbv zeta in H. destruct m; read_frame H. }
    rewrite E. exact IH.
  - pose proof (simulationTick_km s s' (reachable_structOk s Hr)
                  (proj1 (reachable_fleetOk s Hr)) Htick) as [H _].
    lra.
Qed.

(** X26. The kilometres run never decrease and are never set back: in every
    reachable state they are not negative, no message changes them, and a
    tick adds at most the distance that every train covers at the maximum
    speed, 0.26664 km a train. *)
Theorem mileage_grows (s : State) :
  reachable s ->
  0 <= totalTrainKm s
  /\ (forall m, totalTrainKm (onmessage m s) = totalTrainKm s)
  /\ exists s',
       simulationTick s = Some s'
       /\ totalTrainKm s <= totalTrainKm s'
       /\ totalTrainKm s'
          <= totalTrainKm s
             + inject_Z (Z.of_nat (List.length (trains s)))
               * (MAX_TRAIN_SPEED * TICK_SECONDS / 1000).
Proof.
  intro Hr. split; [exact (reachable_km s Hr)|]. split.
  - intro m. pose proof (onmessage_frame m s) as H. cbv zeta in H. destruct m; read_frame H.
  - destruct (simulationTick_total s Hr) as [s' E]. exists s'. split; [exact E|].
    exact (simulationTick_km s s' (reachable_structOk s Hr)
             (proj1 (reachable_fleetOk s Hr)) E).
Qed.
End MileageFacts.

Lemma X26_witness :
  reachable (Math := smallAngleMath) demoTick1
  /\ 0 <= totalTrainKm demoTick1
  /\ (forall m, totalTrainKm (onmessage (Math := smallAngleMath) m demoTick1)
                = totalTrainKm demoTick1)
  /\ exists s',
       simulationTick (Math := smallAngleMath) demoTick1 = Some s'
       /\ totalTrainKm demoTick1 <= totalTrainKm s'
       /\ totalTrainKm s'
          <= totalTrainKm demoTick1
             + inject_Z (Z.of_nat (List.length (trains demoTick1)))
               * (MAX_TRAIN_SPEED * TICK_SECONDS / 1000).
Proof.
  split; [exact demoTick1_reachable|].
  exact (mileage_grows (Math := smallAngleMath) demoTick1 demoTick1_reachable).
Defined.
